(** * CPU scheduling simulator: FIFO queue, priority queue and simulation engine

    A shallow embedding of [queue.c], [priority_queue.c] and [simulator.c]
    (with the declarations of [cpu_scheduling_simulator.h]).

    - [unsigned int] fields are [Z] values in [0, 2^32) and every [++]/[--]
      is written with its wrap-around ([uincr], [udecr]);
    - [int] values ([count], [pos], [priority]) are plain [Z]; signed
      overflow is undefined behaviour in C and shows up as [None];
    - a [ProcessPtr_t] is an address into a memory [Mem] of [Process_t]
      objects, so a process reached from two places is one object;
    - a function that would dereference [NULL] returns [None];
    - a [while] loop runs on fuel; the callers give enough of it, which
      the properties below prove;
    - [rand()] reads the next element of a stream [nat -> Z];
    - [printf] appends to the output of the simulator. *)

From Stdlib Require Import ZArith List Bool Lia Permutation QArith Sorted.
From Stdlib Require Qcanon.
Import ListNotations.
Open Scope Z_scope.

Set Implicit Arguments.

#[local] Arguments Z.mul : simpl never.
#[local] Arguments Z.add : simpl never.
#[local] Arguments Z.sub : simpl never.
#[local] Arguments Z.pow : simpl never.
#[local] Arguments Z.of_nat : simpl never.
#[local] Arguments Z.modulo : simpl never.
#[local] Arguments Z.land : simpl never.
#[local] Arguments Z.shiftr : simpl never.
#[local] Arguments Z.shiftl : simpl never.

(** ** Undefined behaviour as [option] *)

Definition bind {A B : Type} (c : option A) (k : A -> option B) : option B :=
  match c with
  | Some a => k a
  | None => None
  end.

Notation "x <- c ;; k" := (bind c (fun x => k))
  (at level 61, c at next level, right associativity).
Notation "' pat <- c ;; k" := (bind c (fun x => match x with pat => k end))
  (at level 61, pat pattern, c at next level, right associativity).

(** ** Machine integers *)

Definition UINT_MOD : Z := 2 ^ 32.

(** The greatest [int]. *)
Definition INT_MAX : Z := 2 ^ 31 - 1.

(** [x++] and [x--] on an [unsigned int]. *)
Definition uincr (x : Z) : Z := (x + 1) mod UINT_MOD.
Definition udecr (x : Z) : Z := (x - 1) mod UINT_MOD.

(** ** Processes and memory *)

Record Process_t : Type := mkProcess {
  pid : Z;
  cpu_burst_time : Z;
  io_burst_time : Z;
  arrival_time : Z;
  priority : Z;
  waiting_time : Z;
  turnaround_time : Z
}.

Definition ProcessPtr_t : Type := nat.

Definition Mem : Type := ProcessPtr_t -> Process_t.

(** [p->field = ...]: replace the object stored at address [p]. *)
Definition store (m : Mem) (p : ProcessPtr_t) (v : Process_t) : Mem :=
  fun q => if Nat.eqb q p then v else m q.

(** ** Comparators ([priority_queue.c], [simulator.c])

    Each takes the two pointers and reads the objects behind them. *)

Definition SJF_Compare (m : Mem) (a b : ProcessPtr_t) : bool :=
  if negb (cpu_burst_time (m a) =? cpu_burst_time (m b))
  then cpu_burst_time (m a) <? cpu_burst_time (m b)
  else pid (m a) <? pid (m b).

Definition Priority_Compare (m : Mem) (a b : ProcessPtr_t) : bool :=
  if negb (priority (m a) =? priority (m b))
  then priority (m a) <? priority (m b)
  else pid (m a) <? pid (m b).

Definition IO_Burst_Compare (m : Mem) (a b : ProcessPtr_t) : bool :=
  if negb (io_burst_time (m a) =? io_burst_time (m b))
  then io_burst_time (m a) <? io_burst_time (m b)
  else pid (m a) <? pid (m b).

Definition Simulator_ArrivalTime_Compare (m : Mem) (a b : ProcessPtr_t) : bool :=
  if negb (arrival_time (m a) =? arrival_time (m b))
  then arrival_time (m a) <? arrival_time (m b)
  else pid (m a) <? pid (m b).

(** ** FIFO queue ([queue.c])

    The singly linked list from [front] to [rear] is the list [items];
    [rear] is its last cell.  The field [count] is [q_count] here, the
    name [count] being that of the priority queue. *)

Record Queue_t : Type := mkQueue {
  q_count : Z;
  items : list ProcessPtr_t
}.

Definition Queue_Init : Queue_t := mkQueue 0 [].

(** [None]: [queue->count++] overflows the [int], or [count != 0] on a
    queue that has no [rear]. *)
Definition Queue_Enqueue (queue : Queue_t) (process : ProcessPtr_t)
  : option Queue_t :=
  if INT_MAX <=? q_count queue then None
  else if q_count queue =? 0 then Some (mkQueue (q_count queue + 1) [process])
  else match items queue with
       | [] => None
       | _ :: _ => Some (mkQueue (q_count queue + 1) (items queue ++ [process]))
       end.

(** Returns the queue and the C return value; [None] when [count != 0]
    but [front] is [NULL]. *)
Definition Queue_Dequeue (queue : Queue_t) : option (Queue_t * Z) :=
  if q_count queue =? 0 then Some (queue, 0)
  else match items queue with
       | [] => None
       | _ :: next => Some (mkQueue (q_count queue - 1) next, 1)
       end.

(** The outer [option] is undefined behaviour, the inner one [NULL]. *)
Definition Queue_Front (queue : Queue_t) : option (option ProcessPtr_t) :=
  if q_count queue =? 0 then Some None
  else match items queue with
       | [] => None
       | p :: _ => Some (Some p)
       end.

Definition Queue_IsEmpty (queue : Queue_t) : bool := q_count queue =? 0.

(** ** Priority queue ([priority_queue.c])

    A [TreeNodePtr_t] is [NULL] or points to a node with its payload and
    two children.  The [parent] links are the recursion stack of the
    functions below. *)

Inductive TreeNodePtr_t : Type :=
| NULL : TreeNodePtr_t
| Node (left : TreeNodePtr_t) (process_ptr : ProcessPtr_t)
       (right : TreeNodePtr_t) : TreeNodePtr_t.

Record Priority_Queue_t : Type := mkPQ {
  count : Z;
  top : TreeNodePtr_t;
  compare : Mem -> ProcessPtr_t -> ProcessPtr_t -> bool
}.

Definition Priority_Init
  (compare : Mem -> ProcessPtr_t -> ProcessPtr_t -> bool) : Priority_Queue_t :=
  mkPQ 0 NULL compare.

(** [for (pos = 2; !(pos <= count && count < (pos << 1)); pos = pos << 1);]
    The fuel keeps [pos << 1] within [2^30]; running out of it is signed
    overflow. *)
Fixpoint find_pos (fuel : nat) (pos count : Z) : option Z :=
  match fuel with
  | O => None
  | S fuel' =>
      if (pos <=? count) && (count <? Z.shiftl pos 1) then Some pos
      else find_pos fuel' (Z.shiftl pos 1) count
  end.

Definition POS_FUEL : nat := 29.

Section HeapWalk.

(** The comparator of the queue applied to the current memory. *)
Variable cmp : ProcessPtr_t -> ProcessPtr_t -> bool.

(** One iteration of the upward loop of [Priority_Enqueue] seen from the
    parent [p] of [walker = c]: [up] tells whether the loop is still
    running when it reaches [c]. *)
Definition adjust_up (up : bool) (p : ProcessPtr_t) (c : TreeNodePtr_t)
  : option (ProcessPtr_t * TreeNodePtr_t * bool) :=
  match c with
  | NULL => None
  | Node cl x cr =>
      if up && cmp x p then Some (x, Node cl p cr, true)
      else Some (p, c, false)
  end.

(** Walk down from [walker] along the bits of [count] below [pos], hang
    the new node there, and run the upward swaps on the way back.  The
    boolean is true while the upward loop has not hit [break]. *)
Fixpoint insert_last (walker : TreeNodePtr_t) (pos count : Z)
  (new : ProcessPtr_t) : option (TreeNodePtr_t * bool) :=
  match walker with
  | NULL => None
  | Node l p r =>
      if 2 <=? pos then
        if negb (Z.land pos count =? 0) then
          '(r', up) <- insert_last r (Z.shiftr pos 1) count new ;;
          '(p', r'', up') <- adjust_up up p r' ;;
          Some (Node l p' r'', up')
        else
          '(l', up) <- insert_last l (Z.shiftr pos 1) count new ;;
          '(p', l'', up') <- adjust_up up p l' ;;
          Some (Node l'' p' r, up')
      else
        if negb (Z.land pos count =? 0) then
          '(p', r'', up') <- adjust_up true p (Node NULL new NULL) ;;
          Some (Node l p' r'', up')
        else
          '(p', l'', up') <- adjust_up true p (Node NULL new NULL) ;;
          Some (Node l'' p' r, up')
  end.

(** Walk down to the parent of the last node, unlink that node and return
    its payload. *)
Fixpoint remove_last (walker : TreeNodePtr_t) (pos count : Z)
  : option (TreeNodePtr_t * ProcessPtr_t) :=
  match walker with
  | NULL => None
  | Node l p r =>
      if 2 <=? pos then
        if negb (Z.land count pos =? 0) then
          '(r', x) <- remove_last r (Z.shiftr pos 1) count ;;
          Some (Node l p r', x)
        else
          '(l', x) <- remove_last l (Z.shiftr pos 1) count ;;
          Some (Node l' p r, x)
      else
        if negb (Z.land pos count =? 0) then
          match r with
          | NULL => None
          | Node _ x _ => Some (Node l p NULL, x)
          end
        else
          match l with
          | NULL => None
          | Node _ x _ => Some (Node NULL p r, x)
          end
  end.

(** The downward loop of [Priority_Dequeue], started at [walker] whose
    payload has just been set to [x]. *)
Fixpoint sift_down (x : ProcessPtr_t) (walker : TreeNodePtr_t)
  : option TreeNodePtr_t :=
  match walker with
  | NULL => None
  | Node l _ r =>
      match l, r with
      | NULL, NULL => Some (Node NULL x NULL)
      | NULL, Node _ _ _ => None
      | Node _ lp _, NULL =>
          if cmp lp x then
            l' <- sift_down x l ;; Some (Node l' lp NULL)
          else Some (Node l x NULL)
      | Node _ lp _, Node _ rp _ =>
          if cmp lp rp then
            if cmp lp x then
              l' <- sift_down x l ;; Some (Node l' lp r)
            else Some (Node l x r)
          else
            if cmp rp x then
              r' <- sift_down x r ;; Some (Node l rp r')
            else Some (Node l x r)
      end
  end.

End HeapWalk.

Definition Priority_Enqueue (m : Mem) (queue : Priority_Queue_t)
  (process : ProcessPtr_t) : option Priority_Queue_t :=
  let count' := count queue + 1 in
  if count queue =? 0 then
    Some (mkPQ count' (Node NULL process NULL) (compare queue))
  else
    pos <- find_pos POS_FUEL 2 count' ;;
    '(t, _) <- insert_last (compare queue m) (top queue) (Z.shiftr pos 1)
                           count' process ;;
    Some (mkPQ count' t (compare queue)).

(** Returns the queue and the C return value. *)
Definition Priority_Dequeue (m : Mem) (queue : Priority_Queue_t)
  : option (Priority_Queue_t * Z) :=
  if count queue =? 0 then Some (queue, 0)
  else if count queue =? 1 then Some (mkPQ (count queue - 1) NULL (compare queue), 1)
  else
    pos <- find_pos POS_FUEL 2 (count queue) ;;
    '(t, x) <- remove_last (top queue) (Z.shiftr pos 1) (count queue) ;;
    t' <- sift_down (compare queue m) x t ;;
    Some (mkPQ (count queue - 1) t' (compare queue), 1).

(** The outer [option] is undefined behaviour, the inner one [NULL]. *)
Definition Priority_Top (queue : Priority_Queue_t)
  : option (option ProcessPtr_t) :=
  if count queue =? 0 then Some None
  else match top queue with
       | NULL => None
       | Node _ p _ => Some (Some p)
       end.

Definition Priority_IsEmpty (queue : Priority_Queue_t) : bool :=
  count queue =? 0.

(** In-order list of the payloads of a tree. *)
Fixpoint elements (t : TreeNodePtr_t) : list ProcessPtr_t :=
  match t with
  | NULL => []
  | Node l p r => elements l ++ p :: elements r
  end.

(** ** Doubles

    A [double] is an IEEE 754 binary64 number: a finite one, given by its
    rational value in lowest terms, an infinity or a NaN.  A finite
    binary64 number is [m * 2^e] with [|m| < 2^53] and
    [-1074 <= e <= 971].  An operation gives the exact result rounded to
    the nearest such number, ties to the even [m] ([b64_round]).  The
    simulator computes no negative [double], so the model has one zero
    and one infinity. *)

Inductive double : Type :=
| DFin (q : Q)
| DInf
| DNaN.

(** [n / d] rounded to the nearest integer, ties to even, for [0 <= n]
    and [0 < d]. *)
Definition round_half_even (n d : Z) : Z :=
  let q := n / d in
  let r := n mod d in
  if 2 * r <? d then q
  else if d <? 2 * r then q + 1
  else if Z.even q then q else q + 1.

(** The [k] with [2^k <= n / d < 2^(k+1)], for [0 < n] and [0 < d]. *)
Definition floor_log2 (n d : Z) : Z :=
  let k := Z.log2 n - Z.log2 d in
  if n * 2 ^ Z.max 0 (- k) <? d * 2 ^ Z.max 0 k then k - 1 else k.

(** The binary64 number nearest to [n / d], for [0 < n] and [0 < d]:
    the significand has 53 bits, or fewer below [2^-1022]; the result
    overflows to the infinity from [2^1024] on. *)
Definition b64_round_pos (n d : Z) : double :=
  let e := Z.max (floor_log2 n d - 52) (-1074) in
  let m := round_half_even (n * 2 ^ Z.max 0 (- e)) (d * 2 ^ Z.max 0 e) in
  if 2 ^ 1024 <=? m * 2 ^ Z.max 0 e then DInf
  else DFin (Qred (Qmake (m * 2 ^ Z.max 0 e) (Z.to_pos (2 ^ Z.max 0 (- e))))).

Definition b64_round (q : Q) : double :=
  match Qnum (Qred q) with
  | 0 => DFin 0
  | Zpos n => b64_round_pos (Zpos n) (Zpos (Qden (Qred q)))
  | Zneg n =>
      match b64_round_pos (Zpos n) (Zpos (Qden (Qred q))) with
      | DFin r => DFin (- r)
      | r => r
      end
  end.

(** The conversion of an [unsigned int] or of a non-negative [int]: they
    have at most 32 bits, so the conversion is exact. *)
Definition double_of_uint (x : Z) : double := DFin (inject_Z x).

Definition dadd (a b : double) : double :=
  match a, b with
  | DFin x, DFin y => b64_round (x + y)
  | DNaN, _ | _, DNaN => DNaN
  | _, _ => DInf
  end.

Definition ddiv (a b : double) : double :=
  match a, b with
  | DFin x, DFin y =>
      if Qeq_bool y 0 then (if Qeq_bool x 0 then DNaN else DInf)
      else b64_round (x / y)
  | DInf, DFin _ => DInf
  | DFin _, DInf => DFin 0
  | _, _ => DNaN
  end.

(** ** Simulator state ([cpu_scheduling_simulator.h]) *)

Definition FCFS : Z := 1.
Definition NON_PREEMPTIVE_SJF : Z := 2.
Definition PREEMPTIVE_SJF : Z := 3.
Definition NON_PREEMPTIVE_PRIORITY : Z := 4.
Definition PREEMPTIVE_PRIORITY : Z := 5.
Definition ROUND_ROBIN : Z := 6.

Definition TIME_QUANTUM : Z := 10.

(** [void *ready_queue]: what it points to. *)
Inductive ready_queue_t : Type :=
| ReadyFIFO (q : Queue_t)
| ReadyHeap (q : Priority_Queue_t).

(** What the simulator prints: one gantt block per tick, the report of
    [Simulator_Eval], one row of the summary table per simulator. *)
Inductive Out_t : Type :=
| Out_Gantt (p : Z)
| Out_Idle
| Out_Eval (execution_time : Z) (cpu_utilization avg_wt avg_tt : double)
| Out_Row (flag : Z) (cpu_utilization avg_wt avg_tt : double) (max_wt : Z).

(** The fields of [struct Simulator], then the memory of process objects,
    the [rand()] stream with the index of its next element, and the
    output so far (latest first). *)
Record Simulator_t : Type := mkSim {
  num_process : Z;
  generated_processes : Priority_Queue_t;
  terminated_processes : Priority_Queue_t;
  flag : Z;
  cur_cpu_burst : option ProcessPtr_t;
  ready_queue : ready_queue_t;
  waiting_queue : Priority_Queue_t;
  elapsed_time : Z;
  idle_time : Z;
  avg_waiting_time : double;
  avg_turnaround_time : double;
  max_waiting_time : Z;
  mem : Mem;
  rand_src : nat -> Z;
  rand_next : nat;
  output : list Out_t
}.

Definition set_num_process (s : Simulator_t) (v : Z) : Simulator_t :=
  mkSim v (generated_processes s) (terminated_processes s) (flag s)
    (cur_cpu_burst s) (ready_queue s) (waiting_queue s) (elapsed_time s)
    (idle_time s) (avg_waiting_time s) (avg_turnaround_time s)
    (max_waiting_time s) (mem s) (rand_src s) (rand_next s) (output s).

Definition set_generated (s : Simulator_t) (v : Priority_Queue_t) : Simulator_t :=
  mkSim (num_process s) v (terminated_processes s) (flag s)
    (cur_cpu_burst s) (ready_queue s) (waiting_queue s) (elapsed_time s)
    (idle_time s) (avg_waiting_time s) (avg_turnaround_time s)
    (max_waiting_time s) (mem s) (rand_src s) (rand_next s) (output s).

Definition set_terminated (s : Simulator_t) (v : Priority_Queue_t) : Simulator_t :=
  mkSim (num_process s) (generated_processes s) v (flag s)
    (cur_cpu_burst s) (ready_queue s) (waiting_queue s) (elapsed_time s)
    (idle_time s) (avg_waiting_time s) (avg_turnaround_time s)
    (max_waiting_time s) (mem s) (rand_src s) (rand_next s) (output s).

Definition set_cur (s : Simulator_t) (v : option ProcessPtr_t) : Simulator_t :=
  mkSim (num_process s) (generated_processes s) (terminated_processes s) (flag s)
    v (ready_queue s) (waiting_queue s) (elapsed_time s)
    (idle_time s) (avg_waiting_time s) (avg_turnaround_time s)
    (max_waiting_time s) (mem s) (rand_src s) (rand_next s) (output s).

Definition set_ready (s : Simulator_t) (v : ready_queue_t) : Simulator_t :=
  mkSim (num_process s) (generated_processes s) (terminated_processes s) (flag s)
    (cur_cpu_burst s) v (waiting_queue s) (elapsed_time s)
    (idle_time s) (avg_waiting_time s) (avg_turnaround_time s)
    (max_waiting_time s) (mem s) (rand_src s) (rand_next s) (output s).

Definition set_waiting (s : Simulator_t) (v : Priority_Queue_t) : Simulator_t :=
  mkSim (num_process s) (generated_processes s) (terminated_processes s) (flag s)
    (cur_cpu_burst s) (ready_queue s) v (elapsed_time s)
    (idle_time s) (avg_waiting_time s) (avg_turnaround_time s)
    (max_waiting_time s) (mem s) (rand_src s) (rand_next s) (output s).

Definition set_elapsed (s : Simulator_t) (v : Z) : Simulator_t :=
  mkSim (num_process s) (generated_processes s) (terminated_processes s) (flag s)
    (cur_cpu_burst s) (ready_queue s) (waiting_queue s) v
    (idle_time s) (avg_waiting_time s) (avg_turnaround_time s)
    (max_waiting_time s) (mem s) (rand_src s) (rand_next s) (output s).

Definition set_idle (s : Simulator_t) (v : Z) : Simulator_t :=
  mkSim (num_process s) (generated_processes s) (terminated_processes s) (flag s)
    (cur_cpu_burst s) (ready_queue s) (waiting_queue s) (elapsed_time s)
    v (avg_waiting_time s) (avg_turnaround_time s)
    (max_waiting_time s) (mem s) (rand_src s) (rand_next s) (output s).

Definition set_avg_waiting (s : Simulator_t) (v : double) : Simulator_t :=
  mkSim (num_process s) (generated_processes s) (terminated_processes s) (flag s)
    (cur_cpu_burst s) (ready_queue s) (waiting_queue s) (elapsed_time s)
    (idle_time s) v (avg_turnaround_time s)
    (max_waiting_time s) (mem s) (rand_src s) (rand_next s) (output s).

Definition set_avg_turnaround (s : Simulator_t) (v : double) : Simulator_t :=
  mkSim (num_process s) (generated_processes s) (terminated_processes s) (flag s)
    (cur_cpu_burst s) (ready_queue s) (waiting_queue s) (elapsed_time s)
    (idle_time s) (avg_waiting_time s) v
    (max_waiting_time s) (mem s) (rand_src s) (rand_next s) (output s).

Definition set_max_waiting (s : Simulator_t) (v : Z) : Simulator_t :=
  mkSim (num_process s) (generated_processes s) (terminated_processes s) (flag s)
    (cur_cpu_burst s) (ready_queue s) (waiting_queue s) (elapsed_time s)
    (idle_time s) (avg_waiting_time s) (avg_turnaround_time s)
    v (mem s) (rand_src s) (rand_next s) (output s).

Definition set_mem (s : Simulator_t) (v : Mem) : Simulator_t :=
  mkSim (num_process s) (generated_processes s) (terminated_processes s) (flag s)
    (cur_cpu_burst s) (ready_queue s) (waiting_queue s) (elapsed_time s)
    (idle_time s) (avg_waiting_time s) (avg_turnaround_time s)
    (max_waiting_time s) v (rand_src s) (rand_next s) (output s).

Definition set_rand_next (s : Simulator_t) (v : nat) : Simulator_t :=
  mkSim (num_process s) (generated_processes s) (terminated_processes s) (flag s)
    (cur_cpu_burst s) (ready_queue s) (waiting_queue s) (elapsed_time s)
    (idle_time s) (avg_waiting_time s) (avg_turnaround_time s)
    (max_waiting_time s) (mem s) (rand_src s) v (output s).

Definition print (s : Simulator_t) (o : Out_t) : Simulator_t :=
  mkSim (num_process s) (generated_processes s) (terminated_processes s) (flag s)
    (cur_cpu_burst s) (ready_queue s) (waiting_queue s) (elapsed_time s)
    (idle_time s) (avg_waiting_time s) (avg_turnaround_time s)
    (max_waiting_time s) (mem s) (rand_src s) (rand_next s) (o :: output s).

(** Assignments to the mutable fields of a process object. *)
Definition set_cpu_burst_time (p : Process_t) (v : Z) : Process_t :=
  mkProcess (pid p) v (io_burst_time p) (arrival_time p) (priority p)
            (waiting_time p) (turnaround_time p).

Definition set_io_burst_time (p : Process_t) (v : Z) : Process_t :=
  mkProcess (pid p) (cpu_burst_time p) v (arrival_time p) (priority p)
            (waiting_time p) (turnaround_time p).

Definition set_waiting_time (p : Process_t) (v : Z) : Process_t :=
  mkProcess (pid p) (cpu_burst_time p) (io_burst_time p) (arrival_time p)
            (priority p) v (turnaround_time p).

Definition set_turnaround_time (p : Process_t) (v : Z) : Process_t :=
  mkProcess (pid p) (cpu_burst_time p) (io_burst_time p) (arrival_time p)
            (priority p) (waiting_time p) v.

(** ** Simulator ([simulator.c]) *)

(** Fails ([exit(-1)]) on a flag outside the six policies.  [m] is the
    memory and [src] the [rand()] stream the simulator starts with. *)
Definition Simulator_Init (m : Mem) (src : nat -> Z) (flag : Z)
  : option Simulator_t :=
  rq <- (if (flag =? FCFS) || (flag =? ROUND_ROBIN) then
           Some (ReadyFIFO Queue_Init)
         else if (flag =? NON_PREEMPTIVE_SJF) || (flag =? PREEMPTIVE_SJF) then
           Some (ReadyHeap (Priority_Init SJF_Compare))
         else if (flag =? NON_PREEMPTIVE_PRIORITY)
                 || (flag =? PREEMPTIVE_PRIORITY) then
           Some (ReadyHeap (Priority_Init Priority_Compare))
         else None) ;;
  Some (mkSim 0
              (Priority_Init Simulator_ArrivalTime_Compare)
              (Priority_Init Simulator_ArrivalTime_Compare)
              flag None rq
              (Priority_Init IO_Burst_Compare)
              0 0 (DFin 0) (DFin 0) 0 m src 0%nat []).

(** The values [Simulator_GenerateProcess] draws for one process. *)
Record Workload_t : Type := mkWorkload {
  w_cpu_burst_time : Z;
  w_io_burst_time : Z;
  w_arrival_time : Z;
  w_priority : Z
}.

(** The cloning loop of [Simulator_GenerateProcess] for one simulator:
    the [i]-th [malloc] returns address [i], the process gets pid [i + 1]. *)
Fixpoint generate_from (i : nat) (w : list Workload_t) (s : Simulator_t)
  : option Simulator_t :=
  match w with
  | [] => Some s
  | d :: w' =>
      let new := i in
      let m := store (mem s) new
                 (mkProcess (Z.of_nat i + 1) (w_cpu_burst_time d)
                            (w_io_burst_time d) (w_arrival_time d)
                            (w_priority d) 0 0) in
      jq <- Priority_Enqueue m (generated_processes s) new ;;
      generate_from (S i) w' (set_generated (set_mem s m) jq)
  end.

Definition Simulator_GenerateProcess (w : list Workload_t) (s : Simulator_t)
  : option Simulator_t :=
  generate_from 0 w (set_num_process s (Z.of_nat (length w))).

(** [rand() % 2] over [n] successive draws: how many are non-zero. *)
Fixpoint count_draws (src : nat -> Z) (next n : nat) : Z :=
  match n with
  | O => 0
  | S n' =>
      (if Z.rem (src next) 2 =? 0 then 0 else 1) + count_draws src (S next) n'
  end.

Definition Simulator_Probability (s : Simulator_t) : bool * Simulator_t :=
  (50 <=? count_draws (rand_src s) (rand_next s) 100,
   set_rand_next s (rand_next s + 100)%nat).

(** [Queue_Enqueue(ready_queue, p)] and [Priority_Enqueue(ready_queue, p)]
    through the [void *] of the simulator. *)
Definition ready_Queue_Enqueue (s : Simulator_t) (p : ProcessPtr_t)
  : option Simulator_t :=
  match ready_queue s with
  | ReadyFIFO q =>
      q' <- Queue_Enqueue q p ;;
      Some (set_ready s (ReadyFIFO q'))
  | ReadyHeap _ => None
  end.

Definition ready_Priority_Enqueue (s : Simulator_t) (p : ProcessPtr_t)
  : option Simulator_t :=
  match ready_queue s with
  | ReadyHeap q =>
      q' <- Priority_Enqueue (mem s) q p ;; Some (set_ready s (ReadyHeap q'))
  | ReadyFIFO _ => None
  end.

(** [Simulator_LoadReadyQueue] and [Simulator_LoadReadyQueue_Priority] are
    the same text up to the enqueue on the ready queue.  Each [while] runs
    on fuel; the callers give one more than the queue holds. *)
Section LoadReadyQueue.

Variable enqueue_ready : Simulator_t -> ProcessPtr_t -> option Simulator_t.

Fixpoint load_arrived (fuel : nat) (s : Simulator_t) : option Simulator_t :=
  match fuel with
  | O => None
  | S fuel' =>
      if negb (Priority_IsEmpty (generated_processes s)) then
        front <- Priority_Top (generated_processes s) ;;
        match front with
        | None => None
        | Some front_process =>
            if arrival_time (mem s front_process) =? elapsed_time s then
              s1 <- enqueue_ready s front_process ;;
              '(jq, _) <- Priority_Dequeue (mem s1) (generated_processes s1) ;;
              load_arrived fuel' (set_generated s1 jq)
            else Some s
        end
      else Some s
  end.

Fixpoint load_io_done (fuel : nat) (s : Simulator_t) : option Simulator_t :=
  match fuel with
  | O => None
  | S fuel' =>
      if negb (Priority_IsEmpty (waiting_queue s)) then
        front <- Priority_Top (waiting_queue s) ;;
        match front with
        | None => None
        | Some front_process =>
            if io_burst_time (mem s front_process) =? 0 then
              '(wq, _) <- Priority_Dequeue (mem s) (waiting_queue s) ;;
              s1 <- enqueue_ready (set_waiting s wq) front_process ;;
              load_io_done fuel' s1
            else Some s
        end
      else Some s
  end.

Definition load_ready_queue (s : Simulator_t) : option Simulator_t :=
  s1 <- load_arrived (S (Z.to_nat (count (generated_processes s)))) s ;;
  load_io_done (S (Z.to_nat (count (waiting_queue s1)))) s1.

End LoadReadyQueue.

Definition Simulator_LoadReadyQueue : Simulator_t -> option Simulator_t :=
  load_ready_queue ready_Queue_Enqueue.

Definition Simulator_LoadReadyQueue_Priority : Simulator_t -> option Simulator_t :=
  load_ready_queue ready_Priority_Enqueue.

Definition Simulator_LoadProcess (s : Simulator_t) : option Simulator_t :=
  match cur_cpu_burst s with
  | None =>
      match ready_queue s with
      | ReadyFIFO ready_queue =>
          if negb (Queue_IsEmpty ready_queue) then
            front <- Queue_Front ready_queue ;;
            '(rq, _) <- Queue_Dequeue ready_queue ;;
            Some (set_ready (set_cur s front) (ReadyFIFO rq))
          else Some s
      | ReadyHeap _ => None
      end
  | Some _ => Some s
  end.

Definition Simulator_LoadProcess_Priority (s : Simulator_t)
  : option Simulator_t :=
  match cur_cpu_burst s with
  | None =>
      match ready_queue s with
      | ReadyHeap ready_queue =>
          if negb (Priority_IsEmpty ready_queue) then
            top_process <- Priority_Top ready_queue ;;
            '(rq, _) <- Priority_Dequeue (mem s) ready_queue ;;
            Some (set_ready (set_cur s top_process) (ReadyHeap rq))
          else Some s
      | ReadyFIFO _ => None
      end
  | Some _ => Some s
  end.

(** [p->waiting_time++; p->turnaround_time++;] on the object, then in
    memory. *)
Definition age (p : Process_t) : Process_t :=
  let p1 := set_waiting_time p (uincr (waiting_time p)) in
  set_turnaround_time p1 (uincr (turnaround_time p1)).

Definition age_process (m : Mem) (p : ProcessPtr_t) : Mem :=
  store m p (age (m p)).

(** [p->io_burst_time--; p->turnaround_time++;] *)
Definition io_step (p : Process_t) : Process_t :=
  let p1 := set_io_burst_time p (udecr (io_burst_time p)) in
  set_turnaround_time p1 (uincr (turnaround_time p1)).

Definition io_process_step (m : Mem) (p : ProcessPtr_t) : Mem :=
  store m p (io_step (m p)).

Definition Simulator_Queue_Waiting (ready_queue : Queue_t) (m : Mem) : Mem :=
  fold_left age_process (items ready_queue) m.

Fixpoint Simulator_Priority_Waiting (waiting_process : TreeNodePtr_t)
  (m : Mem) : Mem :=
  match waiting_process with
  | NULL => m
  | Node l p r =>
      Simulator_Priority_Waiting r
        (age_process (Simulator_Priority_Waiting l m) p)
  end.

Fixpoint Simulator_Process_IO (io_process : TreeNodePtr_t) (m : Mem) : Mem :=
  match io_process with
  | NULL => m
  | Node l p r =>
      Simulator_Process_IO r (io_process_step (Simulator_Process_IO l m) p)
  end.

(** [Simulator_Process_IO_Queue] and [Simulator_Process_IO_Priority] are
    the same text up to the enqueue on the ready queue.  The simulator
    keeps the queue that is being emptied until [tmp] replaces it. *)
Section ProcessIOInterrupt.

Variable enqueue_ready : Simulator_t -> ProcessPtr_t -> option Simulator_t.

Fixpoint io_interrupt_loop (fuel : nat) (s : Simulator_t)
  (tmp : Priority_Queue_t) : option (Simulator_t * Priority_Queue_t) :=
  match fuel with
  | O => None
  | S fuel' =>
      top <- Priority_Top (waiting_queue s) ;;
      match top with
      | None => Some (s, tmp)
      | Some top_process =>
          let '(fire, s1) := Simulator_Probability s in
          if fire && (1 <? cpu_burst_time (mem s1 top_process)) then
            '(wq, _) <- Priority_Dequeue (mem s1) (waiting_queue s1) ;;
            s2 <- enqueue_ready (set_waiting s1 wq) top_process ;;
            io_interrupt_loop fuel' s2 tmp
          else
            '(wq, _) <- Priority_Dequeue (mem s1) (waiting_queue s1) ;;
            tmp' <- Priority_Enqueue (mem s1) tmp top_process ;;
            io_interrupt_loop fuel' (set_waiting s1 wq) tmp'
      end
  end.

Definition process_io_interrupt (s : Simulator_t) : option Simulator_t :=
  if Priority_IsEmpty (waiting_queue s) then Some s
  else
    '(s1, tmp) <- io_interrupt_loop (S (Z.to_nat (count (waiting_queue s)))) s
                    (Priority_Init IO_Burst_Compare) ;;
    Some (set_waiting s1 tmp).

End ProcessIOInterrupt.

Definition Simulator_Process_IO_Queue : Simulator_t -> option Simulator_t :=
  process_io_interrupt ready_Queue_Enqueue.

Definition Simulator_Process_IO_Priority : Simulator_t -> option Simulator_t :=
  process_io_interrupt ready_Priority_Enqueue.

(** The loop of [Simulator_Eval] over the terminated processes. *)
Fixpoint eval_loop (fuel : nat) (s : Simulator_t) : option Simulator_t :=
  match fuel with
  | O => None
  | S fuel' =>
      top <- Priority_Top (terminated_processes s) ;;
      match top with
      | None => Some s
      | Some tmp =>
          '(tq, _) <- Priority_Dequeue (mem s) (terminated_processes s) ;;
          let s1 := set_terminated s tq in
          let s2 := set_avg_waiting s1
                      (dadd (avg_waiting_time s1)
                            (double_of_uint (waiting_time (mem s1 tmp)))) in
          let s3 := set_avg_turnaround s2
                      (dadd (avg_turnaround_time s2)
                            (double_of_uint (turnaround_time (mem s2 tmp)))) in
          let s4 := if max_waiting_time s3 <? waiting_time (mem s3 tmp)
                    then set_max_waiting s3 (waiting_time (mem s3 tmp))
                    else s3 in
          eval_loop fuel' s4
      end
  end.

Definition Simulator_Eval (s : Simulator_t) : option Simulator_t :=
  let CPU_utilization :=
    ddiv (double_of_uint ((elapsed_time s + 1 - idle_time s) mod UINT_MOD))
         (double_of_uint (elapsed_time s)) in
  s1 <- eval_loop (S (Z.to_nat (count (terminated_processes s)))) s ;;
  let s2 := set_avg_waiting s1
              (ddiv (avg_waiting_time s1) (double_of_uint (num_process s1))) in
  let s3 := set_avg_turnaround s2
              (ddiv (avg_turnaround_time s2)
                    (double_of_uint (num_process s2))) in
  Some (print s3 (Out_Eval (uincr (elapsed_time s3)) CPU_utilization
                           (avg_waiting_time s3) (avg_turnaround_time s3))).

(** [cur->cpu_burst_time--; cur->turnaround_time++;] as in
    [Simulator_CPU_Burst] and [Simulator_CPU_Burst_RR]. *)
Definition burst (p : Process_t) : Process_t :=
  let p1 := set_cpu_burst_time p (udecr (cpu_burst_time p)) in
  set_turnaround_time p1 (uincr (turnaround_time p1)).

Definition burst_process (m : Mem) (p : ProcessPtr_t) : Mem :=
  store m p (burst (m p)).

(** [cur->turnaround_time++; cur->cpu_burst_time--;] as in
    [Simulator_CPU_Burst_Preemptive]. *)
Definition burst_preemptive (p : Process_t) : Process_t :=
  let p1 := set_turnaround_time p (uincr (turnaround_time p)) in
  set_cpu_burst_time p1 (udecr (cpu_burst_time p1)).

Definition burst_process_preemptive (m : Mem) (p : ProcessPtr_t) : Mem :=
  store m p (burst_preemptive (m p)).

(** [cpu_burst_time == 1 || Simulator_Probability()]: the draw is made
    only when the left operand is false. *)
Definition io_request (s : Simulator_t) (cur : ProcessPtr_t)
  : bool * Simulator_t :=
  if cpu_burst_time (mem s cur) =? 1 then (true, s)
  else Simulator_Probability s.

(** Returns the C return value and the simulator. *)
Definition Simulator_CPU_Burst (s : Simulator_t) : option (Z * Simulator_t) :=
  match cur_cpu_burst s with
  | Some cur =>
      let s1 := set_mem s (burst_process (mem s) cur) in
      let s2 := print s1 (Out_Gantt (pid (mem s1 cur))) in
      if negb (cpu_burst_time (mem s2 cur) =? 0) then
        if negb (io_burst_time (mem s2 cur) =? 0) then
          let '(fire, s3) := io_request s2 cur in
          if fire then
            wq <- Priority_Enqueue (mem s3) (waiting_queue s3) cur ;;
            Some (0, set_cur (set_waiting s3 wq) None)
          else Some (0, s3)
        else Some (0, s2)
      else
        tq <- Priority_Enqueue (mem s2) (terminated_processes s2) cur ;;
        let s3 := set_cur (set_terminated s2 tq) None in
        if count (terminated_processes s3) =? num_process s3 then
          s4 <- Simulator_Eval s3 ;; Some (1, s4)
        else Some (0, s3)
  | None =>
      Some (0, print (set_idle s (uincr (idle_time s))) Out_Idle)
  end.

Definition Simulator_CPU_Burst_Preemptive (s : Simulator_t)
  : option (Z * Simulator_t) :=
  match ready_queue s with
  | ReadyFIFO _ => None
  | ReadyHeap ready_queue0 =>
      s0 <- match cur_cpu_burst s with
            | Some cur =>
                if negb (Priority_IsEmpty ready_queue0) then
                  match top ready_queue0 with
                  | NULL => None
                  | Node _ head _ =>
                      if compare ready_queue0 (mem s) head cur then
                        rq <- Priority_Enqueue (mem s) ready_queue0 cur ;;
                        Simulator_LoadProcess_Priority
                          (set_cur (set_ready s (ReadyHeap rq)) None)
                      else Some s
                  end
                else Some s
            | None => Some s
            end ;;
      match cur_cpu_burst s0 with
      | Some cur =>
          let s1 := set_mem s0 (burst_process_preemptive (mem s0) cur) in
          let s2 := print s1 (Out_Gantt (pid (mem s1 cur))) in
          if negb (cpu_burst_time (mem s2 cur) =? 0) then
            if negb (io_burst_time (mem s2 cur) =? 0) then
              let '(fire, s3) := io_request s2 cur in
              if fire then
                wq <- Priority_Enqueue (mem s3) (waiting_queue s3) cur ;;
                Some (0, set_cur (set_waiting s3 wq) None)
              else Some (0, s3)
            else Some (0, s2)
          else
            tq <- Priority_Enqueue (mem s2) (terminated_processes s2) cur ;;
            let s3 := set_cur (set_terminated s2 tq) None in
            if count (terminated_processes s3) =? num_process s3 then
              s4 <- Simulator_Eval s3 ;; Some (1, s4)
            else Some (0, s3)
      | None =>
          Some (0, print (set_idle s0 (uincr (idle_time s0))) Out_Idle)
      end
  end.

(** Returns the C return value, the simulator and [*time_quantum]. *)
Definition Simulator_CPU_Burst_RR (s : Simulator_t) (time_quantum : Z)
  : option (Z * Simulator_t * Z) :=
  match cur_cpu_burst s with
  | Some cur =>
      let s1 := set_mem s (burst_process (mem s) cur) in
      let s2 := print s1 (Out_Gantt (pid (mem s1 cur))) in
      let time_quantum1 := time_quantum + 1 in
      if negb (cpu_burst_time (mem s2 cur) =? 0) then
        '(s4, time_quantum2) <-
          (if negb (io_burst_time (mem s2 cur) =? 0) then
             let '(fire, s3) := io_request s2 cur in
             if fire then
               wq <- Priority_Enqueue (mem s3) (waiting_queue s3) cur ;;
               Some (set_cur (set_waiting s3 wq) None, 0)
             else Some (s3, time_quantum1)
           else Some (s2, time_quantum1)) ;;
        if time_quantum2 =? TIME_QUANTUM then
          match cur_cpu_burst s4 with
          | Some cur' =>
              s5 <- ready_Queue_Enqueue s4 cur' ;;
              Some (0, set_cur s5 None, 0)
          | None => None
          end
        else Some (0, s4, time_quantum2)
      else
        tq <- Priority_Enqueue (mem s2) (terminated_processes s2) cur ;;
        let s3 := set_cur (set_terminated s2 tq) None in
        if count (terminated_processes s3) =? num_process s3 then
          s4 <- Simulator_Eval s3 ;; Some (1, s4, 0)
        else Some (0, s3, 0)
  | None =>
      Some (0, print (set_idle s (uincr (idle_time s))) Out_Idle, time_quantum)
  end.

(** [Simulator_Queue_Waiting(ready_queue)] and
    [Simulator_Priority_Waiting(ready_queue->top)] as the policy loops
    call them. *)
Definition ready_Queue_Waiting (s : Simulator_t) : option Simulator_t :=
  match ready_queue s with
  | ReadyFIFO q => Some (set_mem s (Simulator_Queue_Waiting q (mem s)))
  | ReadyHeap _ => None
  end.

Definition ready_Priority_Waiting (s : Simulator_t) : option Simulator_t :=
  match ready_queue s with
  | ReadyHeap q => Some (set_mem s (Simulator_Priority_Waiting (top q) (mem s)))
  | ReadyFIFO _ => None
  end.

(** [Simulator_Process_IO(simulator->waiting_queue->top)] *)
Definition waiting_Process_IO (s : Simulator_t) : Simulator_t :=
  set_mem s (Simulator_Process_IO (top (waiting_queue s)) (mem s)).

(** [simulator->elapsed_time++] *)
Definition next_tick (s : Simulator_t) : Simulator_t :=
  set_elapsed s (uincr (elapsed_time s)).

(** The six policy loops.  [while (1)] runs on fuel: [None] also stands
    for a simulation that has not ended within [fuel] ticks. *)
Fixpoint Simulator_FCFS (fuel : nat) (s : Simulator_t) : option Simulator_t :=
  match fuel with
  | O => None
  | S fuel' =>
      s1 <- Simulator_LoadReadyQueue s ;;
      s2 <- Simulator_LoadProcess s1 ;;
      s3 <- ready_Queue_Waiting s2 ;;
      s5 <- Simulator_Process_IO_Queue (waiting_Process_IO s3) ;;
      '(ret, s6) <- Simulator_CPU_Burst s5 ;;
      if negb (ret =? 0) then Some s6
      else Simulator_FCFS fuel' (next_tick s6)
  end.

Fixpoint Simulator_NonPreemptiveSJF (fuel : nat) (s : Simulator_t)
  : option Simulator_t :=
  match fuel with
  | O => None
  | S fuel' =>
      s1 <- Simulator_LoadReadyQueue_Priority s ;;
      s2 <- Simulator_LoadProcess_Priority s1 ;;
      s3 <- ready_Priority_Waiting s2 ;;
      s5 <- Simulator_Process_IO_Priority (waiting_Process_IO s3) ;;
      '(ret, s6) <- Simulator_CPU_Burst s5 ;;
      if negb (ret =? 0) then Some s6
      else Simulator_NonPreemptiveSJF fuel' (next_tick s6)
  end.

Fixpoint Simulator_PreemptiveSJF (fuel : nat) (s : Simulator_t)
  : option Simulator_t :=
  match fuel with
  | O => None
  | S fuel' =>
      s1 <- Simulator_LoadReadyQueue_Priority s ;;
      s2 <- Simulator_LoadProcess_Priority s1 ;;
      s3 <- ready_Priority_Waiting s2 ;;
      s5 <- Simulator_Process_IO_Priority (waiting_Process_IO s3) ;;
      '(ret, s6) <- Simulator_CPU_Burst_Preemptive s5 ;;
      if negb (ret =? 0) then Some s6
      else Simulator_PreemptiveSJF fuel' (next_tick s6)
  end.

Fixpoint Simulator_NonPreemptivePriority (fuel : nat) (s : Simulator_t)
  : option Simulator_t :=
  match fuel with
  | O => None
  | S fuel' =>
      s1 <- Simulator_LoadReadyQueue_Priority s ;;
      s2 <- Simulator_LoadProcess_Priority s1 ;;
      s3 <- ready_Priority_Waiting s2 ;;
      s5 <- Simulator_Process_IO_Priority (waiting_Process_IO s3) ;;
      '(ret, s6) <- Simulator_CPU_Burst s5 ;;
      if negb (ret =? 0) then Some s6
      else Simulator_NonPreemptivePriority fuel' (next_tick s6)
  end.

Fixpoint Simulator_PreemptivePriority (fuel : nat) (s : Simulator_t)
  : option Simulator_t :=
  match fuel with
  | O => None
  | S fuel' =>
      s1 <- Simulator_LoadReadyQueue_Priority s ;;
      s2 <- Simulator_LoadProcess_Priority s1 ;;
      s3 <- ready_Priority_Waiting s2 ;;
      s5 <- Simulator_Process_IO_Priority (waiting_Process_IO s3) ;;
      '(ret, s6) <- Simulator_CPU_Burst_Preemptive s5 ;;
      if negb (ret =? 0) then Some s6
      else Simulator_PreemptivePriority fuel' (next_tick s6)
  end.

Fixpoint RoundRobin_loop (fuel : nat) (s : Simulator_t) (time_quantum : Z)
  : option Simulator_t :=
  match fuel with
  | O => None
  | S fuel' =>
      s1 <- Simulator_LoadReadyQueue s ;;
      s2 <- Simulator_LoadProcess s1 ;;
      s3 <- ready_Queue_Waiting s2 ;;
      s5 <- Simulator_Process_IO_Queue (waiting_Process_IO s3) ;;
      '(ret, s6, time_quantum') <- Simulator_CPU_Burst_RR s5 time_quantum ;;
      if negb (ret =? 0) then Some s6
      else RoundRobin_loop fuel' (next_tick s6) time_quantum'
  end.

Definition Simulator_RoundRobin (fuel : nat) (s : Simulator_t)
  : option Simulator_t :=
  RoundRobin_loop fuel s 0.

Definition Simulator_Start (fuel : nat) (s : Simulator_t)
  : option Simulator_t :=
  if flag s =? FCFS then Simulator_FCFS fuel s
  else if flag s =? NON_PREEMPTIVE_SJF then Simulator_NonPreemptiveSJF fuel s
  else if flag s =? PREEMPTIVE_SJF then Simulator_PreemptiveSJF fuel s
  else if flag s =? NON_PREEMPTIVE_PRIORITY then
    Simulator_NonPreemptivePriority fuel s
  else if flag s =? PREEMPTIVE_PRIORITY then
    Simulator_PreemptivePriority fuel s
  else if flag s =? ROUND_ROBIN then Simulator_RoundRobin fuel s
  else None.

(** The row [Simulator_Terminate] prints for one simulator. *)
Definition Simulator_Terminate_row (s : Simulator_t) : option Out_t :=
  if (1 <=? flag s) && (flag s <=? 6) then
    Some (Out_Row (flag s)
            (ddiv (double_of_uint ((elapsed_time s - idle_time s) mod UINT_MOD))
                  (double_of_uint (elapsed_time s)))
            (avg_waiting_time s) (avg_turnaround_time s)
            (max_waiting_time s))
  else None.

Fixpoint Simulator_Terminate (simulators : list Simulator_t)
  : option (list Out_t) :=
  match simulators with
  | [] => Some []
  | s :: rest =>
      row <- Simulator_Terminate_row s ;;
      rows <- Simulator_Terminate rest ;;
      Some (row :: rows)
  end.

(** [main] for one policy: initialise, clone the workload, run. *)
Definition simulate (m : Mem) (src : nat -> Z) (flag : Z)
  (w : list Workload_t) (fuel : nat) : option Simulator_t :=
  s <- Simulator_Init m src flag ;;
  s0 <- Simulator_GenerateProcess w s ;;
  Simulator_Start fuel s0.

(** ** Specification predicates *)

(** [shape i n t]: [t] is the subtree rooted at position [i] of the
    complete binary tree with [n] nodes (root at 1, children of [i] at
    [2 i] and [2 i + 1]). *)
Fixpoint shape (i n : Z) (t : TreeNodePtr_t) : Prop :=
  match t with
  | NULL => n < i
  | Node l _ r => i <= n /\ shape (2 * i) n l /\ shape (2 * i + 1) n r
  end.

Definition root_of (t : TreeNodePtr_t) : option ProcessPtr_t :=
  match t with
  | NULL => None
  | Node _ p _ => Some p
  end.

(** Position [c] lies [d] levels below position [i]. *)
Definition below (i : Z) (d : nat) (c : Z) : Prop :=
  i * 2 ^ Z.of_nat d <= c < (i + 1) * 2 ^ Z.of_nat d.

(** A well-formed priority queue: the complete tree of its [count] nodes. *)
Definition pq_wf (q : Priority_Queue_t) : Prop :=
  0 <= count q /\ shape 1 (count q) (top q) /\
  count q = Z.of_nat (length (elements (top q))).

(** A well-formed FIFO queue: [count] cells from [front] to [rear]. *)
Definition queue_wf (q : Queue_t) : Prop :=
  q_count q = Z.of_nat (length (items q)).

Section Order.

Variable cmp : ProcessPtr_t -> ProcessPtr_t -> bool.

(** The child [c] of a node with payload [p] does not compare strictly
    ahead of it. *)
Definition root_ok (p : ProcessPtr_t) (c : TreeNodePtr_t) : Prop :=
  match c with
  | NULL => True
  | Node _ x _ => cmp x p = false
  end.

(** Heap order at every parent/child pair. *)
Fixpoint heap_ordered (t : TreeNodePtr_t) : Prop :=
  match t with
  | NULL => True
  | Node l p r =>
      root_ok p l /\ root_ok p r /\ heap_ordered l /\ heap_ordered r
  end.

(** Nothing in [t] compares strictly ahead of [p]. *)
Definition lower_bound (p : ProcessPtr_t) (t : TreeNodePtr_t) : Prop :=
  Forall (fun e => cmp e p = false) (elements t).

(** Heap order in its transitive form. *)
Fixpoint heap (t : TreeNodePtr_t) : Prop :=
  match t with
  | NULL => True
  | Node l p r => lower_bound p l /\ lower_bound p r /\ heap l /\ heap r
  end.

(** What the proofs need of a comparator: a strict weak order. *)
Definition strict_weak_order : Prop :=
  (forall a b, cmp a b = true -> cmp b a = false) /\
  (forall a b c, cmp a b = true -> cmp b c = true -> cmp a c = true) /\
  (forall a b c, cmp b a = false -> cmp c b = false -> cmp c a = false).

End Order.

(** A call on a priority queue, and a sequence of calls run from a
    given queue. *)
Inductive pq_op : Type :=
| PEnqueue (p : ProcessPtr_t)
| PDequeue.

Fixpoint pq_run (m : Mem) (ops : list pq_op) (q : Priority_Queue_t)
  : option Priority_Queue_t :=
  match ops with
  | [] => Some q
  | PEnqueue p :: ops' => q' <- Priority_Enqueue m q p ;; pq_run m ops' q'
  | PDequeue :: ops' => '(q', _) <- Priority_Dequeue m q ;; pq_run m ops' q'
  end.

(** The four comparators of the system. *)
Definition comparators : list (Mem -> ProcessPtr_t -> ProcessPtr_t -> bool) :=
  [SJF_Compare; Priority_Compare; IO_Burst_Compare;
   Simulator_ArrivalTime_Compare].

(** A call on a FIFO queue.  A sequence of calls is run from a given
    queue; what a dequeue removes is read with [Queue_Front] just before
    it, as the simulator does, and collected in call order. *)
Inductive q_op : Type :=
| QEnqueue (p : ProcessPtr_t)
| QDequeue.

Fixpoint queue_run (ops : list q_op) (q : Queue_t)
  (removed : list ProcessPtr_t) : option (Queue_t * list ProcessPtr_t) :=
  match ops with
  | [] => Some (q, removed)
  | QEnqueue p :: ops' =>
      q' <- Queue_Enqueue q p ;;
      queue_run ops' q' removed
  | QDequeue :: ops' =>
      front <- Queue_Front q ;;
      '(q', _) <- Queue_Dequeue q ;;
      queue_run ops' q'
        (match front with Some p => removed ++ [p] | None => removed end)
  end.

Fixpoint enqueued (ops : list q_op) : list ProcessPtr_t :=
  match ops with
  | [] => []
  | QEnqueue p :: ops' => p :: enqueued ops'
  | QDequeue :: ops' => enqueued ops'
  end.

(** ** One tick of a policy loop

    The body of the loop of policy [fl], cut where the loop calls
    [Simulator_Process_IO]. *)

Definition fifo_policy (fl : Z) : bool := (fl =? FCFS) || (fl =? ROUND_ROBIN).

Definition preemptive_policy (fl : Z) : bool :=
  (fl =? PREEMPTIVE_SJF) || (fl =? PREEMPTIVE_PRIORITY).

Definition valid_policy (fl : Z) : bool := (1 <=? fl) && (fl <=? 6).

Definition tick_before_io (fl : Z) (s : Simulator_t) : option Simulator_t :=
  if fifo_policy fl then
    s1 <- Simulator_LoadReadyQueue s ;;
    s2 <- Simulator_LoadProcess s1 ;;
    ready_Queue_Waiting s2
  else
    s1 <- Simulator_LoadReadyQueue_Priority s ;;
    s2 <- Simulator_LoadProcess_Priority s1 ;;
    ready_Priority_Waiting s2.

Definition tick_after_io (fl : Z) (s : Simulator_t) (time_quantum : Z)
  : option (Z * Simulator_t * Z) :=
  if negb (valid_policy fl) then None
  else if fl =? ROUND_ROBIN then
    s5 <- Simulator_Process_IO_Queue s ;;
    Simulator_CPU_Burst_RR s5 time_quantum
  else if fl =? FCFS then
    s5 <- Simulator_Process_IO_Queue s ;;
    '(ret, s6) <- Simulator_CPU_Burst s5 ;;
    Some (ret, s6, time_quantum)
  else if preemptive_policy fl then
    s5 <- Simulator_Process_IO_Priority s ;;
    '(ret, s6) <- Simulator_CPU_Burst_Preemptive s5 ;;
    Some (ret, s6, time_quantum)
  else
    s5 <- Simulator_Process_IO_Priority s ;;
    '(ret, s6) <- Simulator_CPU_Burst s5 ;;
    Some (ret, s6, time_quantum).

Definition tick (fl : Z) (s : Simulator_t) (time_quantum : Z)
  : option (Z * Simulator_t * Z) :=
  s3 <- tick_before_io fl s ;;
  tick_after_io fl (waiting_Process_IO s3) time_quantum.

(** The policy loop in terms of [tick]. *)
Fixpoint run (fl : Z) (fuel : nat) (s : Simulator_t) (time_quantum : Z)
  : option Simulator_t :=
  match fuel with
  | O => None
  | S fuel' =>
      '(ret, s6, time_quantum') <- tick fl s time_quantum ;;
      if negb (ret =? 0) then Some s6
      else run fl fuel' (next_tick s6) time_quantum'
  end.

(** The simulator and [time_quantum] at the start of the tick that
    follows [n] ticks, none of which ended the simulation. *)
Fixpoint ticks (fl : Z) (n : nat) (s : Simulator_t) (time_quantum : Z)
  : option (Simulator_t * Z) :=
  match n with
  | O => Some (s, time_quantum)
  | S n' =>
      '(ret, s6, time_quantum') <- tick fl s time_quantum ;;
      if negb (ret =? 0) then None
      else ticks fl n' (next_tick s6) time_quantum'
  end.

(** The simulator of policy [fl] loaded with workload [w], before its
    first tick. *)
Definition loaded (m : Mem) (src : nat -> Z) (fl : Z) (w : list Workload_t)
  : option Simulator_t :=
  s <- Simulator_Init m src fl ;;
  Simulator_GenerateProcess w s.

(** ** Where the processes are *)

Definition ready_elements (rq : ready_queue_t) : list ProcessPtr_t :=
  match rq with
  | ReadyFIFO q => items q
  | ReadyHeap q => elements (top q)
  end.

Definition ready_wf (rq : ready_queue_t) : Prop :=
  match rq with
  | ReadyFIFO q => queue_wf q
  | ReadyHeap q => pq_wf q
  end.

Definition ready_is_fifo (rq : ready_queue_t) : bool :=
  match rq with
  | ReadyFIFO _ => true
  | ReadyHeap _ => false
  end.

Definition cur_elements (cur : option ProcessPtr_t) : list ProcessPtr_t :=
  match cur with
  | Some p => [p]
  | None => []
  end.

(** Every process reference the simulator holds: job queue, ready queue,
    CPU, waiting queue, terminated queue. *)
Definition live (s : Simulator_t) : list ProcessPtr_t :=
  elements (top (generated_processes s)) ++
  ready_elements (ready_queue s) ++
  cur_elements (cur_cpu_burst s) ++
  elements (top (waiting_queue s)) ++
  elements (top (terminated_processes s)).

(** The invariant of the policy loop of [fl] between two sub-steps: the
    queues are well formed, no process is referenced twice, the waiting
    queue is a heap under [IO_Burst_Compare], and every [io_burst_time]
    is an [unsigned int]. *)
Record Inv (fl : Z) (s : Simulator_t) : Prop := mkInv {
  inv_jobs : pq_wf (generated_processes s);
  inv_terminated : pq_wf (terminated_processes s);
  inv_waiting : pq_wf (waiting_queue s);
  inv_ready : ready_wf (ready_queue s);
  inv_kind : ready_is_fifo (ready_queue s) = fifo_policy fl;
  inv_nodup : NoDup (live s);
  inv_size : Z.of_nat (length (live s)) < 2 ^ 30;
  inv_compare : compare (waiting_queue s) = IO_Burst_Compare;
  inv_heap : heap (IO_Burst_Compare (mem s)) (top (waiting_queue s));
  inv_io : forall p, In p (live s) ->
                     0 <= io_burst_time (mem s p) < UINT_MOD
}.

(** The two memories agree on what [IO_Burst_Compare] reads. *)
Definition io_frame (m m' : Mem) : Prop :=
  forall p, io_burst_time (m' p) = io_burst_time (m p) /\
            pid (m' p) = pid (m p).

(** What the loops below expect of the enqueue on the ready queue. *)
Definition enqueue_ready_ok (fl : Z)
  (enq : Simulator_t -> ProcessPtr_t -> option Simulator_t) : Prop :=
  forall s x,
    ready_wf (ready_queue s) ->
    ready_is_fifo (ready_queue s) = fifo_policy fl ->
    Z.of_nat (length (ready_elements (ready_queue s))) + 1 < 2 ^ 30 ->
    exists rq',
      enq s x = Some (set_ready s rq') /\
      ready_wf rq' /\ ready_is_fifo rq' = fifo_policy fl /\
      Permutation (ready_elements rq') (x :: ready_elements (ready_queue s)) /\
      (fifo_policy fl = true ->
       ready_elements rq' = ready_elements (ready_queue s) ++ [x]).

(** The waiting processes all have I/O left to do. *)
Definition waiting_io_positive (s : Simulator_t) : Prop :=
  Forall (fun p => 1 <= io_burst_time (mem s p) < UINT_MOD)
         (elements (top (waiting_queue s))).

(** The invariant of the loop of [Simulator_Process_IO_Queue] and
    [Simulator_Process_IO_Priority]: as [Inv], with the queue [tmp] that
    is being filled holding processes too, and the heap order stated of
    [tmp] instead of the queue that is being emptied. *)
Record Inv_interrupt (fl : Z) (s : Simulator_t) (tmp : Priority_Queue_t)
  : Prop := mkInvInterrupt {
  ii_jobs : pq_wf (generated_processes s);
  ii_terminated : pq_wf (terminated_processes s);
  ii_waiting : pq_wf (waiting_queue s);
  ii_tmp : pq_wf tmp;
  ii_ready : ready_wf (ready_queue s);
  ii_kind : ready_is_fifo (ready_queue s) = fifo_policy fl;
  ii_nodup : NoDup (live s ++ elements (top tmp));
  ii_size : Z.of_nat (length (live s ++ elements (top tmp))) < 2 ^ 30;
  ii_compare : compare tmp = IO_Burst_Compare;
  ii_heap : heap (IO_Burst_Compare (mem s)) (top tmp);
  ii_io : forall p, In p (live s ++ elements (top tmp)) ->
                    0 <= io_burst_time (mem s p) < UINT_MOD
}.

(** The randomized trial, in the words of the specification: 100 binary
    samples are drawn, and the trial succeeds iff at least 50 of them
    succeed.  A sample is the parity of one value of the [rand()] stream,
    taken from position [next] on, and succeeds when that value is odd. *)
Definition trial_samples (src : nat -> Z) (next : nat) : list bool :=
  map (fun i => Z.odd (src i)) (seq next 100).

Definition trial_fires (src : nat -> Z) (next : nat) : bool :=
  (50 <=? length (filter (fun b : bool => b) (trial_samples src next)))%nat.

(** Random I/O interrupt resolution, in the words of the specification:
    the waiting processes are examined one after the other; each gets a
    trial of 100 samples, which fires when at least 50 of them succeed;
    the process goes back to ready when its trial fires and its
    [cpu_burst_time] exceeds 1, and stays waiting otherwise.  The result
    is the list of the processes moved and the list of those staying. *)
Fixpoint interrupt_outcome (src : nat -> Z) (m : Mem) (next : nat)
  (order : list ProcessPtr_t) : list ProcessPtr_t * list ProcessPtr_t :=
  match order with
  | [] => ([], [])
  | p :: rest =>
      let fire := trial_fires src next in
      let '(moved, staying) := interrupt_outcome src m (next + 100) rest in
      if fire && (1 <? cpu_burst_time (m p)) then (p :: moved, staying)
      else (moved, p :: staying)
  end.

(** ** The order of the sub-steps within a tick *)

(** The preemption decision in the words of the specification: if the
    CPU slot is occupied and the comparator judges the head of the ready
    queue strictly ahead of the running process, push the running process
    back into the ready queue and pop the new head into the CPU slot. *)
Definition preempt_decision (s : Simulator_t) : option Simulator_t :=
  match ready_queue s with
  | ReadyFIFO _ => None
  | ReadyHeap ready =>
      match cur_cpu_burst s with
      | Some running =>
          if negb (Priority_IsEmpty ready) then
            match top ready with
            | NULL => None
            | Node _ head _ =>
                if compare ready (mem s) head running then
                  rq <- Priority_Enqueue (mem s) ready running ;;
                  Simulator_LoadProcess_Priority
                    (set_cur (set_ready s (ReadyHeap rq)) None)
                else Some s
            end
          else Some s
      | None => Some s
      end
  end.

(** A tick of a preemptive policy with the sub-steps in the order of the
    specification: the preemption decision belongs to Dispatch/Preempt,
    before aging, I/O advance and interrupt resolution. *)
Definition tick_preempt_at_dispatch (s : Simulator_t) (time_quantum : Z)
  : option (Z * Simulator_t * Z) :=
  s1 <- Simulator_LoadReadyQueue_Priority s ;;
  s2 <- Simulator_LoadProcess_Priority s1 ;;
  s2' <- preempt_decision s2 ;;
  s3 <- ready_Priority_Waiting s2' ;;
  s5 <- Simulator_Process_IO_Priority (waiting_Process_IO s3) ;;
  '(ret, s6) <- Simulator_CPU_Burst s5 ;;
  Some (ret, s6, time_quantum).

(** The same sub-steps with the preemption decision after aging, I/O
    advance and interrupt resolution, at the start of Execute. *)
Definition tick_preempt_before_execute (s : Simulator_t) (time_quantum : Z)
  : option (Z * Simulator_t * Z) :=
  s1 <- Simulator_LoadReadyQueue_Priority s ;;
  s2 <- Simulator_LoadProcess_Priority s1 ;;
  s3 <- ready_Priority_Waiting s2 ;;
  s5 <- Simulator_Process_IO_Priority (waiting_Process_IO s3) ;;
  s5' <- preempt_decision s5 ;;
  '(ret, s6) <- Simulator_CPU_Burst s5' ;;
  Some (ret, s6, time_quantum).

(** ** Example inputs *)

Definition blank_mem : Mem := fun _ => mkProcess 0 0 0 0 0 0 0.

(** A [rand()] stream on which no trial fires, and one on which every
    trial fires. *)
Definition zero_src : nat -> Z := fun _ => 0.
Definition alternating_src : nat -> Z := fun n => Z.of_nat n.

Definition single_workload : list Workload_t := [mkWorkload 5 0 0 0].
Definition instant_workload : list Workload_t := [mkWorkload 1 0 0 0].
Definition preempt_workload : list Workload_t :=
  [mkWorkload 5 0 0 0; mkWorkload 2 0 1 0].
Definition io_workload : list Workload_t :=
  [mkWorkload 5 3 0 0; mkWorkload 2 4 1 0; mkWorkload 7 2 1 0].

(** ** Emptying a priority queue

    The loop [while (tmp = Priority_Top(q)) { Priority_Dequeue(q); ... }]
    of [Simulator_Eval], returning what it visits, in order. *)
Fixpoint drain (fuel : nat) (m : Mem) (q : Priority_Queue_t)
  : option (list ProcessPtr_t * Priority_Queue_t) :=
  match fuel with
  | O => None
  | S fuel' =>
      t <- Priority_Top q ;;
      match t with
      | None => Some ([], q)
      | Some tmp =>
          '(q', _) <- Priority_Dequeue m q ;;
          '(l, q'') <- drain fuel' m q' ;;
          Some (tmp :: l, q'')
      end
  end.

(** A memory in which the process at address [p] has pid [p + 1] and
    [cpu_burst_time] [10 - p]. *)
Definition numbered_mem : Mem :=
  fun p => mkProcess (Z.of_nat p + 1) (10 - Z.of_nat p) 0 0 0 0 0.

(** ** What a step leaves of a process

    [times_only p p']: the objects [p] and [p'] differ at most in
    [waiting_time] and [turnaround_time]. *)
Definition times_only (p p' : Process_t) : Prop :=
  pid p' = pid p /\ cpu_burst_time p' = cpu_burst_time p /\
  io_burst_time p' = io_burst_time p /\ arrival_time p' = arrival_time p /\
  priority p' = priority p.

(** ** What the sub-steps before Execute leave alone

    [quiet s s']: from [s] to [s'] nothing is printed, and the counters,
    the flag, the number of processes, the terminated queue, the report
    fields and the [rand()] stream are the same. *)
Record quiet (s s' : Simulator_t) : Prop := mkQuiet {
  qt_num : num_process s' = num_process s;
  qt_terminated : terminated_processes s' = terminated_processes s;
  qt_flag : flag s' = flag s;
  qt_elapsed : elapsed_time s' = elapsed_time s;
  qt_idle : idle_time s' = idle_time s;
  qt_avg_waiting : avg_waiting_time s' = avg_waiting_time s;
  qt_avg_turnaround : avg_turnaround_time s' = avg_turnaround_time s;
  qt_max_waiting : max_waiting_time s' = max_waiting_time s;
  qt_src : rand_src s' = rand_src s;
  qt_output : output s' = output s
}.

(** The two memories agree on the fields no function of the simulator
    assigns after [Simulator_GenerateProcess]. *)
Definition static_frame (m m' : Mem) : Prop :=
  forall p, pid (m' p) = pid (m p) /\
            arrival_time (m' p) = arrival_time (m p) /\
            priority (m' p) = priority (m p).

(** An enqueue on the ready queue assigns to the ready queue only. *)
Definition enqueue_ready_only
  (enq : Simulator_t -> ProcessPtr_t -> option Simulator_t) : Prop :=
  forall s x s', enq s x = Some s' -> exists rq', s' = set_ready s rq'.

(** The blocks of the gantt chart. *)
Definition is_idle (o : Out_t) : bool :=
  match o with
  | Out_Idle => true
  | _ => false
  end.

Definition is_block (o : Out_t) : bool :=
  match o with
  | Out_Idle | Out_Gantt _ => true
  | _ => false
  end.

Definition idle_blocks (out : list Out_t) : Z :=
  Z.of_nat (length (filter is_idle out)).

(** [calm s s']: [quiet], and no [pid], [arrival_time] or [priority] is
    assigned. *)
Definition calm (s s' : Simulator_t) : Prop :=
  quiet s s' /\ static_frame (mem s) (mem s').

(** A process that holds the CPU still holds it. *)
Definition keeps_cur (s s' : Simulator_t) : Prop :=
  forall c, cur_cpu_burst s = Some c -> cur_cpu_burst s' = Some c.

(** The block of the gantt chart Execute prints for [s]. *)
Definition block_of (s : Simulator_t) : Out_t :=
  match cur_cpu_burst s with
  | Some cur => Out_Gantt (pid (mem s cur))
  | None => Out_Idle
  end.

(** [executes s s' ret]: what Execute, returning [ret], makes of the
    counters and of the output. *)
Record executes (s s' : Simulator_t) (ret : Z) : Prop := mkExecutes {
  ex_flag : flag s' = flag s;
  ex_num : num_process s' = num_process s;
  ex_src : rand_src s' = rand_src s;
  ex_elapsed : elapsed_time s' = elapsed_time s;
  ex_static : static_frame (mem s) (mem s');
  ex_idle : idle_time s' =
            if is_idle (block_of s) then uincr (idle_time s) else idle_time s;
  ex_ret : ret = 0 \/ ret = 1 /\ is_idle (block_of s) = false;
  ex_running : ret = 0 -> output s' = block_of s :: output s;
  ex_ended : ret <> 0 ->
             exists u wt tt,
               output s' =
               Out_Eval (uincr (elapsed_time s)) u wt tt
               :: block_of s :: output s
}.

(** ** The second invariant of the policy loops

    The comparator [Simulator_Init] gives to the ready heap of [fl]. *)
Definition ready_compare (fl : Z) : Mem -> ProcessPtr_t -> ProcessPtr_t -> bool :=
  if (fl =? NON_PREEMPTIVE_SJF) || (fl =? PREEMPTIVE_SJF) then SJF_Compare
  else Priority_Compare.

(** The ready queue, when it is a heap, is in heap order under that
    comparator. *)
Definition ready_heap_ok (fl : Z) (rq : ready_queue_t) (m : Mem) : Prop :=
  match rq with
  | ReadyFIFO _ => True
  | ReadyHeap q =>
      compare q = ready_compare fl /\ heap (ready_compare fl m) (top q)
  end.

(** The two memories agree on [cpu_burst_time]. *)
Definition cpu_frame (m m' : Mem) : Prop :=
  forall p, cpu_burst_time (m' p) = cpu_burst_time (m p).

(** With [Inv]: the processes the simulator refers to are the [N]
    processes [Simulator_GenerateProcess] made, the job queue is a heap
    under [Simulator_ArrivalTime_Compare], a terminated process has no
    CPU work left, the ready heap is in heap order, and the report fields
    are as [Simulator_Init] left them. *)
Record Inv2 (fl : Z) (N : nat) (s : Simulator_t) : Prop := mkInv2 {
  i2_inv : Inv fl s;
  i2_live : Permutation (live s) (seq 0 N);
  i2_num : num_process s = Z.of_nat N;
  i2_jobs_cmp :
    compare (generated_processes s) = Simulator_ArrivalTime_Compare;
  i2_jobs_heap :
    heap (Simulator_ArrivalTime_Compare (mem s))
         (top (generated_processes s));
  i2_done : forall p, In p (elements (top (terminated_processes s))) ->
                      cpu_burst_time (mem s p) = 0;
  i2_ready : ready_heap_ok fl (ready_queue s) (mem s);
  i2_avg_waiting : avg_waiting_time s = DFin 0;
  i2_avg_turnaround : avg_turnaround_time s = DFin 0;
  i2_max_waiting : max_waiting_time s = 0
}.

(** What the loops below expect of the enqueue on the ready queue, in
    addition to [enqueue_ready_ok]. *)
Definition enqueue_ready_heap (fl : Z)
  (enq : Simulator_t -> ProcessPtr_t -> option Simulator_t) : Prop :=
  forall s x rq',
    ready_wf (ready_queue s) ->
    Z.of_nat (length (ready_elements (ready_queue s))) + 1 < 2 ^ 30 ->
    enq s x = Some (set_ready s rq') ->
    ready_heap_ok fl (ready_queue s) (mem s) ->
    ready_heap_ok fl rq' (mem s).

(** ** Sums and maxima over processes

    The sum of field [f] over the processes [l], and the greatest value
    of [f] among them and [base]. *)
Definition total (f : Process_t -> Z) (m : Mem) (l : list ProcessPtr_t) : Z :=
  fold_right (fun p acc => f (m p) + acc) 0 l.

Definition greatest (f : Process_t -> Z) (m : Mem) (base : Z)
  (l : list ProcessPtr_t) : Z :=
  fold_right (fun p acc => Z.max (f (m p)) acc) base l.

(** The sum [Simulator_Eval] accumulates in a [double]: field [f] of
    the processes [l] is added to [acc], one process after the other,
    each addition rounded. *)
Definition running_sum (f : Process_t -> Z) (m : Mem)
  (l : list ProcessPtr_t) (acc : double) : double :=
  fold_left (fun a p => dadd a (double_of_uint (f (m p)))) l acc.

(** The simulator when the loop of a policy has returned: every queue
    is empty, each of the [N] processes has no CPU work left, and the
    report fields hold the means and the maximum over the [N] processes;
    a mean is the sum accumulated over the [N] processes, taken in some
    order, divided by [N]. *)
Record finished (N : nat) (s : Simulator_t) : Prop := mkFinished {
  fin_cur : cur_cpu_burst s = None;
  fin_jobs : elements (top (generated_processes s)) = [];
  fin_ready : ready_elements (ready_queue s) = [];
  fin_waiting : elements (top (waiting_queue s)) = [];
  fin_terminated : elements (top (terminated_processes s)) = [];
  fin_done : forall p, (p < N)%nat -> cpu_burst_time (mem s p) = 0;
  fin_means :
    exists order,
      Permutation order (seq 0 N) /\
      avg_waiting_time s =
      ddiv (running_sum waiting_time (mem s) order (DFin 0))
           (double_of_uint (Z.of_nat N)) /\
      avg_turnaround_time s =
      ddiv (running_sum turnaround_time (mem s) order (DFin 0))
           (double_of_uint (Z.of_nat N));
  fin_max_waiting :
    max_waiting_time s = greatest waiting_time (mem s) 0 (seq 0 N)
}.

(** ** Admission and dispatch

    The job queue holds the processes whose [arrival_time] has not
    passed. *)
Definition not_arrived (N : nat) (s : Simulator_t) : Prop :=
  forall p, (p < N)%nat ->
    (In p (elements (top (generated_processes s))) <->
     elapsed_time s <= arrival_time (mem s p)).

(** The field the ready heap of policy [fl] is ordered by. *)
Definition ready_key (fl : Z) (p : Process_t) : Z :=
  if (fl =? NON_PREEMPTIVE_SJF) || (fl =? PREEMPTIVE_SJF)
  then cpu_burst_time p
  else priority p.

(** ** CPU time

    The number of blocks of process [i] in the gantt chart. *)
Definition is_block_of (i : Z) (o : Out_t) : bool :=
  match o with
  | Out_Gantt j => j =? i
  | _ => false
  end.

Definition cpu_blocks (i : Z) (out : list Out_t) : Z :=
  Z.of_nat (length (filter (is_block_of i) out)).

(** [charged s s' ret]: what Execute, returning [ret], makes of the
    memory and of the terminated queue: the running process, if any, is
    charged one tick, and it is in the terminated queue when that was its
    last. *)
Definition charged (s s' : Simulator_t) (ret : Z) : Prop :=
  match cur_cpu_burst s with
  | Some c =>
      mem s' = burst_process (mem s) c /\
      (ret = 0 ->
       incl (elements (top (terminated_processes s)))
            (elements (top (terminated_processes s'))) /\
       (cpu_burst_time (mem s' c) = 0 ->
        In c (elements (top (terminated_processes s')))))
  | None => mem s' = mem s /\ terminated_processes s' = terminated_processes s
  end.

(** [accounted N cpu0 s]: process [p] has pid [p + 1]; the blocks it has
    in the chart and the CPU work it has left make up [cpu0 p]; it is in
    the terminated queue when it has no work left. *)
Record accounted (N : nat) (cpu0 : ProcessPtr_t -> Z) (s : Simulator_t)
  : Prop := mkAccounted {
  acc_pid : forall p, (p < N)%nat -> pid (mem s p) = Z.of_nat p + 1;
  acc_sum : forall p, (p < N)%nat ->
              cpu_blocks (Z.of_nat p + 1) (output s)
              + cpu_burst_time (mem s p) = cpu0 p;
  acc_left : forall p, (p < N)%nat -> 0 <= cpu_burst_time (mem s p);
  acc_zero : forall p, (p < N)%nat -> cpu_burst_time (mem s p) = 0 ->
               In p (elements (top (terminated_processes s)))
}.

(** The [cpu_burst_time] the workload gives to process [p]. *)
Definition workload_cpu (w : list Workload_t) (p : ProcessPtr_t) : Z :=
  match nth_error w p with
  | Some d => w_cpu_burst_time d
  | None => 0
  end.

(** ** Where the time of a process goes

    [balance p] is [turnaround_time - waiting_time + cpu_burst_time +
    io_burst_time] as an [unsigned int]: every assignment of the
    simulator after [Simulator_GenerateProcess] keeps it. *)
Definition balance (p : Process_t) : Z :=
  (turnaround_time p - waiting_time p + cpu_burst_time p + io_burst_time p)
  mod UINT_MOD.

Definition balance_frame (m m' : Mem) : Prop :=
  forall p, balance (m' p) = balance (m p) /\
            (0 <= turnaround_time (m p) < UINT_MOD ->
             0 <= turnaround_time (m' p) < UINT_MOD).

(** ** The random workload ([Simulator_GenerateProcess])

    [src] is the stream of values [rand()] returns after [srand]: the
    pool takes its first 500 values, process [i] the four values from
    [500 + 4 * i] on.  [data] is an array of [unsigned char]. *)
Definition pool_entry (i : nat) (r : Z) : Z :=
  (if (i <? 450)%nat then Z.rem r 10 + 1
   else if (i <? 475)%nat then Z.rem r 10 + 11
   else Z.rem r 20 + 21) mod 256.

Definition fill_pool (src : nat -> Z) : list Z :=
  map (fun i => pool_entry i (src i)) (seq 0 500).

(** The values drawn for one process, [next] being the index of the next
    value of the stream. *)
Definition draw_process (src : nat -> Z) (data : list Z) (N : Z) (next : nat)
  : Workload_t :=
  mkWorkload (nth (Z.to_nat (Z.rem (src next) 500)) data 0)
             (Z.rem (src (next + 1)%nat) 20 mod UINT_MOD)
             (Z.rem (src (next + 2)%nat) (N * 3) mod UINT_MOD)
             (Z.rem (src (next + 3)%nat) 41 - 20).

Fixpoint draw_processes (src : nat -> Z) (data : list Z) (N : Z)
  (next n : nat) : list Workload_t :=
  match n with
  | O => []
  | S n' =>
      draw_process src data N next
      :: draw_processes src data N (next + 4) n'
  end.

(** [None]: [N * 3] overflows an [int]. *)
Definition draw_workload (src : nat -> Z) (N : nat)
  : option (list Workload_t) :=
  if (0 <? N)%nat && (INT_MAX <? Z.of_nat N * 3) then None
  else Some (draw_processes src (fill_pool src) (Z.of_nat N) 500 N).

(** ** [main]

    The six simulators share the [rand()] stream: a simulator starts
    reading where the one before it stopped, the first after the 500
    values of the pool and the four values of each process. *)
Definition shift_src (src : nat -> Z) (k : nat) : nat -> Z :=
  fun j => src (k + j)%nat.

Definition policies : list Z :=
  [FCFS; NON_PREEMPTIVE_SJF; PREEMPTIVE_SJF; NON_PREEMPTIVE_PRIORITY;
   PREEMPTIVE_PRIORITY; ROUND_ROBIN].

Fixpoint start_all (m : Mem) (src : nat -> Z) (next : nat)
  (w : list Workload_t) (fuel : nat) (flags : list Z)
  : option (list Simulator_t) :=
  match flags with
  | [] => Some []
  | fl :: rest =>
      s <- simulate m (shift_src src next) fl w fuel ;;
      ss <- start_all m src (next + rand_next s) w fuel rest ;;
      Some (s :: ss)
  end.

(** Returns the six simulators and the rows of the summary. *)
Definition main (m : Mem) (src : nat -> Z) (N : nat) (fuel : nat)
  : option (list Simulator_t * list Out_t) :=
  w <- draw_workload src N ;;
  ss <- start_all m src (500 + 4 * N) w fuel policies ;;
  rows <- Simulator_Terminate ss ;;
  Some (ss, rows).

(** The processes of a small run of [main]. *)
Definition small_src : nat -> Z := fun n => Z.of_nat (n mod 7).

(** ** Turnaround

    [in_system s p]: process [p] is in the ready queue, on the CPU or in
    the waiting queue. *)
Definition in_system (s : Simulator_t) (p : ProcessPtr_t) : Prop :=
  In p (ready_elements (ready_queue s)) \/ cur_cpu_burst s = Some p \/
  In p (elements (top (waiting_queue s))).

(** The number of the tick of the latest block of process [i] in the
    gantt chart (the output is kept latest first); 0 when it has none. *)
Fixpoint finish_tick (i : Z) (out : list Out_t) : Z :=
  match out with
  | [] => 0
  | o :: rest =>
      if is_block_of i o then Z.of_nat (length (filter is_block rest))
      else finish_tick i rest
  end.

(** [clocked N s]: the chart has one block per elapsed tick; a process
    of the terminated queue has the [turnaround_time] of the ticks from
    its arrival to its last block, any other one that of the ticks since
    its arrival. *)
Record clocked (N : nat) (s : Simulator_t) : Prop := mkClocked {
  ck_blocks : Z.of_nat (length (filter is_block (output s))) = elapsed_time s;
  ck_done : forall p, (p < N)%nat ->
              In p (elements (top (terminated_processes s))) ->
              turnaround_time (mem s p) =
              finish_tick (Z.of_nat p + 1) (output s) + 1
              - arrival_time (mem s p);
  ck_live : forall p, (p < N)%nat ->
              ~ In p (elements (top (terminated_processes s))) ->
              turnaround_time (mem s p) =
              Z.max 0 (elapsed_time s - arrival_time (mem s p))
}.

(** ** The quantum of Round Robin *)

(** [held s0 n s tq]: a process that holds the CPU at the start of tick
    [n] of the Round Robin run from [s0] has held it since the end of
    tick [n - tq], at whose start the CPU was free. *)
Definition held (s0 : Simulator_t) (n : nat) (s : Simulator_t) (tq : Z)
  : Prop :=
  forall c, cur_cpu_burst s = Some c ->
    1 <= tq /\ (Z.to_nat tq <= n)%nat /\
    (exists s1,
       ticks ROUND_ROBIN (n - Z.to_nat tq) s0 0 = Some (s1, 0) /\
       cur_cpu_burst s1 = None) /\
    (forall j, (n - Z.to_nat tq < j <= n)%nat ->
       exists sj,
         ticks ROUND_ROBIN j s0 0 = Some (sj, tq - Z.of_nat (n - j)) /\
         cur_cpu_burst sj = Some c).

(** ** The range of the time fields *)

(** From [m] to [m'] no [waiting_time] and no [turnaround_time] leaves
    the range of [unsigned int]. *)
Definition times_frame (m m' : Mem) : Prop :=
  forall p,
    (0 <= waiting_time (m p) < UINT_MOD ->
     0 <= waiting_time (m' p) < UINT_MOD) /\
    (0 <= turnaround_time (m p) < UINT_MOD ->
     0 <= turnaround_time (m' p) < UINT_MOD).

(** ** Tactics *)

(** Permutations are settled by counting occurrences. *)
Ltac perm_hyps z :=
  repeat match goal with
  | H : Permutation ?a ?b |- _ =>
      let C := fresh "C" in
      pose proof (proj1 (Permutation_count_occ Nat.eq_dec a b) H z) as C;
      clear H
  end.

Ltac solve_perm :=
  let z := fresh "z" in
  cbn [elements] in *; unfold ProcessPtr_t in *;
  apply (Permutation_count_occ Nat.eq_dec); intro z; perm_hyps z;
  repeat rewrite count_occ_app in *; cbn [count_occ] in *;
  repeat rewrite count_occ_app in *; cbn [count_occ] in *;
  repeat match goal with
  | |- context [Nat.eq_dec ?a z] => destruct (Nat.eq_dec a z)
  | H : context [Nat.eq_dec ?a z] |- _ => destruct (Nat.eq_dec a z)
  end; lia.

(** Projections of updated simulators. *)
Ltac fields :=
  cbn [num_process generated_processes terminated_processes flag
       cur_cpu_burst ready_queue waiting_queue elapsed_time idle_time
       avg_waiting_time avg_turnaround_time max_waiting_time mem rand_src
       rand_next output
       set_num_process set_generated set_terminated set_cur set_ready
       set_waiting set_elapsed set_idle set_avg_waiting set_avg_turnaround
       set_max_waiting set_mem set_rand_next print next_tick
       waiting_Process_IO bind count top compare fst snd] in *.

(** One call of a policy loop against the same call inside [tick]. *)
Ltac stage :=
  match goal with
  | |- bind ?c _ = _ => destruct c as [?|]; cbn [bind]; [|reflexivity]
  end.

Ltac last_stage IH :=
  match goal with
  | |- bind ?c _ = _ =>
      first [ destruct c as [[[? ?] ?]|] | destruct c as [[? ?]|] ];
      cbn [bind]; [|reflexivity]
  end;
  match goal with
  | |- context [negb ?b] => destruct (negb b); [reflexivity|apply IH]
  end.

(** * Properties *)

(** ** The bits of [count] *)

Lemma pow2_pos (j : nat) : 0 < 2 ^ Z.of_nat j.
Proof. apply Z.pow_pos_nonneg; lia. Qed.

Lemma pow2_succ (j : nat) : 2 ^ Z.of_nat (S j) = 2 * 2 ^ Z.of_nat j.
Proof. rewrite Nat2Z.inj_succ, Z.pow_succ_r by lia. reflexivity. Qed.

Lemma land_pow2_testbit (j : nat) (c : Z) :
  (Z.land (2 ^ Z.of_nat j) c =? 0) = negb (Z.testbit c (Z.of_nat j)).
Proof.
  destruct (Z.testbit c (Z.of_nat j)) eqn:E; simpl.
  - apply Z.eqb_neq. intro H.
    assert (Z.testbit (Z.land (2 ^ Z.of_nat j) c) (Z.of_nat j) = true) as T.
    { rewrite Z.land_spec, Z.pow2_bits_true, E by lia. reflexivity. }
    rewrite H, Z.bits_0 in T. discriminate.
  - apply Z.eqb_eq. apply Z.bits_inj'. intros n Hn.
    rewrite Z.land_spec, Z.bits_0.
    destruct (Z.eq_dec (Z.of_nat j) n) as [<-|Hne].
    + rewrite E. apply andb_false_r.
    + rewrite Z.pow2_bits_false by lia. reflexivity.
Qed.

(** The bit of [c] tested by [pos & count] selects the child below which
    position [c] lies. *)
Lemma below_child (j : nat) (c i : Z) :
  below i (S j) c ->
  below (2 * i + Z.b2z (Z.testbit c (Z.of_nat j))) j c.
Proof.
  unfold below. rewrite pow2_succ. intros Hr.
  pose proof (pow2_pos j) as Hp.
  rewrite Z.testbit_spec' by lia.
  set (P := 2 ^ Z.of_nat j) in *.
  pose proof (Z.div_mod c P ltac:(lia)) as D.
  pose proof (Z.mod_pos_bound c P Hp) as B.
  set (q := c / P) in *.
  assert (Hq : q = 2 * i \/ q = 2 * i + 1) by nia.
  assert (Hm : q mod 2 = q - 2 * i).
  { destruct Hq as [Hq|Hq]; rewrite Hq.
    - rewrite (Z.mul_comm 2 i), Z.mod_mul by lia. lia.
    - rewrite (Z.add_comm (2 * i) 1), (Z.mul_comm 2 i), Z.mod_add by lia.
      change (1 mod 2) with 1. lia. }
  rewrite Hm. nia.
Qed.

Lemma below_parent (i : Z) (d : nat) (c : Z) :
  below (2 * i) d c \/ below (2 * i + 1) d c -> below i (S d) c.
Proof.
  unfold below. rewrite pow2_succ. pose proof (pow2_pos d). nia.
Qed.

Lemma pow2_split (a b : nat) :
  (a <= b)%nat -> 2 ^ Z.of_nat b = 2 ^ Z.of_nat a * 2 ^ Z.of_nat (b - a).
Proof.
  intros H. rewrite <- Z.pow_add_r by lia. f_equal. lia.
Qed.

(** A position below one child is not below the other. *)
Lemma sibling_not_below (i b : Z) (j d : nat) (c : Z) :
  1 <= i -> 0 <= b <= 1 ->
  below (2 * i + b) j c -> ~ below (2 * i + (1 - b)) d c.
Proof.
  unfold below. intros Hi Hb H1 H2.
  pose proof (pow2_pos j) as Pj. pose proof (pow2_pos d) as Pd.
  destruct (Nat.le_gt_cases d j) as [L|L].
  - rewrite (pow2_split L) in H1. pose proof (pow2_pos (j - d)) as Pm.
    set (D := 2 ^ Z.of_nat d) in *. set (M := 2 ^ Z.of_nat (j - d)) in *.
    assert ((2 * i + b) * M < 2 * i + (1 - b) + 1) by nia.
    assert (2 * i + (1 - b) < (2 * i + b + 1) * M) by nia.
    nia.
  - assert (L' : (j <= d)%nat) by lia.
    rewrite (pow2_split L') in H2.
    assert (Pm : 2 <= 2 ^ Z.of_nat (d - j)).
    { replace (d - j)%nat with (S (d - j - 1)) by lia. rewrite pow2_succ.
      pose proof (pow2_pos (d - j - 1)). lia. }
    set (P := 2 ^ Z.of_nat j) in *. set (M := 2 ^ Z.of_nat (d - j)) in *.
    assert ((2 * i + (1 - b)) * M < 2 * i + b + 1) by nia.
    nia.
Qed.

(** ** Shape of the tree *)

Lemma shape_incr (t : TreeNodePtr_t) :
  forall i n, shape i n t -> (forall d, ~ below i d (n + 1)) ->
              shape i (n + 1) t.
Proof.
  induction t as [|l IHl p r IHr]; simpl; intros i n H Hb.
  - specialize (Hb 0%nat). unfold below in Hb.
    change (2 ^ Z.of_nat 0) with 1 in Hb. lia.
  - destruct H as (Hi & Hl & Hr). repeat split.
    + lia.
    + apply IHl; auto. intros d Hd. apply (Hb (S d)).
      apply below_parent. auto.
    + apply IHr; auto. intros d Hd. apply (Hb (S d)).
      apply below_parent. auto.
Qed.

Lemma shape_decr (t : TreeNodePtr_t) :
  forall i n, shape i n t -> (forall d, ~ below i d n) ->
              shape i (n - 1) t.
Proof.
  induction t as [|l IHl p r IHr]; simpl; intros i n H Hb.
  - lia.
  - destruct H as (Hi & Hl & Hr). repeat split.
    + specialize (Hb 0%nat). unfold below in Hb.
      change (2 ^ Z.of_nat 0) with 1 in Hb. lia.
    + apply IHl; auto. intros d Hd. apply (Hb (S d)).
      apply below_parent. auto.
    + apply IHr; auto. intros d Hd. apply (Hb (S d)).
      apply below_parent. auto.
Qed.

Lemma shape_elements_nil (t : TreeNodePtr_t) (i n : Z) :
  shape i n t -> n < i -> t = NULL.
Proof. destruct t; simpl; auto. lia. Qed.

Lemma find_pos_from (c : Z) :
  forall (fuel j : nat),
    2 ^ Z.of_nat j <= c -> c < 2 ^ Z.of_nat (j + fuel) ->
    exists k : nat, (j <= k)%nat /\
      find_pos fuel (2 ^ Z.of_nat j) c = Some (2 ^ Z.of_nat k) /\
      below 1 k c.
Proof.
  induction fuel as [|fuel IH]; intros j Hlo Hhi.
  - replace (j + 0)%nat with j in Hhi by lia. lia.
  - cbn [find_pos]. rewrite Z.shiftl_mul_pow2, Z.pow_1_r, Z.mul_comm, <- pow2_succ by lia.
    destruct (Z.leb_spec (2 ^ Z.of_nat j) c) as [_|]; [|lia].
    destruct (Z.ltb_spec c (2 ^ Z.of_nat (S j))) as [Hlt|Hge]; simpl.
    + exists j. split; [lia|]. split; [reflexivity|].
      unfold below. rewrite pow2_succ in Hlt. lia.
    + destruct (IH (S j) Hge) as (k & Hk & E & B).
      * replace (S j + fuel)%nat with (j + S fuel)%nat by lia. exact Hhi.
      * exists k. split; [lia|]. split; assumption.
Qed.

Lemma find_pos_spec (c : Z) :
  2 <= c < 2 ^ 30 ->
  exists k : nat,
    find_pos POS_FUEL 2 c = Some (2 ^ Z.of_nat (S k)) /\ below 1 (S k) c.
Proof.
  intros [Hlo Hhi].
  destruct (@find_pos_from c POS_FUEL 1) as (k & Hk & E & B).
  - simpl. lia.
  - exact Hhi.
  - destruct k as [|k]; [lia|]. exists k. split; assumption.
Qed.

Lemma shiftr_pow2 (k : nat) :
  Z.shiftr (2 ^ Z.of_nat (S k)) 1 = 2 ^ Z.of_nat k.
Proof.
  rewrite Z.shiftr_div_pow2, Z.pow_1_r, pow2_succ by lia.
  rewrite Z.mul_comm, Z.div_mul by lia. reflexivity.
Qed.

Lemma two_leb_pow2 (k : nat) :
  (2 <=? 2 ^ Z.of_nat k) = match k with O => false | S _ => true end.
Proof.
  destruct k as [|k].
  - reflexivity.
  - rewrite pow2_succ. pose proof (pow2_pos k). apply Z.leb_le. lia.
Qed.

(** ** Permutations of the payloads *)

Lemma perm_node (l r : list ProcessPtr_t) (p : ProcessPtr_t) :
  Permutation (l ++ p :: r) (p :: l ++ r).
Proof. symmetry. apply Permutation_middle. Qed.

Lemma perm_insert_right (l r r' : list ProcessPtr_t) (p x : ProcessPtr_t) :
  Permutation r' (x :: r) -> Permutation (l ++ p :: r') (x :: l ++ p :: r).
Proof.
  intros H. rewrite H.
  rewrite (perm_node l (x :: r) p), (perm_node l r p).
  rewrite <- (Permutation_middle l r x). apply perm_swap.
Qed.

Lemma perm_insert_left (l l' r : list ProcessPtr_t) (p x : ProcessPtr_t) :
  Permutation l' (x :: l) -> Permutation (l' ++ p :: r) (x :: l ++ p :: r).
Proof. intros H. rewrite H. reflexivity. Qed.

Lemma perm_adjust_right (l r r' : list ProcessPtr_t) (p p' : ProcessPtr_t) :
  Permutation (p' :: r') (p :: r) -> Permutation (l ++ p' :: r') (l ++ p :: r).
Proof. intros H. apply Permutation_app_head. exact H. Qed.

Lemma perm_adjust_left (l l' r : list ProcessPtr_t) (p p' : ProcessPtr_t) :
  Permutation (p' :: l') (p :: l) -> Permutation (l' ++ p' :: r) (l ++ p :: r).
Proof.
  intros H. rewrite (perm_node l' r p'), (perm_node l r p).
  change (Permutation ((p' :: l') ++ r) ((p :: l) ++ r)).
  apply Permutation_app_tail. exact H.
Qed.

Lemma elements_nil (t : TreeNodePtr_t) : elements t = [] -> t = NULL.
Proof.
  destruct t as [|l p r]; simpl; auto. intros H.
  destruct (elements l); discriminate.
Qed.

(** ** [Priority_Enqueue]: the walk down and the swaps on the way up *)

Section HeapProofs.

Variable cmp : ProcessPtr_t -> ProcessPtr_t -> bool.

Lemma lower_bound_perm (p : ProcessPtr_t) (t t' : TreeNodePtr_t) :
  Permutation (elements t) (elements t') ->
  lower_bound cmp p t -> lower_bound cmp p t'.
Proof.
  unfold lower_bound. intros H F. rewrite Forall_forall in *.
  intros e He. apply F. apply Permutation_in with (elements t'); auto.
  symmetry. exact H.
Qed.

Lemma lower_bound_node (b p : ProcessPtr_t) (l r : TreeNodePtr_t) :
  lower_bound cmp b (Node l p r) <->
  cmp p b = false /\ lower_bound cmp b l /\ lower_bound cmp b r.
Proof.
  unfold lower_bound. simpl. rewrite Forall_app, Forall_cons_iff. tauto.
Qed.

(** Whatever is ahead of [p] is ahead of everything [p] is not behind. *)
Lemma lower_bound_ahead (x p : ProcessPtr_t) (t : TreeNodePtr_t) :
  strict_weak_order cmp ->
  cmp x p = true -> lower_bound cmp p t -> lower_bound cmp x t.
Proof.
  intros (_ & Tr & _) Hx. unfold lower_bound. apply Forall_impl.
  intros e He. destruct (cmp e x) eqn:E; auto.
  rewrite (Tr _ _ _ E Hx) in He. discriminate.
Qed.

Lemma lower_bound_behind (b q : ProcessPtr_t) (t : TreeNodePtr_t) :
  strict_weak_order cmp ->
  cmp q b = false -> lower_bound cmp q t -> lower_bound cmp b t.
Proof.
  intros (_ & _ & Nt) Hq. unfold lower_bound. apply Forall_impl.
  intros e He. apply Nt with q; assumption.
Qed.

Lemma heap_lower_bound (b : ProcessPtr_t) (t : TreeNodePtr_t) :
  strict_weak_order cmp ->
  heap cmp t -> (forall q, root_of t = Some q -> cmp q b = false) ->
  lower_bound cmp b t.
Proof.
  intros W H R. destruct t as [|l q r].
  - constructor.
  - simpl in H. destruct H as (Hl & Hr & _).
    specialize (R q eq_refl). apply lower_bound_node.
    repeat split; auto; apply lower_bound_behind with q; auto.
Qed.

Lemma adjust_up_spec (up : bool) (p x : ProcessPtr_t)
  (c0 c' o : TreeNodePtr_t) (i n : Z) :
  shape i n c' ->
  Permutation (elements c') (x :: elements c0) ->
  exists p' c'' up',
    adjust_up cmp up p c' = Some (p', c'', up') /\
    shape i n c'' /\
    Permutation (p' :: elements c'') (p :: elements c') /\
    (strict_weak_order cmp ->
     heap cmp c' -> lower_bound cmp p o -> lower_bound cmp p c0 ->
     (up = true -> root_of c' = Some x) ->
     (up = false -> root_of c' = root_of c0 /\
                    forall q, root_of c0 = Some q -> cmp x q = false) ->
     heap cmp c'' /\ lower_bound cmp p' o /\ lower_bound cmp p' c'' /\
     (up' = true -> p' = x) /\
     (up' = false -> p' = p /\ cmp x p = false)).
Proof.
  intros Sh Pm.
  destruct c' as [|cl y cr].
  { simpl in Pm. apply Permutation_nil in Pm. discriminate. }
  simpl. destruct (up && cmp y p) eqn:E.
  - apply andb_prop in E. destruct E as [-> Hy].
    exists y, (Node cl p cr), true. split; [reflexivity|]. split; [exact Sh|].
    split.
    { simpl. rewrite (perm_node (elements cl) (elements cr) p).
      rewrite (perm_node (elements cl) (elements cr) y). apply perm_swap. }
    intros W H Lo L0 Rt _. specialize (Rt eq_refl). simpl in Rt.
    injection Rt as ->. simpl in H. destruct H as (Hl & Hr & Hcl & Hcr).
    assert (Pm' : Permutation (elements cl ++ elements cr) (elements c0)).
    { apply Permutation_cons_inv with x.
      rewrite <- Pm. simpl. symmetry. apply perm_node. }
    assert (L0' : Forall (fun e => cmp e p = false)
                         (elements cl ++ elements cr)).
    { unfold lower_bound in L0. rewrite Forall_forall in *. intros e He.
      apply L0. apply Permutation_in with (elements cl ++ elements cr); auto. }
    apply Forall_app in L0'. destruct L0' as [Lcl Lcr].
    repeat split; auto.
    + apply lower_bound_ahead with p; auto.
    + apply lower_bound_node. repeat split; auto.
      destruct W as (As & _). apply As. exact Hy.
    + discriminate.
    + discriminate.
  - exists p, (Node cl y cr), false. split; [reflexivity|]. split; [exact Sh|].
    split; [reflexivity|].
    intros W H Lo L0 Rt Rf.
    assert (Hx : cmp x p = false).
    { destruct up.
      - specialize (Rt eq_refl). simpl in Rt. injection Rt as ->.
        simpl in E. exact E.
      - destruct (Rf eq_refl) as [R0 Rx]. simpl in R0.
        destruct W as (_ & _ & Nt). apply Nt with y.
        + symmetry in R0. destruct c0 as [|l0 q0 r0]; [discriminate|].
          simpl in R0. injection R0 as ->.
          apply lower_bound_node in L0. tauto.
        + apply Rx. symmetry. exact R0. }
    split; [exact H|]. split; [exact Lo|]. split; [|split; [discriminate|auto]].
    unfold lower_bound. rewrite Forall_forall. intros e He.
    apply (Permutation_in _ Pm) in He. destruct He as [<-|He]; auto.
    unfold lower_bound in L0. rewrite Forall_forall in L0. auto.
Qed.

Lemma insert_last_spec (x : ProcessPtr_t) (n : Z) :
  0 <= n ->
  forall (j : nat) (t : TreeNodePtr_t) (i : Z),
    1 <= i -> shape i n t -> below i (S j) (n + 1) ->
    exists t' up,
      insert_last cmp t (2 ^ Z.of_nat j) (n + 1) x = Some (t', up) /\
      shape i (n + 1) t' /\
      Permutation (elements t') (x :: elements t) /\
      (strict_weak_order cmp -> heap cmp t ->
       heap cmp t' /\
       (up = true -> root_of t' = Some x) /\
       (up = false -> root_of t' = root_of t /\
                      forall q, root_of t = Some q -> cmp x q = false)).
Proof.
  intros Hn. induction j as [|j IH]; intros t i Hi Sh Hb.
  - (* the new node hangs under [t] *)
    pose proof (below_child Hb) as Hc.
    destruct t as [|l p r].
    { exfalso. simpl in Sh. unfold below in Hb. rewrite pow2_succ in Hb.
      change (2 ^ Z.of_nat 0) with 1 in Hb. lia. }
    simpl in Sh. destruct Sh as (Hin & Shl & Shr).
    cbn [insert_last]. rewrite two_leb_pow2, land_pow2_testbit, negb_involutive.
    assert (Hc' : n + 1 = 2 * i + Z.b2z (Z.testbit (n + 1) (Z.of_nat 0))).
    { unfold below in Hc. change (2 ^ Z.of_nat 0) with 1 in Hc. lia. }
    assert (ShN : shape (n + 1) (n + 1) (Node NULL x NULL)).
    { cbn [shape]. lia. }
    destruct (Z.testbit (n + 1) (Z.of_nat 0)) eqn:B; simpl Z.b2z in *.
    + assert (r = NULL) as -> by (apply shape_elements_nil with (2 * i + 1) n; auto; lia).
      destruct (@adjust_up_spec true p x NULL (Node NULL x NULL) l _ _ ShN)
        as (p' & c'' & up' & E & Sh' & Pm' & Hp).
      { reflexivity. }
      rewrite E. cbn [bind]. exists (Node l p' c''), up'.
      split; [reflexivity|]. split.
      { simpl. repeat split; [lia| |].
        - apply shape_incr; auto. intros d.
          replace (2 * i) with (2 * i + (1 - 1)) by lia.
          apply sibling_not_below with 0%nat; try lia. exact Hc.
        - rewrite Hc' in Sh' at 1. exact Sh'. }
      split.
      { simpl. simpl in Pm'. rewrite (perm_adjust_right _ Pm').
        apply perm_insert_right. reflexivity. }
      intros W H. simpl in H. destruct H as (Ll & Lr & Hl & _).
      destruct Hp as (H'' & Lo & Lc & Ut & Uf); auto.
      { simpl. repeat split; constructor. }
      { discriminate. }
      split; [simpl; auto|]. split.
      * intros U. simpl. rewrite (Ut U). reflexivity.
      * intros U. destruct (Uf U) as [-> Hx]. simpl. split; auto.
        intros q [= <-]. exact Hx.
    + assert (l = NULL) as -> by (apply shape_elements_nil with (2 * i) n; auto; lia).
      destruct (@adjust_up_spec true p x NULL (Node NULL x NULL) r _ _ ShN)
        as (p' & c'' & up' & E & Sh' & Pm' & Hp).
      { reflexivity. }
      rewrite E. cbn [bind]. exists (Node c'' p' r), up'.
      split; [reflexivity|]. split.
      { simpl. repeat split; [lia| |].
        - replace (2 * i) with (n + 1) by lia. exact Sh'.
        - apply shape_incr; auto. intros d.
          replace (2 * i + 1) with (2 * i + (1 - 0)) by lia.
          apply sibling_not_below with 0%nat; try lia. exact Hc. }
      split.
      { simpl. simpl in Pm'. rewrite (perm_adjust_left _ Pm').
        reflexivity. }
      intros W H. simpl in H. destruct H as (Ll & Lr & _ & Hr).
      destruct Hp as (H'' & Lo & Lc & Ut & Uf); auto.
      { simpl. repeat split; constructor. }
      { discriminate. }
      split; [simpl; auto|]. split.
      * intros U. simpl. rewrite (Ut U). reflexivity.
      * intros U. destruct (Uf U) as [-> Hx]. simpl. split; auto.
        intros q [= <-]. exact Hx.
  - (* one more level down *)
    pose proof (below_child Hb) as Hc.
    destruct t as [|l p r].
    { exfalso. simpl in Sh. unfold below in Hb. rewrite !pow2_succ in Hb.
      pose proof (pow2_pos j). nia. }
    simpl in Sh. destruct Sh as (Hin & Shl & Shr).
    cbn [insert_last].
    rewrite two_leb_pow2, land_pow2_testbit, negb_involutive, shiftr_pow2.
    destruct (Z.testbit (n + 1) (Z.of_nat (S j))) eqn:B; simpl Z.b2z in *.
    + destruct (IH r (2 * i + 1)) as (r' & up & E & Sh' & Pm & Hp);
        [lia|auto|auto|].
      rewrite E. cbn [bind].
      destruct (@adjust_up_spec up p x r r' l _ _ Sh' Pm)
        as (p' & c'' & up' & E' & Sh'' & Pm' & Hq).
      rewrite E'. cbn [bind]. exists (Node l p' c''), up'.
      split; [reflexivity|]. split.
      { simpl. repeat split; [lia| |auto].
        apply shape_incr; auto. intros d.
        replace (2 * i) with (2 * i + (1 - 1)) by lia.
        apply sibling_not_below with (S j); try lia. exact Hc. }
      split.
      { simpl. rewrite (perm_adjust_right _ Pm').
        apply perm_insert_right. exact Pm. }
      intros W H. simpl in H. destruct H as (Ll & Lr & Hl & Hr).
      destruct (Hp W Hr) as (Hr' & Rt & Rf).
      destruct (Hq W Hr' Ll Lr Rt Rf) as (H'' & Lo & Lc & Ut & Uf).
      split; [simpl; auto|]. split.
      * intros U. simpl. rewrite (Ut U). reflexivity.
      * intros U. destruct (Uf U) as [-> Hx]. simpl. split; auto.
        intros q [= <-]. exact Hx.
    + destruct (IH l (2 * i)) as (l' & up & E & Sh' & Pm & Hp);
        [lia|auto| |].
      { replace (2 * i) with (2 * i + 0) by lia. exact Hc. }
      rewrite E. cbn [bind].
      destruct (@adjust_up_spec up p x l l' r _ _ Sh' Pm)
        as (p' & c'' & up' & E' & Sh'' & Pm' & Hq).
      rewrite E'. cbn [bind]. exists (Node c'' p' r), up'.
      split; [reflexivity|]. split.
      { simpl. repeat split; [lia|auto|].
        apply shape_incr; auto. intros d.
        replace (2 * i + 1) with (2 * i + (1 - 0)) by lia.
        apply sibling_not_below with (S j); try lia. exact Hc. }
      split.
      { simpl. rewrite (perm_adjust_left _ Pm').
        apply perm_insert_left. exact Pm. }
      intros W H. simpl in H. destruct H as (Ll & Lr & Hl & Hr).
      destruct (Hp W Hl) as (Hl' & Rt & Rf).
      destruct (Hq W Hl' Lr Ll Rt Rf) as (H'' & Lo & Lc & Ut & Uf).
      split; [simpl; auto|]. split.
      * intros U. simpl. rewrite (Ut U). reflexivity.
      * intros U. destruct (Uf U) as [-> Hx]. simpl. split; auto.
        intros q [= <-]. exact Hx.
Qed.

(** ** [Priority_Dequeue]: unlinking the last node and the walk down *)

Lemma lower_bound_remove (p x : ProcessPtr_t) (t t' : TreeNodePtr_t) :
  Permutation (elements t) (x :: elements t') ->
  lower_bound cmp p t -> lower_bound cmp p t'.
Proof.
  unfold lower_bound. intros H F. rewrite Forall_forall in *.
  intros e He. apply F. apply Permutation_in with (x :: elements t').
  - symmetry. exact H.
  - right. exact He.
Qed.

Lemma shape_leaf (t : TreeNodePtr_t) (n : Z) :
  1 <= n -> shape n n t -> exists y, t = Node NULL y NULL.
Proof.
  intros Hn Sh. destruct t as [|l y r]; simpl in Sh; [lia|].
  destruct Sh as (_ & Sl & Sr). exists y.
  rewrite (shape_elements_nil l Sl), (shape_elements_nil r Sr) by lia.
  reflexivity.
Qed.

Lemma remove_last_spec (n : Z) :
  forall (j : nat) (t : TreeNodePtr_t) (i : Z),
    1 <= i -> shape i n t -> below i (S j) n ->
    exists t' x,
      remove_last t (2 ^ Z.of_nat j) n = Some (t', x) /\
      shape i (n - 1) t' /\
      Permutation (elements t) (x :: elements t') /\
      root_of t' = root_of t /\ t' <> NULL /\
      (heap cmp t -> heap cmp t').
Proof.
  induction j as [|j IH]; intros t i Hi Sh Hb.
  - pose proof (below_child Hb) as Hc.
    assert (Hn : 2 * i <= n).
    { unfold below in Hb. rewrite pow2_succ in Hb.
      change (2 ^ Z.of_nat 0) with 1 in Hb. lia. }
    destruct t as [|l p r].
    { exfalso. simpl in Sh. lia. }
    simpl in Sh. destruct Sh as (Hin & Shl & Shr).
    cbn [remove_last]. rewrite two_leb_pow2, land_pow2_testbit, negb_involutive.
    assert (Hc' : n = 2 * i + Z.b2z (Z.testbit n (Z.of_nat 0))).
    { unfold below in Hc. change (2 ^ Z.of_nat 0) with 1 in Hc. lia. }
    destruct (Z.testbit n (Z.of_nat 0)) eqn:B; simpl Z.b2z in *.
    + rewrite <- Hc' in Shr. assert (Hn1 : 1 <= n) by lia.
      destruct (@shape_leaf r n Hn1 Shr) as [y ->].
      exists (Node l p NULL), y. split; [reflexivity|]. split.
      { simpl. repeat split; [lia| |lia].
        apply shape_decr; auto. intros d.
        replace (2 * i) with (2 * i + (1 - 1)) by lia.
        apply sibling_not_below with 0%nat; try lia. exact Hc. }
      split.
      { simpl. apply perm_insert_right. reflexivity. }
      split; [reflexivity|]. split; [discriminate|].
      simpl. intros (Ll & _ & Hl & _). repeat split; auto. constructor.
    + replace (2 * i) with n in Shl by lia. assert (Hn1 : 1 <= n) by lia.
      destruct (@shape_leaf l n Hn1 Shl) as [y ->].
      exists (Node NULL p r), y. split; [reflexivity|]. split.
      { simpl. repeat split; [lia|lia|].
        apply shape_decr; auto. intros d.
        replace (2 * i + 1) with (2 * i + (1 - 0)) by lia.
        apply sibling_not_below with 0%nat; try lia. exact Hc. }
      split.
      { simpl. reflexivity. }
      split; [reflexivity|]. split; [discriminate|].
      simpl. intros (_ & Lr & _ & Hr). repeat split; auto. constructor.
  - pose proof (below_child Hb) as Hc.
    assert (Hn : 2 * i <= n).
    { unfold below in Hb. rewrite !pow2_succ in Hb.
      pose proof (pow2_pos j). nia. }
    destruct t as [|l p r].
    { exfalso. simpl in Sh. lia. }
    simpl in Sh. destruct Sh as (Hin & Shl & Shr).
    cbn [remove_last].
    rewrite two_leb_pow2, Z.land_comm, land_pow2_testbit, negb_involutive,
      shiftr_pow2.
    destruct (Z.testbit n (Z.of_nat (S j))) eqn:B; simpl Z.b2z in *.
    + destruct (IH r (2 * i + 1)) as (r' & x & E & Sh' & Pm & Rt & Nn & Hp);
        [lia|auto|auto|].
      rewrite E. cbn [bind]. exists (Node l p r'), x.
      split; [reflexivity|]. split.
      { simpl. repeat split; [lia| |auto].
        apply shape_decr; auto. intros d.
        replace (2 * i) with (2 * i + (1 - 1)) by lia.
        apply sibling_not_below with (S j); try lia. exact Hc. }
      split.
      { simpl. apply perm_insert_right. exact Pm. }
      split; [reflexivity|]. split; [discriminate|].
      simpl. intros (Ll & Lr & Hl & Hr). repeat split; auto.
      apply lower_bound_remove with x r; auto.
    + destruct (IH l (2 * i)) as (l' & x & E & Sh' & Pm & Rt & Nn & Hp);
        [lia|auto| |].
      { replace (2 * i) with (2 * i + 0) by lia. exact Hc. }
      rewrite E. cbn [bind]. exists (Node l' p r), x.
      split; [reflexivity|]. split.
      { simpl. repeat split; [lia|auto|].
        apply shape_decr; auto. intros d.
        replace (2 * i + 1) with (2 * i + (1 - 0)) by lia.
        apply sibling_not_below with (S j); try lia. exact Hc. }
      split.
      { simpl. apply perm_insert_left. exact Pm. }
      split; [reflexivity|]. split; [discriminate|].
      simpl. intros (Ll & Lr & Hl & Hr). repeat split; auto.
      apply lower_bound_remove with x l; auto.
Qed.

Lemma sift_down_eq (x p : ProcessPtr_t) (l r : TreeNodePtr_t) :
  sift_down cmp x (Node l p r) =
  match l, r with
  | NULL, NULL => Some (Node NULL x NULL)
  | NULL, Node _ _ _ => None
  | Node _ lp _, NULL =>
      if cmp lp x then l' <- sift_down cmp x l ;; Some (Node l' lp NULL)
      else Some (Node l x NULL)
  | Node _ lp _, Node _ rp _ =>
      if cmp lp rp then
        if cmp lp x then l' <- sift_down cmp x l ;; Some (Node l' lp r)
        else Some (Node l x r)
      else
        if cmp rp x then r' <- sift_down cmp x r ;; Some (Node l rp r')
        else Some (Node l x r)
  end.
Proof. destruct l, r; reflexivity. Qed.

Lemma sift_down_spec (x : ProcessPtr_t) (n : Z) (t : TreeNodePtr_t) :
  forall i, shape i n t ->
    match t with
    | NULL => True
    | Node l _ r =>
        exists t',
          sift_down cmp x t = Some t' /\
          shape i n t' /\
          Permutation (elements t') (x :: elements l ++ elements r) /\
          (strict_weak_order cmp -> heap cmp l -> heap cmp r -> heap cmp t')
    end.
Proof.
  induction t as [|l IHl p r IHr]; intros i Sh; [exact I|].
  simpl in Sh. destruct Sh as (Hin & Shl & Shr).
  specialize (IHl _ Shl). specialize (IHr _ Shr).
  destruct l as [|ll lp lr]; destruct r as [|rl rp rr].
  - exists (Node NULL x NULL). simpl. repeat split; auto; try constructor.
  - exfalso. simpl in Shl, Shr. lia.
  - rewrite sift_down_eq; cbv match beta. destruct (cmp lp x) eqn:C.
    + destruct IHl as (l' & E & Sh' & Pm & Hp). rewrite E. cbn [bind].
      exists (Node l' lp NULL). split; [reflexivity|]. split.
      { simpl. repeat split; auto. }
      split.
      { solve_perm. }
      intros W (Lll & Llr & Hll & Hlr) _. simpl. repeat split; auto.
      * unfold lower_bound. rewrite Forall_forall. intros e He.
        apply (Permutation_in _ Pm) in He. destruct He as [<-|He].
        -- destruct W as (As & _). apply As. exact C.
        -- apply in_app_or in He. unfold lower_bound in Lll, Llr.
           rewrite Forall_forall in Lll, Llr. destruct He; auto.
      * constructor.
    + exists (Node (Node ll lp lr) x NULL). split; [reflexivity|]. split.
      { simpl. simpl in Shl. tauto. }
      split.
      { solve_perm. }
      intros W Hl _. cbn [heap]. split; [|split; [constructor|split; [exact Hl|exact I]]].
      apply heap_lower_bound; auto. intros q [= <-]. exact C.
  - rewrite sift_down_eq; cbv match beta. destruct (cmp lp rp) eqn:Clr.
    + destruct (cmp lp x) eqn:C.
      * destruct IHl as (l' & E & Sh' & Pm & Hp). rewrite E. cbn [bind].
        exists (Node l' lp (Node rl rp rr)). split; [reflexivity|]. split.
        { simpl. simpl in Shr. tauto. }
        split.
        { solve_perm. }
        intros W Hl Hr. pose proof Hl as (Lll & Llr & Hll & Hlr).
        cbn [heap]. split; [|split; [|split; [apply Hp; auto|exact Hr]]].
        -- unfold lower_bound. rewrite Forall_forall. intros e He.
           apply (Permutation_in _ Pm) in He. destruct He as [<-|He].
           ++ destruct W as (As & _). apply As. exact C.
           ++ apply in_app_or in He. unfold lower_bound in Lll, Llr.
              rewrite Forall_forall in Lll, Llr. destruct He; auto.
        -- apply heap_lower_bound; auto. intros q [= <-].
           destruct W as (As & _). apply As. exact Clr.
      * exists (Node (Node ll lp lr) x (Node rl rp rr)).
        split; [reflexivity|]. split.
        { simpl. simpl in Shl, Shr. tauto. }
        split.
        { solve_perm. }
        intros W Hl Hr.
        cbn [heap]. split; [|split; [|split; [exact Hl|exact Hr]]].
        -- apply heap_lower_bound; auto. intros q [= <-]. exact C.
        -- apply heap_lower_bound; auto. intros q [= <-].
           destruct W as (As & _ & Nt). apply Nt with lp; auto.
    + destruct (cmp rp x) eqn:C.
      * destruct IHr as (r' & E & Sh' & Pm & Hp). rewrite E. cbn [bind].
        exists (Node (Node ll lp lr) rp r'). split; [reflexivity|]. split.
        { simpl. simpl in Shl. tauto. }
        split.
        { solve_perm. }
        intros W Hl Hr. pose proof Hr as (Lrl & Lrr & Hrl & Hrr).
        cbn [heap]. split; [|split; [|split; [exact Hl|apply Hp; auto]]].
        -- apply heap_lower_bound; auto. intros q [= <-]. exact Clr.
        -- unfold lower_bound. rewrite Forall_forall. intros e He.
           apply (Permutation_in _ Pm) in He. destruct He as [<-|He].
           ++ destruct W as (As & _). apply As. exact C.
           ++ apply in_app_or in He. unfold lower_bound in Lrl, Lrr.
              rewrite Forall_forall in Lrl, Lrr. destruct He; auto.
      * exists (Node (Node ll lp lr) x (Node rl rp rr)).
        split; [reflexivity|]. split.
        { simpl. simpl in Shl, Shr. tauto. }
        split.
        { solve_perm. }
        intros W Hl Hr.
        cbn [heap]. split; [|split; [|split; [exact Hl|exact Hr]]].
        -- apply heap_lower_bound; auto. intros q [= <-].
           destruct W as (As & _ & Nt). apply Nt with rp; auto.
        -- apply heap_lower_bound; auto. intros q [= <-]. exact C.
Qed.

End HeapProofs.

(** ** The two forms of heap order *)

Lemma heap_heap_ordered (cmp : ProcessPtr_t -> ProcessPtr_t -> bool)
  (t : TreeNodePtr_t) : heap cmp t -> heap_ordered cmp t.
Proof.
  induction t as [|l IHl p r IHr]; simpl; auto.
  intros (Ll & Lr & Hl & Hr). repeat split; auto.
  - destruct l as [|ll x lr]; simpl; auto.
    apply lower_bound_node in Ll. tauto.
  - destruct r as [|rl x rr]; simpl; auto.
    apply lower_bound_node in Lr. tauto.
Qed.

Lemma heap_ordered_heap (cmp : ProcessPtr_t -> ProcessPtr_t -> bool)
  (t : TreeNodePtr_t) :
  strict_weak_order cmp -> heap_ordered cmp t -> heap cmp t.
Proof.
  intros W. induction t as [|l IHl p r IHr]; simpl; auto.
  intros (Rl & Rr & Hl & Hr). repeat split; auto.
  - apply heap_lower_bound; auto. intros q E.
    destruct l; simpl in *; [discriminate|]. injection E as <-. exact Rl.
  - apply heap_lower_bound; auto. intros q E.
    destruct r; simpl in *; [discriminate|]. injection E as <-. exact Rr.
Qed.

(** ** The comparators are strict weak orders *)

Lemma lex_strict_weak_order (key : Process_t -> Z) (m : Mem) :
  strict_weak_order
    (fun a b => if negb (key (m a) =? key (m b))
                then key (m a) <? key (m b)
                else pid (m a) <? pid (m b)).
Proof.
  repeat split.
  - intros a b.
    destruct (Z.eqb_spec (key (m a)) (key (m b)));
      destruct (Z.eqb_spec (key (m b)) (key (m a))); simpl;
      rewrite ?Z.ltb_lt, ?Z.ltb_ge; lia.
  - intros a b c.
    destruct (Z.eqb_spec (key (m a)) (key (m b)));
      destruct (Z.eqb_spec (key (m b)) (key (m c)));
      destruct (Z.eqb_spec (key (m a)) (key (m c))); simpl;
      rewrite ?Z.ltb_lt; lia.
  - intros a b c.
    destruct (Z.eqb_spec (key (m b)) (key (m a)));
      destruct (Z.eqb_spec (key (m c)) (key (m b)));
      destruct (Z.eqb_spec (key (m c)) (key (m a))); simpl;
      rewrite ?Z.ltb_ge; lia.
Qed.

Lemma SJF_Compare_swo (m : Mem) : strict_weak_order (SJF_Compare m).
Proof. exact (lex_strict_weak_order cpu_burst_time m). Qed.

Lemma Priority_Compare_swo (m : Mem) : strict_weak_order (Priority_Compare m).
Proof. exact (lex_strict_weak_order priority m). Qed.

Lemma IO_Burst_Compare_swo (m : Mem) : strict_weak_order (IO_Burst_Compare m).
Proof. exact (lex_strict_weak_order io_burst_time m). Qed.

Lemma ArrivalTime_Compare_swo (m : Mem) :
  strict_weak_order (Simulator_ArrivalTime_Compare m).
Proof. exact (lex_strict_weak_order arrival_time m). Qed.

Lemma comparators_swo (c : Mem -> ProcessPtr_t -> ProcessPtr_t -> bool)
  (m : Mem) : In c comparators -> strict_weak_order (c m).
Proof.
  unfold comparators. simpl.
  intros [<-|[<-|[<-|[<-|[]]]]];
    auto using SJF_Compare_swo, Priority_Compare_swo, IO_Burst_Compare_swo,
               ArrivalTime_Compare_swo.
Qed.

(** ** [Priority_Enqueue] and [Priority_Dequeue] on a well-formed queue *)

Lemma pq_wf_empty (q : Priority_Queue_t) :
  pq_wf q -> count q = 0 -> top q = NULL.
Proof.
  intros (_ & Sh & _) E. rewrite E in Sh.
  apply shape_elements_nil with 1 0; auto. lia.
Qed.

Lemma Priority_Enqueue_spec (m : Mem) (q : Priority_Queue_t)
  (x : ProcessPtr_t) :
  pq_wf q -> count q + 1 < 2 ^ 30 ->
  exists q',
    Priority_Enqueue m q x = Some q' /\
    pq_wf q' /\ count q' = count q + 1 /\ compare q' = compare q /\
    Permutation (elements (top q')) (x :: elements (top q)) /\
    (strict_weak_order (compare q m) ->
     heap (compare q m) (top q) -> heap (compare q m) (top q')).
Proof.
  intros Wf Hc. pose proof Wf as (H0 & Sh & Hl). unfold Priority_Enqueue.
  destruct (Z.eqb_spec (count q) 0) as [E|E].
  - rewrite (pq_wf_empty Wf E). eexists. split; [reflexivity|].
    unfold pq_wf. cbn [count top compare shape elements heap app length].
    rewrite E. repeat split; auto; try lia; constructor.
  - destruct (@find_pos_spec (count q + 1)) as (k & Ep & Hb); [lia|].
    rewrite Ep. cbn [bind]. rewrite shiftr_pow2.
    destruct (@insert_last_spec (compare q m) x (count q) H0 k (top q) 1)
      as (t' & up & Ei & Sh' & Pm & Hp); [lia|exact Sh|exact Hb|].
    rewrite Ei. cbn [bind]. eexists. split; [reflexivity|].
    unfold pq_wf. cbn [count top compare].
    repeat split; auto; try lia.
    + rewrite (Permutation_length Pm). cbn [length]. lia.
    + intros W H. apply Hp; auto.
Qed.

Lemma Priority_Dequeue_spec (m : Mem) (q : Priority_Queue_t) :
  pq_wf q -> count q < 2 ^ 30 -> 0 < count q ->
  exists q' x,
    Priority_Dequeue m q = Some (q', 1) /\
    root_of (top q) = Some x /\
    pq_wf q' /\ count q' = count q - 1 /\ compare q' = compare q /\
    Permutation (elements (top q)) (x :: elements (top q')) /\
    (strict_weak_order (compare q m) ->
     heap (compare q m) (top q) -> heap (compare q m) (top q')).
Proof.
  intros Wf Hc Hp. pose proof Wf as (H0 & Sh & Hl). unfold Priority_Dequeue.
  destruct (Z.eqb_spec (count q) 0) as [E|E]; [lia|].
  destruct (Z.eqb_spec (count q) 1) as [E1|E1].
  - rewrite E1 in Sh. destruct (@shape_leaf (top q) 1) as [y Et]; auto; [lia|].
    exists (mkPQ (count q - 1) NULL (compare q)), y.
    rewrite Et. unfold pq_wf.
    cbn [count top compare shape elements heap root_of app length].
    repeat split; auto; try lia.
  - destruct (@find_pos_spec (count q)) as (k & Ep & Hb); [lia|].
    rewrite Ep. cbn [bind]. rewrite shiftr_pow2.
    destruct (@remove_last_spec (compare q m) (count q) k (top q) 1)
      as (t1 & y & Er & Sh1 & Pm1 & Rt & Nn & Hh); [lia|exact Sh|exact Hb|].
    rewrite Er. cbn [bind].
    destruct t1 as [|l1 p r1]; [congruence|].
    destruct (@sift_down_spec (compare q m) y (count q - 1) (Node l1 p r1) 1 Sh1)
      as (t' & Es & Sh' & Pm' & Hs).
    rewrite Es. cbn [bind].
    exists (mkPQ (count q - 1) t' (compare q)), p.
    unfold pq_wf. cbn [count top compare].
    split; [reflexivity|]. split; [symmetry; exact Rt|].
    assert (Pm2 : Permutation (elements (top q)) (p :: elements t')).
    { solve_perm. }
    split; [split; [lia|split; [exact Sh'|]]|].
    { rewrite Hl, (Permutation_length Pm2). cbn [length]. lia. }
    split; [reflexivity|]. split; [reflexivity|]. split.
    + exact Pm2.
    + intros W H. specialize (Hh H). simpl in Hh.
      apply Hs; tauto.
Qed.

Lemma Priority_Dequeue_empty (m : Mem) (q : Priority_Queue_t) :
  count q = 0 -> Priority_Dequeue m q = Some (q, 0).
Proof. intros E. unfold Priority_Dequeue. rewrite E. reflexivity. Qed.

Lemma Priority_Top_spec (q : Priority_Queue_t) :
  pq_wf q -> Priority_Top q = Some (root_of (top q)).
Proof.
  intros Wf. unfold Priority_Top. destruct (Z.eqb_spec (count q) 0) as [E|E].
  - rewrite (pq_wf_empty Wf E). reflexivity.
  - destruct Wf as (H0 & Sh & _). destruct (top q); simpl in *; [lia|reflexivity].
Qed.

(** ** Sequences of calls *)

Lemma pq_run_heap (m : Mem) (ops : list pq_op) :
  forall q,
    pq_wf q -> count q + Z.of_nat (length ops) < 2 ^ 30 ->
    strict_weak_order (compare q m) -> heap (compare q m) (top q) ->
    exists q',
      pq_run m ops q = Some q' /\ pq_wf q' /\ compare q' = compare q /\
      heap (compare q m) (top q').
Proof.
  induction ops as [|op ops IH]; intros q Wf Hc W H.
  - exists q. auto.
  - cbn [length] in Hc. rewrite Nat2Z.inj_succ in Hc.
    destruct op as [p|]; cbn [pq_run].
    + destruct (@Priority_Enqueue_spec m q p Wf) as (q1 & E & Wf1 & C1 & Cm & _ & Hh);
        [lia|].
      rewrite E. cbn [bind].
      destruct (IH q1) as (q' & E' & Wf' & Cm' & H'); auto.
      * lia.
      * rewrite Cm. exact W.
      * rewrite Cm. auto.
      * exists q'. rewrite <- Cm. rewrite <- Cm' at 1. auto.
    + destruct (Z.eq_dec (count q) 0) as [E0|E0].
      * rewrite (Priority_Dequeue_empty m q E0). cbn [bind].
        apply IH; auto. lia.
      * pose proof Wf as (H0 & _).
        destruct (@Priority_Dequeue_spec m q Wf)
          as (q1 & x & E & _ & Wf1 & C1 & Cm & _ & Hh); [lia|lia|].
        rewrite E. cbn [bind].
        destruct (IH q1) as (q' & E' & Wf' & Cm' & H'); auto.
        -- lia.
        -- rewrite Cm. exact W.
        -- rewrite Cm. auto.
        -- exists q'. rewrite <- Cm. rewrite <- Cm' at 1. auto.
Qed.

(** [n] insertions in a row, as long as the queue stays below [2^30]
    nodes. *)
Lemma pq_run_enqueues (m : Mem) (p : ProcessPtr_t) (rest : list pq_op) :
  forall (n : nat) q,
    pq_wf q -> count q + Z.of_nat n < 2 ^ 30 ->
    exists q',
      pq_wf q' /\ count q' = count q + Z.of_nat n /\
      pq_run m (repeat (PEnqueue p) n ++ rest) q = pq_run m rest q'.
Proof.
  induction n as [|n IH]; intros q Wf Hc.
  - exists q. split; [exact Wf|]. split; [lia|reflexivity].
  - cbn [repeat app pq_run].
    destruct (@Priority_Enqueue_spec m q p Wf) as (q1 & -> & Wf1 & C1 & _);
      [lia|].
    cbn [bind].
    destruct (IH q1 Wf1) as (q' & W & C & E); [lia|].
    exists q'. split; [exact W|]. split; [lia|exact E].
Qed.

Lemma shiftl_1 (pos : Z) : Z.shiftl pos 1 = 2 * pos.
Proof. rewrite Z.shiftl_mul_pow2 by lia. change (2 ^ 1) with 2. lia. Qed.

(** From [2^30] on, the search for the last node shifts [pos] out of
    [int]. *)
Lemma find_pos_large (c : Z) :
  2 ^ 30 <= c ->
  forall (fuel j : nat),
    (j + fuel <= 30)%nat -> find_pos fuel (2 ^ Z.of_nat j) c = None.
Proof.
  intros Hc. induction fuel as [|fuel IH]; intros j Hj; [reflexivity|].
  cbn [find_pos]. rewrite shiftl_1, <- pow2_succ.
  assert (L : 2 ^ Z.of_nat (S j) <= 2 ^ 30).
  { apply Z.pow_le_mono_r; lia. }
  destruct (Z.ltb_spec c (2 ^ Z.of_nat (S j))); [lia|].
  rewrite andb_false_r. apply IH. lia.
Qed.

Lemma Priority_Enqueue_full (m : Mem) (q : Priority_Queue_t)
  (x : ProcessPtr_t) :
  2 ^ 30 - 1 <= count q -> Priority_Enqueue m q x = None.
Proof.
  intros H. unfold Priority_Enqueue.
  destruct (Z.eqb_spec (count q) 0) as [Z0|_]; [lia|].
  assert (F : find_pos POS_FUEL 2 (count q + 1) = None).
  { apply (@find_pos_large (count q + 1)) with (j := 1%nat); [lia|].
    apply Nat.le_refl. }
  rewrite F. reflexivity.
Qed.



(** ** FIFO order *)

Lemma Queue_Enqueue_items (q : Queue_t) (p : ProcessPtr_t) :
  queue_wf q -> q_count q < INT_MAX ->
  exists q',
    Queue_Enqueue q p = Some q' /\ items q' = items q ++ [p] /\
    queue_wf q' /\ q_count q' = q_count q + 1.
Proof.
  unfold queue_wf, Queue_Enqueue. intros Wf Hc.
  destruct (Z.leb_spec INT_MAX (q_count q)) as [L|_]; [lia|].
  destruct (Z.eqb_spec (q_count q) 0) as [E|E].
  - eexists. split; [reflexivity|]. cbn [items q_count].
    destruct (items q); [|cbn [length] in Wf; lia]. simpl. repeat split. lia.
  - destruct (items q) as [|x l] eqn:Ei; [cbn [length] in Wf; lia|].
    eexists. split; [reflexivity|]. cbn [items q_count]. repeat split.
    rewrite length_app. cbn [length] in *. lia.
Qed.

Lemma Queue_Enqueue_full (q : Queue_t) (p : ProcessPtr_t) :
  INT_MAX <= q_count q -> Queue_Enqueue q p = None.
Proof.
  intros H. unfold Queue_Enqueue.
  destruct (Z.leb_spec INT_MAX (q_count q)); [reflexivity|lia].
Qed.

Lemma Queue_Dequeue_items (q : Queue_t) :
  queue_wf q ->
  match items q with
  | [] => Queue_Front q = Some None /\ Queue_Dequeue q = Some (q, 0)
  | p :: rest =>
      Queue_Front q = Some (Some p) /\
      exists q', Queue_Dequeue q = Some (q', 1) /\ items q' = rest /\
                 queue_wf q'
  end.
Proof.
  unfold queue_wf, Queue_Front, Queue_Dequeue. intros Wf.
  destruct (items q) as [|p rest] eqn:E; cbn [length] in Wf.
  - rewrite Wf. simpl. auto.
  - destruct (Z.eqb_spec (q_count q) 0); [lia|]. split; auto.
    eexists. split; [reflexivity|]. cbn [items q_count]. split; auto. lia.
Qed.

Lemma Queue_Dequeue_count (q q' : Queue_t) (r : Z) :
  queue_wf q -> Queue_Dequeue q = Some (q', r) -> q_count q' <= q_count q.
Proof.
  unfold Queue_Dequeue. intros _ E.
  destruct (q_count q =? 0); [injection E as <- _; lia|].
  destruct (items q); [discriminate|]. injection E as <- _.
  cbn [q_count]. lia.
Qed.

(** The calls succeed as long as [count] stays an [int]. *)
Lemma queue_run_fifo (ops : list q_op) :
  forall q removed,
    queue_wf q ->
    q_count q + Z.of_nat (length ops) <= INT_MAX ->
    exists q' removed',
      queue_run ops q removed = Some (q', removed') /\
      removed' ++ items q' = removed ++ items q ++ enqueued ops.
Proof.
  induction ops as [|[p|] ops IH]; intros q removed Wf Hc;
    cbn [queue_run enqueued]; cbn [length] in Hc.
  - exists q, removed. rewrite app_nil_r. auto.
  - destruct (@Queue_Enqueue_items q p Wf) as (q1 & -> & Ei & Wf' & Ec); [lia|].
    cbn [bind].
    destruct (IH q1 removed Wf') as (q' & r' & E & H); [lia|].
    exists q', r'. split; auto. rewrite H, Ei, <- app_assoc. reflexivity.
  - pose proof (Queue_Dequeue_items Wf) as D.
    destruct (items q) as [|p rest] eqn:Ei.
    + destruct D as [-> ->]. cbn [bind].
      destruct (IH q removed Wf) as (q' & r' & E & H); [lia|].
      exists q', r'. split; auto. rewrite H, Ei. reflexivity.
    + destruct D as (-> & q1 & D & Ei1 & Wf1).
      pose proof (Queue_Dequeue_count Wf D) as Lc. rewrite D. cbn [bind].
      destruct (IH q1 (removed ++ [p]) Wf1) as (q' & r' & E & H); [lia|].
      exists q', r'. split; auto. rewrite H, Ei1, <- app_assoc. reflexivity.
Qed.

(** [n] insertions in a row, as long as [count] stays an [int]. *)
Lemma queue_run_enqueues (p : ProcessPtr_t) (rest : list q_op) :
  forall (n : nat) q removed,
    queue_wf q ->
    q_count q + Z.of_nat n <= INT_MAX ->
    exists q',
      queue_wf q' /\ q_count q' = q_count q + Z.of_nat n /\
      queue_run (repeat (QEnqueue p) n ++ rest) q removed =
      queue_run rest q' removed.
Proof.
  induction n as [|n IH]; intros q removed Wf Hc.
  - exists q. repeat split; [exact Wf|lia].
  - cbn [repeat app queue_run].
    destruct (@Queue_Enqueue_items q p Wf) as (q1 & -> & _ & Wf' & Ec); [lia|].
    cbn [bind].
    destruct (IH q1 removed Wf') as (q' & W & C & E); [lia|].
    exists q'. repeat split; [exact W|lia|exact E].
Qed.




(** ** Concrete runs *)

(** C9. FCFS over the single process [cpu_burst_time = 5],
    [io_burst_time = 0], [arrival_time = 0], [priority = 0]: the
    simulation ends in its fifth tick with [elapsed_time = 4] and
    [idle_time = 0]; the process has run to [cpu_burst_time = 0] with
    [waiting_time = 0] and [turnaround_time = 5]. *)
Theorem scenario_A_fcfs_single_process (m : Mem) (src : nat -> Z) :
  simulate m src FCFS [mkWorkload 5 0 0 0] 4 = None /\
  exists s,
    simulate m src FCFS [mkWorkload 5 0 0 0] 5 = Some s /\
    cpu_burst_time (mem s 0%nat) = 0 /\
    waiting_time (mem s 0%nat) = 0 /\
    turnaround_time (mem s 0%nat) = 5 /\
    elapsed_time s = 4 /\
    idle_time s = 0.
Proof.
  split; [vm_compute; reflexivity|].
  eexists. split; [vm_compute; reflexivity|].
  repeat split; vm_compute; reflexivity.
Qed.

(** ** The invariant of the policy loops *)

Lemma heap_ext_in (cmp cmp' : ProcessPtr_t -> ProcessPtr_t -> bool)
  (t : TreeNodePtr_t) :
  (forall a b, In a (elements t) -> In b (elements t) -> cmp' a b = cmp a b) ->
  heap cmp t -> heap cmp' t.
Proof.
  induction t as [|l IHl p r IHr]; simpl; auto.
  intros E (Ll & Lr & Hl & Hr).
  assert (Il : forall a, In a (elements l) -> In a (elements l ++ p :: elements r)).
  { intros a Ha. apply in_or_app. auto. }
  assert (Ir : forall a, In a (elements r) -> In a (elements l ++ p :: elements r)).
  { intros a Ha. apply in_or_app. right. right. exact Ha. }
  assert (Ip : In p (elements l ++ p :: elements r)).
  { apply in_or_app. right. left. reflexivity. }
  unfold lower_bound in *. rewrite Forall_forall in Ll, Lr.
  split; [|split; [|split]].
  - rewrite Forall_forall. intros e He. rewrite E; auto.
  - rewrite Forall_forall. intros e He. rewrite E; auto.
  - apply IHl; auto.
  - apply IHr; auto.
Qed.

Lemma heap_ext (cmp cmp' : ProcessPtr_t -> ProcessPtr_t -> bool)
  (t : TreeNodePtr_t) :
  (forall a b, cmp' a b = cmp a b) -> heap cmp t -> heap cmp' t.
Proof. intros E. apply heap_ext_in. intros. apply E. Qed.

Lemma IO_Burst_Compare_frame (m m' : Mem) :
  io_frame m m' ->
  forall a b, IO_Burst_Compare m' a b = IO_Burst_Compare m a b.
Proof.
  intros F a b. unfold IO_Burst_Compare.
  destruct (F a) as [-> ->]. destruct (F b) as [-> ->]. reflexivity.
Qed.

Lemma io_frame_refl (m : Mem) : io_frame m m.
Proof. intros p. auto. Qed.

Lemma io_frame_trans (m1 m2 m3 : Mem) :
  io_frame m1 m2 -> io_frame m2 m3 -> io_frame m1 m3.
Proof.
  intros F G p. destruct (F p) as [A B]. destruct (G p) as [C D].
  split; congruence.
Qed.

Lemma Inv_update (fl : Z) (s s' : Simulator_t) :
  Inv fl s ->
  pq_wf (generated_processes s') ->
  pq_wf (terminated_processes s') ->
  pq_wf (waiting_queue s') ->
  ready_wf (ready_queue s') ->
  ready_is_fifo (ready_queue s') = fifo_policy fl ->
  Permutation (live s') (live s) ->
  compare (waiting_queue s') = IO_Burst_Compare ->
  heap (IO_Burst_Compare (mem s')) (top (waiting_queue s')) ->
  (forall p, In p (live s) -> 0 <= io_burst_time (mem s' p) < UINT_MOD) ->
  Inv fl s'.
Proof.
  intros I J T W R K P C H O. constructor; auto.
  - apply Permutation_NoDup with (live s); [symmetry; exact P|].
    apply (inv_nodup I).
  - rewrite (Permutation_length P). apply (inv_size I).
  - intros p Hp. apply O. apply Permutation_in with (live s'); auto.
Qed.

(** A change of memory that leaves [io_burst_time] and [pid] alone. *)
Lemma Inv_frame (fl : Z) (s : Simulator_t) (m' : Mem) :
  Inv fl s -> io_frame (mem s) m' -> Inv fl (set_mem s m').
Proof.
  intros I F. apply Inv_update with s; fields; try apply I.
  - reflexivity.
  - apply heap_ext with (IO_Burst_Compare (mem s)).
    + apply IO_Burst_Compare_frame. exact F.
    + apply I.
  - intros p Hp. destruct (F p) as [-> _]. apply (inv_io I). exact Hp.
Qed.

Lemma ready_Queue_Enqueue_ok (fl : Z) :
  fifo_policy fl = true -> enqueue_ready_ok fl ready_Queue_Enqueue.
Proof.
  intros Hf s x Wf K Hl. unfold ready_Queue_Enqueue.
  destruct (ready_queue s) as [q|q]; simpl in K; [|congruence].
  simpl in Wf, Hl.
  destruct (@Queue_Enqueue_items q x Wf) as (q1 & -> & Ei & Wf' & _).
  { unfold queue_wf in Wf. unfold INT_MAX. lia. }
  cbn [bind]. eexists. split; [reflexivity|].
  cbn [ready_elements ready_wf ready_is_fifo]. repeat split; auto.
  rewrite Ei. symmetry. apply Permutation_cons_append.
Qed.

Lemma ready_Priority_Enqueue_ok (fl : Z) :
  fifo_policy fl = false -> enqueue_ready_ok fl ready_Priority_Enqueue.
Proof.
  intros Hf s x Wf K B. unfold ready_Priority_Enqueue.
  destruct (ready_queue s) as [q|q]; simpl in K; [congruence|].
  simpl in Wf, B. pose proof Wf as (_ & _ & Hl).
  destruct (@Priority_Enqueue_spec (mem s) q x Wf) as (q' & E & Wf' & _ & _ & Pm & _);
    [lia|].
  rewrite E. cbn [bind]. eexists. split; [reflexivity|].
  cbn [ready_elements ready_wf ready_is_fifo].
  repeat split; auto; try apply Wf'. congruence.
Qed.

Lemma pq_nonempty (q : Priority_Queue_t) :
  pq_wf q -> count q <> 0 ->
  exists x, root_of (top q) = Some x /\ In x (elements (top q)) /\
            0 < count q.
Proof.
  intros (H0 & Sh & Hl) Hn. destruct (top q) as [|l x r].
  - simpl in Hl. lia.
  - exists x. simpl. repeat split; auto; [|lia].
    apply in_or_app. right. left. reflexivity.
Qed.

Lemma root_of_none (t : TreeNodePtr_t) : root_of t = None -> t = NULL.
Proof. destruct t; [reflexivity|discriminate]. Qed.

Lemma root_of_some (t : TreeNodePtr_t) (x : ProcessPtr_t) :
  root_of t = Some x ->
  In x (elements t) /\ 0 < Z.of_nat (length (elements t)).
Proof.
  destruct t as [|l p r]; [discriminate|]. intros [= ->]. simpl. split.
  - apply in_or_app. right. left. reflexivity.
  - rewrite length_app. cbn [length]. lia.
Qed.

Lemma length_live (s : Simulator_t) :
  length (live s) =
  (length (elements (top (generated_processes s))) +
   (length (ready_elements (ready_queue s)) +
    (length (cur_elements (cur_cpu_burst s)) +
     (length (elements (top (waiting_queue s))) +
      length (elements (top (terminated_processes s)))))))%nat.
Proof. unfold live. rewrite !length_app. reflexivity. Qed.

Section LoadReadyQueueProofs.

Variable fl : Z.
Variable enq : Simulator_t -> ProcessPtr_t -> option Simulator_t.
Hypothesis enq_ok : enqueue_ready_ok fl enq.

Lemma load_arrived_spec :
  forall (fuel : nat) (s : Simulator_t),
    Inv fl s ->
    (Z.to_nat (count (generated_processes s)) < fuel)%nat ->
    exists s',
      load_arrived enq fuel s = Some s' /\ Inv fl s' /\ mem s' = mem s.
Proof.
  induction fuel as [|fuel IH]; intros s I Hf; [lia|].
  cbn [load_arrived]. unfold Priority_IsEmpty.
  destruct (Z.eqb_spec (count (generated_processes s)) 0) as [E|E]; cbn [negb].
  { exists s. auto. }
  rewrite (Priority_Top_spec (inv_jobs I)).
  destruct (pq_nonempty (inv_jobs I) E) as (x & Rx & Ix & Hc).
  rewrite Rx. cbn [bind].
  destruct (arrival_time (mem s x) =? elapsed_time s); [|exists s; auto].
  pose proof (inv_size I) as Sz. rewrite length_live in Sz.
  pose proof (inv_jobs I) as (_ & _ & Lj).
  destruct (enq_ok s x (inv_ready I) (inv_kind I)) as (rq' & Eq & Wr & Kr & Pr & _);
    [lia|].
  rewrite Eq. fields.
  destruct (@Priority_Dequeue_spec (mem s) (generated_processes s) (inv_jobs I))
    as (jq & x' & Ed & Rx' & Wj & Cj & _ & Pj & _); [lia|lia|].
  rewrite Ed. fields.
  assert (x' = x) by congruence. subst x'.
  destruct (IH (set_generated (set_ready s rq') jq)) as (s' & Es & Is & Ms).
  - apply Inv_update with s; fields; try apply I; auto.
    unfold live. fields. solve_perm.
  - fields. lia.
  - exists s'. auto.
Qed.

Lemma heap_root_min (m : Mem) (t : TreeNodePtr_t) (x : ProcessPtr_t) :
  heap (IO_Burst_Compare m) t -> root_of t = Some x ->
  forall e, In e (elements t) ->
            io_burst_time (m x) <= io_burst_time (m e).
Proof.
  intros H R e He. destruct t as [|l p r]; [discriminate|].
  simpl in R. injection R as ->. simpl in H. destruct H as (Ll & Lr & _).
  unfold lower_bound in Ll, Lr. rewrite Forall_forall in Ll, Lr.
  simpl in He. apply in_app_or in He.
  assert (C : e = x \/ IO_Burst_Compare m e x = false).
  { destruct He as [He|[He|He]]; auto. }
  destruct C as [->|C]; [lia|].
  unfold IO_Burst_Compare in C.
  destruct (Z.eqb_spec (io_burst_time (m e)) (io_burst_time (m x)));
    simpl in C; [lia|]. apply Z.ltb_ge in C. lia.
Qed.

Lemma load_io_done_spec :
  forall (fuel : nat) (s : Simulator_t),
    Inv fl s ->
    (Z.to_nat (count (waiting_queue s)) < fuel)%nat ->
    exists s',
      load_io_done enq fuel s = Some s' /\ Inv fl s' /\ mem s' = mem s /\
      waiting_io_positive s'.
Proof.
  induction fuel as [|fuel IH]; intros s I Hf; [lia|].
  cbn [load_io_done]. unfold Priority_IsEmpty.
  pose proof (inv_waiting I) as (_ & _ & Lw).
  destruct (Z.eqb_spec (count (waiting_queue s)) 0) as [E|E]; cbn [negb].
  { exists s. split; [reflexivity|]. split; [exact I|]. split; [reflexivity|].
    unfold waiting_io_positive.
    destruct (elements (top (waiting_queue s))); [constructor|].
    cbn [length] in Lw. lia. }
  rewrite (Priority_Top_spec (inv_waiting I)).
  destruct (pq_nonempty (inv_waiting I) E) as (x & Rx & Ix & Hc).
  rewrite Rx. cbn [bind].
  destruct (Z.eqb_spec (io_burst_time (mem s x)) 0) as [Z0|Z0].
  - pose proof (inv_size I) as Sz. rewrite length_live in Sz.
    destruct (@Priority_Dequeue_spec (mem s) (waiting_queue s) (inv_waiting I))
      as (wq & x' & Ed & Rx' & Ww & Cw & Cm & Pw & Hw); [lia|lia|].
    rewrite Ed. fields.
    assert (x' = x) by congruence. subst x'.
    destruct (enq_ok (set_waiting s wq) x) as (rq' & Eq & Wr & Kr & Pr & _);
      fields; try apply I; [lia|].
    rewrite Eq. fields.
    destruct (IH (set_ready (set_waiting s wq) rq')) as (s' & Es & Is & Ms & Ps).
    + apply Inv_update with s; fields; try apply I; auto.
      * unfold live. fields. solve_perm.
      * rewrite Cm. apply I.
      * rewrite (inv_compare I) in Hw. apply Hw.
        -- apply IO_Burst_Compare_swo.
        -- apply I.
    + fields. lia.
    + exists s'. auto.
  - exists s. split; [reflexivity|]. split; [exact I|]. split; [reflexivity|].
    unfold waiting_io_positive. rewrite Forall_forall. intros e He.
    pose proof (@heap_root_min _ _ _ (inv_heap I) Rx e He) as Hm.
    assert (Lx : In x (live s)).
    { unfold live. apply in_or_app. right. apply in_or_app. right.
      apply in_or_app. right. apply in_or_app. left. exact Ix. }
    assert (Le : In e (live s)).
    { unfold live. apply in_or_app. right. apply in_or_app. right.
      apply in_or_app. right. apply in_or_app. left. exact He. }
    pose proof (inv_io I x Lx). pose proof (inv_io I e Le). lia.
Qed.

Lemma load_ready_queue_spec (s : Simulator_t) :
  Inv fl s ->
  exists s',
    load_ready_queue enq s = Some s' /\ Inv fl s' /\ mem s' = mem s /\
    waiting_io_positive s'.
Proof.
  intros I. unfold load_ready_queue.
  destruct (@load_arrived_spec (S (Z.to_nat (count (generated_processes s)))) s I)
    as (s1 & E1 & I1 & M1); [lia|].
  rewrite E1. cbn [bind].
  destruct (@load_io_done_spec (S (Z.to_nat (count (waiting_queue s1)))) s1 I1)
    as (s2 & E2 & I2 & M2 & P2); [lia|].
  exists s2. split; [exact E2|]. split; [exact I2|]. split; [congruence|exact P2].
Qed.

End LoadReadyQueueProofs.

(** Fields the invariant does not read. *)
Lemma Inv_same (fl : Z) (s s' : Simulator_t) :
  generated_processes s' = generated_processes s ->
  terminated_processes s' = terminated_processes s ->
  cur_cpu_burst s' = cur_cpu_burst s ->
  ready_queue s' = ready_queue s ->
  waiting_queue s' = waiting_queue s ->
  mem s' = mem s ->
  Inv fl s -> Inv fl s'.
Proof.
  intros G T C R W M I.
  assert (L : live s' = live s) by (unfold live; congruence).
  constructor; rewrite ?G, ?T, ?C, ?R, ?W, ?M, ?L; apply I.
Qed.

Lemma in_live_cur (s : Simulator_t) (c : ProcessPtr_t) :
  cur_cpu_burst s = Some c -> In c (live s).
Proof.
  intros E. unfold live. rewrite E. apply in_or_app. right.
  apply in_or_app. right. left. reflexivity.
Qed.

Lemma in_live_waiting (s : Simulator_t) (p : ProcessPtr_t) :
  In p (elements (top (waiting_queue s))) -> In p (live s).
Proof.
  intros H. unfold live. apply in_or_app. right. apply in_or_app. right.
  apply in_or_app. right. apply in_or_app. left. exact H.
Qed.

Lemma Simulator_LoadProcess_spec (fl : Z) (s : Simulator_t) :
  fifo_policy fl = true -> Inv fl s ->
  exists s',
    Simulator_LoadProcess s = Some s' /\ Inv fl s' /\ mem s' = mem s /\
    waiting_queue s' = waiting_queue s.
Proof.
  intros Hf I. unfold Simulator_LoadProcess.
  destruct (cur_cpu_burst s) as [c|] eqn:Ec; [exists s; auto|].
  pose proof (inv_kind I) as K. pose proof (inv_ready I) as Wr.
  destruct (ready_queue s) as [q|q] eqn:Er; simpl in K; [|congruence].
  simpl in Wr. unfold Queue_IsEmpty.
  destruct (Z.eqb_spec (q_count q) 0) as [E|E]; cbn [negb]; [exists s; auto|].
  pose proof (Queue_Dequeue_items Wr) as D.
  destruct (items q) as [|p rest] eqn:Ei.
  { unfold queue_wf in Wr. rewrite Ei in Wr. simpl in Wr. lia. }
  destruct D as (-> & q' & -> & Ei' & Wq'). fields.
  eexists. split; [reflexivity|]. split; [|split; reflexivity].
  apply Inv_update with s; fields; try apply I; auto.
  unfold live. fields. rewrite Ec, Er. simpl. rewrite Ei, Ei'. solve_perm.
Qed.

Lemma Simulator_LoadProcess_Priority_spec (fl : Z) (s : Simulator_t) :
  fifo_policy fl = false -> Inv fl s ->
  exists s',
    Simulator_LoadProcess_Priority s = Some s' /\ Inv fl s' /\
    mem s' = mem s /\ waiting_queue s' = waiting_queue s.
Proof.
  intros Hf I. unfold Simulator_LoadProcess_Priority.
  destruct (cur_cpu_burst s) as [c|] eqn:Ec; [exists s; auto|].
  pose proof (inv_kind I) as K. pose proof (inv_ready I) as Wr.
  destruct (ready_queue s) as [q|q] eqn:Er; simpl in K; [congruence|].
  simpl in Wr. unfold Priority_IsEmpty.
  destruct (Z.eqb_spec (count q) 0) as [E|E]; cbn [negb]; [exists s; auto|].
  rewrite (Priority_Top_spec Wr). cbn [bind].
  pose proof (inv_size I) as Sz. rewrite length_live, Er in Sz. simpl in Sz.
  pose proof Wr as (_ & _ & Lq).
  destruct (pq_nonempty Wr E) as (x & Rx & Ix & Hc).
  destruct (@Priority_Dequeue_spec (mem s) q Wr)
    as (q' & x' & Ed & Rx' & Wq' & Cq & _ & Pq & _); [lia|lia|].
  rewrite Ed. fields. assert (x' = x) by congruence. subst x'.
  eexists. split; [reflexivity|]. split; [|split; reflexivity].
  apply Inv_update with s; fields; try apply I; auto.
  unfold live. fields. rewrite Ec, Er, Rx. cbn [cur_elements ready_elements].
  solve_perm.
Qed.

Lemma age_process_frame (m : Mem) (p : ProcessPtr_t) :
  io_frame m (age_process m p).
Proof.
  intros q. unfold age_process, store.
  destruct (Nat.eqb_spec q p) as [->|]; auto.
Qed.

Lemma burst_process_frame (m : Mem) (p : ProcessPtr_t) :
  io_frame m (burst_process m p).
Proof.
  intros q. unfold burst_process, store.
  destruct (Nat.eqb_spec q p) as [->|]; auto.
Qed.

Lemma Simulator_Queue_Waiting_frame (q : Queue_t) (m : Mem) :
  io_frame m (Simulator_Queue_Waiting q m).
Proof.
  unfold Simulator_Queue_Waiting. generalize (items q) as l. intros l.
  revert m. induction l as [|p l IH]; intros m; simpl.
  - apply io_frame_refl.
  - apply io_frame_trans with (age_process m p).
    + apply age_process_frame.
    + apply IH.
Qed.

Lemma Simulator_Priority_Waiting_frame (t : TreeNodePtr_t) :
  forall m, io_frame m (Simulator_Priority_Waiting t m).
Proof.
  induction t as [|l IHl p r IHr]; intros m; simpl.
  - apply io_frame_refl.
  - eapply io_frame_trans; [apply IHl|].
    eapply io_frame_trans; [apply age_process_frame|]. apply IHr.
Qed.

Lemma waiting_io_positive_frame (s : Simulator_t) (m' : Mem) :
  io_frame (mem s) m' -> waiting_io_positive s ->
  waiting_io_positive (set_mem s m').
Proof.
  unfold waiting_io_positive. intros F. fields. apply Forall_impl.
  intros p Hp. destruct (F p) as [-> _]. exact Hp.
Qed.

(** The loop body up to the call of [Simulator_Process_IO]: it returns,
    keeps the invariant, and leaves no waiting process without I/O to do. *)
Lemma tick_before_io_spec (fl : Z) (s : Simulator_t) :
  Inv fl s ->
  exists s3,
    tick_before_io fl s = Some s3 /\ Inv fl s3 /\ waiting_io_positive s3.
Proof.
  intros I. unfold tick_before_io.
  destruct (fifo_policy fl) eqn:Hf.
  - destruct (@load_ready_queue_spec fl _ (ready_Queue_Enqueue_ok fl Hf) s I)
      as (s1 & E1 & I1 & M1 & P1).
    unfold Simulator_LoadReadyQueue. rewrite E1. cbn [bind].
    destruct (Simulator_LoadProcess_spec Hf I1) as (s2 & E2 & I2 & M2 & W2).
    rewrite E2. cbn [bind]. unfold ready_Queue_Waiting.
    pose proof (inv_kind I2) as K. rewrite Hf in K.
    destruct (ready_queue s2) as [q|q] eqn:Er; simpl in K; [|congruence].
    eexists. split; [reflexivity|].
    pose proof (Simulator_Queue_Waiting_frame q (mem s2)) as F.
    split; [apply Inv_frame; auto|].
    apply waiting_io_positive_frame; auto.
    unfold waiting_io_positive in *. rewrite W2, M2. exact P1.
  - destruct (@load_ready_queue_spec fl _ (ready_Priority_Enqueue_ok fl Hf) s I)
      as (s1 & E1 & I1 & M1 & P1).
    unfold Simulator_LoadReadyQueue_Priority. rewrite E1. cbn [bind].
    destruct (Simulator_LoadProcess_Priority_spec Hf I1)
      as (s2 & E2 & I2 & M2 & W2).
    rewrite E2. cbn [bind]. unfold ready_Priority_Waiting.
    pose proof (inv_kind I2) as K. rewrite Hf in K.
    destruct (ready_queue s2) as [q|q] eqn:Er; simpl in K; [congruence|].
    eexists. split; [reflexivity|].
    pose proof (Simulator_Priority_Waiting_frame (top q) (mem s2)) as F.
    split; [apply Inv_frame; auto|].
    apply waiting_io_positive_frame; auto.
    unfold waiting_io_positive in *. rewrite W2, M2. exact P1.
Qed.

(** ** [Simulator_Process_IO] on the waiting heap *)

Lemma NoDup_app_inv (l1 l2 : list ProcessPtr_t) :
  NoDup (l1 ++ l2) ->
  NoDup l1 /\ NoDup l2 /\ forall a, In a l1 -> ~ In a l2.
Proof.
  induction l1 as [|x l1 IH]; simpl; intros H.
  - repeat split; auto. constructor.
  - apply NoDup_cons_iff in H. destruct H as [Hx H].
    destruct (IH H) as (N1 & N2 & D). repeat split; auto.
    + constructor; auto. intro Hi. apply Hx. apply in_or_app. auto.
    + intros a [<-|Ha] Hb.
      * apply Hx. apply in_or_app. auto.
      * apply (D a); auto.
Qed.

Lemma io_process_step_other (m : Mem) (p q : ProcessPtr_t) :
  q <> p -> io_process_step m p q = m q.
Proof.
  intros H. unfold io_process_step, store.
  destruct (Nat.eqb_spec q p); [contradiction|reflexivity].
Qed.

Lemma io_process_step_same (m : Mem) (p : ProcessPtr_t) :
  io_process_step m p p = io_step (m p).
Proof. unfold io_process_step, store. rewrite Nat.eqb_refl. reflexivity. Qed.

(** Each process of the tree is stepped once, nothing else is touched. *)
Lemma Simulator_Process_IO_spec (t : TreeNodePtr_t) :
  forall m,
    NoDup (elements t) ->
    (forall p, In p (elements t) ->
               Simulator_Process_IO t m p = io_step (m p)) /\
    (forall p, ~ In p (elements t) -> Simulator_Process_IO t m p = m p).
Proof.
  induction t as [|l IHl x r IHr]; intros m N; simpl.
  - split; [intros p []|auto].
  - simpl in N. destruct (NoDup_app_inv _ _ N) as (Nl & Nxr & D).
    apply NoDup_cons_iff in Nxr. destruct Nxr as [Hx Nr].
    destruct (IHl m Nl) as [Li Lo].
    destruct (IHr (io_process_step (Simulator_Process_IO l m) x) Nr)
      as [Ri Ro].
    assert (Dx : ~ In x (elements l)).
    { intro Hi. apply (D x Hi). left. reflexivity. }
    split.
    + intros p Hp. apply in_app_or in Hp. destruct Hp as [Hp|[<-|Hp]].
      * assert (p <> x) by (intro; subst; contradiction).
        assert (~ In p (elements r)).
        { intro Hr. apply (D p Hp). right. exact Hr. }
        rewrite Ro, io_process_step_other, Li; auto.
      * rewrite Ro, io_process_step_same, Lo; auto.
      * assert (p <> x) by (intro; subst; contradiction).
        assert (~ In p (elements l)).
        { intro Hl. apply (D p Hl). right. exact Hp. }
        rewrite Ri, io_process_step_other, Lo; auto.
    + intros p Hp.
      assert (~ In p (elements l)) by (intro; apply Hp, in_or_app; auto).
      assert (p <> x).
      { intro; subst. apply Hp, in_or_app. right. left. reflexivity. }
      assert (~ In p (elements r)).
      { intro. apply Hp, in_or_app. right. right. assumption. }
      rewrite Ro, io_process_step_other, Lo; auto.
Qed.

Lemma udecr_positive (x : Z) : 1 <= x < UINT_MOD -> udecr x = x - 1.
Proof. intros H. unfold udecr. apply Z.mod_small. lia. Qed.

(** The uniform decrement keeps the heap order when no key is zero. *)
Lemma Simulator_Process_IO_heap (t : TreeNodePtr_t) (m : Mem) :
  NoDup (elements t) ->
  Forall (fun p => 1 <= io_burst_time (m p) < UINT_MOD) (elements t) ->
  heap (IO_Burst_Compare m) t ->
  heap (IO_Burst_Compare (Simulator_Process_IO t m)) t.
Proof.
  intros N P. apply heap_ext_in. intros a b Ha Hb.
  destruct (Simulator_Process_IO_spec t m N) as [Hi _].
  rewrite Forall_forall in P.
  unfold IO_Burst_Compare. rewrite (Hi a Ha), (Hi b Hb).
  unfold io_step. cbn [io_burst_time pid set_io_burst_time set_turnaround_time].
  rewrite !udecr_positive by auto.
  destruct (Z.eqb_spec (io_burst_time (m a) - 1) (io_burst_time (m b) - 1));
    destruct (Z.eqb_spec (io_burst_time (m a)) (io_burst_time (m b)));
    try lia; cbn [negb]; auto.
  destruct (Z.ltb_spec (io_burst_time (m a) - 1) (io_burst_time (m b) - 1));
    destruct (Z.ltb_spec (io_burst_time (m a)) (io_burst_time (m b)));
    auto; lia.
Qed.

Lemma NoDup_live_waiting (fl : Z) (s : Simulator_t) :
  Inv fl s -> NoDup (elements (top (waiting_queue s))).
Proof.
  intros I. pose proof (inv_nodup I) as N. unfold live in N.
  apply NoDup_app_remove_l in N. apply NoDup_app_remove_l in N.
  apply NoDup_app_remove_l in N. apply NoDup_app_remove_r in N. exact N.
Qed.

Lemma waiting_Process_IO_spec (fl : Z) (s : Simulator_t) :
  Inv fl s -> waiting_io_positive s -> Inv fl (waiting_Process_IO s).
Proof.
  intros I P. pose proof (NoDup_live_waiting I) as N.
  destruct (Simulator_Process_IO_spec (top (waiting_queue s)) (mem s) N)
    as [Hi Ho].
  apply Inv_update with s; fields; try apply I; auto.
  - apply Simulator_Process_IO_heap; auto. apply I.
  - intros p Hp.
    destruct (in_dec Nat.eq_dec p (elements (top (waiting_queue s)))) as [Hw|Hw].
    + rewrite (Hi p Hw). unfold io_step.
      cbn [io_burst_time set_io_burst_time set_turnaround_time].
      unfold waiting_io_positive in P. rewrite Forall_forall in P.
      rewrite udecr_positive by auto. specialize (P p Hw). lia.
    + rewrite (Ho p Hw). apply (inv_io I). exact Hp.
Qed.

(** ** Random I/O interrupt resolution *)

Lemma Inv_to_interrupt (fl : Z) (s : Simulator_t) :
  Inv fl s -> Inv_interrupt fl s (Priority_Init IO_Burst_Compare).
Proof.
  intros I. constructor; try apply I; cbn [Priority_Init top compare elements];
    rewrite ?app_nil_r; try apply I.
  - repeat split; simpl; lia.
  - reflexivity.
  - exact Logic.I.
Qed.

Lemma Inv_interrupt_update (fl : Z) (s s' : Simulator_t)
  (tmp tmp' : Priority_Queue_t) :
  Inv_interrupt fl s tmp ->
  pq_wf (generated_processes s') ->
  pq_wf (terminated_processes s') ->
  pq_wf (waiting_queue s') ->
  pq_wf tmp' ->
  ready_wf (ready_queue s') ->
  ready_is_fifo (ready_queue s') = fifo_policy fl ->
  Permutation (live s' ++ elements (top tmp')) (live s ++ elements (top tmp)) ->
  compare tmp' = IO_Burst_Compare ->
  heap (IO_Burst_Compare (mem s)) (top tmp') ->
  mem s' = mem s ->
  Inv_interrupt fl s' tmp'.
Proof.
  intros I J T W U R K P C H M. constructor; auto.
  - apply Permutation_NoDup with (live s ++ elements (top tmp));
      [symmetry; exact P|]. apply (ii_nodup I).
  - rewrite (Permutation_length P). apply (ii_size I).
  - rewrite M. exact H.
  - intros p Hp. rewrite M. apply (ii_io I).
    apply Permutation_in with (live s' ++ elements (top tmp')); auto.
Qed.

Lemma Inv_from_interrupt (fl : Z) (s : Simulator_t) (tmp : Priority_Queue_t) :
  Inv_interrupt fl s tmp -> elements (top (waiting_queue s)) = [] ->
  Inv fl (set_waiting s tmp).
Proof.
  intros I E.
  assert (P : Permutation (live (set_waiting s tmp))
                          (live s ++ elements (top tmp))).
  { unfold live. fields. rewrite E. solve_perm. }
  constructor; fields; try apply I.
  - apply Permutation_NoDup with (live s ++ elements (top tmp));
      [symmetry; exact P|]. apply (ii_nodup I).
  - rewrite (Permutation_length P). apply (ii_size I).
  - intros p Hp. apply (ii_io I).
    apply Permutation_in with (live (set_waiting s tmp)); auto.
Qed.

(** The loop of [Simulator_Probability] counts the successful samples of
    the trial. *)
Lemma rem_2_odd (r : Z) : (Z.rem r 2 =? 0) = negb (Z.odd r).
Proof.
  assert (B : Z.rem r 2 = 0 \/ Z.rem r 2 = 1 \/ Z.rem r 2 = -1)
    by (Z.quot_rem_to_equations; lia).
  replace (Z.odd r) with (Z.odd (Z.rem r 2)).
  - destruct B as [-> | [-> | ->]]; reflexivity.
  - rewrite (Z.quot_rem' r 2) at 2.
    rewrite Z.add_comm, Z.odd_add_mul_2. reflexivity.
Qed.

Lemma count_draws_samples (src : nat -> Z) :
  forall (n next : nat),
    count_draws src next n =
    Z.of_nat (length (filter (fun b : bool => b)
                             (map (fun i => Z.odd (src i)) (seq next n)))).
Proof.
  induction n as [|n IH]; intros next; [reflexivity|].
  cbn [count_draws seq map filter]. rewrite IH, rem_2_odd.
  destruct (Z.odd (src next)); cbn [negb length]; lia.
Qed.

Lemma trial_fires_count (src : nat -> Z) (next : nat) :
  trial_fires src next = (50 <=? count_draws src next 100).
Proof.
  rewrite count_draws_samples. unfold trial_fires, trial_samples.
  generalize (length (filter (fun b : bool => b)
                             (map (fun i => Z.odd (src i)) (seq next 100)))).
  intros k. destruct (Nat.leb_spec 50 k), (Z.leb_spec 50 (Z.of_nat k));
    (reflexivity || lia).
Qed.

Section InterruptProofs.

Variable fl : Z.
Variable enq : Simulator_t -> ProcessPtr_t -> option Simulator_t.
Hypothesis enq_ok : enqueue_ready_ok fl enq.

Lemma io_interrupt_loop_spec :
  forall (fuel : nat) (s : Simulator_t) (tmp : Priority_Queue_t),
    Inv_interrupt fl s tmp ->
    (Z.to_nat (count (waiting_queue s)) < fuel)%nat ->
    exists s1 tmp' order,
      io_interrupt_loop enq fuel s tmp = Some (s1, tmp') /\
      Inv_interrupt fl s1 tmp' /\
      mem s1 = mem s /\
      elements (top (waiting_queue s1)) = [] /\
      Permutation order (elements (top (waiting_queue s))) /\
      Permutation (ready_elements (ready_queue s1))
        (ready_elements (ready_queue s) ++
         fst (interrupt_outcome (rand_src s) (mem s) (rand_next s) order)) /\
      (fifo_policy fl = true ->
       ready_elements (ready_queue s1) =
       ready_elements (ready_queue s) ++
       fst (interrupt_outcome (rand_src s) (mem s) (rand_next s) order)) /\
      Permutation (elements (top tmp'))
        (elements (top tmp) ++
         snd (interrupt_outcome (rand_src s) (mem s) (rand_next s) order)).
Proof.
  induction fuel as [|fuel IH]; intros s tmp I Hf; [lia|].
  cbn [io_interrupt_loop].
  rewrite (Priority_Top_spec (ii_waiting I)). cbn [bind].
  pose proof (ii_waiting I) as (_ & _ & Lw).
  destruct (root_of (top (waiting_queue s))) as [x|] eqn:Rx.
  2:{ apply root_of_none in Rx.
      exists s, tmp, []. cbn [interrupt_outcome fst snd elements].
      rewrite !app_nil_r. rewrite Rx. cbn [elements].
      repeat (split; [auto|]); auto. }
  destruct (root_of_some _ Rx) as [Ix Lx].
  assert (Hc : 0 < count (waiting_queue s)) by lia.
  pose proof (ii_size I) as Sz. rewrite length_app, length_live in Sz.
  unfold Simulator_Probability. fields.
  destruct (@Priority_Dequeue_spec (mem s) (waiting_queue s) (ii_waiting I))
    as (wq & x' & Ed & Rx' & Ww & Cw & Cm & Pw & _); [lia|lia|].
  assert (x' = x) by congruence. subst x'.
  cbn [interrupt_outcome].
  destruct ((50 <=? count_draws (rand_src s) (rand_next s) 100)
            && (1 <? cpu_burst_time (mem s x))) eqn:Fire.
  - rewrite Ed. fields.
    destruct (enq_ok (set_waiting (set_rand_next s (rand_next s + 100)) wq) x)
      as (rq' & Eq & Wr & Kr & Pr & Fr); fields; try apply I; [lia|].
    rewrite Eq. fields.
    destruct (IH (set_ready
                    (set_waiting (set_rand_next s (rand_next s + 100)) wq) rq')
                 tmp) as (s1 & tmp' & order & El & I1 & M1 & W1 & Po & Pr1 & Fr1 & Pt1).
    + apply Inv_interrupt_update with s tmp; fields; try apply I; auto.
      unfold live. fields. solve_perm.
    + fields. lia.
    + exists s1, tmp', (x :: order). fields. rewrite El.
      cbn [interrupt_outcome]. rewrite trial_fires_count, Fire.
      destruct (interrupt_outcome (rand_src s) (mem s) (rand_next s + 100) order)
        as [mv st] eqn:Eo. cbn [fst snd] in *.
      split; [reflexivity|]. split; [exact I1|]. split; [exact M1|].
      split; [exact W1|]. split.
      { rewrite Po. symmetry. exact Pw. }
      split.
      { rewrite Pr1, Pr. solve_perm. }
      split; [|exact Pt1].
      intros F. rewrite (Fr1 F), (Fr F), <- app_assoc. reflexivity.
  - rewrite Ed. fields.
    pose proof (ii_tmp I) as (_ & _ & Lt).
    destruct (@Priority_Enqueue_spec (mem s) tmp x (ii_tmp I))
      as (tmp1 & Ee & Wt & Ct & Cmt & Pt & Ht); [lia|].
    rewrite Ee. fields.
    destruct (IH (set_waiting (set_rand_next s (rand_next s + 100)) wq) tmp1)
      as (s1 & tmp' & order & El & I1 & M1 & W1 & Po & Pr1 & Fr1 & Pt1).
    + apply Inv_interrupt_update with s tmp; fields; try apply I; auto.
      * unfold live. fields. solve_perm.
      * rewrite Cmt. apply I.
      * rewrite (ii_compare I) in Ht. apply Ht.
        -- apply IO_Burst_Compare_swo.
        -- apply I.
    + fields. lia.
    + exists s1, tmp', (x :: order). fields. rewrite El.
      cbn [interrupt_outcome]. rewrite trial_fires_count, Fire.
      destruct (interrupt_outcome (rand_src s) (mem s) (rand_next s + 100) order)
        as [mv st] eqn:Eo. cbn [fst snd] in *.
      split; [reflexivity|]. split; [exact I1|]. split; [exact M1|].
      split; [exact W1|]. split.
      { rewrite Po. symmetry. exact Pw. }
      split; [exact Pr1|]. split; [exact Fr1|].
      rewrite Pt1, Pt. solve_perm.
Qed.

Lemma process_io_interrupt_spec (s : Simulator_t) :
  Inv fl s ->
  exists s' order,
    process_io_interrupt enq s = Some s' /\
    Inv fl s' /\
    mem s' = mem s /\
    Permutation order (elements (top (waiting_queue s))) /\
    Permutation (ready_elements (ready_queue s'))
      (ready_elements (ready_queue s) ++
       fst (interrupt_outcome (rand_src s) (mem s) (rand_next s) order)) /\
    (fifo_policy fl = true ->
     ready_elements (ready_queue s') =
     ready_elements (ready_queue s) ++
     fst (interrupt_outcome (rand_src s) (mem s) (rand_next s) order)) /\
    Permutation (elements (top (waiting_queue s')))
      (snd (interrupt_outcome (rand_src s) (mem s) (rand_next s) order)).
Proof.
  intros I. unfold process_io_interrupt, Priority_IsEmpty.
  pose proof (inv_waiting I) as (_ & _ & Lw).
  destruct (Z.eqb_spec (count (waiting_queue s)) 0) as [E|E].
  - assert (En : elements (top (waiting_queue s)) = []).
    { destruct (elements (top (waiting_queue s))); auto. simpl in Lw. lia. }
    exists s, []. rewrite En. cbn [interrupt_outcome fst snd].
    rewrite app_nil_r. repeat (split; [auto|]); auto.
  - destruct (@io_interrupt_loop_spec (S (Z.to_nat (count (waiting_queue s)))) s
                _ (Inv_to_interrupt I))
      as (s1 & tmp' & order & El & I1 & M1 & W1 & Po & Pr1 & Fr1 & Pt1); [lia|].
    rewrite El. fields. exists (set_waiting s1 tmp'), order. fields.
    split; [reflexivity|]. split; [apply Inv_from_interrupt; auto|].
    split; [exact M1|]. split; [exact Po|]. split; [exact Pr1|].
    split; [exact Fr1|]. exact Pt1.
Qed.

End InterruptProofs.

(** ** Execute: the three CPU bursts *)

Lemma Inv_to_waiting (fl : Z) (s : Simulator_t) (c : ProcessPtr_t) :
  Inv fl s -> cur_cpu_burst s = Some c ->
  exists wq,
    Priority_Enqueue (mem s) (waiting_queue s) c = Some wq /\
    Inv fl (set_cur (set_waiting s wq) None).
Proof.
  intros I Ec. pose proof (inv_size I) as Sz.
  rewrite length_live, Ec in Sz. cbn [cur_elements length] in Sz.
  pose proof (inv_waiting I) as (_ & _ & Lw).
  destruct (@Priority_Enqueue_spec (mem s) (waiting_queue s) c (inv_waiting I))
    as (wq & E & Ww & Cw & Cm & Pw & Hw); [lia|].
  exists wq. split; [exact E|].
  apply Inv_update with s; fields; try apply I; auto.
  - unfold live. fields. rewrite Ec. cbn [cur_elements]. solve_perm.
  - rewrite Cm. apply I.
  - rewrite (inv_compare I) in Hw. apply Hw.
    + apply IO_Burst_Compare_swo.
    + apply I.
Qed.

Lemma Inv_to_terminated (fl : Z) (s : Simulator_t) (c : ProcessPtr_t) :
  Inv fl s -> cur_cpu_burst s = Some c ->
  exists tq,
    Priority_Enqueue (mem s) (terminated_processes s) c = Some tq /\
    Inv fl (set_cur (set_terminated s tq) None).
Proof.
  intros I Ec. pose proof (inv_size I) as Sz.
  rewrite length_live, Ec in Sz. cbn [cur_elements length] in Sz.
  pose proof (inv_terminated I) as (_ & _ & Lw).
  destruct (@Priority_Enqueue_spec (mem s) (terminated_processes s) c
              (inv_terminated I))
    as (tq & E & Ww & Cw & Cm & Pw & Hw); [lia|].
  exists tq. split; [exact E|].
  apply Inv_update with s; fields; try apply I; auto.
  unfold live. fields. rewrite Ec. cbn [cur_elements]. solve_perm.
Qed.

Lemma Inv_burst (fl : Z) (s : Simulator_t) (c : ProcessPtr_t) (o : Out_t) :
  Inv fl s -> Inv fl (print (set_mem s (burst_process (mem s) c)) o).
Proof.
  intros I. apply Inv_same with (set_mem s (burst_process (mem s) c));
    try reflexivity.
  apply Inv_frame; auto. apply burst_process_frame.
Qed.

Lemma Inv_io_request (fl : Z) (s : Simulator_t) (c : ProcessPtr_t) :
  Inv fl s ->
  Inv fl (snd (io_request s c)) /\
  cur_cpu_burst (snd (io_request s c)) = cur_cpu_burst s.
Proof.
  intros I. unfold io_request, Simulator_Probability.
  destruct (cpu_burst_time (mem s c) =? 1); cbn [snd]; auto.
  split; [|reflexivity]. apply Inv_same with s; auto.
Qed.

Lemma eval_loop_total :
  forall (fuel : nat) (s : Simulator_t),
    pq_wf (terminated_processes s) ->
    count (terminated_processes s) < 2 ^ 30 ->
    (Z.to_nat (count (terminated_processes s)) < fuel)%nat ->
    exists s', eval_loop fuel s = Some s'.
Proof.
  induction fuel as [|fuel IH]; intros s W B Hf; [lia|].
  cbn [eval_loop]. rewrite (Priority_Top_spec W). cbn [bind].
  destruct (root_of (top (terminated_processes s))) as [x|] eqn:Rx;
    [|exists s; reflexivity].
  pose proof W as (_ & _ & L). destruct (root_of_some _ Rx) as [_ Lx].
  destruct (@Priority_Dequeue_spec (mem s) (terminated_processes s) W)
    as (tq & x' & Ed & _ & Wt & Ct & _); [lia|lia|].
  rewrite Ed. cbn [bind].
  match goal with
  | |- exists s', eval_loop fuel ?a = Some s' =>
      assert (T : terminated_processes a = tq)
        by (destruct (max_waiting_time _ <? _); reflexivity);
      apply (IH a); rewrite T; auto; lia
  end.
Qed.

Lemma Simulator_Eval_total (fl : Z) (s : Simulator_t) :
  Inv fl s -> exists s', Simulator_Eval s = Some s'.
Proof.
  intros I. unfold Simulator_Eval.
  pose proof (inv_terminated I) as W. pose proof W as (_ & _ & L).
  pose proof (inv_size I) as Sz. rewrite length_live in Sz.
  destruct (@eval_loop_total (S (Z.to_nat (count (terminated_processes s)))) s W)
    as (s1 & E); [lia|lia|].
  rewrite E. cbn [bind]. eexists. reflexivity.
Qed.

Lemma Simulator_CPU_Burst_inv (fl : Z) (s : Simulator_t) :
  Inv fl s ->
  match Simulator_CPU_Burst s with
  | Some (ret, s') => ret = 0 -> Inv fl s'
  | None => False
  end.
Proof.
  intros I. unfold Simulator_CPU_Burst.
  destruct (cur_cpu_burst s) as [c|] eqn:Ec.
  2:{ intros _. apply Inv_same with s; auto. }
  pose proof (Inv_burst c (Out_Gantt (pid (mem (set_mem s (burst_process (mem s) c)) c))) I) as I1.
  set (s2 := print _ _) in *.
  assert (C2 : cur_cpu_burst s2 = Some c) by exact Ec.
  clearbody s2.
  destruct (negb (cpu_burst_time (mem s2 c) =? 0)).
  - destruct (negb (io_burst_time (mem s2 c) =? 0)); [|intros _; exact I1].
    destruct (Inv_io_request c I1) as [I3 C3]. rewrite C2 in C3.
    destruct (io_request s2 c) as [fire s3]. cbn [snd] in *.
    destruct fire; [|intros _; exact I3].
    destruct (Inv_to_waiting I3 C3) as (wq & E & I4).
    rewrite E. cbn [bind]. intros _. exact I4.
  - destruct (Inv_to_terminated I1 C2) as (tq & E & I4).
    rewrite E. cbn [bind].
    destruct (count _ =? num_process _).
    + destruct (Simulator_Eval_total I4) as (s4 & E4). rewrite E4.
      cbn [bind]. intros H. discriminate.
    + intros _. exact I4.
Qed.

Lemma Simulator_CPU_Burst_RR_inv (fl : Z) (s : Simulator_t) (time_quantum : Z) :
  fifo_policy fl = true -> Inv fl s ->
  match Simulator_CPU_Burst_RR s time_quantum with
  | Some (ret, s', _) => ret = 0 -> Inv fl s'
  | None => False
  end.
Proof.
  intros Hf I. unfold Simulator_CPU_Burst_RR.
  destruct (cur_cpu_burst s) as [c|] eqn:Ec.
  2:{ intros _. apply Inv_same with s; auto. }
  pose proof (Inv_burst c (Out_Gantt (pid (mem (set_mem s (burst_process (mem s) c)) c))) I) as I1.
  set (s2 := print _ _) in *.
  assert (C2 : cur_cpu_burst s2 = Some c) by exact Ec.
  clearbody s2.
  destruct (negb (cpu_burst_time (mem s2 c) =? 0)).
  - assert (Q : forall s4 tq2,
               Inv fl s4 ->
               (cur_cpu_burst s4 = Some c \/ tq2 = 0) ->
               match
                 (if tq2 =? TIME_QUANTUM then
                    match cur_cpu_burst s4 with
                    | Some cur' =>
                        s5 <- ready_Queue_Enqueue s4 cur' ;;
                        Some (0, set_cur s5 None, 0)
                    | None => None
                    end
                  else Some (0, s4, tq2))
               with
               | Some (ret, s', _) => ret = 0 -> Inv fl s'
               | None => False
               end).
    { intros s4 tq2 I4 H4.
      destruct (Z.eqb_spec tq2 TIME_QUANTUM) as [Eq|Eq]; [|intros _; exact I4].
      destruct H4 as [C4|Z4]; [|unfold TIME_QUANTUM in Eq; lia].
      rewrite C4.
      pose proof (inv_size I4) as Sz. rewrite length_live, C4 in Sz.
      cbn [cur_elements length] in Sz.
      destruct (ready_Queue_Enqueue_ok fl Hf s4 c (inv_ready I4) (inv_kind I4))
        as (rq' & E & Wr & Kr & Pr & _); [lia|].
      rewrite E. cbn [bind]. intros _.
      apply Inv_update with s4; fields; try apply I4; auto.
      unfold live. fields. rewrite C4. cbn [cur_elements]. solve_perm. }
    destruct (negb (io_burst_time (mem s2 c) =? 0)).
    + destruct (Inv_io_request c I1) as [I3 C3]. rewrite C2 in C3.
      destruct (io_request s2 c) as [fire s3]. cbn [snd] in *.
      destruct fire.
      * destruct (Inv_to_waiting I3 C3) as (wq & E & I4).
        rewrite E. cbn [bind]. apply Q; auto.
      * cbn [bind]. apply Q; auto.
    + cbn [bind]. apply Q; auto.
  - destruct (Inv_to_terminated I1 C2) as (tq & E & I4).
    rewrite E. cbn [bind].
    destruct (count _ =? num_process _).
    + destruct (Simulator_Eval_total I4) as (s4 & E4). rewrite E4.
      cbn [bind]. intros H. discriminate.
    + intros _. exact I4.
Qed.

(** [Simulator_CPU_Burst_Preemptive] is the preemption decision followed
    by [Simulator_CPU_Burst]. *)
Lemma Simulator_CPU_Burst_Preemptive_decompose (s : Simulator_t) :
  Simulator_CPU_Burst_Preemptive s =
  (s0 <- preempt_decision s ;; Simulator_CPU_Burst s0).
Proof.
  unfold Simulator_CPU_Burst_Preemptive, preempt_decision.
  destruct (ready_queue s) as [q|q]; [reflexivity|].
  match goal with
  | |- (s0 <- ?c ;; _) = _ => destruct c as [s0|]; reflexivity
  end.
Qed.

Lemma preempt_decision_spec (fl : Z) (s : Simulator_t) :
  fifo_policy fl = false -> Inv fl s ->
  exists s0, preempt_decision s = Some s0 /\ Inv fl s0.
Proof.
  intros Hf I. unfold preempt_decision.
  pose proof (inv_kind I) as K. pose proof (inv_ready I) as Wr.
  destruct (ready_queue s) as [q|q] eqn:Er; simpl in K; [congruence|].
  simpl in Wr.
  destruct (cur_cpu_burst s) as [c|] eqn:Ec; [|exists s; auto].
  unfold Priority_IsEmpty.
  destruct (Z.eqb_spec (count q) 0) as [E|E]; cbn [negb]; [exists s; auto|].
  destruct (pq_nonempty Wr E) as (x & Rx & Ix & Hc).
  destruct (top q) as [|l h r] eqn:Et; [discriminate|].
  destruct (compare q (mem s) h c); [|exists s; auto].
  pose proof (inv_size I) as Sz. rewrite length_live, Er, Ec in Sz.
  cbn [cur_elements ready_elements length] in Sz.
  pose proof Wr as (_ & _ & Lq).
  destruct (@Priority_Enqueue_spec (mem s) q c Wr)
    as (rq & E1 & Wq & Cq & _ & Pq & _); [lia|].
  rewrite E1. cbn [bind].
  destruct (@Simulator_LoadProcess_Priority_spec fl
              (set_cur (set_ready s (ReadyHeap rq)) None) Hf)
    as (s0 & E0 & I0 & _).
  - apply Inv_update with s; fields; try apply I; auto.
    unfold live. fields. rewrite Er, Ec.
    cbn [cur_elements ready_elements]. solve_perm.
  - exists s0. auto.
Qed.

Lemma Simulator_CPU_Burst_Preemptive_inv (fl : Z) (s : Simulator_t) :
  fifo_policy fl = false -> Inv fl s ->
  match Simulator_CPU_Burst_Preemptive s with
  | Some (ret, s') => ret = 0 -> Inv fl s'
  | None => False
  end.
Proof.
  intros Hf I. rewrite Simulator_CPU_Burst_Preemptive_decompose.
  destruct (preempt_decision_spec Hf I) as (s0 & E & I0).
  rewrite E. cbn [bind]. apply Simulator_CPU_Burst_inv. exact I0.
Qed.

(** ** The invariant along a run *)

Lemma valid_policy_cases (fl : Z) :
  valid_policy fl = true ->
  fl = FCFS \/ fl = NON_PREEMPTIVE_SJF \/ fl = PREEMPTIVE_SJF \/
  fl = NON_PREEMPTIVE_PRIORITY \/ fl = PREEMPTIVE_PRIORITY \/
  fl = ROUND_ROBIN.
Proof.
  unfold valid_policy, FCFS, NON_PREEMPTIVE_SJF, PREEMPTIVE_SJF,
    NON_PREEMPTIVE_PRIORITY, PREEMPTIVE_PRIORITY, ROUND_ROBIN.
  intros H. apply andb_prop in H. destruct H as [A B].
  apply Z.leb_le in A, B. lia.
Qed.

Lemma tick_inv (fl : Z) (s : Simulator_t) (time_quantum : Z) :
  valid_policy fl = true -> Inv fl s ->
  match tick fl s time_quantum with
  | Some (ret, s', _) => ret = 0 -> Inv fl (next_tick s')
  | None => False
  end.
Proof.
  intros V I. unfold tick.
  destruct (tick_before_io_spec I) as (s3 & E3 & I3 & P3).
  rewrite E3. cbn [bind].
  pose proof (waiting_Process_IO_spec I3 P3) as I4.
  set (s4 := waiting_Process_IO s3) in *. clearbody s4.
  assert (N : forall s6, Inv fl s6 -> Inv fl (next_tick s6)).
  { intros s6 I6. apply Inv_same with s6; auto. }
  unfold tick_after_io. rewrite V. cbn [negb].
  destruct (valid_policy_cases fl V) as [-> | [-> | [-> | [-> | [-> | -> ]]]]];
    cbv beta iota delta [Z.eqb Pos.eqb FCFS NON_PREEMPTIVE_SJF PREEMPTIVE_SJF
      NON_PREEMPTIVE_PRIORITY PREEMPTIVE_PRIORITY ROUND_ROBIN
      preemptive_policy orb].
  - destruct (@process_io_interrupt_spec FCFS _
                (ready_Queue_Enqueue_ok FCFS eq_refl) s4 I4)
      as (s5 & o & E5 & I5 & _).
    unfold Simulator_Process_IO_Queue. rewrite E5. cbn [bind].
    pose proof (Simulator_CPU_Burst_inv I5) as B.
    destruct (Simulator_CPU_Burst s5) as [[ret s6]|]; cbn [bind]; auto.
  - destruct (@process_io_interrupt_spec NON_PREEMPTIVE_SJF _
                (ready_Priority_Enqueue_ok NON_PREEMPTIVE_SJF eq_refl) s4 I4)
      as (s5 & o & E5 & I5 & _).
    unfold Simulator_Process_IO_Priority. rewrite E5. cbn [bind].
    pose proof (Simulator_CPU_Burst_inv I5) as B.
    destruct (Simulator_CPU_Burst s5) as [[ret s6]|]; cbn [bind]; auto.
  - destruct (@process_io_interrupt_spec PREEMPTIVE_SJF _
                (ready_Priority_Enqueue_ok PREEMPTIVE_SJF eq_refl) s4 I4)
      as (s5 & o & E5 & I5 & _).
    unfold Simulator_Process_IO_Priority. rewrite E5. cbn [bind].
    pose proof (@Simulator_CPU_Burst_Preemptive_inv PREEMPTIVE_SJF s5 eq_refl I5)
      as B.
    destruct (Simulator_CPU_Burst_Preemptive s5) as [[ret s6]|]; cbn [bind]; auto.
  - destruct (@process_io_interrupt_spec NON_PREEMPTIVE_PRIORITY _
                (ready_Priority_Enqueue_ok NON_PREEMPTIVE_PRIORITY eq_refl) s4 I4)
      as (s5 & o & E5 & I5 & _).
    unfold Simulator_Process_IO_Priority. rewrite E5. cbn [bind].
    pose proof (Simulator_CPU_Burst_inv I5) as B.
    destruct (Simulator_CPU_Burst s5) as [[ret s6]|]; cbn [bind]; auto.
  - destruct (@process_io_interrupt_spec PREEMPTIVE_PRIORITY _
                (ready_Priority_Enqueue_ok PREEMPTIVE_PRIORITY eq_refl) s4 I4)
      as (s5 & o & E5 & I5 & _).
    unfold Simulator_Process_IO_Priority. rewrite E5. cbn [bind].
    pose proof (@Simulator_CPU_Burst_Preemptive_inv PREEMPTIVE_PRIORITY s5
                  eq_refl I5) as B.
    destruct (Simulator_CPU_Burst_Preemptive s5) as [[ret s6]|]; cbn [bind]; auto.
  - destruct (@process_io_interrupt_spec ROUND_ROBIN _
                (ready_Queue_Enqueue_ok ROUND_ROBIN eq_refl) s4 I4)
      as (s5 & o & E5 & I5 & _).
    unfold Simulator_Process_IO_Queue. rewrite E5. cbn [bind].
    pose proof (@Simulator_CPU_Burst_RR_inv ROUND_ROBIN s5 time_quantum
                  eq_refl I5) as B.
    destruct (Simulator_CPU_Burst_RR s5 time_quantum) as [[[ret s6] tq6]|];
      auto.
Qed.

Lemma ticks_inv (fl : Z) :
  valid_policy fl = true ->
  forall (n : nat) (s : Simulator_t) (time_quantum : Z) s' time_quantum',
    Inv fl s ->
    ticks fl n s time_quantum = Some (s', time_quantum') ->
    Inv fl s'.
Proof.
  intros V. induction n as [|n IH]; intros s tq s' tq' I H.
  - simpl in H. injection H as <- _. exact I.
  - cbn [ticks] in H. pose proof (tick_inv tq V I) as T.
    destruct (tick fl s tq) as [[[ret s6] tq6]|]; cbn [bind] in H;
      [|discriminate].
    destruct (Z.eqb_spec ret 0) as [R|R]; cbn [negb] in H; [|discriminate].
    apply (IH _ _ _ _ (T R) H).
Qed.

(** Under the invariant a tick has no undefined behaviour. *)
Lemma tick_total (fl : Z) (s : Simulator_t) (time_quantum : Z) :
  valid_policy fl = true -> Inv fl s ->
  exists ret s' time_quantum',
    tick fl s time_quantum = Some (ret, s', time_quantum') /\
    (ret = 0 -> Inv fl (next_tick s')).
Proof.
  intros V I. pose proof (tick_inv time_quantum V I) as T.
  destruct (tick fl s time_quantum) as [[[ret s'] tq']|]; [|contradiction].
  exists ret, s', tq'. auto.
Qed.

(** The loop passes through the states [ticks] computes. *)
Lemma ticks_run (fl : Z) (k : nat) :
  forall (n : nat) (s : Simulator_t) (tq : Z) sn tqn,
    ticks fl n s tq = Some (sn, tqn) ->
    run fl (n + k) s tq = run fl k sn tqn.
Proof.
  induction n as [|n IH]; intros s tq sn tqn H.
  - simpl in H. injection H as <- <-. reflexivity.
  - cbn [ticks] in H. cbn [Nat.add run].
    destruct (tick fl s tq) as [[[ret s6] tq6]|]; cbn [bind] in *;
      [|discriminate].
    destruct (negb (ret =? 0)); [discriminate|].
    apply IH. exact H.
Qed.

(** After any number of ticks the loop is still running on a state that
    satisfies the invariant, or it has returned. *)
Lemma ticks_or_returned (fl : Z) :
  valid_policy fl = true ->
  forall (n : nat) (s : Simulator_t) (tq : Z),
    Inv fl s ->
    (exists sn tqn, ticks fl n s tq = Some (sn, tqn) /\ Inv fl sn) \/
    (exists s', run fl n s tq = Some s').
Proof.
  intros V. induction n as [|n IH]; intros s tq I.
  - left. exists s, tq. auto.
  - cbn [ticks run].
    destruct (tick_total tq V I) as (ret & s6 & tq6 & E & H).
    rewrite E. cbn [bind].
    destruct (Z.eqb_spec ret 0) as [R|R]; cbn [negb].
    + apply IH. apply H. exact R.
    + right. exists s6. reflexivity.
Qed.

(** ** The invariant at the start *)

Lemma Simulator_Init_inv (m : Mem) (src : nat -> Z) (fl : Z) :
  valid_policy fl = true ->
  exists s, Simulator_Init m src fl = Some s /\ Inv fl s /\ live s = [].
Proof.
  intros V.
  assert (E : pq_wf (Priority_Init Simulator_ArrivalTime_Compare)).
  { repeat split; simpl; lia. }
  assert (W : pq_wf (Priority_Init IO_Burst_Compare)).
  { repeat split; simpl; lia. }
  destruct (valid_policy_cases fl V) as [-> | [-> | [-> | [-> | [-> | -> ]]]]];
    (eexists; split; [reflexivity|]; split; [|reflexivity];
     constructor; fields; auto; try reflexivity; try exact Logic.I;
     try (repeat split; simpl; lia); try (simpl; constructor);
     try (simpl; lia); try (intros p [])).
Qed.

Lemma store_other (m : Mem) (p q : ProcessPtr_t) (v : Process_t) :
  q <> p -> store m p v q = m q.
Proof.
  intros H. unfold store. destruct (Nat.eqb_spec q p); [contradiction|].
  reflexivity.
Qed.

Lemma store_same (m : Mem) (p : ProcessPtr_t) (v : Process_t) :
  store m p v p = v.
Proof. unfold store. rewrite Nat.eqb_refl. reflexivity. Qed.

Lemma generate_from_inv (fl : Z) (w : list Workload_t) :
  forall (i : nat) (s : Simulator_t),
    Inv fl s ->
    (forall p, In p (live s) -> (p < i)%nat) ->
    Z.of_nat (length (live s)) + Z.of_nat (length w) < 2 ^ 30 ->
    Forall (fun d => 0 <= w_io_burst_time d < UINT_MOD) w ->
    exists s', generate_from i w s = Some s' /\ Inv fl s'.
Proof.
  induction w as [|d w IH]; intros i s I B Sz F.
  - exists s. auto.
  - cbn [generate_from]. cbn [length] in Sz.
    apply Forall_cons_iff in F. destruct F as [Fd F].
    set (m' := store (mem s) i _).
    pose proof (inv_jobs I) as (_ & _ & Lj).
    assert (Sl := length_live s).
    destruct (@Priority_Enqueue_spec m' (generated_processes s) i (inv_jobs I))
      as (jq & E & Wj & Cj & Cm & Pj & _); [lia|].
    rewrite E. cbn [bind].
    assert (Ni : ~ In i (live s)).
    { intro Hi. specialize (B i Hi). lia. }
    assert (P : Permutation (live (set_generated (set_mem s m') jq))
                            (i :: live s)).
    { unfold live. fields. solve_perm. }
    apply IH.
    + constructor; fields; try apply I; auto.
      * apply Permutation_NoDup with (i :: live s); [symmetry; exact P|].
        constructor; [exact Ni|apply I].
      * rewrite (Permutation_length P). cbn [length]. lia.
      * apply heap_ext_in with (IO_Burst_Compare (mem s)); [|apply I].
        intros a b Ha Hb. unfold IO_Burst_Compare, m'.
        rewrite !store_other; auto.
        -- intro; subst. apply Ni. apply in_live_waiting. exact Hb.
        -- intro; subst. apply Ni. apply in_live_waiting. exact Ha.
      * intros p Hp. apply (Permutation_in _ P) in Hp.
        destruct Hp as [<-|Hp].
        -- unfold m'. rewrite store_same. cbn [io_burst_time]. exact Fd.
        -- unfold m'. rewrite store_other; [apply (inv_io I); exact Hp|].
           intro; subst. contradiction.
    + intros p Hp. apply (Permutation_in _ P) in Hp.
      destruct Hp as [<-|Hp]; [lia|]. specialize (B p Hp). lia.
    + rewrite (Permutation_length P). cbn [length]. lia.
    + exact F.
Qed.

(** A loaded simulator satisfies the invariant. *)
Lemma loaded_inv (m : Mem) (src : nat -> Z) (fl : Z) (w : list Workload_t) :
  valid_policy fl = true ->
  Z.of_nat (length w) < 2 ^ 30 ->
  Forall (fun d => 0 <= w_io_burst_time d < UINT_MOD) w ->
  exists s0, loaded m src fl w = Some s0 /\ Inv fl s0.
Proof.
  intros V L F. unfold loaded.
  destruct (@Simulator_Init_inv m src fl V) as (s & E & I & Ls).
  rewrite E. cbn [bind]. unfold Simulator_GenerateProcess.
  apply generate_from_inv; auto.
  - apply Inv_same with s; auto.
  - intros p Hp. change (live (set_num_process s (Z.of_nat (length w))))
      with (live s) in Hp. rewrite Ls in Hp. destruct Hp.
  - change (live (set_num_process s (Z.of_nat (length w)))) with (live s).
    rewrite Ls. simpl. lia.
Qed.

(** ** The policy loops are iterations of [tick] *)

Lemma Simulator_FCFS_run (fuel : nat) :
  forall s tq, Simulator_FCFS fuel s = run FCFS fuel s tq.
Proof.
  induction fuel as [|fuel IH]; intros s tq; [reflexivity|].
  cbn [Simulator_FCFS run]. unfold tick, tick_before_io, tick_after_io.
  change (fifo_policy FCFS) with true. change (valid_policy FCFS) with true.
  change (FCFS =? ROUND_ROBIN) with false. change (FCFS =? FCFS) with true.
  cbn [negb]. do 4 stage. last_stage IH.
Qed.

Lemma Simulator_NonPreemptiveSJF_run (fuel : nat) :
  forall s tq,
    Simulator_NonPreemptiveSJF fuel s = run NON_PREEMPTIVE_SJF fuel s tq.
Proof.
  induction fuel as [|fuel IH]; intros s tq; [reflexivity|].
  cbn [Simulator_NonPreemptiveSJF run].
  unfold tick, tick_before_io, tick_after_io.
  change (fifo_policy NON_PREEMPTIVE_SJF) with false.
  change (valid_policy NON_PREEMPTIVE_SJF) with true.
  change (NON_PREEMPTIVE_SJF =? ROUND_ROBIN) with false.
  change (NON_PREEMPTIVE_SJF =? FCFS) with false.
  change (preemptive_policy NON_PREEMPTIVE_SJF) with false.
  cbn [negb]. do 4 stage. last_stage IH.
Qed.

Lemma Simulator_PreemptiveSJF_run (fuel : nat) :
  forall s tq, Simulator_PreemptiveSJF fuel s = run PREEMPTIVE_SJF fuel s tq.
Proof.
  induction fuel as [|fuel IH]; intros s tq; [reflexivity|].
  cbn [Simulator_PreemptiveSJF run].
  unfold tick, tick_before_io, tick_after_io.
  change (fifo_policy PREEMPTIVE_SJF) with false.
  change (valid_policy PREEMPTIVE_SJF) with true.
  change (PREEMPTIVE_SJF =? ROUND_ROBIN) with false.
  change (PREEMPTIVE_SJF =? FCFS) with false.
  change (preemptive_policy PREEMPTIVE_SJF) with true.
  cbn [negb]. do 4 stage. last_stage IH.
Qed.

Lemma Simulator_NonPreemptivePriority_run (fuel : nat) :
  forall s tq,
    Simulator_NonPreemptivePriority fuel s =
    run NON_PREEMPTIVE_PRIORITY fuel s tq.
Proof.
  induction fuel as [|fuel IH]; intros s tq; [reflexivity|].
  cbn [Simulator_NonPreemptivePriority run].
  unfold tick, tick_before_io, tick_after_io.
  change (fifo_policy NON_PREEMPTIVE_PRIORITY) with false.
  change (valid_policy NON_PREEMPTIVE_PRIORITY) with true.
  change (NON_PREEMPTIVE_PRIORITY =? ROUND_ROBIN) with false.
  change (NON_PREEMPTIVE_PRIORITY =? FCFS) with false.
  change (preemptive_policy NON_PREEMPTIVE_PRIORITY) with false.
  cbn [negb]. do 4 stage. last_stage IH.
Qed.

Lemma Simulator_PreemptivePriority_run (fuel : nat) :
  forall s tq,
    Simulator_PreemptivePriority fuel s = run PREEMPTIVE_PRIORITY fuel s tq.
Proof.
  induction fuel as [|fuel IH]; intros s tq; [reflexivity|].
  cbn [Simulator_PreemptivePriority run].
  unfold tick, tick_before_io, tick_after_io.
  change (fifo_policy PREEMPTIVE_PRIORITY) with false.
  change (valid_policy PREEMPTIVE_PRIORITY) with true.
  change (PREEMPTIVE_PRIORITY =? ROUND_ROBIN) with false.
  change (PREEMPTIVE_PRIORITY =? FCFS) with false.
  change (preemptive_policy PREEMPTIVE_PRIORITY) with true.
  cbn [negb]. do 4 stage. last_stage IH.
Qed.

Lemma RoundRobin_loop_run (fuel : nat) :
  forall s tq, RoundRobin_loop fuel s tq = run ROUND_ROBIN fuel s tq.
Proof.
  induction fuel as [|fuel IH]; intros s tq; [reflexivity|].
  cbn [RoundRobin_loop run].
  unfold tick, tick_before_io, tick_after_io.
  change (fifo_policy ROUND_ROBIN) with true.
  change (valid_policy ROUND_ROBIN) with true.
  change (ROUND_ROBIN =? ROUND_ROBIN) with true.
  cbn [negb]. do 4 stage. last_stage IH.
Qed.

(** [Simulator_Start] runs the loop of [tick]s of the simulator's policy. *)
Lemma Simulator_Start_run (fuel : nat) (s : Simulator_t) :
  valid_policy (flag s) = true ->
  Simulator_Start fuel s = run (flag s) fuel s 0.
Proof.
  intros V. unfold Simulator_Start.
  destruct (valid_policy_cases _ V) as [E | [E | [E | [E | [E | E]]]]];
    rewrite E; cbv beta iota delta [Z.eqb Pos.eqb FCFS NON_PREEMPTIVE_SJF
      PREEMPTIVE_SJF NON_PREEMPTIVE_PRIORITY PREEMPTIVE_PRIORITY ROUND_ROBIN].
  - apply Simulator_FCFS_run.
  - apply Simulator_NonPreemptiveSJF_run.
  - apply Simulator_PreemptiveSJF_run.
  - apply Simulator_NonPreemptivePriority_run.
  - apply Simulator_PreemptivePriority_run.
  - apply RoundRobin_loop_run.
Qed.

(** ** The waiting heap when [Simulator_Process_IO] runs *)

Lemma reachable_inv (m : Mem) (src : nat -> Z) (fl : Z) (w : list Workload_t)
  (n : nat) (s0 s : Simulator_t) (tq : Z) :
  valid_policy fl = true ->
  Z.of_nat (length w) < 2 ^ 30 ->
  Forall (fun d => 0 <= w_io_burst_time d < UINT_MOD) w ->
  loaded m src fl w = Some s0 ->
  ticks fl n s0 0 = Some (s, tq) ->
  Inv fl s.
Proof.
  intros V L F E0 En.
  destruct (@loaded_inv m src fl w V L F) as (s0' & E0' & I0).
  assert (s0' = s0) by congruence. subst s0'.
  apply (@ticks_inv fl V n s0 0 s tq I0 En).
Qed.

(** C10. At every execution of [Simulator_Process_IO] in the loop of any
    of the six policies, on any workload of fewer than [2^30] processes
    whose [io_burst_time]s are [unsigned int]s and with any [rand()]
    stream, every process stored in the waiting heap has
    [io_burst_time >= 1], and the decrement leaves [io_burst_time - 1]:
    it does not wrap around. *)
Theorem waiting_io_burst_positive_at_io_advance
  (m : Mem) (src : nat -> Z) (fl : Z) (w : list Workload_t)
  (n : nat) (s0 s : Simulator_t) (tq : Z) :
  valid_policy fl = true ->
  Z.of_nat (length w) < 2 ^ 30 ->
  Forall (fun d => 0 <= w_io_burst_time d < UINT_MOD) w ->
  loaded m src fl w = Some s0 ->
  ticks fl n s0 0 = Some (s, tq) ->
  exists s3,
    tick_before_io fl s = Some s3 /\
    Forall (fun p =>
              1 <= io_burst_time (mem s3 p) < UINT_MOD /\
              io_burst_time (mem (waiting_Process_IO s3) p) =
              io_burst_time (mem s3 p) - 1)
           (elements (top (waiting_queue s3))).
Proof.
  intros V L F E0 En.
  pose proof (@reachable_inv m src fl w n s0 s tq V L F E0 En) as I.
  destruct (tick_before_io_spec I) as (s3 & E3 & I3 & P3).
  exists s3. split; [exact E3|].
  unfold waiting_io_positive in P3. rewrite Forall_forall in *.
  intros p Hp. split; [apply P3; exact Hp|].
  destruct (Simulator_Process_IO_spec (top (waiting_queue s3)) (mem s3)
              (NoDup_live_waiting I3)) as [Hi _].
  fields. rewrite (Hi p Hp). unfold io_step.
  cbn [io_burst_time set_io_burst_time set_turnaround_time].
  apply udecr_positive. apply P3. exact Hp.
Qed.

(** An instance: FCFS on three processes with I/O, second tick; process
    1 waits with [io_burst_time = 3]. *)
Lemma waiting_io_burst_positive_witness :
  exists s0 s tq,
    loaded blank_mem alternating_src FCFS io_workload = Some s0 /\
    ticks FCFS 1 s0 0 = Some (s, tq) /\
    exists s3,
      tick_before_io FCFS s = Some s3 /\
      Forall (fun p =>
                1 <= io_burst_time (mem s3 p) < UINT_MOD /\
                io_burst_time (mem (waiting_Process_IO s3) p) =
                io_burst_time (mem s3 p) - 1)
             (elements (top (waiting_queue s3))).
Proof.
  eexists. eexists. eexists.
  split; [vm_compute; reflexivity|]. split; [vm_compute; reflexivity|].
  eapply (@waiting_io_burst_positive_at_io_advance
            blank_mem alternating_src FCFS io_workload 1).
  - reflexivity.
  - reflexivity.
  - repeat constructor; discriminate.
  - vm_compute. reflexivity.
  - vm_compute. reflexivity.
Defined.

(** C7. In the loop of any of the six policies, the waiting heap is in
    heap order under [IO_Burst_Compare] when [Simulator_Process_IO] is
    called on it, and still is, at every parent/child pair, once every
    [io_burst_time] in it has been decremented. *)
Theorem io_advance_preserves_heap_order
  (m : Mem) (src : nat -> Z) (fl : Z) (w : list Workload_t)
  (n : nat) (s0 s : Simulator_t) (tq : Z) :
  valid_policy fl = true ->
  Z.of_nat (length w) < 2 ^ 30 ->
  Forall (fun d => 0 <= w_io_burst_time d < UINT_MOD) w ->
  loaded m src fl w = Some s0 ->
  ticks fl n s0 0 = Some (s, tq) ->
  exists s3,
    tick_before_io fl s = Some s3 /\
    heap_ordered (IO_Burst_Compare (mem s3)) (top (waiting_queue s3)) /\
    heap_ordered (IO_Burst_Compare (mem (waiting_Process_IO s3)))
                 (top (waiting_queue (waiting_Process_IO s3))).
Proof.
  intros V L F E0 En.
  pose proof (@reachable_inv m src fl w n s0 s tq V L F E0 En) as I.
  destruct (tick_before_io_spec I) as (s3 & E3 & I3 & P3).
  exists s3. split; [exact E3|]. split.
  - apply heap_heap_ordered. apply I3.
  - apply heap_heap_ordered. apply (waiting_Process_IO_spec I3 P3).
Qed.

(** An instance: Round-Robin on three processes with I/O, sixth tick; two
    processes wait. *)
Lemma io_advance_preserves_heap_order_witness :
  exists s0 s tq,
    loaded blank_mem zero_src ROUND_ROBIN io_workload = Some s0 /\
    ticks ROUND_ROBIN 5 s0 0 = Some (s, tq) /\
    exists s3,
      tick_before_io ROUND_ROBIN s = Some s3 /\
      heap_ordered (IO_Burst_Compare (mem s3)) (top (waiting_queue s3)) /\
      heap_ordered (IO_Burst_Compare (mem (waiting_Process_IO s3)))
                   (top (waiting_queue (waiting_Process_IO s3))).
Proof.
  eexists. eexists. eexists.
  split; [vm_compute; reflexivity|]. split; [vm_compute; reflexivity|].
  eapply (@io_advance_preserves_heap_order
            blank_mem zero_src ROUND_ROBIN io_workload 5).
  - reflexivity.
  - reflexivity.
  - repeat constructor; discriminate.
  - vm_compute. reflexivity.
  - vm_compute. reflexivity.
Defined.



(** ** Where the preemption decision is taken *)

(** C3 does not hold of the code: the loops of the preemptive policies
    take the preemption decision inside [Simulator_CPU_Burst_Preemptive],
    after the aging of the ready processes, and not in Dispatch/Preempt.
    On the tick in which a process with the shorter burst arrives while
    another one runs, the loop of Preemptive-SJF and the tick that
    decides preemption at Dispatch/Preempt disagree: in the loop the
    newcomer is aged in the ready queue before it takes the CPU
    ([waiting_time = 1]); with the decision at Dispatch/Preempt it is not
    ([waiting_time = 0]). *)
Lemma preemption_not_decided_at_dispatch :
  exists s0 s tq r r',
    loaded blank_mem zero_src PREEMPTIVE_SJF preempt_workload = Some s0 /\
    ticks PREEMPTIVE_SJF 1 s0 0 = Some (s, tq) /\
    tick PREEMPTIVE_SJF s tq = Some r /\
    tick_preempt_at_dispatch s tq = Some r' /\
    cur_cpu_burst (snd (fst r)) = Some 1%nat /\
    cur_cpu_burst (snd (fst r')) = Some 1%nat /\
    waiting_time (mem (snd (fst r)) 1%nat) = 1 /\
    waiting_time (mem (snd (fst r')) 1%nat) = 0 /\
    tick PREEMPTIVE_SJF s tq <> tick_preempt_at_dispatch s tq.
Proof.
  eexists. eexists. eexists. eexists. eexists.
  split; [vm_compute; reflexivity|]. split; [vm_compute; reflexivity|].
  split; [vm_compute; reflexivity|]. split; [vm_compute; reflexivity|].
  split; [reflexivity|]. split; [reflexivity|].
  split; [reflexivity|]. split; [reflexivity|].
  intros H.
  apply (f_equal (fun o => match o with
                           | Some r => waiting_time (mem (snd (fst r)) 1%nat)
                           | None => 0
                           end)) in H.
  vm_compute in H. discriminate.
Qed.

(** Where the code takes the decision.  In every tick of the two
    preemptive policies the preemption decision is the first thing
    [Simulator_CPU_Burst_Preemptive] does: it comes after the aging of
    the ready processes, after the I/O advance and after the random I/O
    interrupt resolution of that tick, and just before the CPU tick
    itself, which is that of [Simulator_CPU_Burst]. *)
Lemma preemption_decided_before_execute (s : Simulator_t) (tq : Z) :
  tick PREEMPTIVE_SJF s tq = tick_preempt_before_execute s tq /\
  tick PREEMPTIVE_PRIORITY s tq = tick_preempt_before_execute s tq.
Proof.
  unfold tick, tick_before_io, tick_after_io, tick_preempt_before_execute.
  change (fifo_policy PREEMPTIVE_SJF) with false.
  change (valid_policy PREEMPTIVE_SJF) with true.
  change (PREEMPTIVE_SJF =? ROUND_ROBIN) with false.
  change (PREEMPTIVE_SJF =? FCFS) with false.
  change (preemptive_policy PREEMPTIVE_SJF) with true.
  change (fifo_policy PREEMPTIVE_PRIORITY) with false.
  change (valid_policy PREEMPTIVE_PRIORITY) with true.
  change (PREEMPTIVE_PRIORITY =? ROUND_ROBIN) with false.
  change (PREEMPTIVE_PRIORITY =? FCFS) with false.
  change (preemptive_policy PREEMPTIVE_PRIORITY) with true.
  cbn [negb].
  assert (E : (s1 <- Simulator_LoadReadyQueue_Priority s ;;
               s2 <- Simulator_LoadProcess_Priority s1 ;;
               s3 <- ready_Priority_Waiting s2 ;;
               s5 <- Simulator_Process_IO_Priority (waiting_Process_IO s3) ;;
               s5' <- preempt_decision s5 ;;
               '(ret, s6) <- Simulator_CPU_Burst s5' ;; Some (ret, s6, tq)) =
              (s3 <- (s1 <- Simulator_LoadReadyQueue_Priority s ;;
                      s2 <- Simulator_LoadProcess_Priority s1 ;;
                      ready_Priority_Waiting s2) ;;
               s5 <- Simulator_Process_IO_Priority (waiting_Process_IO s3) ;;
               '(ret, s6) <- Simulator_CPU_Burst_Preemptive s5 ;;
               Some (ret, s6, tq))).
  { destruct (Simulator_LoadReadyQueue_Priority s) as [s1|]; cbn [bind];
      [|reflexivity].
    destruct (Simulator_LoadProcess_Priority s1) as [s2|]; cbn [bind];
      [|reflexivity].
    destruct (ready_Priority_Waiting s2) as [s3|]; cbn [bind]; [|reflexivity].
    destruct (Simulator_Process_IO_Priority (waiting_Process_IO s3)) as [s5|];
      cbn [bind]; [|reflexivity].
    rewrite Simulator_CPU_Burst_Preemptive_decompose.
    destruct (preempt_decision s5) as [s5'|]; reflexivity. }
  split; symmetry; exact E.
Qed.

(** ** Rounding to binary64 *)

(** [35/3] is rounded to [0x1.7555555555555p+3] and [1/10] to
    [0x1.999999999999ap-4]; [5/4] is a binary64 number; of the two
    neighbours of [2^53 + 1] the even one, [2^53], is taken, and of those
    of [2^53 + 3] the even one, [2^53 + 4]. *)
Lemma b64_round_examples :
  ddiv (double_of_uint 35) (double_of_uint 3) =
    DFin (6567749456581973 # 562949953421312) /\
  ddiv (double_of_uint 1) (double_of_uint 10) =
    DFin (3602879701896397 # 36028797018963968) /\
  ddiv (double_of_uint 5) (double_of_uint 4) = DFin (5 # 4) /\
  dadd (DFin (inject_Z (2 ^ 53))) (double_of_uint 1) =
    DFin (inject_Z (2 ^ 53)) /\
  dadd (DFin (inject_Z (2 ^ 53))) (double_of_uint 3) =
    DFin (inject_Z (2 ^ 53 + 4)).
Proof.
  split; [vm_compute; reflexivity|]. split; [vm_compute; reflexivity|].
  split; [vm_compute; reflexivity|]. split; vm_compute; reflexivity.
Qed.

Lemma Qred_inject_Z (z : Z) : Qred (inject_Z z) = inject_Z z.
Proof.
  apply Qcanon.Qred_identity. simpl. apply Z.gcd_1_r.
Qed.

Lemma round_half_even_exact (n : Z) : round_half_even n 1 = n.
Proof.
  unfold round_half_even. rewrite Z.div_1_r, Z.mod_1_r. reflexivity.
Qed.

Lemma floor_log2_int (z : Z) : 0 < z -> floor_log2 z 1 = Z.log2 z.
Proof.
  intros Hz. unfold floor_log2. change (Z.log2 1) with 0.
  rewrite Z.sub_0_r.
  pose proof (Z.log2_nonneg z) as L.
  destruct (Z.log2_spec z Hz) as [A _].
  replace (Z.max 0 (- Z.log2 z)) with 0 by lia.
  replace (Z.max 0 (Z.log2 z)) with (Z.log2 z) by lia.
  change (2 ^ 0) with 1.
  destruct (Z.ltb_spec (z * 1) (1 * 2 ^ Z.log2 z)); [lia|reflexivity].
Qed.

(** An integer from 0 to [2^53 - 1] is a binary64 number: rounding
    leaves it as it is. *)
Lemma b64_round_int (q : Q) (z : Z) :
  (q == inject_Z z)%Q -> 0 <= z < 2 ^ 53 -> b64_round q = DFin (inject_Z z).
Proof.
  intros E Hz. unfold b64_round.
  rewrite (Qred_complete _ _ E), Qred_inject_Z. cbn [Qnum Qden inject_Z].
  destruct z as [|p|p]; [reflexivity| |lia].
  unfold b64_round_pos. rewrite floor_log2_int by lia.
  set (k := Z.log2 (Z.pos p)).
  assert (Hk : 0 <= k <= 52).
  { split; [apply Z.log2_nonneg|].
    assert (k < 53); [|lia]. apply Z.log2_lt_pow2; lia. }
  replace (Z.max (k - 52) (-1074)) with (k - 52) by lia.
  replace (Z.max 0 (k - 52)) with 0 by lia.
  replace (Z.max 0 (- (k - 52))) with (52 - k) by lia.
  change (2 ^ 0) with 1. rewrite round_half_even_exact, !Z.mul_1_r.
  assert (P : 0 < 2 ^ (52 - k)) by (apply Z.pow_pos_nonneg; lia).
  assert (B : Z.pos p * 2 ^ (52 - k) < 2 ^ 53).
  { destruct (Z.log2_spec (Z.pos p)) as [_ U]; [lia|]. fold k in U.
    replace 53 with (Z.succ k + (52 - k)) by lia.
    rewrite Z.pow_add_r by lia. nia. }
  destruct (Z.leb_spec (2 ^ 1024) (Z.pos p * 2 ^ (52 - k))) as [O|_].
  { assert (2 ^ 53 < 2 ^ 1024) by (apply Z.pow_lt_mono_r; lia). lia. }
  f_equal. rewrite <- (Qred_inject_Z (Z.pos p)). apply Qred_complete.
  unfold Qeq, inject_Z. cbn [Qnum Qden]. rewrite Z2Pos.id by exact P. lia.
Qed.

(** A sum of integers that stays below [2^53] is exact. *)
Lemma dadd_int (a w : Z) :
  0 <= a + w < 2 ^ 53 ->
  dadd (DFin (inject_Z a)) (double_of_uint w) = DFin (inject_Z (a + w)).
Proof.
  intros H. unfold dadd, double_of_uint. apply b64_round_int; [|exact H].
  rewrite inject_Z_plus. apply Qeq_refl.
Qed.

(** ** Accounting and evaluation on concrete workloads *)

(** C1 fails under Preemptive-SJF.  Process 2 ([cpu_burst_time = 2],
    [arrival_time = 1]) arrives while process 1 ([cpu_burst_time = 5],
    [arrival_time = 0]) runs, preempts it in tick 1 and terminates in
    tick 2: two ticks in the system, but [turnaround_time = 3].  Process 1
    terminates in tick 6 with [turnaround_time = 6] after seven ticks. *)
Theorem preemption_miscounts_turnaround (m : Mem) (src : nat -> Z) :
  exists s0 s2 tq2 s3 tq3 s6 tq6 s7 tq7,
    loaded m src PREEMPTIVE_SJF preempt_workload = Some s0 /\
    ticks PREEMPTIVE_SJF 2 s0 0 = Some (s2, tq2) /\
    elapsed_time s2 = 2 /\
    elements (top (terminated_processes s2)) = [] /\
    tick PREEMPTIVE_SJF s2 tq2 = Some (0, s3, tq3) /\
    elements (top (terminated_processes s3)) = [1%nat] /\
    arrival_time (mem s3 1%nat) = 1 /\
    turnaround_time (mem s3 1%nat) = 3 /\
    ticks PREEMPTIVE_SJF 6 s0 0 = Some (s6, tq6) /\
    elapsed_time s6 = 6 /\
    cur_cpu_burst s6 = Some 0%nat /\
    tick PREEMPTIVE_SJF s6 tq6 = Some (1, s7, tq7) /\
    arrival_time (mem s7 0%nat) = 0 /\
    cpu_burst_time (mem s7 0%nat) = 0 /\
    turnaround_time (mem s7 0%nat) = 6.
Proof.
  do 9 eexists.
  split; [vm_compute; reflexivity|]. split; [vm_compute; reflexivity|].
  split; [reflexivity|]. split; [reflexivity|].
  split; [vm_compute; reflexivity|].
  split; [reflexivity|]. split; [reflexivity|]. split; [reflexivity|].
  split; [vm_compute; reflexivity|].
  split; [reflexivity|]. split; [reflexivity|].
  split; [vm_compute; reflexivity|].
  split; [reflexivity|]. split; reflexivity.
Qed.

(** What [Simulator_Eval] leaves alone, and what it prints. *)
Lemma eval_loop_frame :
  forall (fuel : nat) (s s' : Simulator_t),
    eval_loop fuel s = Some s' ->
    elapsed_time s' = elapsed_time s /\ idle_time s' = idle_time s /\
    flag s' = flag s /\ output s' = output s.
Proof.
  induction fuel as [|fuel IH]; intros s s' H; [discriminate|].
  cbn [eval_loop] in H.
  destruct (Priority_Top (terminated_processes s)) as [[tmp|]|];
    cbn [bind] in H; [|injection H as <-; auto|discriminate].
  destruct (Priority_Dequeue (mem s) (terminated_processes s)) as [[tq r]|];
    cbn [bind] in H; [|discriminate].
  apply IH in H. destruct (max_waiting_time _ <? _) in H; exact H.
Qed.

Lemma Simulator_Eval_report (s s' : Simulator_t) :
  Simulator_Eval s = Some s' ->
  elapsed_time s' = elapsed_time s /\ idle_time s' = idle_time s /\
  flag s' = flag s /\
  exists wt tt,
    output s' =
    Out_Eval (uincr (elapsed_time s))
      (ddiv (double_of_uint ((elapsed_time s + 1 - idle_time s) mod UINT_MOD))
            (double_of_uint (elapsed_time s)))
      wt tt :: output s.
Proof.
  unfold Simulator_Eval. intros H.
  destruct (eval_loop _ s) as [s1|] eqn:E; cbn [bind] in H; [|discriminate].
  apply eval_loop_frame in E. destruct E as (Ee & Ei & Ef & Eo).
  injection H as <-. fields. rewrite Ee, Eo. repeat split; auto.
  eexists. eexists. reflexivity.
Qed.

(** Whenever evaluation runs with [elapsed_time = 0], the utilization it
    prints is the result of a division by zero. *)
Lemma Simulator_Eval_at_zero (s s' : Simulator_t) :
  elapsed_time s = 0 -> Simulator_Eval s = Some s' ->
  exists t u wt tt,
    output s' = Out_Eval t u wt tt :: output s /\ (u = DInf \/ u = DNaN).
Proof.
  intros Z0 H. apply Simulator_Eval_report in H.
  destruct H as (_ & _ & _ & wt & tt & Ho). rewrite Z0 in Ho.
  do 4 eexists. split; [exact Ho|].
  unfold ddiv, double_of_uint. change (Qeq_bool (inject_Z 0) 0) with true.
  cbv beta iota. destruct (Qeq_bool _ 0); auto.
Qed.

(** C4 fails for the summary table.  On the workload of scenario A
    ([elapsed_time = 4], [idle_time = 0]) [Simulator_Eval] reports
    [(4 + 1 - 0) / 4 = 5/4], and the row of [Simulator_Terminate] reports
    [(4 - 0) / 4 = 1]. *)
Theorem table_utilization_differs_from_eval (m : Mem) (src : nat -> Z) :
  exists s wt tt wt' tt' mx,
    simulate m src FCFS single_workload 5 = Some s /\
    elapsed_time s = 4 /\ idle_time s = 0 /\
    hd_error (output s) = Some (Out_Eval 5 (DFin (5 # 4)) wt tt) /\
    Simulator_Terminate [s] = Some [Out_Row FCFS (DFin 1) wt' tt' mx].
Proof.
  do 6 eexists.
  split; [vm_compute; reflexivity|].
  split; [reflexivity|]. split; [reflexivity|].
  split; [reflexivity|]. vm_compute. reflexivity.
Qed.

(** C5 fails.  A single process with [cpu_burst_time = 1] arriving at 0
    ends the simulation in tick 0, so evaluation runs with
    [elapsed_time = 0]: [Simulator_Eval] divides [1] by [0] and reports
    an infinite utilization, [Simulator_Terminate] divides [0] by [0] and
    reports a NaN; neither is the zero the claim asks for. *)
Theorem eval_divides_by_zero (m : Mem) (src : nat -> Z) :
  exists s wt tt wt' tt' mx,
    simulate m src FCFS instant_workload 1 = Some s /\
    elapsed_time s = 0 /\
    hd_error (output s) = Some (Out_Eval 1 DInf wt tt) /\
    Simulator_Terminate [s] = Some [Out_Row FCFS DNaN wt' tt' mx].
Proof.
  do 6 eexists.
  split; [vm_compute; reflexivity|].
  split; [reflexivity|]. split; [reflexivity|].
  vm_compute. reflexivity.
Qed.


(** * Further properties *)

(** ** The FIFO queue under any sequence of calls *)

Lemma Queue_Enqueue_some (q q1 : Queue_t) (p : ProcessPtr_t) :
  queue_wf q -> Queue_Enqueue q p = Some q1 ->
  items q1 = items q ++ [p] /\ queue_wf q1 /\ q_count q < INT_MAX.
Proof.
  intros W E.
  destruct (Z.lt_ge_cases (q_count q) INT_MAX) as [L|L].
  - destruct (@Queue_Enqueue_items q p W L) as (q2 & E2 & Ei & W2 & _).
    assert (q2 = q1) by congruence. subst q2. auto.
  - rewrite Queue_Enqueue_full in E by exact L. discriminate.
Qed.

Lemma queue_run_wf (ops : list q_op) :
  forall q removed q' removed',
    queue_wf q ->
    queue_run ops q removed = Some (q', removed') ->
    queue_wf q' /\
    removed' ++ items q' = removed ++ items q ++ enqueued ops.
Proof.
  induction ops as [|[p|] ops IH]; intros q removed q' removed' W E.
  - simpl in E. injection E as <- <-. split; [exact W|].
    simpl. rewrite app_nil_r. reflexivity.
  - cbn [queue_run] in E.
    destruct (Queue_Enqueue q p) as [q1|] eqn:Eq; cbn [bind] in E;
      [|discriminate].
    destruct (@Queue_Enqueue_some q q1 p W Eq) as (Ei & W1 & _).
    destruct (IH _ _ _ _ W1 E) as [W2 E2]. split; [exact W2|].
    rewrite E2, Ei. simpl. rewrite <- !app_assoc. reflexivity.
  - simpl in E. pose proof (Queue_Dequeue_items W) as D.
    destruct (items q) as [|p rest] eqn:Ei.
    + destruct D as [Ef Ed]. rewrite Ef, Ed in E. cbn [bind] in E.
      destruct (IH _ _ _ _ W E) as [W2 E2]. split; [exact W2|].
      rewrite E2, Ei. reflexivity.
    + destruct D as (Ef & q1 & Ed & Ei1 & W1). rewrite Ef, Ed in E.
      cbn [bind] in E. destruct (IH _ _ _ _ W1 E) as [W2 E2].
      split; [exact W2|]. rewrite E2, Ei1. rewrite <- !app_assoc. reflexivity.
Qed.

Lemma queue_wf_init : queue_wf Queue_Init.
Proof. reflexivity. Qed.

(** X1.  Whatever sequence of at most [INT_MAX] calls is made on a queue
    created by [Queue_Init], none of them dereferences a null pointer or
    overflows [count], the field [count] is the number of cells of the
    list and the number of enqueues minus the number of processes
    removed, and [Queue_IsEmpty] answers 1 exactly when everything
    enqueued has been removed. *)
Theorem queue_count_tracks_calls (ops : list q_op) :
  Z.of_nat (length ops) <= INT_MAX ->
  exists q removed,
    queue_run ops Queue_Init [] = Some (q, removed) /\
    q_count q = Z.of_nat (length (items q)) /\
    q_count q =
      Z.of_nat (length (enqueued ops)) - Z.of_nat (length removed) /\
    (Queue_IsEmpty q = true <-> removed = enqueued ops).
Proof.
  intros Hl.
  destruct (@queue_run_fifo ops Queue_Init [] queue_wf_init)
    as (q & removed & E & _); [simpl; lia|].
  destruct (queue_run_wf ops [] queue_wf_init E) as [W F].
  simpl in F. exists q, removed. split; [exact E|]. split; [exact W|].
  assert (L : length (enqueued ops) = (length removed + length (items q))%nat).
  { rewrite <- F. apply length_app. }
  split; [unfold queue_wf in W; lia|].
  unfold Queue_IsEmpty. rewrite W. split.
  - intros Z0. apply Z.eqb_eq in Z0.
    destruct (items q); [|simpl in Z0; lia].
    rewrite app_nil_r in F. exact F.
  - intros ->. apply Z.eqb_eq.
    destruct (items q); [reflexivity|]. simpl in L. lia.
Qed.

Lemma queue_count_tracks_calls_witness :
  exists q removed,
    queue_run [QEnqueue 4%nat; QEnqueue 5%nat; QDequeue] Queue_Init []
    = Some (q, removed) /\
    q_count q = Z.of_nat (length (items q)) /\
    q_count q =
      Z.of_nat (length (enqueued [QEnqueue 4%nat; QEnqueue 5%nat; QDequeue]))
      - Z.of_nat (length removed) /\
    (Queue_IsEmpty q = true <->
     removed = enqueued [QEnqueue 4%nat; QEnqueue 5%nat; QDequeue]).
Proof.
  apply (@queue_count_tracks_calls [QEnqueue 4%nat; QEnqueue 5%nat; QDequeue]).
  vm_compute. discriminate.
Defined.

(** X2.  On a queue reached by any calls, [Queue_Dequeue] returns 0 and
    changes nothing exactly when the queue holds no process, and
    [Queue_Front] returns [NULL] then; otherwise [Queue_Front] returns the
    oldest process and [Queue_Dequeue] removes it and returns 1. *)
Theorem queue_front_dequeue_on_reached
  (ops : list q_op) (q : Queue_t) (removed : list ProcessPtr_t) :
  queue_run ops Queue_Init [] = Some (q, removed) ->
  match items q with
  | [] =>
      Queue_IsEmpty q = true /\ Queue_Front q = Some None /\
      Queue_Dequeue q = Some (q, 0)
  | p :: rest =>
      Queue_IsEmpty q = false /\ Queue_Front q = Some (Some p) /\
      exists q',
        Queue_Dequeue q = Some (q', 1) /\ items q' = rest /\
        q_count q' = q_count q - 1
  end.
Proof.
  intros E. destruct (queue_run_wf ops [] queue_wf_init E) as [W _].
  pose proof (Queue_Dequeue_items W) as D. unfold Queue_IsEmpty.
  unfold queue_wf in W. destruct (items q) as [|p rest] eqn:Ei.
  - destruct D as [Ef Ed]. simpl in W. rewrite W. auto.
  - destruct D as (Ef & q' & Ed & Ei' & W'). simpl in W.
    split; [apply Z.eqb_neq; rewrite W; cbn [length]; lia|].
    split; [exact Ef|]. exists q'. split; [exact Ed|]. split; [exact Ei'|].
    unfold queue_wf in W'. rewrite W', W, Ei'. cbn [length]. lia.
Qed.

Lemma queue_front_dequeue_on_reached_witness :
  Queue_IsEmpty (mkQueue 1 [7%nat]) = false /\
  Queue_Front (mkQueue 1 [7%nat]) = Some (Some 7%nat) /\
  exists q',
    Queue_Dequeue (mkQueue 1 [7%nat]) = Some (q', 1) /\ items q' = [] /\
    q_count q' = q_count (mkQueue 1 [7%nat]) - 1.
Proof.
  exact (@queue_front_dequeue_on_reached
           [QEnqueue 3%nat; QDequeue; QEnqueue 7%nat] (mkQueue 1 [7%nat])
           [3%nat] eq_refl).
Defined.

(** ** The priority queue under any sequence of calls *)

Lemma pq_wf_init (c : Mem -> ProcessPtr_t -> ProcessPtr_t -> bool) :
  pq_wf (Priority_Init c).
Proof. unfold pq_wf. simpl. repeat split; lia. Qed.

Lemma pq_run_reach (m : Mem) (ops : list pq_op) :
  forall q q',
    pq_wf q -> count q + Z.of_nat (length ops) < 2 ^ 30 ->
    strict_weak_order (compare q m) -> heap (compare q m) (top q) ->
    pq_run m ops q = Some q' ->
    pq_wf q' /\ compare q' = compare q /\ heap (compare q m) (top q') /\
    count q' <= count q + Z.of_nat (length ops).
Proof.
  induction ops as [|[p|] ops IH]; intros q q' W B O H E.
  - simpl in E. injection E as <-. simpl.
    split; [exact W|]. split; [reflexivity|]. split; [exact H|lia].
  - cbn [pq_run] in E. cbn [length] in B. rewrite Nat2Z.inj_succ in B.
    destruct (@Priority_Enqueue_spec m q p W) as (q1 & E1 & W1 & C1 & M1 & _ & H1);
      [lia|].
    rewrite E1 in E. cbn [bind] in E.
    destruct (IH q1 q') as (W2 & M2 & H2 & C2); auto.
    + lia.
    + rewrite M1. exact O.
    + rewrite M1. auto.
    + cbn [length]. rewrite Nat2Z.inj_succ. rewrite M1 in H2.
      split; [exact W2|]. split; [congruence|]. split; [exact H2|lia].
  - cbn [pq_run] in E. cbn [length] in B. rewrite Nat2Z.inj_succ in B.
    pose proof W as (W0 & _).
    destruct (Z.eq_dec (count q) 0) as [Z0|Z0].
    + rewrite (Priority_Dequeue_empty m q Z0) in E. cbn [bind] in E.
      destruct (IH q q') as (W2 & M2 & H2 & C2); auto; [lia|].
      cbn [length]. rewrite Nat2Z.inj_succ.
      split; [exact W2|]. split; [exact M2|]. split; [exact H2|lia].
    + destruct (@Priority_Dequeue_spec m q W) as (q1 & x & E1 & _ & W1 & C1 & M1 & _ & H1);
        [lia|lia|].
      rewrite E1 in E. cbn [bind] in E.
      destruct (IH q1 q') as (W2 & M2 & H2 & C2); auto.
      * lia.
      * rewrite M1. exact O.
      * rewrite M1. auto.
      * cbn [length]. rewrite Nat2Z.inj_succ. rewrite M1 in H2.
        split; [exact W2|]. split; [congruence|]. split; [exact H2|lia].
Qed.

Lemma pq_reached (m : Mem) (c : Mem -> ProcessPtr_t -> ProcessPtr_t -> bool)
  (ops : list pq_op) (q : Priority_Queue_t) :
  In c comparators -> Z.of_nat (length ops) < 2 ^ 30 ->
  pq_run m ops (Priority_Init c) = Some q ->
  pq_wf q /\ compare q = c /\ heap (c m) (top q) /\
  count q <= Z.of_nat (length ops).
Proof.
  intros Hc B E.
  pose proof (@pq_run_reach m ops (Priority_Init c) q (pq_wf_init c)) as R.
  simpl in R. apply R; auto; try lia. apply comparators_swo. exact Hc.
Qed.

Lemma heap_root_lower_bound (cmp : ProcessPtr_t -> ProcessPtr_t -> bool)
  (t : TreeNodePtr_t) (x : ProcessPtr_t) :
  strict_weak_order cmp -> heap cmp t -> root_of t = Some x ->
  forall e, In e (elements t) -> cmp e x = false.
Proof.
  intros (Asym & _) H R e He. destruct t as [|l p r]; [discriminate|].
  simpl in R. injection R as ->. simpl in H. destruct H as (Ll & Lr & _).
  unfold lower_bound in Ll, Lr. rewrite Forall_forall in Ll, Lr.
  simpl in He. apply in_app_or in He. destruct He as [He|[<-|He]]; auto.
  destruct (cmp x x) eqn:Ex; [|reflexivity].
  rewrite (Asym _ _ Ex) in Ex. discriminate.
Qed.

(** X3.  After any sequence of fewer than 2^30 calls on a queue created
    with one of the four comparators, [Priority_Top] returns [NULL] when
    the queue holds nothing, and otherwise a process of the queue that no
    process of the queue is strictly ahead of. *)
Theorem priority_top_is_minimum
  (m : Mem) (c : Mem -> ProcessPtr_t -> ProcessPtr_t -> bool)
  (ops : list pq_op) (q : Priority_Queue_t) :
  In c comparators ->
  Z.of_nat (length ops) < 2 ^ 30 ->
  pq_run m ops (Priority_Init c) = Some q ->
  match elements (top q) with
  | [] => Priority_IsEmpty q = true /\ Priority_Top q = Some None
  | _ :: _ =>
      Priority_IsEmpty q = false /\
      exists p,
        Priority_Top q = Some (Some p) /\ In p (elements (top q)) /\
        forall e, In e (elements (top q)) -> c m e p = false
  end.
Proof.
  intros Hc B E. destruct (@pq_reached m c ops q Hc B E) as (W & M & H & C).
  pose proof W as (W0 & _ & Wl). unfold Priority_IsEmpty.
  rewrite (Priority_Top_spec W).
  destruct (elements (top q)) as [|e0 rest] eqn:Ee.
  - simpl in Wl. rewrite Wl. split; [reflexivity|].
    rewrite (elements_nil _ Ee). reflexivity.
  - assert (Hn : count q <> 0) by (rewrite Wl; cbn [length]; lia).
    split; [apply Z.eqb_neq; exact Hn|].
    destruct (pq_nonempty W Hn) as (x & Rx & Ix & _).
    exists x. rewrite Rx. split; [reflexivity|]. rewrite <- Ee.
    split; [exact Ix|].
    apply heap_root_lower_bound; auto. apply comparators_swo. exact Hc.
Qed.

Lemma priority_top_is_minimum_witness :
  Priority_IsEmpty
    (mkPQ 2 (Node (Node NULL 0%nat NULL) 1%nat NULL) SJF_Compare) = false /\
  exists p,
    Priority_Top
      (mkPQ 2 (Node (Node NULL 0%nat NULL) 1%nat NULL) SJF_Compare)
    = Some (Some p) /\
    In p [0%nat; 1%nat] /\
    forall e, In e [0%nat; 1%nat] ->
      SJF_Compare
        numbered_mem
        e p = false.
Proof.
  apply (@priority_top_is_minimum
           numbered_mem
           SJF_Compare [PEnqueue 0%nat; PEnqueue 1%nat]
           (mkPQ 2 (Node (Node NULL 0%nat NULL) 1%nat NULL) SJF_Compare)).
  - simpl. auto.
  - simpl. lia.
  - reflexivity.
Defined.





Lemma drain_spec (m : Mem) :
  forall (fuel : nat) (q : Priority_Queue_t),
    pq_wf q -> count q < 2 ^ 30 ->
    strict_weak_order (compare q m) -> heap (compare q m) (top q) ->
    (Z.to_nat (count q) < fuel)%nat ->
    exists l q',
      drain fuel m q = Some (l, q') /\
      Permutation l (elements (top q)) /\
      StronglySorted (fun a b => compare q m b a = false) l /\
      count q' = 0 /\ top q' = NULL /\ compare q' = compare q.
Proof.
  induction fuel as [|fuel IH]; intros q W B O H F; [lia|].
  cbn [drain]. rewrite (Priority_Top_spec W). cbn [bind].
  pose proof W as (W0 & _).
  destruct (Z.eq_dec (count q) 0) as [Z0|Z0].
  - pose proof (pq_wf_empty W Z0) as Et. rewrite Et. cbn [root_of].
    exists [], q. simpl. repeat split; auto. constructor.
  - destruct (pq_nonempty W Z0) as (x & Rx & Ix & Hp). rewrite Rx.
    destruct (@Priority_Dequeue_spec m q W) as (q1 & x' & E1 & Rx' & W1 & C1 & M1 & P1 & H1);
      [lia|lia|].
    assert (x' = x) by congruence. subst x'.
    rewrite E1. cbn [bind].
    destruct (IH q1) as (l & q' & E & P & S & C' & T' & M'); auto.
    + lia.
    + rewrite M1. exact O.
    + rewrite M1. auto.
    + lia.
    + rewrite E. cbn [bind]. exists (x :: l), q'.
      split; [reflexivity|]. split; [|split; [|split; [|split]]]; auto.
      * rewrite P1. constructor. exact P.
      * constructor; [rewrite M1 in S; exact S|].
        rewrite Forall_forall. intros e He.
        apply heap_root_lower_bound with (top q); auto.
        apply Permutation_in with (x :: elements (top q1));
          [symmetry; exact P1|].
        right. apply Permutation_in with l; auto.
      * congruence.
Qed.



(** ** The comparators *)

Lemma lex_total (key : Process_t -> Z) (m : Mem) (a b : ProcessPtr_t) :
  pid (m a) <> pid (m b) ->
  (if negb (key (m a) =? key (m b))
   then key (m a) <? key (m b) else pid (m a) <? pid (m b)) =
  negb (if negb (key (m b) =? key (m a))
        then key (m b) <? key (m a) else pid (m b) <? pid (m a)).
Proof.
  intros Hp.
  destruct (Z.eqb_spec (key (m a)) (key (m b))) as [E|E];
    destruct (Z.eqb_spec (key (m b)) (key (m a))) as [E'|E']; try lia;
    cbn [negb].
  - destruct (Z.ltb_spec (pid (m a)) (pid (m b)));
      destruct (Z.ltb_spec (pid (m b)) (pid (m a))); simpl; auto; lia.
  - destruct (Z.ltb_spec (key (m a)) (key (m b)));
      destruct (Z.ltb_spec (key (m b)) (key (m a))); simpl; auto; lia.
Qed.

(** X7.  Each of the four comparators is a strict order that ranks any two
    processes with different pids: it is irreflexive and transitive, and
    of two processes with different pids exactly one is ahead of the
    other. *)
Theorem comparators_rank_distinct_pids
  (c : Mem -> ProcessPtr_t -> ProcessPtr_t -> bool) (m : Mem) :
  In c comparators ->
  (forall a, c m a a = false) /\
  (forall a b d, c m a b = true -> c m b d = true -> c m a d = true) /\
  (forall a b, pid (m a) <> pid (m b) -> c m a b = negb (c m b a)).
Proof.
  intros Hc. destruct (@comparators_swo c m Hc) as (Asym & Trans & _).
  split; [|split].
  - intros a. destruct (c m a a) eqn:E; [|reflexivity].
    rewrite (Asym _ _ E) in E. discriminate.
  - exact Trans.
  - intros a b Hp. simpl in Hc.
    destruct Hc as [<- | [<- | [<- | [<- | []]]]].
    + exact (lex_total cpu_burst_time m a b Hp).
    + exact (lex_total priority m a b Hp).
    + exact (lex_total io_burst_time m a b Hp).
    + exact (lex_total arrival_time m a b Hp).
Qed.

Lemma comparators_rank_distinct_pids_witness :
  (forall a, Priority_Compare numbered_mem a a = false) /\
  (forall a b d, Priority_Compare numbered_mem a b = true ->
                 Priority_Compare numbered_mem b d = true ->
                 Priority_Compare numbered_mem a d = true) /\
  (forall a b, pid (numbered_mem a) <> pid (numbered_mem b) ->
               Priority_Compare numbered_mem a b =
               negb (Priority_Compare numbered_mem b a)).
Proof.
  apply (@comparators_rank_distinct_pids Priority_Compare numbered_mem).
  simpl. auto.
Defined.

(** ** The search for the last node *)

Lemma find_pos_small (c : Z) :
  forall (fuel : nat) (pos : Z),
    0 < pos -> c < pos -> find_pos fuel pos c = None.
Proof.
  induction fuel as [|fuel IH]; intros pos Hp Hc; [reflexivity|].
  cbn [find_pos]. destruct (Z.leb_spec pos c); [lia|]. cbn [andb].
  apply IH; rewrite shiftl_1; lia.
Qed.

(** X8.  The loop that looks for the place of the last node stops at the
    highest power of two that is not above [count] when
    [2 <= count < 2^30]; for any other [count] its [pos << 1] overflows.
    So [Priority_Enqueue] on a queue of [2^30 - 1] or more nodes has no
    defined result. *)
Theorem find_pos_highest_bit (c : Z) :
  (2 <= c < 2 ^ 30 -> find_pos POS_FUEL 2 c = Some (2 ^ Z.log2 c)) /\
  (c < 2 \/ 2 ^ 30 <= c -> find_pos POS_FUEL 2 c = None) /\
  (forall m q x, count q = c -> 2 ^ 30 - 1 <= c ->
                 Priority_Enqueue m q x = None).
Proof.
  split; [|split].
  - intros H. destruct (find_pos_spec H) as (k & E & B).
    rewrite E. f_equal. f_equal. symmetry.
    unfold below in B. apply Z.log2_unique; [lia|].
    rewrite Z.pow_succ_r by lia. lia.
  - intros [H|H].
    + apply find_pos_small; lia.
    + exact (@find_pos_large c H POS_FUEL 1%nat (Nat.le_refl _)).
  - intros m q x Ec H. unfold Priority_Enqueue.
    destruct (Z.eqb_spec (count q) 0) as [Z0|_]; [lia|].
    assert (F : find_pos POS_FUEL 2 (count q + 1) = None).
    { apply (@find_pos_large (count q + 1)) with (j := 1%nat); [lia|].
      apply Nat.le_refl. }
    rewrite F. reflexivity.
Qed.

(** ** [Simulator_Init] *)

Lemma Simulator_Init_valid (m : Mem) (src : nat -> Z) (fl : Z) :
  valid_policy fl = false -> Simulator_Init m src fl = None.
Proof.
  intros V. unfold valid_policy in V. unfold Simulator_Init.
  unfold FCFS, ROUND_ROBIN, NON_PREEMPTIVE_SJF, PREEMPTIVE_SJF,
    NON_PREEMPTIVE_PRIORITY, PREEMPTIVE_PRIORITY.
  destruct (Z.eqb_spec fl 1); [subst; discriminate|].
  destruct (Z.eqb_spec fl 6); [subst; discriminate|].
  destruct (Z.eqb_spec fl 2); [subst; discriminate|].
  destruct (Z.eqb_spec fl 3); [subst; discriminate|].
  destruct (Z.eqb_spec fl 4); [subst; discriminate|].
  destruct (Z.eqb_spec fl 5); [subst; discriminate|].
  reflexivity.
Qed.

(** ** Aging and the I/O advance *)

Lemma age_process_other (m : Mem) (p q : ProcessPtr_t) :
  q <> p -> age_process m p q = m q.
Proof.
  intros H. unfold age_process, store.
  destruct (Nat.eqb_spec q p); [contradiction|reflexivity].
Qed.

Lemma age_process_same (m : Mem) (p : ProcessPtr_t) :
  age_process m p p = age (m p).
Proof. unfold age_process, store. rewrite Nat.eqb_refl. reflexivity. Qed.

Lemma fold_age_spec (l : list ProcessPtr_t) :
  forall m,
    NoDup l ->
    (forall p, In p l -> fold_left age_process l m p = age (m p)) /\
    (forall p, ~ In p l -> fold_left age_process l m p = m p).
Proof.
  induction l as [|x l IH]; intros m N; simpl.
  - split; [intros p []|reflexivity].
  - apply NoDup_cons_iff in N. destruct N as [Nx N].
    destruct (IH (age_process m x) N) as [A B]. split.
    + intros p [<-|Hp].
      * rewrite B by exact Nx. apply age_process_same.
      * rewrite A by exact Hp. rewrite age_process_other; [reflexivity|].
        intros ->. contradiction.
    + intros p Hp. rewrite B by tauto. apply age_process_other.
      intros ->. tauto.
Qed.

Lemma Simulator_Priority_Waiting_spec (t : TreeNodePtr_t) :
  forall m,
    NoDup (elements t) ->
    (forall p, In p (elements t) ->
               Simulator_Priority_Waiting t m p = age (m p)) /\
    (forall p, ~ In p (elements t) -> Simulator_Priority_Waiting t m p = m p).
Proof.
  induction t as [|l IHl x r IHr]; intros m N; simpl.
  - split; [intros p []|reflexivity].
  - simpl in N. destruct (NoDup_app_inv _ _ N) as (Nl & Nxr & D).
    apply NoDup_cons_iff in Nxr. destruct Nxr as [Nx Nr].
    destruct (IHl m Nl) as [Al Bl].
    destruct (IHr (age_process (Simulator_Priority_Waiting l m) x) Nr)
      as [Ar Br].
    assert (Dx : ~ In x (elements l)).
    { intros Hx. apply (D x Hx). left. reflexivity. }
    split.
    + intros p Hp. apply in_app_or in Hp. destruct Hp as [Hp|[<-|Hp]].
      * rewrite Br by (intros Hr; apply (D p Hp); right; exact Hr).
        rewrite age_process_other by (intros ->; contradiction).
        apply Al. exact Hp.
      * rewrite Br by exact Nx. rewrite age_process_same.
        rewrite Bl by exact Dx. reflexivity.
      * rewrite Ar by exact Hp.
        rewrite age_process_other by (intros ->; contradiction).
        rewrite Bl; [reflexivity|].
        intros Hl. apply (D p Hl). right. exact Hp.
    + intros p Hp.
      assert (Hl : ~ In p (elements l)).
      { intros H. apply Hp. apply in_or_app. auto. }
      assert (Hr : ~ In p (elements r)).
      { intros H. apply Hp. apply in_or_app. right. right. exact H. }
      assert (Hx : p <> x).
      { intros ->. apply Hp. apply in_or_app. right. left. reflexivity. }
      rewrite Br by exact Hr. rewrite age_process_other by exact Hx.
      apply Bl. exact Hl.
Qed.

Lemma age_fields (p : Process_t) :
  waiting_time (age p) = uincr (waiting_time p) /\
  turnaround_time (age p) = uincr (turnaround_time p) /\
  times_only p (age p).
Proof. unfold times_only. repeat split. Qed.

(** X10.  [Simulator_Queue_Waiting] on a queue that holds no process
    twice adds one (as an [unsigned int]) to [waiting_time] and to
    [turnaround_time] of every process of the queue, and changes nothing
    else: no other field of these processes and no other process. *)
Theorem Simulator_Queue_Waiting_ages_each_once (q : Queue_t) (m : Mem) :
  NoDup (items q) ->
  (forall p, In p (items q) ->
     waiting_time (Simulator_Queue_Waiting q m p) = uincr (waiting_time (m p)) /\
     turnaround_time (Simulator_Queue_Waiting q m p) =
       uincr (turnaround_time (m p)) /\
     times_only (m p) (Simulator_Queue_Waiting q m p)) /\
  (forall p, ~ In p (items q) -> Simulator_Queue_Waiting q m p = m p).
Proof.
  intros N. unfold Simulator_Queue_Waiting.
  destruct (fold_age_spec m N) as [A B]. split.
  - intros p Hp. rewrite (A p Hp). apply age_fields.
  - exact B.
Qed.

Lemma Simulator_Queue_Waiting_ages_each_once_witness :
  (forall p, In p [0%nat; 2%nat] ->
     waiting_time (Simulator_Queue_Waiting (mkQueue 2 [0%nat; 2%nat])
                                           numbered_mem p) =
       uincr (waiting_time (numbered_mem p)) /\
     turnaround_time (Simulator_Queue_Waiting (mkQueue 2 [0%nat; 2%nat])
                                              numbered_mem p) =
       uincr (turnaround_time (numbered_mem p)) /\
     times_only (numbered_mem p)
       (Simulator_Queue_Waiting (mkQueue 2 [0%nat; 2%nat]) numbered_mem p)) /\
  (forall p, ~ In p [0%nat; 2%nat] ->
     Simulator_Queue_Waiting (mkQueue 2 [0%nat; 2%nat]) numbered_mem p =
     numbered_mem p).
Proof.
  apply (@Simulator_Queue_Waiting_ages_each_once
           (mkQueue 2 [0%nat; 2%nat]) numbered_mem).
  simpl. repeat constructor; simpl; intuition discriminate.
Defined.

(** X11.  [Simulator_Priority_Waiting] on a heap that holds no process
    twice adds one to [waiting_time] and to [turnaround_time] of every
    process of the heap, and changes nothing else. *)
Theorem Simulator_Priority_Waiting_ages_each_once
  (t : TreeNodePtr_t) (m : Mem) :
  NoDup (elements t) ->
  (forall p, In p (elements t) ->
     waiting_time (Simulator_Priority_Waiting t m p) =
       uincr (waiting_time (m p)) /\
     turnaround_time (Simulator_Priority_Waiting t m p) =
       uincr (turnaround_time (m p)) /\
     times_only (m p) (Simulator_Priority_Waiting t m p)) /\
  (forall p, ~ In p (elements t) -> Simulator_Priority_Waiting t m p = m p).
Proof.
  intros N. destruct (Simulator_Priority_Waiting_spec t m N) as [A B]. split.
  - intros p Hp. rewrite (A p Hp). apply age_fields.
  - exact B.
Qed.

Lemma Simulator_Priority_Waiting_ages_each_once_witness :
  (forall p, In p (elements (Node (Node NULL 0%nat NULL) 2%nat NULL)) ->
     waiting_time
       (Simulator_Priority_Waiting (Node (Node NULL 0%nat NULL) 2%nat NULL)
                                   numbered_mem p) =
       uincr (waiting_time (numbered_mem p)) /\
     turnaround_time
       (Simulator_Priority_Waiting (Node (Node NULL 0%nat NULL) 2%nat NULL)
                                   numbered_mem p) =
       uincr (turnaround_time (numbered_mem p)) /\
     times_only (numbered_mem p)
       (Simulator_Priority_Waiting (Node (Node NULL 0%nat NULL) 2%nat NULL)
                                   numbered_mem p)) /\
  (forall p, ~ In p (elements (Node (Node NULL 0%nat NULL) 2%nat NULL)) ->
     Simulator_Priority_Waiting (Node (Node NULL 0%nat NULL) 2%nat NULL)
                                numbered_mem p = numbered_mem p).
Proof.
  apply (@Simulator_Priority_Waiting_ages_each_once
           (Node (Node NULL 0%nat NULL) 2%nat NULL) numbered_mem).
  simpl. repeat constructor; simpl; intuition discriminate.
Defined.

(** X12.  [Simulator_Process_IO] on a heap that holds no process twice
    takes one from [io_burst_time] and adds one to [turnaround_time] of
    every process of the heap, both as [unsigned int] (an [io_burst_time]
    of 0 becomes [2^32 - 1]), and changes nothing else. *)
Theorem Simulator_Process_IO_steps_each_once (t : TreeNodePtr_t) (m : Mem) :
  NoDup (elements t) ->
  (forall p, In p (elements t) ->
     io_burst_time (Simulator_Process_IO t m p) = udecr (io_burst_time (m p)) /\
     turnaround_time (Simulator_Process_IO t m p) =
       uincr (turnaround_time (m p)) /\
     (io_burst_time (m p) = 0 ->
      io_burst_time (Simulator_Process_IO t m p) = 2 ^ 32 - 1) /\
     pid (Simulator_Process_IO t m p) = pid (m p) /\
     cpu_burst_time (Simulator_Process_IO t m p) = cpu_burst_time (m p) /\
     arrival_time (Simulator_Process_IO t m p) = arrival_time (m p) /\
     priority (Simulator_Process_IO t m p) = priority (m p) /\
     waiting_time (Simulator_Process_IO t m p) = waiting_time (m p)) /\
  (forall p, ~ In p (elements t) -> Simulator_Process_IO t m p = m p).
Proof.
  intros N. destruct (Simulator_Process_IO_spec t m N) as [A B]. split.
  - intros p Hp. rewrite (A p Hp). unfold io_step. simpl.
    repeat split; auto. intros ->. reflexivity.
  - exact B.
Qed.

Lemma Simulator_Process_IO_steps_each_once_witness :
  (forall p, In p (elements (Node (Node NULL 0%nat NULL) 2%nat NULL)) ->
     io_burst_time
       (Simulator_Process_IO (Node (Node NULL 0%nat NULL) 2%nat NULL)
                             numbered_mem p) =
       udecr (io_burst_time (numbered_mem p)) /\
     turnaround_time
       (Simulator_Process_IO (Node (Node NULL 0%nat NULL) 2%nat NULL)
                             numbered_mem p) =
       uincr (turnaround_time (numbered_mem p)) /\
     (io_burst_time (numbered_mem p) = 0 ->
      io_burst_time
        (Simulator_Process_IO (Node (Node NULL 0%nat NULL) 2%nat NULL)
                              numbered_mem p) = 2 ^ 32 - 1) /\
     pid (Simulator_Process_IO (Node (Node NULL 0%nat NULL) 2%nat NULL)
                               numbered_mem p) = pid (numbered_mem p) /\
     cpu_burst_time
       (Simulator_Process_IO (Node (Node NULL 0%nat NULL) 2%nat NULL)
                             numbered_mem p) =
       cpu_burst_time (numbered_mem p) /\
     arrival_time
       (Simulator_Process_IO (Node (Node NULL 0%nat NULL) 2%nat NULL)
                             numbered_mem p) = arrival_time (numbered_mem p) /\
     priority (Simulator_Process_IO (Node (Node NULL 0%nat NULL) 2%nat NULL)
                                    numbered_mem p) =
       priority (numbered_mem p) /\
     waiting_time
       (Simulator_Process_IO (Node (Node NULL 0%nat NULL) 2%nat NULL)
                             numbered_mem p) = waiting_time (numbered_mem p)) /\
  (forall p, ~ In p (elements (Node (Node NULL 0%nat NULL) 2%nat NULL)) ->
     Simulator_Process_IO (Node (Node NULL 0%nat NULL) 2%nat NULL)
                          numbered_mem p = numbered_mem p).
Proof.
  apply (@Simulator_Process_IO_steps_each_once
           (Node (Node NULL 0%nat NULL) 2%nat NULL) numbered_mem).
  simpl. repeat constructor; simpl; intuition discriminate.
Defined.

(** ** What the sub-steps before Execute leave alone *)

Lemma quiet_refl (s : Simulator_t) : quiet s s.
Proof. constructor; reflexivity. Qed.

Lemma quiet_trans (s1 s2 s3 : Simulator_t) :
  quiet s1 s2 -> quiet s2 s3 -> quiet s1 s3.
Proof.
  intros [A1 A2 A3 A4 A5 A6 A7 A8 A9 A10] [B1 B2 B3 B4 B5 B6 B7 B8 B9 B10].
  constructor; congruence.
Qed.

Lemma static_frame_refl (m : Mem) : static_frame m m.
Proof. intros p. auto. Qed.

Lemma static_frame_trans (m1 m2 m3 : Mem) :
  static_frame m1 m2 -> static_frame m2 m3 -> static_frame m1 m3.
Proof.
  intros F G p. destruct (F p) as (A & B & C). destruct (G p) as (D & E & H).
  repeat split; congruence.
Qed.

Lemma static_frame_store (m : Mem) (p : ProcessPtr_t) (v : Process_t) :
  pid v = pid (m p) -> arrival_time v = arrival_time (m p) ->
  priority v = priority (m p) ->
  static_frame m (store m p v).
Proof.
  intros A B C q. unfold store.
  destruct (Nat.eqb_spec q p) as [->|]; auto.
Qed.

Lemma ready_Queue_Enqueue_only : enqueue_ready_only ready_Queue_Enqueue.
Proof.
  intros s x s' E. unfold ready_Queue_Enqueue in E.
  destruct (ready_queue s) as [q|q]; [|discriminate].
  destruct (Queue_Enqueue q x) as [q1|]; cbn [bind] in E; [|discriminate].
  injection E as <-. eexists. reflexivity.
Qed.

Lemma ready_Priority_Enqueue_only : enqueue_ready_only ready_Priority_Enqueue.
Proof.
  intros s x s' E. unfold ready_Priority_Enqueue in E.
  destruct (ready_queue s); [discriminate|].
  destruct (Priority_Enqueue (mem s) q x); [|discriminate].
  injection E as <-. eexists. reflexivity.
Qed.

Section SubStepFrames.

Variable enq : Simulator_t -> ProcessPtr_t -> option Simulator_t.
Hypothesis enq_only : enqueue_ready_only enq.

Lemma load_arrived_only :
  forall (fuel : nat) (s s' : Simulator_t),
    load_arrived enq fuel s = Some s' ->
    exists rq jq, s' = set_generated (set_ready s rq) jq.
Proof.
  induction fuel as [|fuel IH]; intros s s' E; [discriminate|].
  assert (Same : exists rq jq, s = set_generated (set_ready s rq) jq).
  { exists (ready_queue s), (generated_processes s). destruct s; reflexivity. }
  cbn [load_arrived] in E.
  destruct (negb (Priority_IsEmpty (generated_processes s)));
    [|injection E as <-; exact Same].
  destruct (Priority_Top (generated_processes s)) as [[x|]|];
    cbn [bind] in E; try discriminate.
  destruct (arrival_time (mem s x) =? elapsed_time s);
    [|injection E as <-; exact Same].
  destruct (enq s x) as [s1|] eqn:E1; cbn [bind] in E; [|discriminate].
  destruct (@enq_only _ _ _ E1) as (rq1 & ->).
  destruct (Priority_Dequeue _ _) as [[jq1 r]|]; cbn [bind] in E;
    [|discriminate].
  destruct (IH _ _ E) as (rq & jq & ->). exists rq, jq. reflexivity.
Qed.

Lemma load_io_done_only :
  forall (fuel : nat) (s s' : Simulator_t),
    load_io_done enq fuel s = Some s' ->
    exists rq wq, s' = set_waiting (set_ready s rq) wq.
Proof.
  induction fuel as [|fuel IH]; intros s s' E; [discriminate|].
  assert (Same : exists rq wq, s = set_waiting (set_ready s rq) wq).
  { exists (ready_queue s), (waiting_queue s). destruct s; reflexivity. }
  cbn [load_io_done] in E.
  destruct (negb (Priority_IsEmpty (waiting_queue s)));
    [|injection E as <-; exact Same].
  destruct (Priority_Top (waiting_queue s)) as [[x|]|];
    cbn [bind] in E; try discriminate.
  destruct (io_burst_time (mem s x) =? 0);
    [|injection E as <-; exact Same].
  destruct (Priority_Dequeue _ _) as [[wq1 r]|]; cbn [bind] in E;
    [|discriminate].
  destruct (enq (set_waiting s wq1) x) as [s1|] eqn:E1; cbn [bind] in E;
    [|discriminate].
  destruct (@enq_only _ _ _ E1) as (rq1 & ->).
  destruct (IH _ _ E) as (rq & wq & ->). exists rq, wq. reflexivity.
Qed.

Lemma load_ready_queue_only (s s' : Simulator_t) :
  load_ready_queue enq s = Some s' ->
  exists rq jq wq, s' = set_waiting (set_generated (set_ready s rq) jq) wq.
Proof.
  unfold load_ready_queue. intros E.
  destruct (load_arrived enq _ s) as [s1|] eqn:E1; cbn [bind] in E;
    [|discriminate].
  destruct (load_arrived_only _ _ E1) as (rq1 & jq1 & ->).
  destruct (load_io_done_only _ _ E) as (rq & wq & ->).
  exists rq, jq1, wq. reflexivity.
Qed.

Lemma io_interrupt_loop_only :
  forall (fuel : nat) (s s' : Simulator_t) (tmp tmp' : Priority_Queue_t),
    io_interrupt_loop enq fuel s tmp = Some (s', tmp') ->
    exists rq wq nx,
      s' = set_rand_next (set_waiting (set_ready s rq) wq) nx.
Proof.
  induction fuel as [|fuel IH]; intros s s' tmp tmp' E; [discriminate|].
  cbn [io_interrupt_loop] in E.
  destruct (Priority_Top (waiting_queue s)) as [[x|]|];
    cbn [bind] in E; try discriminate.
  2:{ injection E as <- <-.
      exists (ready_queue s), (waiting_queue s), (rand_next s).
      destruct s; reflexivity. }
  unfold Simulator_Probability in E. fields.
  destruct (_ && _) in E.
  - destruct (Priority_Dequeue _ _) as [[wq1 r]|]; cbn [bind] in E;
      [|discriminate].
    destruct (enq _ x) as [s1|] eqn:E1; cbn [bind] in E; [|discriminate].
    destruct (@enq_only _ _ _ E1) as (rq1 & ->).
    destruct (IH _ _ _ _ E) as (rq & wq & nx & ->).
    exists rq, wq, nx. reflexivity.
  - destruct (Priority_Dequeue _ _) as [[wq1 r]|]; cbn [bind] in E;
      [|discriminate].
    destruct (Priority_Enqueue _ tmp x) as [tmp1|]; cbn [bind] in E;
      [|discriminate].
    destruct (IH _ _ _ _ E) as (rq & wq & nx & ->).
    exists rq, wq, nx. reflexivity.
Qed.

Lemma process_io_interrupt_only (s s' : Simulator_t) :
  process_io_interrupt enq s = Some s' ->
  exists rq wq nx, s' = set_rand_next (set_waiting (set_ready s rq) wq) nx.
Proof.
  unfold process_io_interrupt. intros E.
  destruct (Priority_IsEmpty (waiting_queue s)).
  - injection E as <-.
    exists (ready_queue s), (waiting_queue s), (rand_next s).
    destruct s; reflexivity.
  - destruct (io_interrupt_loop enq _ s _) as [[s1 tmp]|] eqn:E1;
      cbn [bind] in E; [|discriminate].
    destruct (io_interrupt_loop_only _ _ _ E1) as (rq & wq & nx & ->).
    injection E as <-. exists rq, tmp, nx. reflexivity.
Qed.

End SubStepFrames.

Lemma calm_refl (s : Simulator_t) : calm s s.
Proof. split; [apply quiet_refl|apply static_frame_refl]. Qed.

Lemma calm_trans (s1 s2 s3 : Simulator_t) :
  calm s1 s2 -> calm s2 s3 -> calm s1 s3.
Proof.
  intros [Q1 F1] [Q2 F2]. split.
  - eapply quiet_trans; eauto.
  - eapply static_frame_trans; eauto.
Qed.

Lemma keeps_cur_trans (s1 s2 s3 : Simulator_t) :
  keeps_cur s1 s2 -> keeps_cur s2 s3 -> keeps_cur s1 s3.
Proof. intros A B c H. auto. Qed.

Lemma static_frame_age (m : Mem) (p : ProcessPtr_t) :
  static_frame m (age_process m p).
Proof. apply static_frame_store; reflexivity. Qed.

Lemma static_frame_io_step (m : Mem) (p : ProcessPtr_t) :
  static_frame m (io_process_step m p).
Proof. apply static_frame_store; reflexivity. Qed.

Lemma static_frame_burst (m : Mem) (p : ProcessPtr_t) :
  static_frame m (burst_process m p).
Proof. apply static_frame_store; reflexivity. Qed.

Lemma static_frame_burst_preemptive (m : Mem) (p : ProcessPtr_t) :
  static_frame m (burst_process_preemptive m p).
Proof. apply static_frame_store; reflexivity. Qed.

Lemma static_frame_Queue_Waiting (q : Queue_t) (m : Mem) :
  static_frame m (Simulator_Queue_Waiting q m).
Proof.
  unfold Simulator_Queue_Waiting. generalize (items q) as l. intros l.
  revert m. induction l as [|p l IH]; intros m; simpl.
  - apply static_frame_refl.
  - eapply static_frame_trans; [apply static_frame_age|apply IH].
Qed.

Lemma static_frame_Priority_Waiting (t : TreeNodePtr_t) :
  forall m, static_frame m (Simulator_Priority_Waiting t m).
Proof.
  induction t as [|l IHl p r IHr]; intros m; simpl.
  - apply static_frame_refl.
  - eapply static_frame_trans; [apply IHl|].
    eapply static_frame_trans; [apply static_frame_age|apply IHr].
Qed.

Lemma static_frame_Process_IO (t : TreeNodePtr_t) :
  forall m, static_frame m (Simulator_Process_IO t m).
Proof.
  induction t as [|l IHl p r IHr]; intros m; simpl.
  - apply static_frame_refl.
  - eapply static_frame_trans; [apply IHl|].
    eapply static_frame_trans; [apply static_frame_io_step|apply IHr].
Qed.

Lemma Simulator_LoadReadyQueue_calm (s s' : Simulator_t) :
  Simulator_LoadReadyQueue s = Some s' ->
  calm s s' /\ cur_cpu_burst s' = cur_cpu_burst s /\ mem s' = mem s.
Proof.
  intros E.
  destruct (load_ready_queue_only ready_Queue_Enqueue_only _ E)
    as (rq & jq & wq & ->).
  repeat split; apply static_frame_refl.
Qed.

Lemma Simulator_LoadReadyQueue_Priority_calm (s s' : Simulator_t) :
  Simulator_LoadReadyQueue_Priority s = Some s' ->
  calm s s' /\ cur_cpu_burst s' = cur_cpu_burst s /\ mem s' = mem s.
Proof.
  intros E.
  destruct (load_ready_queue_only ready_Priority_Enqueue_only _ E)
    as (rq & jq & wq & ->).
  repeat split; apply static_frame_refl.
Qed.

Lemma Simulator_LoadProcess_calm (s s' : Simulator_t) :
  Simulator_LoadProcess s = Some s' ->
  calm s s' /\ keeps_cur s s' /\ mem s' = mem s.
Proof.
  unfold Simulator_LoadProcess. intros E.
  destruct (cur_cpu_burst s) as [c|] eqn:Ec.
  { injection E as <-. repeat split; auto; try apply static_frame_refl.
    intros c' H. exact H. }
  destruct (ready_queue s) as [q|q]; [|discriminate].
  destruct (negb (Queue_IsEmpty q)).
  - destruct (Queue_Front q) as [front|]; cbn [bind] in E; [|discriminate].
    destruct (Queue_Dequeue q) as [[rq r]|]; cbn [bind] in E; [|discriminate].
    injection E as <-. repeat split; try apply static_frame_refl.
    intros c H. congruence.
  - injection E as <-. repeat split; try apply static_frame_refl.
    intros c H. exact H.
Qed.

Lemma Simulator_LoadProcess_Priority_calm (s s' : Simulator_t) :
  Simulator_LoadProcess_Priority s = Some s' ->
  calm s s' /\ keeps_cur s s' /\ mem s' = mem s.
Proof.
  unfold Simulator_LoadProcess_Priority. intros E.
  destruct (cur_cpu_burst s) as [c|] eqn:Ec.
  { injection E as <-. repeat split; auto; try apply static_frame_refl.
    intros c' H. exact H. }
  destruct (ready_queue s) as [q|q]; [discriminate|].
  destruct (negb (Priority_IsEmpty q)).
  - destruct (Priority_Top q) as [front|]; cbn [bind] in E; [|discriminate].
    destruct (Priority_Dequeue (mem s) q) as [[rq r]|]; cbn [bind] in E;
      [|discriminate].
    injection E as <-. repeat split; try apply static_frame_refl.
    intros c H. congruence.
  - injection E as <-. repeat split; try apply static_frame_refl.
    intros c H. exact H.
Qed.

Lemma ready_Queue_Waiting_calm (s s' : Simulator_t) :
  ready_Queue_Waiting s = Some s' ->
  calm s s' /\ cur_cpu_burst s' = cur_cpu_burst s.
Proof.
  unfold ready_Queue_Waiting. intros E.
  destruct (ready_queue s) as [q|q]; [|discriminate].
  injection E as <-.
  split; [split; [constructor; reflexivity|]|reflexivity].
  apply static_frame_Queue_Waiting.
Qed.

Lemma ready_Priority_Waiting_calm (s s' : Simulator_t) :
  ready_Priority_Waiting s = Some s' ->
  calm s s' /\ cur_cpu_burst s' = cur_cpu_burst s.
Proof.
  unfold ready_Priority_Waiting. intros E.
  destruct (ready_queue s) as [q|q]; [discriminate|].
  injection E as <-.
  split; [split; [constructor; reflexivity|]|reflexivity].
  apply static_frame_Priority_Waiting.
Qed.

Lemma waiting_Process_IO_calm (s : Simulator_t) :
  calm s (waiting_Process_IO s) /\
  cur_cpu_burst (waiting_Process_IO s) = cur_cpu_burst s.
Proof.
  split; [split; [constructor; reflexivity|]|reflexivity].
  apply static_frame_Process_IO.
Qed.

Lemma Simulator_Process_IO_Queue_calm (s s' : Simulator_t) :
  Simulator_Process_IO_Queue s = Some s' ->
  calm s s' /\ cur_cpu_burst s' = cur_cpu_burst s /\ mem s' = mem s.
Proof.
  intros E.
  destruct (process_io_interrupt_only ready_Queue_Enqueue_only _ E)
    as (rq & wq & nx & ->).
  repeat split; apply static_frame_refl.
Qed.

Lemma Simulator_Process_IO_Priority_calm (s s' : Simulator_t) :
  Simulator_Process_IO_Priority s = Some s' ->
  calm s s' /\ cur_cpu_burst s' = cur_cpu_burst s /\ mem s' = mem s.
Proof.
  intros E.
  destruct (process_io_interrupt_only ready_Priority_Enqueue_only _ E)
    as (rq & wq & nx & ->).
  repeat split; apply static_frame_refl.
Qed.

Lemma keeps_cur_eq (s s' : Simulator_t) :
  cur_cpu_burst s' = cur_cpu_burst s -> keeps_cur s s'.
Proof. intros E c H. congruence. Qed.

(** The loop body up to Execute. *)
Lemma tick_before_io_calm (fl : Z) (s s3 : Simulator_t) :
  tick_before_io fl s = Some s3 -> calm s s3 /\ keeps_cur s s3.
Proof.
  unfold tick_before_io. intros E. destruct (fifo_policy fl).
  - destruct (Simulator_LoadReadyQueue s) as [s1|] eqn:E1; cbn [bind] in E;
      [|discriminate].
    destruct (Simulator_LoadProcess s1) as [s2|] eqn:E2; cbn [bind] in E;
      [|discriminate].
    destruct (Simulator_LoadReadyQueue_calm _ E1) as (C1 & K1 & _).
    destruct (Simulator_LoadProcess_calm _ E2) as (C2 & K2 & _).
    destruct (ready_Queue_Waiting_calm _ E) as (C3 & K3).
    split.
    + eapply calm_trans; [exact C1|]. eapply calm_trans; eauto.
    + eapply keeps_cur_trans; [apply keeps_cur_eq; exact K1|].
      eapply keeps_cur_trans; [exact K2|apply keeps_cur_eq; exact K3].
  - destruct (Simulator_LoadReadyQueue_Priority s) as [s1|] eqn:E1;
      cbn [bind] in E; [|discriminate].
    destruct (Simulator_LoadProcess_Priority s1) as [s2|] eqn:E2;
      cbn [bind] in E; [|discriminate].
    destruct (Simulator_LoadReadyQueue_Priority_calm _ E1) as (C1 & K1 & _).
    destruct (Simulator_LoadProcess_Priority_calm _ E2) as (C2 & K2 & _).
    destruct (ready_Priority_Waiting_calm _ E) as (C3 & K3).
    split.
    + eapply calm_trans; [exact C1|]. eapply calm_trans; eauto.
    + eapply keeps_cur_trans; [apply keeps_cur_eq; exact K1|].
      eapply keeps_cur_trans; [exact K2|apply keeps_cur_eq; exact K3].
Qed.

(** ** Execute *)

Lemma eval_loop_only :
  forall (fuel : nat) (s s' : Simulator_t),
    eval_loop fuel s = Some s' ->
    exists tq a b mx,
      s' = set_max_waiting
             (set_avg_turnaround (set_avg_waiting (set_terminated s tq) a) b)
             mx.
Proof.
  induction fuel as [|fuel IH]; intros s s' E; [discriminate|].
  cbn [eval_loop] in E.
  destruct (Priority_Top (terminated_processes s)) as [[tmp|]|];
    cbn [bind] in E; try discriminate.
  2:{ injection E as <-.
      exists (terminated_processes s), (avg_waiting_time s),
        (avg_turnaround_time s), (max_waiting_time s).
      destruct s; reflexivity. }
  destruct (Priority_Dequeue (mem s) (terminated_processes s)) as [[tq r]|];
    cbn [bind] in E; [|discriminate].
  destruct (IH _ _ E) as (tq' & a & b & mx & ->).
  destruct (max_waiting_time _ <? _); do 4 eexists; reflexivity.
Qed.

Lemma Simulator_Eval_only (s s' : Simulator_t) :
  Simulator_Eval s = Some s' ->
  exists tq a b mx u,
    s' = print
           (set_max_waiting
              (set_avg_turnaround (set_avg_waiting (set_terminated s tq) a) b)
              mx)
           (Out_Eval (uincr (elapsed_time s)) u a b).
Proof.
  unfold Simulator_Eval. intros E.
  destruct (eval_loop _ s) as [s1|] eqn:E1; cbn [bind] in E; [|discriminate].
  destruct (eval_loop_only _ _ E1) as (tq & a & b & mx & ->).
  injection E as <-.
  exists tq, (ddiv a (double_of_uint (num_process s))),
    (ddiv b (double_of_uint (num_process s))), mx.
  eexists. reflexivity.
Qed.

Lemma store_same_pid (m : Mem) (c : ProcessPtr_t) (v : Process_t) :
  pid (store m c v c) = pid v.
Proof. rewrite store_same. reflexivity. Qed.

Lemma io_request_only (s : Simulator_t) (c : ProcessPtr_t) :
  exists nx, snd (io_request s c) = set_rand_next s nx.
Proof.
  unfold io_request. destruct (cpu_burst_time (mem s c) =? 1).
  - exists (rand_next s). destruct s; reflexivity.
  - eexists. reflexivity.
Qed.

(** What is common to the three bursts once the running process has been
    charged: [m'] is the memory after the charge. *)
Lemma executes_running (s : Simulator_t) (c : ProcessPtr_t) (m' : Mem) :
  cur_cpu_burst s = Some c ->
  static_frame (mem s) m' ->
  forall cur' wq tq nx,
    executes s
      (set_rand_next
         (set_terminated
            (set_waiting
               (set_cur (print (set_mem s m') (Out_Gantt (pid (mem s c))))
                        cur') wq) tq) nx) 0.
Proof.
  intros Ec F cur' wq tq nx.
  constructor; fields; auto.
  - unfold block_of. rewrite Ec. reflexivity.
  - unfold block_of. rewrite Ec. reflexivity.
  - intros H. contradiction.
Qed.

Lemma executes_ended (s : Simulator_t) (c : ProcessPtr_t) (m' : Mem)
  (tq : Priority_Queue_t) (s' : Simulator_t) :
  cur_cpu_burst s = Some c ->
  static_frame (mem s) m' ->
  Simulator_Eval
    (set_cur
       (set_terminated (print (set_mem s m') (Out_Gantt (pid (mem s c)))) tq)
       None) = Some s' ->
  executes s s' 1.
Proof.
  intros Ec F E.
  destruct (Simulator_Eval_only _ E) as (tq' & a & b & mx & u & ->).
  constructor; fields; auto.
  - unfold block_of. rewrite Ec. reflexivity.
  - right. unfold block_of. rewrite Ec. auto.
  - intros H. discriminate.
  - intros _. unfold block_of. rewrite Ec. do 3 eexists. reflexivity.
Qed.

Lemma executes_idle (s : Simulator_t) :
  cur_cpu_burst s = None ->
  executes s (print (set_idle s (uincr (idle_time s))) Out_Idle) 0.
Proof.
  intros Ec. constructor; fields; auto.
  - apply static_frame_refl.
  - unfold block_of. rewrite Ec. reflexivity.
  - unfold block_of. rewrite Ec. reflexivity.
  - intros H. contradiction.
Qed.

Lemma burst_pid (m : Mem) (c : ProcessPtr_t) :
  pid (burst_process m c c) = pid (m c).
Proof. unfold burst_process. rewrite store_same. reflexivity. Qed.

Lemma burst_preemptive_pid (m : Mem) (c : ProcessPtr_t) :
  pid (burst_process_preemptive m c c) = pid (m c).
Proof. unfold burst_process_preemptive. rewrite store_same. reflexivity. Qed.

Lemma Simulator_CPU_Burst_executes (s s' : Simulator_t) (ret : Z) :
  Simulator_CPU_Burst s = Some (ret, s') -> executes s s' ret.
Proof.
  unfold Simulator_CPU_Burst. intros E.
  destruct (cur_cpu_burst s) as [c|] eqn:Ec.
  2:{ injection E as <- <-. apply executes_idle. exact Ec. }
  cbv zeta in E.
  assert (F : static_frame (mem s) (burst_process (mem s) c))
    by apply static_frame_burst.
  change (mem (set_mem s (burst_process (mem s) c)) c)
    with (burst_process (mem s) c c) in E.
  rewrite burst_pid in E.
  destruct (negb (cpu_burst_time _ =? 0)).
  - destruct (negb (io_burst_time _ =? 0)).
    + destruct (io_request_only
                  (print (set_mem s (burst_process (mem s) c))
                         (Out_Gantt (pid (mem s c)))) c) as (nx & En).
      destruct (io_request _ c) as [fire s3]. cbn [snd] in En. subst s3.
      destruct fire.
      * destruct (Priority_Enqueue _ _ c) as [wq|]; cbn [bind] in E;
          [|discriminate].
        injection E as <- <-.
        exact (@executes_running s c _ Ec F None wq
                 (terminated_processes s) nx).
      * injection E as <- <-.
        exact (@executes_running s c _ Ec F (cur_cpu_burst s)
                 (waiting_queue s) (terminated_processes s) nx).
    + injection E as <- <-.
      exact (@executes_running s c _ Ec F (cur_cpu_burst s)
               (waiting_queue s) (terminated_processes s) (rand_next s)).
  - destruct (Priority_Enqueue _ _ c) as [tq|]; cbn [bind] in E;
      [|discriminate].
    cbv zeta in E. destruct (count _ =? num_process _).
    + destruct (Simulator_Eval _) as [s4|] eqn:Ee; cbn [bind] in E;
        [|discriminate].
      injection E as <- <-.
      exact (@executes_ended s c _ tq s4 Ec F Ee).
    + injection E as <- <-.
      exact (@executes_running s c _ Ec F None (waiting_queue s) tq
               (rand_next s)).
Qed.

Lemma executes_running_fields (s s' : Simulator_t) (c : ProcessPtr_t) :
  cur_cpu_burst s = Some c ->
  static_frame (mem s) (mem s') ->
  flag s' = flag s -> num_process s' = num_process s ->
  rand_src s' = rand_src s -> elapsed_time s' = elapsed_time s ->
  idle_time s' = idle_time s ->
  output s' = Out_Gantt (pid (mem s c)) :: output s ->
  executes s s' 0.
Proof.
  intros Ec F A B C D G H. constructor; auto.
  - unfold block_of. rewrite Ec. exact G.
  - intros _. unfold block_of. rewrite Ec. exact H.
  - intros N. contradiction.
Qed.

Lemma Simulator_CPU_Burst_RR_executes
  (s s' : Simulator_t) (time_quantum time_quantum' ret : Z) :
  Simulator_CPU_Burst_RR s time_quantum = Some (ret, s', time_quantum') ->
  executes s s' ret /\
  (0 <= time_quantum < TIME_QUANTUM ->
   (cur_cpu_burst s = None -> time_quantum = 0) ->
   0 <= time_quantum' < TIME_QUANTUM /\
   (cur_cpu_burst s' = None -> time_quantum' = 0)).
Proof.
  unfold Simulator_CPU_Burst_RR, TIME_QUANTUM. intros E.
  destruct (cur_cpu_burst s) as [c|] eqn:Ec.
  2:{ injection E as <- <- <-. split; [apply executes_idle; exact Ec|].
      intros B Z0. split; [exact B|]. intros _. apply Z0. reflexivity. }
  cbv zeta in E.
  assert (F : static_frame (mem s) (burst_process (mem s) c))
    by apply static_frame_burst.
  change (mem (set_mem s (burst_process (mem s) c)) c)
    with (burst_process (mem s) c c) in E.
  rewrite burst_pid in E.
  destruct (negb (cpu_burst_time _ =? 0)).
  - destruct (negb (io_burst_time _ =? 0)).
    + destruct (io_request_only
                  (print (set_mem s (burst_process (mem s) c))
                         (Out_Gantt (pid (mem s c)))) c) as (nx & En).
      destruct (io_request _ c) as [fire s3]. cbn [snd] in En. subst s3.
      destruct fire.
      * destruct (Priority_Enqueue _ _ c) as [wq|]; cbn [bind] in E;
          [|discriminate].
        change (0 =? 10) with false in E. cbv iota in E.
        injection E as <- <- <-. split.
        -- apply executes_running_fields with c; auto.
        -- intros _ _. split; [lia|reflexivity].
      * cbn [bind] in E.
        destruct (Z.eqb_spec (time_quantum + 1) 10) as [Q|Q].
        -- fields. rewrite Ec in E.
           destruct (ready_Queue_Enqueue _ c) as [s5|] eqn:E5;
             cbn [bind] in E; [|discriminate].
           destruct (ready_Queue_Enqueue_only _ _ E5) as (rq & ->).
           injection E as <- <- <-. split.
           ++ apply executes_running_fields with c; auto.
           ++ intros _ _. split; [lia|reflexivity].
        -- injection E as <- <- <-. split.
           ++ apply executes_running_fields with c; auto.
           ++ intros B _. split; [lia|]. fields. rewrite Ec. discriminate.
    + cbn [bind] in E.
      destruct (Z.eqb_spec (time_quantum + 1) 10) as [Q|Q].
      * fields. rewrite Ec in E.
        destruct (ready_Queue_Enqueue _ c) as [s5|] eqn:E5;
          cbn [bind] in E; [|discriminate].
        destruct (ready_Queue_Enqueue_only _ _ E5) as (rq & ->).
        injection E as <- <- <-. split.
        -- apply executes_running_fields with c; auto.
        -- intros _ _. split; [lia|reflexivity].
      * injection E as <- <- <-. split.
        -- apply executes_running_fields with c; auto.
        -- intros B _. split; [lia|]. fields. rewrite Ec. discriminate.
  - destruct (Priority_Enqueue _ _ c) as [tq|]; cbn [bind] in E;
      [|discriminate].
    cbv zeta in E. destruct (count _ =? num_process _).
    + destruct (Simulator_Eval _) as [s4|] eqn:Ee; cbn [bind] in E;
        [|discriminate].
      injection E as <- <- <-. split.
      * exact (@executes_ended s c _ tq s4 Ec F Ee).
      * intros _ _. split; [lia|reflexivity].
    + injection E as <- <- <-. split.
      * apply executes_running_fields with c; auto.
      * intros _ _. split; [lia|reflexivity].
Qed.

Lemma preempt_decision_calm (s s0 : Simulator_t) :
  preempt_decision s = Some s0 -> calm s s0.
Proof.
  unfold preempt_decision. intros E.
  destruct (ready_queue s) as [q|q]; [discriminate|].
  destruct (cur_cpu_burst s) as [c|]; [|injection E as <-; apply calm_refl].
  destruct (negb (Priority_IsEmpty q)); [|injection E as <-; apply calm_refl].
  destruct (top q) as [|l head r]; [discriminate|].
  destruct (compare q (mem s) head c); [|injection E as <-; apply calm_refl].
  destruct (Priority_Enqueue (mem s) q c) as [rq|]; cbn [bind] in E;
    [|discriminate].
  destruct (Simulator_LoadProcess_Priority_calm _ E) as (C & _).
  eapply calm_trans; [|exact C].
  split; [constructor; reflexivity|apply static_frame_refl].
Qed.

(** One tick: the state [se] in which the running process is charged
    comes from [s] by steps that print and count nothing, and the tick
    ends with Execute on [se]. *)
Lemma tick_executes (fl : Z) (s s' : Simulator_t) (tq tq' ret : Z) :
  tick fl s tq = Some (ret, s', tq') ->
  exists se,
    calm s se /\ executes se s' ret /\
    (preemptive_policy fl = false -> keeps_cur s se) /\
    (fl = ROUND_ROBIN ->
     0 <= tq < TIME_QUANTUM -> (cur_cpu_burst s = None -> tq = 0) ->
     0 <= tq' < TIME_QUANTUM /\ (cur_cpu_burst s' = None -> tq' = 0)).
Proof.
  unfold tick. intros E.
  destruct (tick_before_io fl s) as [s3|] eqn:E3; cbn [bind] in E;
    [|discriminate].
  destruct (tick_before_io_calm _ _ E3) as (C3 & K3).
  destruct (waiting_Process_IO_calm s3) as (C4 & K4).
  unfold tick_after_io in E.
  destruct (negb (valid_policy fl)); [discriminate|].
  destruct (Z.eqb_spec fl ROUND_ROBIN) as [Hr|Hr].
  { destruct (Simulator_Process_IO_Queue _) as [s5|] eqn:E5; cbn [bind] in E;
      [|discriminate].
    destruct (Simulator_Process_IO_Queue_calm _ E5) as (C5 & K5 & _).
    destruct (Simulator_CPU_Burst_RR_executes _ _ E) as (X & Q).
    assert (K : keeps_cur s s5).
    { eapply keeps_cur_trans; [exact K3|].
      apply keeps_cur_eq. congruence. }
    exists s5. split; [|split; [exact X|split; [intros _; exact K|]]].
    - eapply calm_trans; [exact C3|]. eapply calm_trans; eauto.
    - intros _ B Z0. apply Q; [exact B|]. intros N.
      destruct (cur_cpu_burst s) as [c|] eqn:Ec; [|auto].
      rewrite (K c Ec) in N. discriminate. }
  destruct (fl =? FCFS).
  { destruct (Simulator_Process_IO_Queue _) as [s5|] eqn:E5; cbn [bind] in E;
      [|discriminate].
    destruct (Simulator_Process_IO_Queue_calm _ E5) as (C5 & K5 & _).
    destruct (Simulator_CPU_Burst s5) as [[r s6]|] eqn:E6; cbn [bind] in E;
      [|discriminate].
    injection E as <- <- <-.
    exists s5. split; [|split; [|split]].
    - eapply calm_trans; [exact C3|]. eapply calm_trans; eauto.
    - apply Simulator_CPU_Burst_executes. exact E6.
    - intros _. eapply keeps_cur_trans; [exact K3|].
      apply keeps_cur_eq. congruence.
    - intros F. contradiction. }
  destruct (preemptive_policy fl).
  { destruct (Simulator_Process_IO_Priority _) as [s5|] eqn:E5;
      cbn [bind] in E; [|discriminate].
    destruct (Simulator_Process_IO_Priority_calm _ E5) as (C5 & K5 & _).
    rewrite Simulator_CPU_Burst_Preemptive_decompose in E.
    destruct (preempt_decision s5) as [s0|] eqn:E0; cbn [bind] in E;
      [|discriminate].
    destruct (Simulator_CPU_Burst s0) as [[r s6]|] eqn:E6; cbn [bind] in E;
      [|discriminate].
    injection E as <- <- <-.
    exists s0. split; [|split; [|split]].
    - eapply calm_trans; [exact C3|]. eapply calm_trans; [exact C4|].
      eapply calm_trans; [exact C5|]. apply preempt_decision_calm. exact E0.
    - apply Simulator_CPU_Burst_executes. exact E6.
    - intros F. discriminate.
    - intros F. contradiction. }
  destruct (Simulator_Process_IO_Priority _) as [s5|] eqn:E5; cbn [bind] in E;
    [|discriminate].
  destruct (Simulator_Process_IO_Priority_calm _ E5) as (C5 & K5 & _).
  destruct (Simulator_CPU_Burst s5) as [[r s6]|] eqn:E6; cbn [bind] in E;
    [|discriminate].
  injection E as <- <- <-.
  exists s5. split; [|split; [|split]].
  - eapply calm_trans; [exact C3|]. eapply calm_trans; eauto.
  - apply Simulator_CPU_Burst_executes. exact E6.
  - intros _. eapply keeps_cur_trans; [exact K3|].
    apply keeps_cur_eq. congruence.
  - intros F. contradiction.
Qed.

(** ** Counters and output along a run *)

Lemma generate_from_only (w : list Workload_t) :
  forall (i : nat) (s s' : Simulator_t),
    generate_from i w s = Some s' ->
    exists m' jq, s' = set_generated (set_mem s m') jq.
Proof.
  induction w as [|d w IH]; intros i s s' E.
  - simpl in E. injection E as <-.
    exists (mem s), (generated_processes s). destruct s; reflexivity.
  - cbn [generate_from] in E. cbv zeta in E.
    destruct (Priority_Enqueue _ _ i) as [jq|]; cbn [bind] in E;
      [|discriminate].
    destruct (IH _ _ _ E) as (m' & jq' & ->). exists m', jq'. reflexivity.
Qed.

Lemma Simulator_Init_fields (m : Mem) (src : nat -> Z) (fl : Z)
  (s : Simulator_t) :
  Simulator_Init m src fl = Some s ->
  exists rq,
    s = mkSim 0 (Priority_Init Simulator_ArrivalTime_Compare)
          (Priority_Init Simulator_ArrivalTime_Compare) fl None rq
          (Priority_Init IO_Burst_Compare) 0 0 (DFin 0) (DFin 0) 0 m src
          0%nat [].
Proof.
  unfold Simulator_Init. intros E.
  destruct (if (fl =? FCFS) || (fl =? ROUND_ROBIN) then _ else _) as [rq|];
    cbn [bind] in E; [|discriminate].
  injection E as <-. exists rq. reflexivity.
Qed.

Lemma loaded_fields (m : Mem) (src : nat -> Z) (fl : Z)
  (w : list Workload_t) (s0 : Simulator_t) :
  loaded m src fl w = Some s0 ->
  flag s0 = fl /\ num_process s0 = Z.of_nat (length w) /\
  cur_cpu_burst s0 = None /\ elapsed_time s0 = 0 /\ idle_time s0 = 0 /\
  output s0 = [] /\ rand_src s0 = src /\ rand_next s0 = 0%nat /\
  waiting_queue s0 = Priority_Init IO_Burst_Compare /\
  terminated_processes s0 = Priority_Init Simulator_ArrivalTime_Compare.
Proof.
  unfold loaded, Simulator_GenerateProcess. intros E.
  destruct (Simulator_Init m src fl) as [s|] eqn:Ei; cbn [bind] in E;
    [|discriminate].
  destruct (Simulator_Init_fields _ _ _ Ei) as (rq & ->).
  destruct (generate_from_only _ _ _ E) as (m' & jq & ->).
  repeat split.
Qed.

Lemma iter_uincr (n : nat) : Nat.iter n uincr 0 = Z.of_nat n mod UINT_MOD.
Proof.
  induction n as [|n IH]; [reflexivity|].
  rewrite Nat.iter_succ, IH. unfold uincr.
  rewrite Nat2Z.inj_succ. unfold Z.succ.
  rewrite Zplus_mod_idemp_l. reflexivity.
Qed.

Lemma iter_uincr_comm (n : nat) (x : Z) :
  Nat.iter n uincr (uincr x) = uincr (Nat.iter n uincr x).
Proof. rewrite <- Nat.iter_succ_r, Nat.iter_succ. reflexivity. Qed.

(** [n] ticks that do not end the simulation: one block each. *)
Lemma ticks_account (fl : Z) :
  forall (n : nat) (s0 s : Simulator_t) (tq0 tq : Z),
    ticks fl n s0 tq0 = Some (s, tq) ->
    flag s = flag s0 /\ num_process s = num_process s0 /\
    rand_src s = rand_src s0 /\
    static_frame (mem s0) (mem s) /\
    elapsed_time s = Nat.iter n uincr (elapsed_time s0) /\
    exists blocks,
      output s = blocks ++ output s0 /\
      length blocks = n /\
      Forall (fun o => is_block o = true) blocks /\
      idle_time s =
        Nat.iter (length (filter is_idle blocks)) uincr (idle_time s0).
Proof.
  induction n as [|n IH]; intros s0 s tq0 tq E.
  - simpl in E. injection E as <- <-.
    repeat split; try apply static_frame_refl.
    exists []. repeat split. constructor.
  - cbn [ticks] in E.
    destruct (tick fl s0 tq0) as [[[ret s6] tq1]|] eqn:Et; cbn [bind] in E;
      [|discriminate].
    destruct (Z.eqb_spec ret 0) as [R0|R0]; cbn [negb] in E; [|discriminate].
    destruct (tick_executes _ _ _ Et) as (se & [Q F] & X & _).
    destruct (IH _ _ _ _ E) as (A & B & C & D & G & blocks & Ho & Hl & Hb & Hi).
    fields.
    assert (Bk : is_block (block_of se) = true).
    { unfold block_of. destruct (cur_cpu_burst se); reflexivity. }
    split; [rewrite A, (ex_flag X); apply Q|].
    split; [rewrite B, (ex_num X); apply Q|].
    split; [rewrite C, (ex_src X); apply Q|].
    split.
    { eapply static_frame_trans; [exact F|].
      eapply static_frame_trans; [apply (ex_static X)|exact D]. }
    split.
    { rewrite G, (ex_elapsed X), (qt_elapsed Q).
      rewrite Nat.iter_succ_r. reflexivity. }
    exists (blocks ++ [block_of se]).
    rewrite Ho, (ex_running X R0), (qt_output Q), <- app_assoc.
    split; [reflexivity|].
    split; [rewrite length_app; simpl; lia|].
    split; [apply Forall_app; split; [exact Hb|repeat constructor; exact Bk]|].
    rewrite Hi, (ex_idle X), (qt_idle Q), filter_app, length_app.
    cbn [filter]. destruct (is_idle (block_of se)); cbn [length].
    + rewrite Nat.add_1_r, Nat.iter_succ_r. reflexivity.
    + rewrite Nat.add_0_r. reflexivity.
Qed.

Lemma counters_of_loaded
  (m : Mem) (src : nat -> Z) (fl : Z) (w : list Workload_t)
  (n : nat) (s0 s : Simulator_t) (tq : Z) :
  loaded m src fl w = Some s0 ->
  ticks fl n s0 0 = Some (s, tq) ->
  elapsed_time s = Z.of_nat n mod UINT_MOD /\
  length (output s) = n /\
  Forall (fun o => is_block o = true) (output s) /\
  idle_time s = idle_blocks (output s) mod UINT_MOD.
Proof.
  intros L T.
  destruct (loaded_fields _ _ _ _ L) as (_ & _ & _ & E0 & I0 & O0 & _).
  destruct (ticks_account _ _ _ _ T) as (_ & _ & _ & _ & G & blocks & Ho & Hl & Hb & Hi).
  rewrite O0, app_nil_r in Ho. rewrite Ho, G, E0, Hi, I0.
  unfold idle_blocks. rewrite !iter_uincr. auto.
Qed.

(** X13.  After [n] ticks of any policy on any workload, none of which
    ended the simulation, [elapsed_time] is [n] (as an [unsigned int]),
    exactly [n] blocks have been printed, each a process block or an IDLE
    block, and [idle_time] is the number of IDLE blocks. *)
Theorem counters_match_gantt_chart
  (m : Mem) (src : nat -> Z) (fl : Z) (w : list Workload_t)
  (n : nat) (s0 s : Simulator_t) (tq : Z) :
  loaded m src fl w = Some s0 ->
  ticks fl n s0 0 = Some (s, tq) ->
  elapsed_time s = Z.of_nat n mod UINT_MOD /\
  length (output s) = n /\
  Forall (fun o => is_block o = true) (output s) /\
  idle_time s = idle_blocks (output s) mod UINT_MOD.
Proof. apply counters_of_loaded. Qed.

Lemma counters_match_gantt_chart_witness :
  exists s0 s tq,
    loaded blank_mem zero_src ROUND_ROBIN io_workload = Some s0 /\
    ticks ROUND_ROBIN 5 s0 0 = Some (s, tq) /\
    elapsed_time s = Z.of_nat 5 mod UINT_MOD /\
    length (output s) = 5%nat /\
    Forall (fun o => is_block o = true) (output s) /\
    idle_time s = idle_blocks (output s) mod UINT_MOD.
Proof.
  eexists. eexists. eexists.
  split; [vm_compute; reflexivity|]. split; [vm_compute; reflexivity|].
  eapply (@counters_match_gantt_chart blank_mem zero_src ROUND_ROBIN
            io_workload 5).
  - vm_compute. reflexivity.
  - vm_compute. reflexivity.
Defined.

Lemma run_ticks (fl : Z) :
  forall (fuel : nat) (s s' : Simulator_t) (tq : Z),
    run fl fuel s tq = Some s' ->
    exists (n : nat) sn tqn ret tq',
      (n < fuel)%nat /\
      ticks fl n s tq = Some (sn, tqn) /\
      tick fl sn tqn = Some (ret, s', tq') /\ ret <> 0.
Proof.
  induction fuel as [|fuel IH]; intros s s' tq E; [discriminate|].
  cbn [run] in E.
  destruct (tick fl s tq) as [[[ret s6] tq1]|] eqn:Et; cbn [bind] in E;
    [|discriminate].
  destruct (Z.eqb_spec ret 0) as [R0|R0]; cbn [negb] in E.
  - destruct (IH _ _ _ E) as (n & sn & tqn & r & tq' & Hn & T & Tk & Hr).
    exists (S n), sn, tqn, r, tq'. split; [lia|]. split; [|auto].
    cbn [ticks]. rewrite Et. cbn [bind].
    destruct (Z.eqb_spec ret 0); [|contradiction]. exact T.
  - injection E as <-. exists 0%nat, s, tq, ret, tq1.
    split; [lia|]. split; [reflexivity|]. split; [exact Et|exact R0].
Qed.

Lemma simulate_run (m : Mem) (src : nat -> Z) (fl : Z)
  (w : list Workload_t) (fuel : nat) (s' : Simulator_t) :
  simulate m src fl w fuel = Some s' ->
  exists s0, loaded m src fl w = Some s0 /\ run fl fuel s0 0 = Some s'.
Proof.
  unfold simulate, loaded. intros E.
  destruct (valid_policy fl) eqn:V;
    [|rewrite (Simulator_Init_valid m src fl V) in E; discriminate].
  destruct (Simulator_Init m src fl) as [s|] eqn:Ei; cbn [bind] in *;
    [|discriminate].
  destruct (Simulator_GenerateProcess w s) as [s0|] eqn:Eg; cbn [bind] in *;
    [|discriminate].
  exists s0. split; [reflexivity|].
  assert (Fl : flag s0 = fl).
  { destruct (Simulator_Init_fields _ _ _ Ei) as (rq & ->).
    destruct (generate_from_only _ _ _ Eg) as (m' & jq & ->). reflexivity. }
  rewrite Simulator_Start_run in E by (rewrite Fl; exact V).
  rewrite Fl in E. exact E.
Qed.

(** X14.  When the loop of a policy ends, the report of [Simulator_Eval]
    is printed right after the last block of the chart; the execution
    time it prints is the number of blocks of the chart, [elapsed_time]
    is one less, [idle_time] is the number of IDLE blocks, and the last
    block is a process block (all as [unsigned int]). *)
Theorem report_matches_gantt_chart
  (m : Mem) (src : nat -> Z) (fl : Z) (w : list Workload_t)
  (fuel : nat) (s' : Simulator_t) :
  simulate m src fl w fuel = Some s' ->
  exists blocks last u wt tt,
    output s' =
      Out_Eval (Z.of_nat (length (last :: blocks)) mod UINT_MOD) u wt tt
      :: last :: blocks /\
    Forall (fun o => is_block o = true) (last :: blocks) /\
    is_idle last = false /\
    elapsed_time s' = Z.of_nat (length blocks) mod UINT_MOD /\
    idle_time s' = idle_blocks (last :: blocks) mod UINT_MOD.
Proof.
  intros Sm. destruct (simulate_run _ _ _ _ _ Sm) as (s0 & L & R).
  destruct (run_ticks _ _ _ _ R) as (n & sn & tqn & ret & tq' & _ & T & Tk & Hr).
  destruct (@counters_of_loaded m src fl w n s0 sn tqn L T) as (E & Hl & Hb & Hi).
  destruct (tick_executes _ _ _ Tk) as (se & [Q F] & X & _).
  destruct (ex_ended X Hr) as (u & wt & tt & Ho).
  destruct (ex_ret X) as [R0|[_ Ni]]; [contradiction|].
  exists (output sn), (block_of se), u, wt, tt.
  rewrite Ho, (qt_elapsed Q), (qt_output Q), (ex_elapsed X), (qt_elapsed Q).
  rewrite (ex_idle X), Ni, (qt_idle Q), E, <- Hl.
  split.
  { f_equal. f_equal. unfold uincr. cbn [length].
    rewrite Zplus_mod_idemp_l, Nat2Z.inj_succ. reflexivity. }
  split.
  { constructor; [|exact Hb]. unfold block_of.
    destruct (cur_cpu_burst se); reflexivity. }
  split; [reflexivity|]. split; [reflexivity|].
  rewrite Hi. unfold idle_blocks. cbn [filter]. rewrite Ni. reflexivity.
Qed.

Lemma report_matches_gantt_chart_witness :
  exists s',
    simulate blank_mem zero_src FCFS single_workload 5 = Some s' /\
    exists blocks last u wt tt,
      output s' =
        Out_Eval (Z.of_nat (length (last :: blocks)) mod UINT_MOD) u wt tt
        :: last :: blocks /\
      Forall (fun o => is_block o = true) (last :: blocks) /\
      is_idle last = false /\
      elapsed_time s' = Z.of_nat (length blocks) mod UINT_MOD /\
      idle_time s' = idle_blocks (last :: blocks) mod UINT_MOD.
Proof.
  eexists. split; [vm_compute; reflexivity|].
  eapply (@report_matches_gantt_chart blank_mem zero_src FCFS
            single_workload 5).
  vm_compute. reflexivity.
Defined.

(** The quantum counts the ticks of the process that keeps the CPU. *)
Lemma Simulator_CPU_Burst_RR_quantum
  (s s' : Simulator_t) (time_quantum time_quantum' ret : Z)
  (c' : ProcessPtr_t) :
  Simulator_CPU_Burst_RR s time_quantum = Some (ret, s', time_quantum') ->
  cur_cpu_burst s' = Some c' ->
  cur_cpu_burst s = Some c' /\ time_quantum' = time_quantum + 1.
Proof.
  unfold Simulator_CPU_Burst_RR, TIME_QUANTUM. intros E H.
  destruct (cur_cpu_burst s) as [c|] eqn:Ec.
  2:{ injection E as <- <- <-. fields. congruence. }
  cbv zeta in E.
  destruct (negb (cpu_burst_time _ =? 0)).
  - destruct (negb (io_burst_time _ =? 0)).
    + destruct (io_request_only
                  (print (set_mem s (burst_process (mem s) c))
                         (Out_Gantt
                            (pid (mem (set_mem s (burst_process (mem s) c))
                                      c)))) c) as (nx & En).
      destruct (io_request _ c) as [fire s3]. cbn [snd] in En. subst s3.
      destruct fire.
      * destruct (Priority_Enqueue _ _ c) as [wq|]; cbn [bind] in E;
          [|discriminate].
        change (0 =? 10) with false in E. cbv iota in E.
        injection E as <- <- <-. fields. discriminate.
      * cbn [bind] in E.
        destruct (Z.eqb_spec (time_quantum + 1) 10) as [Q|Q].
        -- fields. rewrite Ec in E.
           destruct (ready_Queue_Enqueue _ c) as [s5|] eqn:E5;
             cbn [bind] in E; [|discriminate].
           injection E as <- <- <-. fields. discriminate.
        -- injection E as <- <- <-. fields. split; [congruence|reflexivity].
    + cbn [bind] in E.
      destruct (Z.eqb_spec (time_quantum + 1) 10) as [Q|Q].
      * fields. rewrite Ec in E.
        destruct (ready_Queue_Enqueue _ c) as [s5|] eqn:E5;
          cbn [bind] in E; [|discriminate].
        injection E as <- <- <-. fields. discriminate.
      * injection E as <- <- <-. fields. split; [congruence|reflexivity].
  - destruct (Priority_Enqueue _ _ c) as [tq|]; cbn [bind] in E;
      [|discriminate].
    cbv zeta in E. destruct (count _ =? num_process _).
    + destruct (Simulator_Eval _) as [s4|] eqn:Ee; cbn [bind] in E;
        [|discriminate].
      injection E as <- <- <-.
      destruct (Simulator_Eval_only _ Ee) as (tq1 & a & b & mx & u & G).
      rewrite G in H. fields. discriminate.
    + injection E as <- <- <-. fields. discriminate.
Qed.

Lemma tick_round_robin_quantum
  (s s' : Simulator_t) (tq tq' ret : Z) (c' : ProcessPtr_t) :
  tick ROUND_ROBIN s tq = Some (ret, s', tq') ->
  cur_cpu_burst s' = Some c' ->
  tq' = tq + 1 /\ (forall c, cur_cpu_burst s = Some c -> c = c').
Proof.
  unfold tick. intros E H.
  destruct (tick_before_io ROUND_ROBIN s) as [s3|] eqn:E3; cbn [bind] in E;
    [|discriminate].
  destruct (tick_before_io_calm _ _ E3) as (_ & K3).
  destruct (waiting_Process_IO_calm s3) as (_ & K4).
  unfold tick_after_io in E.
  destruct (negb (valid_policy ROUND_ROBIN)); [discriminate|].
  destruct (Z.eqb_spec ROUND_ROBIN ROUND_ROBIN) as [_|Hr]; [|contradiction].
  destruct (Simulator_Process_IO_Queue _) as [s5|] eqn:E5; cbn [bind] in E;
    [|discriminate].
  destruct (Simulator_Process_IO_Queue_calm _ E5) as (_ & K5 & _).
  destruct (Simulator_CPU_Burst_RR_quantum _ _ E H) as [Ec ->].
  split; [reflexivity|]. intros c Hc.
  pose proof (K3 c Hc) as H3. rewrite <- K4, <- K5 in H3. congruence.
Qed.

Lemma ticks_succ (fl : Z) (n : nat) (s : Simulator_t) (tq : Z) :
  ticks fl (S n) s tq =
  ('(ret, s6, tq') <- tick fl s tq ;;
   if negb (ret =? 0) then None else ticks fl n (next_tick s6) tq').
Proof. reflexivity. Qed.

(** The last of [S n] ticks. *)
Lemma ticks_last (fl : Z) :
  forall (n : nat) (s s' : Simulator_t) (tq tq' : Z),
    ticks fl (S n) s tq = Some (s', tq') ->
    exists sn tqn s6,
      ticks fl n s tq = Some (sn, tqn) /\
      tick fl sn tqn = Some (0, s6, tq') /\ s' = next_tick s6.
Proof.
  induction n as [|n IH]; intros s s' tq tq' E; rewrite ticks_succ in E;
    destruct (tick fl s tq) as [[[ret s6] tq6]|] eqn:T; cbn [bind] in E;
    try discriminate;
    destruct (Z.eqb_spec ret 0) as [->|]; cbn [negb] in E; try discriminate.
  - cbn [ticks] in E. injection E as <- <-. exists s, tq, s6. auto.
  - destruct (IH _ _ _ _ E) as (sn & tqn & s7 & En & Tn & ->).
    exists sn, tqn, s7. split; [|auto].
    rewrite ticks_succ, T. cbn [bind]. exact En.
Qed.

Lemma ticks_round_robin_held (s0 : Simulator_t) :
  cur_cpu_burst s0 = None ->
  forall (n : nat) (s : Simulator_t) (tq : Z),
    ticks ROUND_ROBIN n s0 0 = Some (s, tq) ->
    0 <= tq < TIME_QUANTUM /\ (cur_cpu_burst s = None -> tq = 0) /\
    held s0 n s tq.
Proof.
  intros C0. induction n as [|n IH]; intros s tq T.
  - cbn [ticks] in T. injection T as <- <-.
    split; [unfold TIME_QUANTUM; lia|]. split; [reflexivity|].
    intros c Hc. congruence.
  - destruct (ticks_last _ _ _ _ T) as (sn & tqn & s6 & Tn & Tk & ->).
    destruct (IH sn tqn Tn) as (B & Z0 & Hd).
    destruct (tick_executes _ _ _ Tk) as (se & _ & _ & _ & Q).
    destruct (Q eq_refl B Z0) as [B1 Z1].
    split; [exact B1|]. split; [exact Z1|].
    intros c Hc. change (cur_cpu_burst s6 = Some c) in Hc.
    destruct (tick_round_robin_quantum _ _ Tk Hc) as [-> Same].
    destruct (cur_cpu_burst sn) as [c0|] eqn:Ecn.
    + assert (c0 = c) by (apply Same; reflexivity). subst c0.
      destruct (Hd c Ecn) as (P1 & Pn & (s1 & T1 & C1) & Pj).
      assert (Ek : Z.to_nat (tqn + 1) = S (Z.to_nat tqn)) by lia.
      rewrite Ek. split; [lia|]. split; [lia|]. split.
      * exists s1.
        replace (S n - S (Z.to_nat tqn))%nat with (n - Z.to_nat tqn)%nat
          by lia.
        auto.
      * intros j Hj. destruct (Nat.eq_dec j (S n)) as [->|Nj].
        -- exists (next_tick s6). rewrite T. split; [|exact Hc].
           f_equal. f_equal. lia.
        -- destruct (Pj j) as (sj & Tj & Cj); [lia|].
           exists sj. split; [|exact Cj]. rewrite Tj.
           f_equal. f_equal. lia.
    + rewrite (Z0 eq_refl) in *. change (Z.to_nat (0 + 1)) with 1%nat.
      split; [lia|]. split; [lia|]. split.
      * exists sn. replace (S n - 1)%nat with n by lia. auto.
      * intros j Hj. assert (j = S n) by lia. subst j.
        exists (next_tick s6). rewrite T. split; [|exact Hc].
        f_equal. f_equal. lia.
Qed.

(** X16.  Under FCFS, the two non-preemptive policies and Round Robin, a
    process that holds the CPU at the start of a tick is the process
    charged in that tick: the block printed in the tick carries its pid,
    whatever arrives or completes its I/O in that tick. *)
Theorem running_process_keeps_cpu
  (fl : Z) (s s' : Simulator_t) (c : ProcessPtr_t) (tq tq' ret : Z) :
  preemptive_policy fl = false ->
  cur_cpu_burst s = Some c ->
  tick fl s tq = Some (ret, s', tq') ->
  (ret = 0 -> output s' = Out_Gantt (pid (mem s c)) :: output s) /\
  (ret <> 0 ->
   exists u wt tt,
     output s' =
     Out_Eval (uincr (elapsed_time s)) u wt tt
     :: Out_Gantt (pid (mem s c)) :: output s).
Proof.
  intros Np Ec Et.
  destruct (tick_executes _ _ _ Et) as (se & [Q F] & X & K & _).
  pose proof (K Np c Ec) as Ee.
  assert (B : block_of se = Out_Gantt (pid (mem s c))).
  { unfold block_of. rewrite Ee. destruct (F c) as (-> & _). reflexivity. }
  split.
  - intros R0. rewrite (ex_running X R0), B, (qt_output Q). reflexivity.
  - intros R1. destruct (ex_ended X R1) as (u & wt & tt & Ho).
    exists u, wt, tt. rewrite Ho, B, (qt_output Q), (qt_elapsed Q).
    reflexivity.
Qed.

Lemma running_process_keeps_cpu_witness :
  exists s0 s tq,
    loaded blank_mem zero_src NON_PREEMPTIVE_SJF preempt_workload = Some s0 /\
    ticks NON_PREEMPTIVE_SJF 1 s0 0 = Some (s, tq) /\
    cur_cpu_burst s = Some 0%nat /\
    match tick NON_PREEMPTIVE_SJF s tq with
    | Some (ret, s', _) =>
        (ret = 0 -> output s' = Out_Gantt (pid (mem s 0%nat)) :: output s) /\
        (ret <> 0 ->
         exists u wt tt,
           output s' =
           Out_Eval (uincr (elapsed_time s)) u wt tt
           :: Out_Gantt (pid (mem s 0%nat)) :: output s)
    | None => False
    end.
Proof.
  eexists. eexists. eexists.
  split; [vm_compute; reflexivity|]. split; [vm_compute; reflexivity|].
  split; [vm_compute; reflexivity|].
  match goal with
  | |- match ?t with _ => _ end =>
      destruct t as [[[ret s'] tq']|] eqn:Et;
        [|vm_compute in Et; discriminate]
  end.
  match type of Et with
  | tick _ ?s ?tq = _ =>
      apply (@running_process_keeps_cpu NON_PREEMPTIVE_SJF s s' 0%nat tq tq'
               ret eq_refl eq_refl Et)
  end.
Defined.

(** X17.  No tick of any policy assigns to [pid], [arrival_time] or
    [priority] of any process, to the flag, or to the number of
    processes: after any number of ticks they are what
    [Simulator_GenerateProcess] left. *)
Theorem ticks_keep_static_fields
  (m : Mem) (src : nat -> Z) (fl : Z) (w : list Workload_t)
  (n : nat) (s0 s : Simulator_t) (tq : Z) :
  loaded m src fl w = Some s0 ->
  ticks fl n s0 0 = Some (s, tq) ->
  flag s = fl /\ num_process s = Z.of_nat (length w) /\
  forall p, pid (mem s p) = pid (mem s0 p) /\
            arrival_time (mem s p) = arrival_time (mem s0 p) /\
            priority (mem s p) = priority (mem s0 p).
Proof.
  intros L T.
  destruct (loaded_fields _ _ _ _ L) as (F0 & N0 & _).
  destruct (ticks_account _ _ _ _ T) as (A & B & _ & D & _).
  split; [congruence|]. split; [congruence|]. exact D.
Qed.

Lemma ticks_keep_static_fields_witness :
  exists s0 s tq,
    loaded blank_mem zero_src PREEMPTIVE_PRIORITY io_workload = Some s0 /\
    ticks PREEMPTIVE_PRIORITY 4 s0 0 = Some (s, tq) /\
    flag s = PREEMPTIVE_PRIORITY /\
    num_process s = Z.of_nat (length io_workload) /\
    forall p, pid (mem s p) = pid (mem s0 p) /\
              arrival_time (mem s p) = arrival_time (mem s0 p) /\
              priority (mem s p) = priority (mem s0 p).
Proof.
  eexists. eexists. eexists.
  split; [vm_compute; reflexivity|]. split; [vm_compute; reflexivity|].
  eapply (@ticks_keep_static_fields blank_mem zero_src PREEMPTIVE_PRIORITY
            io_workload 4).
  - vm_compute. reflexivity.
  - vm_compute. reflexivity.
Defined.

(** ** The second invariant of the policy loops *)

Lemma ready_compare_swo (fl : Z) (m : Mem) :
  strict_weak_order (ready_compare fl m).
Proof.
  unfold ready_compare. destruct (_ || _).
  - apply SJF_Compare_swo.
  - apply Priority_Compare_swo.
Qed.

Lemma ready_compare_frame (fl : Z) (m m' : Mem) :
  static_frame m m' -> cpu_frame m m' ->
  forall a b, ready_compare fl m' a b = ready_compare fl m a b.
Proof.
  intros F C a b. unfold ready_compare.
  destruct (F a) as (Pa & _ & Ra). destruct (F b) as (Pb & _ & Rb).
  destruct (_ || _); unfold SJF_Compare, Priority_Compare;
    rewrite ?Pa, ?Pb, ?Ra, ?Rb, ?(C a), ?(C b); reflexivity.
Qed.

Lemma ArrivalTime_Compare_frame (m m' : Mem) :
  static_frame m m' ->
  forall a b,
    Simulator_ArrivalTime_Compare m' a b = Simulator_ArrivalTime_Compare m a b.
Proof.
  intros F a b. unfold Simulator_ArrivalTime_Compare.
  destruct (F a) as (-> & -> & _). destruct (F b) as (-> & -> & _).
  reflexivity.
Qed.

Lemma ready_heap_ok_frame (fl : Z) (rq : ready_queue_t) (m m' : Mem) :
  static_frame m m' -> cpu_frame m m' ->
  ready_heap_ok fl rq m -> ready_heap_ok fl rq m'.
Proof.
  intros F C. destruct rq as [q|q]; simpl; auto.
  intros [E H]. split; [exact E|].
  apply heap_ext with (ready_compare fl m); auto.
  apply ready_compare_frame; auto.
Qed.

Lemma cpu_frame_refl (m : Mem) : cpu_frame m m.
Proof. intros p. reflexivity. Qed.

Lemma cpu_frame_trans (m1 m2 m3 : Mem) :
  cpu_frame m1 m2 -> cpu_frame m2 m3 -> cpu_frame m1 m3.
Proof. intros F G p. rewrite (G p). apply F. Qed.

Lemma cpu_frame_store (m : Mem) (p : ProcessPtr_t) (v : Process_t) :
  cpu_burst_time v = cpu_burst_time (m p) -> cpu_frame m (store m p v).
Proof.
  intros A q. unfold store. destruct (Nat.eqb_spec q p) as [->|]; auto.
Qed.

Lemma cpu_frame_Queue_Waiting (q : Queue_t) (m : Mem) :
  cpu_frame m (Simulator_Queue_Waiting q m).
Proof.
  unfold Simulator_Queue_Waiting. generalize (items q) as l. intros l.
  revert m. induction l as [|p l IH]; intros m; simpl.
  - apply cpu_frame_refl.
  - eapply cpu_frame_trans; [|apply IH].
    apply cpu_frame_store. reflexivity.
Qed.

Lemma cpu_frame_Priority_Waiting (t : TreeNodePtr_t) :
  forall m, cpu_frame m (Simulator_Priority_Waiting t m).
Proof.
  induction t as [|l IHl p r IHr]; intros m; simpl.
  - apply cpu_frame_refl.
  - eapply cpu_frame_trans; [apply IHl|].
    eapply cpu_frame_trans; [|apply IHr].
    apply cpu_frame_store. reflexivity.
Qed.

Lemma cpu_frame_Process_IO (t : TreeNodePtr_t) :
  forall m, cpu_frame m (Simulator_Process_IO t m).
Proof.
  induction t as [|l IHl p r IHr]; intros m; simpl.
  - apply cpu_frame_refl.
  - eapply cpu_frame_trans; [apply IHl|].
    eapply cpu_frame_trans; [|apply IHr].
    apply cpu_frame_store. reflexivity.
Qed.

(** A step that leaves the memory alone. *)
Lemma Inv2_update (fl : Z) (N : nat) (s s' : Simulator_t) :
  Inv2 fl N s ->
  Inv fl s' ->
  Permutation (live s') (live s) ->
  num_process s' = num_process s ->
  mem s' = mem s ->
  compare (generated_processes s') = compare (generated_processes s) ->
  heap (Simulator_ArrivalTime_Compare (mem s)) (top (generated_processes s')) ->
  incl (elements (top (terminated_processes s')))
       (elements (top (terminated_processes s))) ->
  ready_heap_ok fl (ready_queue s') (mem s) ->
  avg_waiting_time s' = avg_waiting_time s ->
  avg_turnaround_time s' = avg_turnaround_time s ->
  max_waiting_time s' = max_waiting_time s ->
  Inv2 fl N s'.
Proof.
  intros I J P Nn M C H T R Aw At Mw. constructor; auto.
  - rewrite P. apply I.
  - rewrite Nn. apply I.
  - rewrite C. apply I.
  - rewrite M. exact H.
  - intros p Hp. rewrite M. apply (i2_done I). apply T. exact Hp.
  - rewrite M. exact R.
  - rewrite Aw. apply I.
  - rewrite At. apply I.
  - rewrite Mw. apply I.
Qed.

(** A change of memory that assigns to the times and to [io_burst_time]
    only. *)
Lemma Inv2_frame (fl : Z) (N : nat) (s : Simulator_t) (m' : Mem) :
  Inv2 fl N s -> Inv fl (set_mem s m') ->
  static_frame (mem s) m' -> cpu_frame (mem s) m' ->
  Inv2 fl N (set_mem s m').
Proof.
  intros I J F C. constructor; fields; auto; try apply I.
  - apply heap_ext with (Simulator_ArrivalTime_Compare (mem s)).
    + apply ArrivalTime_Compare_frame. exact F.
    + apply I.
  - intros p Hp. rewrite (C p). apply (i2_done I). exact Hp.
  - apply ready_heap_ok_frame with (mem s); auto. apply I.
Qed.

(** Fields the invariants do not read. *)
Lemma Inv2_same (fl : Z) (N : nat) (s s' : Simulator_t) :
  generated_processes s' = generated_processes s ->
  terminated_processes s' = terminated_processes s ->
  cur_cpu_burst s' = cur_cpu_burst s ->
  ready_queue s' = ready_queue s ->
  waiting_queue s' = waiting_queue s ->
  mem s' = mem s ->
  num_process s' = num_process s ->
  avg_waiting_time s' = avg_waiting_time s ->
  avg_turnaround_time s' = avg_turnaround_time s ->
  max_waiting_time s' = max_waiting_time s ->
  Inv2 fl N s -> Inv2 fl N s'.
Proof.
  intros G T C R W M Nn Aw At Mw I.
  assert (L : live s' = live s) by (unfold live; congruence).
  constructor;
    rewrite ?G, ?T, ?C, ?R, ?W, ?M, ?L, ?Nn, ?Aw, ?At, ?Mw; try apply I.
  apply Inv_same with s; auto. apply I.
Qed.

Lemma ready_Queue_Enqueue_heap (fl : Z) :
  enqueue_ready_heap fl ready_Queue_Enqueue.
Proof.
  intros s x rq' W B E H. unfold ready_Queue_Enqueue in E.
  destruct (ready_queue s) as [q|q]; [|discriminate].
  destruct (Queue_Enqueue q x) as [q1|]; cbn [bind] in E; [|discriminate].
  injection E as <-. exact Logic.I.
Qed.

Lemma ready_Priority_Enqueue_heap (fl : Z) :
  enqueue_ready_heap fl ready_Priority_Enqueue.
Proof.
  intros s x rq' W B E H. unfold ready_Priority_Enqueue in E.
  destruct (ready_queue s) as [q|q]; [discriminate|].
  simpl in W, B, H. destruct H as [Ec Hh]. pose proof W as (_ & _ & Lq).
  destruct (@Priority_Enqueue_spec (mem s) q x W)
    as (q' & E' & _ & _ & Cq & _ & Hq); [lia|].
  rewrite E' in E. cbn [bind] in E.
  injection E as <-. simpl. split; [congruence|].
  rewrite Ec in Hq. apply Hq; auto. apply ready_compare_swo.
Qed.

Section LoadReadyQueueProofs2.

Variable fl : Z.
Variable N : nat.
Variable enq : Simulator_t -> ProcessPtr_t -> option Simulator_t.
Hypothesis enq_ok : enqueue_ready_ok fl enq.
Hypothesis enq_heap : enqueue_ready_heap fl enq.

Lemma load_arrived_spec2 :
  forall (fuel : nat) (s : Simulator_t),
    Inv2 fl N s ->
    (Z.to_nat (count (generated_processes s)) < fuel)%nat ->
    exists s',
      load_arrived enq fuel s = Some s' /\ Inv2 fl N s' /\
      mem s' = mem s /\ elapsed_time s' = elapsed_time s /\
      incl (elements (top (generated_processes s')))
           (elements (top (generated_processes s))) /\
      (forall p, In p (elements (top (generated_processes s))) ->
                 In p (elements (top (generated_processes s'))) \/
                 arrival_time (mem s p) = elapsed_time s) /\
      (forall x, root_of (top (generated_processes s')) = Some x ->
                 arrival_time (mem s x) <> elapsed_time s).
Proof.
  induction fuel as [|fuel IH]; intros s I2 Hf; [lia|].
  pose proof (i2_inv I2) as I.
  cbn [load_arrived]. unfold Priority_IsEmpty.
  destruct (Z.eqb_spec (count (generated_processes s)) 0) as [E|E]; cbn [negb].
  { exists s. repeat (split; [auto using incl_refl|]).
    intros x Rx. rewrite (pq_wf_empty (inv_jobs I) E) in Rx. discriminate. }
  rewrite (Priority_Top_spec (inv_jobs I)).
  destruct (pq_nonempty (inv_jobs I) E) as (x & Rx & Ix & Hc).
  rewrite Rx. cbn [bind].
  destruct (Z.eqb_spec (arrival_time (mem s x)) (elapsed_time s)) as [Ea|Ea].
  2:{ exists s. repeat (split; [auto using incl_refl|]).
      intros x' Rx'. rewrite Rx in Rx'. injection Rx' as <-. exact Ea. }
  pose proof (inv_size I) as Sz. rewrite length_live in Sz.
  pose proof (inv_jobs I) as (_ & _ & Lj).
  assert (Br : Z.of_nat (length (ready_elements (ready_queue s))) + 1 < 2 ^ 30)
    by lia.
  destruct (enq_ok s x (inv_ready I) (inv_kind I) Br)
    as (rq' & Eq & Wr & Kr & Pr & _).
  pose proof (@enq_heap s x rq' (inv_ready I) Br Eq (i2_ready I2)) as Hr.
  rewrite Eq. fields.
  destruct (@Priority_Dequeue_spec (mem s) (generated_processes s) (inv_jobs I))
    as (jq & x' & Ed & Rx' & Wj & Cj & Cm & Pj & Hj); [lia|lia|].
  rewrite Ed. fields.
  assert (x' = x) by congruence. subst x'.
  assert (I1 : Inv fl (set_generated (set_ready s rq') jq)).
  { apply Inv_update with s; fields; try apply I; auto.
    unfold live. fields. solve_perm. }
  assert (J1 : Inv2 fl N (set_generated (set_ready s rq') jq)).
  { apply Inv2_update with s; fields; auto using incl_refl.
    - unfold live. fields. solve_perm.
    - rewrite (i2_jobs_cmp I2) in Hj. apply Hj.
      + apply ArrivalTime_Compare_swo.
      + apply I2. }
  destruct (IH (set_generated (set_ready s rq') jq) J1)
    as (s' & Es & Is & Ms & El & Inc & Stay & Root); [fields; lia|].
  fields. exists s'. split; [exact Es|]. split; [exact Is|].
  split; [exact Ms|]. split; [exact El|].
  assert (Sub : incl (elements (top jq))
                     (elements (top (generated_processes s)))).
  { intros p Hp. apply Permutation_in with (x :: elements (top jq));
      [symmetry; exact Pj|]. right. exact Hp. }
  split; [intros p Hp; apply Sub, Inc, Hp|]. split; [|exact Root].
  intros p Hp. apply (Permutation_in _ Pj) in Hp.
  destruct Hp as [<-|Hp]; [right; exact Ea|]. apply Stay. exact Hp.
Qed.

Lemma load_io_done_spec2 :
  forall (fuel : nat) (s : Simulator_t),
    Inv2 fl N s ->
    (Z.to_nat (count (waiting_queue s)) < fuel)%nat ->
    exists s',
      load_io_done enq fuel s = Some s' /\ Inv2 fl N s' /\ mem s' = mem s /\
      elapsed_time s' = elapsed_time s /\
      generated_processes s' = generated_processes s /\
      waiting_io_positive s'.
Proof.
  induction fuel as [|fuel IH]; intros s I2 Hf; [lia|].
  pose proof (i2_inv I2) as I.
  cbn [load_io_done]. unfold Priority_IsEmpty.
  pose proof (inv_waiting I) as (_ & _ & Lw).
  destruct (Z.eqb_spec (count (waiting_queue s)) 0) as [E|E]; cbn [negb].
  { exists s. repeat (split; [auto|]).
    unfold waiting_io_positive.
    destruct (elements (top (waiting_queue s))); [constructor|].
    cbn [length] in Lw. lia. }
  rewrite (Priority_Top_spec (inv_waiting I)).
  destruct (pq_nonempty (inv_waiting I) E) as (x & Rx & Ix & Hc).
  rewrite Rx. cbn [bind].
  destruct (Z.eqb_spec (io_burst_time (mem s x)) 0) as [Z0|Z0].
  - pose proof (inv_size I) as Sz. rewrite length_live in Sz.
    destruct (@Priority_Dequeue_spec (mem s) (waiting_queue s) (inv_waiting I))
      as (wq & x' & Ed & Rx' & Ww & Cw & Cm & Pw & Hw); [lia|lia|].
    rewrite Ed. fields.
    assert (x' = x) by congruence. subst x'.
    assert (Br : Z.of_nat (length (ready_elements
                                     (ready_queue (set_waiting s wq)))) + 1
                 < 2 ^ 30) by (fields; lia).
    destruct (enq_ok (set_waiting s wq) x (inv_ready I) (inv_kind I) Br)
      as (rq' & Eq & Wr & Kr & Pr & _).
    pose proof (@enq_heap (set_waiting s wq) x rq' (inv_ready I) Br Eq
                  (i2_ready I2)) as Hr.
    rewrite Eq. fields.
    assert (I1 : Inv fl (set_ready (set_waiting s wq) rq')).
    { apply Inv_update with s; fields; try apply I; auto.
      * unfold live. fields. solve_perm.
      * rewrite Cm. apply I.
      * rewrite (inv_compare I) in Hw. apply Hw.
        -- apply IO_Burst_Compare_swo.
        -- apply I. }
    assert (J1 : Inv2 fl N (set_ready (set_waiting s wq) rq')).
    { apply Inv2_update with s; fields; auto using incl_refl.
      - unfold live. fields. solve_perm.
      - apply I2. }
    destruct (IH (set_ready (set_waiting s wq) rq') J1)
      as (s' & Es & Is & Ms & El & Gs & Ps); [fields; lia|].
    fields. exists s'. repeat (split; [assumption|]). exact Ps.
  - exists s. repeat (split; [auto|]).
    unfold waiting_io_positive. rewrite Forall_forall. intros e He.
    pose proof (@heap_root_min _ _ _ (inv_heap I) Rx e He) as Hm.
    pose proof (inv_io I x (in_live_waiting s x Ix)).
    pose proof (inv_io I e (in_live_waiting s e He)). lia.
Qed.

Lemma load_ready_queue_spec2 (s : Simulator_t) :
  Inv2 fl N s ->
  exists s',
    load_ready_queue enq s = Some s' /\ Inv2 fl N s' /\ mem s' = mem s /\
    elapsed_time s' = elapsed_time s /\
    waiting_io_positive s' /\
    incl (elements (top (generated_processes s')))
         (elements (top (generated_processes s))) /\
    (forall p, In p (elements (top (generated_processes s))) ->
               In p (elements (top (generated_processes s'))) \/
               arrival_time (mem s p) = elapsed_time s) /\
    (forall x, root_of (top (generated_processes s')) = Some x ->
               arrival_time (mem s x) <> elapsed_time s).
Proof.
  intros I. unfold load_ready_queue.
  destruct (@load_arrived_spec2 (S (Z.to_nat (count (generated_processes s)))) s I)
    as (s1 & E1 & I1 & M1 & L1 & Inc & Stay & Root); [lia|].
  rewrite E1. cbn [bind].
  destruct (@load_io_done_spec2 (S (Z.to_nat (count (waiting_queue s1)))) s1 I1)
    as (s2 & E2 & J2 & M2 & L2 & G2 & P2); [lia|].
  exists s2. rewrite G2. split; [exact E2|]. split; [exact J2|].
  split; [congruence|]. split; [congruence|]. auto.
Qed.

End LoadReadyQueueProofs2.

Lemma Simulator_LoadProcess_spec2 (fl : Z) (N : nat) (s : Simulator_t) :
  fifo_policy fl = true -> Inv2 fl N s ->
  exists s',
    Simulator_LoadProcess s = Some s' /\ Inv2 fl N s' /\ mem s' = mem s /\
    waiting_queue s' = waiting_queue s /\
    generated_processes s' = generated_processes s /\
    elapsed_time s' = elapsed_time s.
Proof.
  intros Hf I2. pose proof (i2_inv I2) as I. unfold Simulator_LoadProcess.
  destruct (cur_cpu_burst s) as [c|] eqn:Ec;
    [exists s; repeat (split; [auto|]); auto|].
  pose proof (inv_kind I) as K. pose proof (inv_ready I) as Wr.
  destruct (ready_queue s) as [q|q] eqn:Er; simpl in K; [|congruence].
  simpl in Wr. unfold Queue_IsEmpty.
  destruct (Z.eqb_spec (q_count q) 0) as [E|E]; cbn [negb];
    [exists s; repeat (split; [auto|]); auto|].
  pose proof (Queue_Dequeue_items Wr) as D.
  destruct (items q) as [|p rest] eqn:Ei.
  { unfold queue_wf in Wr. rewrite Ei in Wr. simpl in Wr. lia. }
  destruct D as (-> & q' & -> & Ei' & Wq'). fields.
  eexists. split; [reflexivity|].
  assert (P : Permutation
                (live (set_ready (set_cur s (Some p)) (ReadyFIFO q')))
                (live s)).
  { unfold live. fields. rewrite Ec, Er. simpl. rewrite Ei, Ei'. solve_perm. }
  split; [|repeat split].
  apply Inv2_update with s; fields; auto using incl_refl; try apply I2;
    [|exact Logic.I].
  apply Inv_update with s; fields; try apply I; auto.
Qed.

Lemma Simulator_LoadProcess_Priority_spec2 (fl : Z) (N : nat)
  (s : Simulator_t) :
  fifo_policy fl = false -> Inv2 fl N s ->
  exists s',
    Simulator_LoadProcess_Priority s = Some s' /\ Inv2 fl N s' /\
    mem s' = mem s /\ waiting_queue s' = waiting_queue s /\
    generated_processes s' = generated_processes s /\
    elapsed_time s' = elapsed_time s /\
    incl (ready_elements (ready_queue s')) (ready_elements (ready_queue s)) /\
    (cur_cpu_burst s = None ->
     forall c, cur_cpu_burst s' = Some c ->
       In c (ready_elements (ready_queue s)) /\
       forall e, In e (ready_elements (ready_queue s)) ->
                 ready_compare fl (mem s) e c = false).
Proof.
  intros Hf I2. pose proof (i2_inv I2) as I.
  unfold Simulator_LoadProcess_Priority.
  destruct (cur_cpu_burst s) as [c|] eqn:Ec.
  { exists s. do 6 (split; [auto|]). split; [apply incl_refl|].
    intros X. discriminate. }
  pose proof (inv_kind I) as K. pose proof (inv_ready I) as Wr.
  pose proof (i2_ready I2) as Hr.
  destruct (ready_queue s) as [q|q] eqn:Er; simpl in K; [congruence|].
  simpl in Wr, Hr. destruct Hr as [Cq Hq]. unfold Priority_IsEmpty.
  destruct (Z.eqb_spec (count q) 0) as [E|E]; cbn [negb].
  { exists s. do 6 (split; [auto|]). rewrite Er. split; [apply incl_refl|].
    intros _ c' X. congruence. }
  rewrite (Priority_Top_spec Wr). cbn [bind].
  pose proof (inv_size I) as Sz. rewrite length_live, Er in Sz. simpl in Sz.
  pose proof Wr as (_ & _ & Lq).
  destruct (pq_nonempty Wr E) as (x & Rx & Ix & Hc).
  destruct (@Priority_Dequeue_spec (mem s) q Wr)
    as (q' & x' & Ed & Rx' & Wq' & Cq' & Cm & Pq & Hq'); [lia|lia|].
  rewrite Ed. fields. assert (x' = x) by congruence. subst x'.
  eexists. split; [reflexivity|].
  assert (P : Permutation
                (live (set_ready (set_cur s (root_of (top q))) (ReadyHeap q')))
                (live s)).
  { unfold live. fields. rewrite Ec, Er, Rx.
    cbn [cur_elements ready_elements]. solve_perm. }
  split; [|do 4 (split; [reflexivity|]); split].
  - apply Inv2_update with s; fields; auto using incl_refl; try apply I2.
    + apply Inv_update with s; fields; try apply I; auto.
    + simpl. split; [congruence|]. rewrite Cq in Hq'. apply Hq'; auto.
      apply ready_compare_swo.
  - fields. cbn [ready_elements]. intros e He.
    apply Permutation_in with (x :: elements (top q'));
      [symmetry; exact Pq|]. right. exact He.
  - intros _ c Hc'. fields. rewrite Rx in Hc'. injection Hc' as <-.
    cbn [ready_elements]. split; [exact Ix|]. intros e He.
    apply heap_root_lower_bound with (top q); auto.
    apply ready_compare_swo.
Qed.

Lemma tick_before_io_spec2 (fl : Z) (N : nat) (s : Simulator_t) :
  Inv2 fl N s ->
  exists s3,
    tick_before_io fl s = Some s3 /\ Inv2 fl N s3 /\
    waiting_io_positive s3 /\
    elapsed_time s3 = elapsed_time s /\
    incl (elements (top (generated_processes s3)))
         (elements (top (generated_processes s))) /\
    (forall p, In p (elements (top (generated_processes s))) ->
               In p (elements (top (generated_processes s3))) \/
               arrival_time (mem s p) = elapsed_time s) /\
    (forall x, root_of (top (generated_processes s3)) = Some x ->
               arrival_time (mem s x) <> elapsed_time s).
Proof.
  intros I2. unfold tick_before_io.
  destruct (fifo_policy fl) eqn:Hf.
  - destruct (@load_ready_queue_spec2 fl N _ (ready_Queue_Enqueue_ok fl Hf)
                (ready_Queue_Enqueue_heap fl) s I2)
      as (s1 & E1 & I1 & M1 & L1 & P1 & Inc & Stay & Root).
    unfold Simulator_LoadReadyQueue. rewrite E1. cbn [bind].
    destruct (Simulator_LoadProcess_spec2 Hf I1)
      as (s2 & E2 & J2 & M2 & W2 & G2 & L2).
    rewrite E2. cbn [bind]. unfold ready_Queue_Waiting.
    pose proof (inv_kind (i2_inv J2)) as K. rewrite Hf in K.
    destruct (ready_queue s2) as [q|q] eqn:Er; simpl in K; [|congruence].
    eexists. split; [reflexivity|].
    pose proof (Simulator_Queue_Waiting_frame q (mem s2)) as F.
    fields. rewrite G2, L2, L1.
    split; [|split; [|repeat split; auto]].
    + apply Inv2_frame; auto.
      * apply Inv_frame; auto. apply J2.
      * apply static_frame_Queue_Waiting.
      * apply cpu_frame_Queue_Waiting.
    + apply waiting_io_positive_frame; auto.
      unfold waiting_io_positive in *. rewrite W2, M2. exact P1.
  - destruct (@load_ready_queue_spec2 fl N _ (ready_Priority_Enqueue_ok fl Hf)
                (ready_Priority_Enqueue_heap fl) s I2)
      as (s1 & E1 & I1 & M1 & L1 & P1 & Inc & Stay & Root).
    unfold Simulator_LoadReadyQueue_Priority. rewrite E1. cbn [bind].
    destruct (Simulator_LoadProcess_Priority_spec2 Hf I1)
      as (s2 & E2 & J2 & M2 & W2 & G2 & L2 & _ & _).
    rewrite E2. cbn [bind]. unfold ready_Priority_Waiting.
    pose proof (inv_kind (i2_inv J2)) as K. rewrite Hf in K.
    destruct (ready_queue s2) as [q|q] eqn:Er; simpl in K; [congruence|].
    eexists. split; [reflexivity|].
    pose proof (Simulator_Priority_Waiting_frame (top q) (mem s2)) as F.
    fields. rewrite G2, L2, L1.
    split; [|split; [|repeat split; auto]].
    + apply Inv2_frame; auto.
      * apply Inv_frame; auto. apply J2.
      * apply static_frame_Priority_Waiting.
      * apply cpu_frame_Priority_Waiting.
    + apply waiting_io_positive_frame; auto.
      unfold waiting_io_positive in *. rewrite W2, M2. exact P1.
Qed.

Lemma waiting_Process_IO_spec2 (fl : Z) (N : nat) (s : Simulator_t) :
  Inv2 fl N s -> waiting_io_positive s -> Inv2 fl N (waiting_Process_IO s).
Proof.
  intros I2 P. unfold waiting_Process_IO. apply Inv2_frame; auto.
  - apply (waiting_Process_IO_spec (i2_inv I2) P).
  - apply static_frame_Process_IO.
  - apply cpu_frame_Process_IO.
Qed.

Lemma interrupt_outcome_perm (src : nat -> Z) (m : Mem)
  (order : list ProcessPtr_t) :
  forall next,
    Permutation (fst (interrupt_outcome src m next order) ++
                 snd (interrupt_outcome src m next order)) order.
Proof.
  induction order as [|p rest IH]; intros next; [reflexivity|].
  cbn [interrupt_outcome]. specialize (IH (next + 100)%nat).
  destruct (interrupt_outcome src m (next + 100) rest) as [mv st].
  cbn [fst snd] in *. destruct (_ && _); cbn [fst snd].
  - simpl. constructor. exact IH.
  - rewrite <- Permutation_middle. constructor. exact IH.
Qed.

Section InterruptProofs2.

Variable fl : Z.
Variable N : nat.
Variable enq : Simulator_t -> ProcessPtr_t -> option Simulator_t.
Hypothesis enq_ok : enqueue_ready_ok fl enq.
Hypothesis enq_heap : enqueue_ready_heap fl enq.
Hypothesis enq_only : enqueue_ready_only enq.

Lemma io_interrupt_loop_ready_heap :
  forall (fuel : nat) (s s1 : Simulator_t) (tmp tmp' : Priority_Queue_t),
    Inv_interrupt fl s tmp ->
    ready_heap_ok fl (ready_queue s) (mem s) ->
    io_interrupt_loop enq fuel s tmp = Some (s1, tmp') ->
    ready_heap_ok fl (ready_queue s1) (mem s1).
Proof.
  induction fuel as [|fuel IH]; intros s s1 tmp tmp' I Hr E; [discriminate|].
  cbn [io_interrupt_loop] in E.
  rewrite (Priority_Top_spec (ii_waiting I)) in E. cbn [bind] in E.
  pose proof (ii_waiting I) as (_ & _ & Lw).
  destruct (root_of (top (waiting_queue s))) as [x|] eqn:Rx.
  2:{ injection E as <- <-. exact Hr. }
  destruct (root_of_some _ Rx) as [Ix Lx].
  assert (Hc : 0 < count (waiting_queue s)) by lia.
  pose proof (ii_size I) as Sz. rewrite length_app, length_live in Sz.
  unfold Simulator_Probability in E. fields.
  destruct (@Priority_Dequeue_spec (mem s) (waiting_queue s) (ii_waiting I))
    as (wq & x' & Ed & Rx' & Ww & Cw & Cm & Pw & _); [lia|lia|].
  assert (x' = x) by congruence. subst x'.
  destruct ((50 <=? count_draws (rand_src s) (rand_next s) 100)
            && (1 <? cpu_burst_time (mem s x))).
  - rewrite Ed in E. fields.
    assert (Br : Z.of_nat
                   (length (ready_elements
                              (ready_queue
                                 (set_waiting
                                    (set_rand_next s (rand_next s + 100)) wq))))
                 + 1 < 2 ^ 30) by (fields; lia).
    destruct (enq_ok (set_waiting (set_rand_next s (rand_next s + 100)) wq) x
                (ii_ready I) (ii_kind I) Br)
      as (rq' & Eq & Wr & Kr & Pr & Fr).
    pose proof (@enq_heap
                  (set_waiting (set_rand_next s (rand_next s + 100)) wq)
                  x rq' (ii_ready I) Br Eq Hr) as Hr'.
    rewrite Eq in E. fields.
    apply (IH _ _ _ _) with (3 := E); [|exact Hr'].
    apply Inv_interrupt_update with s tmp; fields; try apply I; auto.
    unfold live. fields. solve_perm.
  - rewrite Ed in E. fields.
    pose proof (ii_tmp I) as (_ & _ & Lt).
    destruct (@Priority_Enqueue_spec (mem s) tmp x (ii_tmp I))
      as (tmp1 & Ee & Wt & Ct & Cmt & Pt & Ht); [lia|].
    rewrite Ee in E. fields.
    apply (IH _ _ _ _) with (3 := E); [|exact Hr].
    apply Inv_interrupt_update with s tmp; fields; try apply I; auto.
    + unfold live. fields. solve_perm.
    + rewrite Cmt. apply I.
    + rewrite (ii_compare I) in Ht. apply Ht.
      * apply IO_Burst_Compare_swo.
      * apply I.
Qed.

Lemma process_io_interrupt_spec2 (s : Simulator_t) :
  Inv2 fl N s ->
  exists s',
    process_io_interrupt enq s = Some s' /\ Inv2 fl N s' /\
    mem s' = mem s /\
    generated_processes s' = generated_processes s /\
    elapsed_time s' = elapsed_time s.
Proof.
  intros I2. pose proof (i2_inv I2) as I.
  destruct (@process_io_interrupt_spec fl enq enq_ok s I)
    as (s' & order & E & I' & M & Po & Pr & _ & Pw).
  exists s'. split; [exact E|].
  assert (Hr : ready_heap_ok fl (ready_queue s') (mem s)).
  { pose proof E as E'. unfold process_io_interrupt in E'.
    destruct (Priority_IsEmpty (waiting_queue s)).
    - injection E' as <-. apply I2.
    - destruct (io_interrupt_loop enq _ s _) as [[s1 tmp]|] eqn:El;
        cbn [bind] in E'; [|discriminate].
      injection E' as <-. fields. rewrite <- M.
      eapply io_interrupt_loop_ready_heap;
        [apply Inv_to_interrupt; exact I|apply I2|exact El]. }
  destruct (process_io_interrupt_only enq_only _ E) as (rq & wq & nx & ->).
  fields. split; [|repeat split].
  apply Inv2_update with s; fields; auto using incl_refl; try apply I2.
  unfold live in *. fields.
  pose proof (interrupt_outcome_perm (rand_src s) (mem s) order (rand_next s))
    as Pq.
  solve_perm.
Qed.

End InterruptProofs2.

(** ** [Simulator_Eval] *)

Lemma total_perm (f : Process_t -> Z) (m : Mem) (l l' : list ProcessPtr_t) :
  Permutation l l' -> total f m l = total f m l'.
Proof.
  induction 1; simpl; try lia; congruence.
Qed.

Lemma greatest_perm (f : Process_t -> Z) (m : Mem) (base : Z)
  (l l' : list ProcessPtr_t) :
  Permutation l l' -> greatest f m base l = greatest f m base l'.
Proof.
  induction 1; simpl; try lia; congruence.
Qed.

Lemma greatest_base (f : Process_t -> Z) (m : Mem) (base x : Z)
  (l : list ProcessPtr_t) :
  greatest f m (Z.max base x) l = Z.max (greatest f m base l) x.
Proof. induction l as [|p l IH]; simpl; [reflexivity|]. rewrite IH. lia. Qed.

Lemma eval_loop_spec :
  forall (fuel : nat) (s : Simulator_t),
    pq_wf (terminated_processes s) ->
    count (terminated_processes s) < 2 ^ 30 ->
    (Z.to_nat (count (terminated_processes s)) < fuel)%nat ->
    exists s' order,
      eval_loop fuel s = Some s' /\
      elements (top (terminated_processes s')) = [] /\
      Permutation order (elements (top (terminated_processes s))) /\
      avg_waiting_time s' =
        running_sum waiting_time (mem s) order (avg_waiting_time s) /\
      avg_turnaround_time s' =
        running_sum turnaround_time (mem s) order (avg_turnaround_time s) /\
      max_waiting_time s' =
        greatest waiting_time (mem s) (max_waiting_time s)
                 (elements (top (terminated_processes s))).
Proof.
  induction fuel as [|fuel IH]; intros s W B Hf; [lia|].
  cbn [eval_loop]. rewrite (Priority_Top_spec W). cbn [bind].
  destruct (root_of (top (terminated_processes s))) as [x|] eqn:Rx.
  2:{ apply root_of_none in Rx. exists s, []. rewrite Rx. simpl.
      repeat split; auto. }
  pose proof W as (_ & _ & L). destruct (root_of_some _ Rx) as [_ Lx].
  destruct (@Priority_Dequeue_spec (mem s) (terminated_processes s) W)
    as (tq & x' & Ed & Rx' & Wt & Ct & _ & Pt & _); [lia|lia|].
  assert (x' = x) by congruence. subst x'.
  rewrite Ed. cbn [bind]. cbv zeta. fields.
  rewrite (greatest_perm waiting_time (mem s) (max_waiting_time s) Pt).
  cbn [greatest fold_right].
  fold (greatest waiting_time (mem s) (max_waiting_time s) (elements (top tq))).
  match goal with
  | |- exists s' order, eval_loop fuel ?st = Some s' /\ _ =>
      destruct (IH st) as (s' & order & Es & Et & Po & Ew & Ett & Em)
  end.
  - destruct (_ <? _); fields; exact Wt.
  - destruct (_ <? _); fields; lia.
  - destruct (_ <? _); fields; lia.
  - exists s', (x :: order). split; [exact Es|]. split; [exact Et|].
    split.
    { rewrite Pt. constructor. revert Po. destruct (_ <? _); fields; auto. }
    split; [|split].
    + rewrite Ew. cbn [running_sum fold_left].
      destruct (_ <? _); fields; reflexivity.
    + rewrite Ett. cbn [running_sum fold_left].
      destruct (_ <? _); fields; reflexivity.
    + rewrite Em.
      destruct (Z.ltb_spec (max_waiting_time s) (waiting_time (mem s x)));
        fields.
      * replace (waiting_time (mem s x))
          with (Z.max (max_waiting_time s) (waiting_time (mem s x))) at 1
          by lia.
        rewrite greatest_base. lia.
      * replace (max_waiting_time s)
          with (Z.max (max_waiting_time s) (waiting_time (mem s x))) at 1
          by lia.
        rewrite greatest_base. lia.
Qed.

Lemma Simulator_Eval_spec (s : Simulator_t) :
  pq_wf (terminated_processes s) ->
  count (terminated_processes s) < 2 ^ 30 ->
  exists s' order,
    Simulator_Eval s = Some s' /\
    elements (top (terminated_processes s')) = [] /\
    Permutation order (elements (top (terminated_processes s))) /\
    avg_waiting_time s' =
      ddiv (running_sum waiting_time (mem s) order (avg_waiting_time s))
           (double_of_uint (num_process s)) /\
    avg_turnaround_time s' =
      ddiv (running_sum turnaround_time (mem s) order
                        (avg_turnaround_time s))
           (double_of_uint (num_process s)) /\
    max_waiting_time s' =
      greatest waiting_time (mem s) (max_waiting_time s)
               (elements (top (terminated_processes s))) /\
    mem s' = mem s /\
    generated_processes s' = generated_processes s /\
    ready_queue s' = ready_queue s /\
    waiting_queue s' = waiting_queue s /\
    cur_cpu_burst s' = cur_cpu_burst s /\
    num_process s' = num_process s.
Proof.
  intros W B. unfold Simulator_Eval.
  destruct (@eval_loop_spec (S (Z.to_nat (count (terminated_processes s)))) s
              W B) as (s1 & order & E1 & Et & Po & Ew & Ett & Em); [lia|].
  rewrite E1. cbn [bind]. cbv zeta.
  destruct (eval_loop_only _ _ E1) as (tq & a & b & mx & ->).
  fields. eexists. exists order. split; [reflexivity|]. fields.
  rewrite Ew, Ett. repeat split; auto.
Qed.

(** ** Execute under the second invariant *)

Lemma cur_not_elsewhere (fl : Z) (s : Simulator_t) (c : ProcessPtr_t) :
  Inv fl s -> cur_cpu_burst s = Some c ->
  ~ In c (elements (top (generated_processes s))) /\
  ~ In c (ready_elements (ready_queue s)) /\
  ~ In c (elements (top (waiting_queue s))) /\
  ~ In c (elements (top (terminated_processes s))).
Proof.
  intros I Ec. pose proof (inv_nodup I) as Nd.
  rewrite (NoDup_count_occ Nat.eq_dec) in Nd. specialize (Nd c).
  unfold live in Nd. rewrite Ec in Nd. cbn [cur_elements] in Nd.
  rewrite !count_occ_app in Nd. cbn [count_occ] in Nd.
  destruct (Nat.eq_dec c c) as [_|Ne]; [|contradiction].
  repeat split; intros H; apply (count_occ_In Nat.eq_dec) in H;
    unfold ProcessPtr_t in *; lia.
Qed.

Lemma ready_compare_agree (fl : Z) (m m' : Mem) (a b : ProcessPtr_t) :
  m' a = m a -> m' b = m b ->
  ready_compare fl m' a b = ready_compare fl m a b.
Proof.
  intros A B. unfold ready_compare.
  destruct (_ || _); unfold SJF_Compare, Priority_Compare; rewrite A, B;
    reflexivity.
Qed.

Lemma burst_process_other (m : Mem) (c p : ProcessPtr_t) :
  p <> c -> burst_process m c p = m p.
Proof. intros H. unfold burst_process. apply store_other. exact H. Qed.

Lemma Inv2_burst (fl : Z) (N : nat) (s : Simulator_t) (c : ProcessPtr_t)
  (o : Out_t) :
  Inv2 fl N s -> cur_cpu_burst s = Some c ->
  Inv2 fl N (print (set_mem s (burst_process (mem s) c)) o).
Proof.
  intros I2 Ec. pose proof (i2_inv I2) as I.
  destruct (cur_not_elsewhere I Ec) as (_ & Nr & _ & Nt).
  constructor; fields; try apply I2.
  - apply Inv_burst. exact I.
  - apply heap_ext with (Simulator_ArrivalTime_Compare (mem s)).
    + apply ArrivalTime_Compare_frame. apply static_frame_burst.
    + apply I2.
  - intros p Hp. rewrite burst_process_other.
    + apply (i2_done I2). exact Hp.
    + intros ->. contradiction.
  - pose proof (i2_ready I2) as Hr.
    destruct (ready_queue s) as [q|q]; simpl in *; auto.
    destruct Hr as [Cq Hq]. split; [exact Cq|].
    apply heap_ext_in with (ready_compare fl (mem s)); auto.
    intros a b Ha Hb. apply ready_compare_agree; apply burst_process_other.
    + intros ->. contradiction.
    + intros ->. contradiction.
Qed.

Lemma Inv2_to_waiting (fl : Z) (N : nat) (s : Simulator_t) (c : ProcessPtr_t) :
  Inv2 fl N s -> cur_cpu_burst s = Some c ->
  exists wq,
    Priority_Enqueue (mem s) (waiting_queue s) c = Some wq /\
    Inv2 fl N (set_cur (set_waiting s wq) None).
Proof.
  intros I2 Ec. pose proof (i2_inv I2) as I.
  destruct (Inv_to_waiting I Ec) as (wq & E & I4).
  exists wq. split; [exact E|].
  pose proof (inv_size I) as Sz.
  rewrite length_live, Ec in Sz. cbn [cur_elements length] in Sz.
  pose proof (inv_waiting I) as (_ & _ & Lw).
  destruct (@Priority_Enqueue_spec (mem s) (waiting_queue s) c (inv_waiting I))
    as (wq' & E' & _ & _ & _ & Pw & _); [lia|].
  assert (wq' = wq) by congruence. subst wq'.
  apply Inv2_update with s; fields; auto using incl_refl; try apply I2.
  unfold live. fields. rewrite Ec. cbn [cur_elements]. solve_perm.
Qed.

Lemma Inv2_to_terminated (fl : Z) (N : nat) (s : Simulator_t)
  (c : ProcessPtr_t) :
  Inv2 fl N s -> cur_cpu_burst s = Some c ->
  cpu_burst_time (mem s c) = 0 ->
  exists tq,
    Priority_Enqueue (mem s) (terminated_processes s) c = Some tq /\
    Inv2 fl N (set_cur (set_terminated s tq) None) /\
    pq_wf tq.
Proof.
  intros I2 Ec Z0. pose proof (i2_inv I2) as I.
  destruct (Inv_to_terminated I Ec) as (tq & E & I4).
  exists tq. split; [exact E|].
  pose proof (inv_size I) as Sz.
  rewrite length_live, Ec in Sz. cbn [cur_elements length] in Sz.
  pose proof (inv_terminated I) as (_ & _ & Lw).
  destruct (@Priority_Enqueue_spec (mem s) (terminated_processes s) c
              (inv_terminated I))
    as (tq' & E' & Wt & _ & _ & Pw & _); [lia|].
  assert (tq' = tq) by congruence. subst tq'.
  split; [|exact Wt].
  constructor; fields; try apply I2; auto.
  - rewrite <- (i2_live I2). unfold live. fields. rewrite Ec.
    cbn [cur_elements]. solve_perm.
  - intros p Hp. apply (Permutation_in _ Pw) in Hp.
    destruct Hp as [<-|Hp]; [exact Z0|]. apply (i2_done I2). exact Hp.
Qed.

Lemma Inv2_io_request (fl : Z) (N : nat) (s : Simulator_t)
  (c : ProcessPtr_t) :
  Inv2 fl N s ->
  Inv2 fl N (snd (io_request s c)) /\
  cur_cpu_burst (snd (io_request s c)) = cur_cpu_burst s /\
  mem (snd (io_request s c)) = mem s /\
  generated_processes (snd (io_request s c)) = generated_processes s.
Proof.
  intros I. destruct (io_request_only s c) as (nx & ->).
  split; [apply Inv2_same with s; auto|repeat split].
Qed.

Lemma length_zero_nil (A : Type) (l : list A) : length l = 0%nat -> l = [].
Proof. destruct l; [reflexivity|discriminate]. Qed.

Lemma Inv2_finished (fl : Z) (N : nat) (s : Simulator_t) :
  Inv2 fl N s ->
  count (terminated_processes s) = num_process s ->
  exists s', Simulator_Eval s = Some s' /\ finished N s'.
Proof.
  intros I2 Ec. pose proof (i2_inv I2) as I.
  pose proof (inv_terminated I) as W. pose proof W as (_ & _ & Lt).
  pose proof (inv_size I) as Sz.
  pose proof (Permutation_length (i2_live I2)) as Ll.
  rewrite length_seq in Ll. rewrite Ll in Sz.
  rewrite length_live in Ll. rewrite (i2_num I2), Lt in Ec.
  apply Nat2Z.inj in Ec.
  assert (Ej : elements (top (generated_processes s)) = [])
    by (apply length_zero_nil; lia).
  assert (Er : ready_elements (ready_queue s) = [])
    by (apply length_zero_nil; lia).
  assert (Ew : elements (top (waiting_queue s)) = [])
    by (apply length_zero_nil; lia).
  assert (Eu : cur_cpu_burst s = None).
  { destruct (cur_cpu_burst s); [simpl in Ll; lia|reflexivity]. }
  assert (Pt : Permutation (elements (top (terminated_processes s))) (seq 0 N)).
  { rewrite <- (i2_live I2). unfold live. rewrite Ej, Er, Ew, Eu. reflexivity. }
  destruct (@Simulator_Eval_spec s W)
    as (s' & order & E & Et & Po & Aw & At & Mw & Mm & Gj & Gr & Gw & Gc & Gn);
    [lia|].
  exists s'. split; [exact E|].
  constructor; rewrite ?Mm; try congruence.
  - intros p Hp. apply (i2_done I2).
    apply Permutation_in with (seq 0 N); [symmetry; exact Pt|].
    apply in_seq. lia.
  - exists order. split; [rewrite Po; exact Pt|].
    rewrite Aw, At, (i2_avg_waiting I2), (i2_avg_turnaround I2), (i2_num I2).
    split; reflexivity.
  - rewrite Mw, (i2_max_waiting I2). apply greatest_perm. exact Pt.
Qed.

Lemma Simulator_CPU_Burst_spec2 (fl : Z) (N : nat) (s : Simulator_t) :
  Inv2 fl N s ->
  match Simulator_CPU_Burst s with
  | Some (ret, s') =>
      (ret = 0 ->
       Inv2 fl N s' /\ generated_processes s' = generated_processes s) /\
      (ret <> 0 -> finished N s')
  | None => False
  end.
Proof.
  intros I2. unfold Simulator_CPU_Burst.
  destruct (cur_cpu_burst s) as [c|] eqn:Ec.
  2:{ split; [intros _|intros H; contradiction].
      split; [apply Inv2_same with s; auto|reflexivity]. }
  pose proof (@Inv2_burst fl N s c
                (Out_Gantt (pid (mem (set_mem s (burst_process (mem s) c)) c)))
                I2 Ec) as J1.
  set (s2 := print _ _) in *.
  assert (C2 : cur_cpu_burst s2 = Some c) by exact Ec.
  assert (G2 : generated_processes s2 = generated_processes s) by reflexivity.
  clearbody s2.
  destruct (Z.eqb_spec (cpu_burst_time (mem s2 c)) 0) as [Z0|Z0]; cbn [negb].
  - destruct (Inv2_to_terminated J1 C2 Z0) as (tq & E & J4 & Wt).
    rewrite E. cbn [bind]. cbv zeta.
    destruct (Z.eqb_spec (count (terminated_processes
                                   (set_cur (set_terminated s2 tq) None)))
                         (num_process (set_cur (set_terminated s2 tq) None)))
      as [Q|Q].
    + destruct (Inv2_finished J4 Q) as (s4 & E4 & F4). rewrite E4.
      cbn [bind]. split; [intros H; discriminate|intros _; exact F4].
    + split; [intros _; split; [exact J4|exact G2]|intros H; contradiction].
  - destruct (negb (io_burst_time (mem s2 c) =? 0)).
    2:{ split; [intros _; split; [exact J1|exact G2]|intros H; contradiction]. }
    destruct (Inv2_io_request c J1) as (J3 & C3 & M3 & G3). rewrite C2 in C3.
    destruct (io_request s2 c) as [fire s3]. cbn [snd] in *.
    destruct fire.
    2:{ split; [intros _; split; [exact J3|congruence]|intros H; contradiction]. }
    destruct (Inv2_to_waiting J3 C3) as (wq & E & J4).
    rewrite E. cbn [bind].
    split; [intros _; split; [exact J4|]|intros H; contradiction].
    fields. congruence.
Qed.

Lemma Simulator_CPU_Burst_RR_spec2 (fl : Z) (N : nat) (s : Simulator_t)
  (time_quantum : Z) :
  fifo_policy fl = true -> Inv2 fl N s ->
  match Simulator_CPU_Burst_RR s time_quantum with
  | Some (ret, s', _) =>
      (ret = 0 ->
       Inv2 fl N s' /\ generated_processes s' = generated_processes s) /\
      (ret <> 0 -> finished N s')
  | None => False
  end.
Proof.
  intros Hf I2. unfold Simulator_CPU_Burst_RR.
  destruct (cur_cpu_burst s) as [c|] eqn:Ec.
  2:{ split; [intros _|intros H; contradiction].
      split; [apply Inv2_same with s; auto|reflexivity]. }
  pose proof (@Inv2_burst fl N s c
                (Out_Gantt (pid (mem (set_mem s (burst_process (mem s) c)) c)))
                I2 Ec) as J1.
  set (s2 := print _ _) in *.
  assert (C2 : cur_cpu_burst s2 = Some c) by exact Ec.
  assert (G2 : generated_processes s2 = generated_processes s) by reflexivity.
  clearbody s2.
  destruct (Z.eqb_spec (cpu_burst_time (mem s2 c)) 0) as [Z0|Z0]; cbn [negb].
  - destruct (Inv2_to_terminated J1 C2 Z0) as (tq & E & J4 & Wt).
    rewrite E. cbn [bind]. cbv zeta.
    destruct (Z.eqb_spec (count (terminated_processes
                                   (set_cur (set_terminated s2 tq) None)))
                         (num_process (set_cur (set_terminated s2 tq) None)))
      as [Q|Q].
    + destruct (Inv2_finished J4 Q) as (s4 & E4 & F4). rewrite E4.
      cbn [bind]. split; [intros H; discriminate|intros _; exact F4].
    + split; [intros _; split; [exact J4|exact G2]|intros H; contradiction].
  - assert (Q : forall s4 tq2,
               Inv2 fl N s4 ->
               generated_processes s4 = generated_processes s ->
               (cur_cpu_burst s4 = Some c \/ tq2 = 0) ->
               match
                 (if tq2 =? TIME_QUANTUM then
                    match cur_cpu_burst s4 with
                    | Some cur' =>
                        s5 <- ready_Queue_Enqueue s4 cur' ;;
                        Some (0, set_cur s5 None, 0)
                    | None => None
                    end
                  else Some (0, s4, tq2))
               with
               | Some (ret, s', _) =>
                   (ret = 0 ->
                    Inv2 fl N s' /\
                    generated_processes s' = generated_processes s) /\
                   (ret <> 0 -> finished N s')
               | None => False
               end).
    { intros s4 tq2 J4 G4 H4. pose proof (i2_inv J4) as I4.
      destruct (Z.eqb_spec tq2 TIME_QUANTUM) as [Eq|Eq].
      2:{ split; [intros _; split; [exact J4|exact G4]|
                  intros H; contradiction]. }
      destruct H4 as [C4|Z4]; [|unfold TIME_QUANTUM in Eq; lia].
      rewrite C4.
      pose proof (inv_size I4) as Sz. rewrite length_live, C4 in Sz.
      cbn [cur_elements length] in Sz.
      assert (Br : Z.of_nat (length (ready_elements (ready_queue s4))) + 1
                   < 2 ^ 30) by lia.
      destruct (ready_Queue_Enqueue_ok fl Hf s4 c (inv_ready I4) (inv_kind I4)
                  Br) as (rq' & E & Wr & Kr & Pr & _).
      pose proof (@ready_Queue_Enqueue_heap fl s4 c rq' (inv_ready I4) Br E
                    (i2_ready J4)) as Hr.
      rewrite E. cbn [bind].
      split; [intros _; split; [|exact G4]|intros H; contradiction].
      assert (P : Permutation (live (set_cur (set_ready s4 rq') None))
                              (live s4)).
      { unfold live. fields. rewrite C4. cbn [cur_elements]. solve_perm. }
      apply Inv2_update with s4; fields; auto using incl_refl;
        try apply J4.
      apply Inv_update with s4; fields; try apply I4; auto. }
    destruct (negb (io_burst_time (mem s2 c) =? 0)).
    + destruct (Inv2_io_request c J1) as (J3 & C3 & M3 & G3).
      rewrite C2 in C3.
      destruct (io_request s2 c) as [fire s3]. cbn [snd] in *.
      destruct fire.
      * destruct (Inv2_to_waiting J3 C3) as (wq & E & J4).
        rewrite E. cbn [bind]. apply Q; auto. fields. congruence.
      * cbn [bind]. apply Q; auto. congruence.
    + cbn [bind]. apply Q; auto.
Qed.

Lemma preempt_decision_spec2 (fl : Z) (N : nat) (s : Simulator_t) :
  fifo_policy fl = false -> Inv2 fl N s ->
  exists s0,
    preempt_decision s = Some s0 /\ Inv2 fl N s0 /\
    generated_processes s0 = generated_processes s /\
    mem s0 = mem s /\
    forall c, cur_cpu_burst s0 = Some c ->
      forall e, In e (ready_elements (ready_queue s0)) ->
                ready_compare fl (mem s0) e c = false.
Proof.
  intros Hf I2. pose proof (i2_inv I2) as I. unfold preempt_decision.
  pose proof (inv_kind I) as K. pose proof (inv_ready I) as Wr.
  pose proof (i2_ready I2) as Hr.
  destruct (ready_queue s) as [q|q] eqn:Er; simpl in K; [congruence|].
  simpl in Wr, Hr. destruct Hr as [Cq Hq].
  destruct (cur_cpu_burst s) as [c|] eqn:Ec.
  2:{ exists s. repeat (split; [auto|]). intros c H. congruence. }
  unfold Priority_IsEmpty.
  destruct (Z.eqb_spec (count q) 0) as [E|E]; cbn [negb].
  { exists s. repeat (split; [auto|]). intros c' _ e He.
    rewrite Er in He. simpl in He. rewrite (pq_wf_empty Wr E) in He.
    destruct He. }
  destruct (pq_nonempty Wr E) as (x & Rx & Ix & Hc).
  destruct (top q) as [|l h r] eqn:Et; [discriminate|].
  simpl in Rx. injection Rx as ->. rewrite Cq.
  destruct (ready_compare fl (mem s) x c) eqn:Cx.
  2:{ exists s. repeat (split; [auto|]). intros c' Hc' e He.
      rewrite Ec in Hc'. injection Hc' as <-.
      rewrite Er in He. simpl in He. rewrite Et in He.
      destruct (ready_compare_swo fl (mem s)) as (_ & _ & Inc).
      apply Inc with x; [exact Cx|].
      apply heap_root_lower_bound with (Node l x r); auto.
      apply ready_compare_swo. }
  pose proof (inv_size I) as Sz. rewrite length_live, Er, Ec in Sz.
  cbn [cur_elements ready_elements length] in Sz.
  pose proof Wr as (_ & _ & Lq).
  destruct (@Priority_Enqueue_spec (mem s) q c Wr)
    as (rq & E1 & Wq & Cq1 & Cm1 & Pq & Hq1); [lia|].
  rewrite E1. cbn [bind].
  assert (P : Permutation
                (live (set_cur (set_ready s (ReadyHeap rq)) None)) (live s)).
  { unfold live. fields. rewrite Er, Ec.
    cbn [cur_elements ready_elements]. solve_perm. }
  assert (J1 : Inv2 fl N (set_cur (set_ready s (ReadyHeap rq)) None)).
  { apply Inv2_update with s; fields; auto using incl_refl; try apply I2.
    - apply Inv_update with s; fields; try apply I; auto.
    - simpl. split; [congruence|]. rewrite Cq in Hq1.
      apply Hq1; [apply ready_compare_swo|rewrite Et; exact Hq]. }
  destruct (Simulator_LoadProcess_Priority_spec2 Hf J1)
    as (s0 & E0 & J0 & M0 & _ & G0 & _ & Inc0 & Min0).
  exists s0. split; [exact E0|]. split; [exact J0|].
  split; [exact G0|]. split; [exact M0|].
  intros c' Hc' e He. rewrite M0.
  destruct (Min0 eq_refl c' Hc') as [_ Hm]. apply Hm. apply Inc0. exact He.
Qed.

Lemma Simulator_CPU_Burst_Preemptive_spec2 (fl : Z) (N : nat)
  (s : Simulator_t) :
  fifo_policy fl = false -> Inv2 fl N s ->
  match Simulator_CPU_Burst_Preemptive s with
  | Some (ret, s') =>
      (ret = 0 ->
       Inv2 fl N s' /\ generated_processes s' = generated_processes s) /\
      (ret <> 0 -> finished N s')
  | None => False
  end.
Proof.
  intros Hf I2. rewrite Simulator_CPU_Burst_Preemptive_decompose.
  destruct (preempt_decision_spec2 Hf I2) as (s0 & E & J0 & G0 & _).
  rewrite E. cbn [bind].
  pose proof (Simulator_CPU_Burst_spec2 J0) as B.
  destruct (Simulator_CPU_Burst s0) as [[ret s']|]; [|exact B].
  destruct B as [B1 B2]. split; [|exact B2].
  intros R. destruct (B1 R) as [J G]. split; [exact J|congruence].
Qed.

(** ** The second invariant along a run *)

Lemma Inv2_next_tick (fl : Z) (N : nat) (s : Simulator_t) :
  Inv2 fl N s -> Inv2 fl N (next_tick s).
Proof. intros I. apply Inv2_same with s; auto. Qed.

(** One tick: the simulation goes on with the invariant, or has ended
    with every process terminated; the job queue loses exactly the
    processes whose [arrival_time] is [elapsed_time]. *)
Lemma tick_spec2 (fl : Z) (N : nat) (s : Simulator_t) (time_quantum : Z) :
  valid_policy fl = true -> Inv2 fl N s ->
  match tick fl s time_quantum with
  | Some (ret, s', _) =>
      (ret = 0 ->
       Inv2 fl N (next_tick s') /\
       incl (elements (top (generated_processes s')))
            (elements (top (generated_processes s))) /\
       (forall p, In p (elements (top (generated_processes s))) ->
                  In p (elements (top (generated_processes s'))) \/
                  arrival_time (mem s p) = elapsed_time s) /\
       (forall x, root_of (top (generated_processes s')) = Some x ->
                  arrival_time (mem s x) <> elapsed_time s)) /\
      (ret <> 0 -> finished N s')
  | None => False
  end.
Proof.
  intros V I2. unfold tick.
  destruct (tick_before_io_spec2 I2)
    as (s3 & E3 & I3 & P3 & L3 & Inc & Stay & Root).
  rewrite E3. cbn [bind].
  pose proof (waiting_Process_IO_spec2 I3 P3) as I4.
  assert (G4 : generated_processes (waiting_Process_IO s3)
               = generated_processes s3) by reflexivity.
  set (s4 := waiting_Process_IO s3) in *. clearbody s4.
  assert (K : forall ret s5 s6,
             generated_processes s5 = generated_processes s4 ->
             (ret = 0 ->
              Inv2 fl N s6 /\ generated_processes s6 = generated_processes s5) ->
             ret = 0 ->
             Inv2 fl N (next_tick s6) /\
             incl (elements (top (generated_processes s6)))
                  (elements (top (generated_processes s))) /\
             (forall p, In p (elements (top (generated_processes s))) ->
                        In p (elements (top (generated_processes s6))) \/
                        arrival_time (mem s p) = elapsed_time s) /\
             (forall x, root_of (top (generated_processes s6)) = Some x ->
                        arrival_time (mem s x) <> elapsed_time s)).
  { intros ret s5 s6 G5 H R. destruct (H R) as [J6 G6].
    rewrite G6, G5, G4. split; [apply Inv2_next_tick; exact J6|].
    split; [exact Inc|]. split; [exact Stay|exact Root]. }
  unfold tick_after_io. rewrite V. cbn [negb].
  destruct (valid_policy_cases fl V) as [-> | [-> | [-> | [-> | [-> | -> ]]]]];
    cbv beta iota delta [Z.eqb Pos.eqb FCFS NON_PREEMPTIVE_SJF PREEMPTIVE_SJF
      NON_PREEMPTIVE_PRIORITY PREEMPTIVE_PRIORITY ROUND_ROBIN
      preemptive_policy orb].
  - destruct (@process_io_interrupt_spec2 FCFS N _
                (ready_Queue_Enqueue_ok FCFS eq_refl)
                (ready_Queue_Enqueue_heap FCFS) ready_Queue_Enqueue_only
                s4 I4) as (s5 & E5 & I5 & _ & G5 & _).
    unfold Simulator_Process_IO_Queue. rewrite E5. cbn [bind].
    pose proof (Simulator_CPU_Burst_spec2 I5) as B.
    destruct (Simulator_CPU_Burst s5) as [[ret s6]|]; cbn [bind]; [|exact B].
    destruct B as [B1 B2]. split; [apply K with s5; auto|exact B2].
  - destruct (@process_io_interrupt_spec2 NON_PREEMPTIVE_SJF N _
                (ready_Priority_Enqueue_ok NON_PREEMPTIVE_SJF eq_refl)
                (ready_Priority_Enqueue_heap NON_PREEMPTIVE_SJF)
                ready_Priority_Enqueue_only
                s4 I4) as (s5 & E5 & I5 & _ & G5 & _).
    unfold Simulator_Process_IO_Priority. rewrite E5. cbn [bind].
    pose proof (Simulator_CPU_Burst_spec2 I5) as B.
    destruct (Simulator_CPU_Burst s5) as [[ret s6]|]; cbn [bind]; [|exact B].
    destruct B as [B1 B2]. split; [apply K with s5; auto|exact B2].
  - destruct (@process_io_interrupt_spec2 PREEMPTIVE_SJF N _
                (ready_Priority_Enqueue_ok PREEMPTIVE_SJF eq_refl)
                (ready_Priority_Enqueue_heap PREEMPTIVE_SJF)
                ready_Priority_Enqueue_only
                s4 I4) as (s5 & E5 & I5 & _ & G5 & _).
    unfold Simulator_Process_IO_Priority. rewrite E5. cbn [bind].
    pose proof (@Simulator_CPU_Burst_Preemptive_spec2 PREEMPTIVE_SJF N s5
                  eq_refl I5) as B.
    destruct (Simulator_CPU_Burst_Preemptive s5) as [[ret s6]|]; cbn [bind];
      [|exact B].
    destruct B as [B1 B2]. split; [apply K with s5; auto|exact B2].
  - destruct (@process_io_interrupt_spec2 NON_PREEMPTIVE_PRIORITY N _
                (ready_Priority_Enqueue_ok NON_PREEMPTIVE_PRIORITY eq_refl)
                (ready_Priority_Enqueue_heap NON_PREEMPTIVE_PRIORITY)
                ready_Priority_Enqueue_only
                s4 I4) as (s5 & E5 & I5 & _ & G5 & _).
    unfold Simulator_Process_IO_Priority. rewrite E5. cbn [bind].
    pose proof (Simulator_CPU_Burst_spec2 I5) as B.
    destruct (Simulator_CPU_Burst s5) as [[ret s6]|]; cbn [bind]; [|exact B].
    destruct B as [B1 B2]. split; [apply K with s5; auto|exact B2].
  - destruct (@process_io_interrupt_spec2 PREEMPTIVE_PRIORITY N _
                (ready_Priority_Enqueue_ok PREEMPTIVE_PRIORITY eq_refl)
                (ready_Priority_Enqueue_heap PREEMPTIVE_PRIORITY)
                ready_Priority_Enqueue_only
                s4 I4) as (s5 & E5 & I5 & _ & G5 & _).
    unfold Simulator_Process_IO_Priority. rewrite E5. cbn [bind].
    pose proof (@Simulator_CPU_Burst_Preemptive_spec2 PREEMPTIVE_PRIORITY N s5
                  eq_refl I5) as B.
    destruct (Simulator_CPU_Burst_Preemptive s5) as [[ret s6]|]; cbn [bind];
      [|exact B].
    destruct B as [B1 B2]. split; [apply K with s5; auto|exact B2].
  - destruct (@process_io_interrupt_spec2 ROUND_ROBIN N _
                (ready_Queue_Enqueue_ok ROUND_ROBIN eq_refl)
                (ready_Queue_Enqueue_heap ROUND_ROBIN) ready_Queue_Enqueue_only
                s4 I4) as (s5 & E5 & I5 & _ & G5 & _).
    unfold Simulator_Process_IO_Queue. rewrite E5. cbn [bind].
    pose proof (@Simulator_CPU_Burst_RR_spec2 ROUND_ROBIN N s5 time_quantum
                  eq_refl I5) as B.
    destruct (Simulator_CPU_Burst_RR s5 time_quantum) as [[[ret s6] tq6]|];
      [|exact B].
    destruct B as [B1 B2]. split; [apply K with s5; auto|exact B2].
Qed.

(** ** The second invariant at the start *)

Lemma live_jobs_only (s : Simulator_t) :
  ready_elements (ready_queue s) = [] -> cur_cpu_burst s = None ->
  elements (top (waiting_queue s)) = [] ->
  elements (top (terminated_processes s)) = [] ->
  live s = elements (top (generated_processes s)).
Proof.
  intros R C W T. unfold live. rewrite R, C, W, T. cbn [cur_elements app].
  apply app_nil_r.
Qed.

Lemma ready_heap_ok_empty (fl : Z) (rq : ready_queue_t) (m m' : Mem) :
  ready_elements rq = [] -> ready_heap_ok fl rq m -> ready_heap_ok fl rq m'.
Proof.
  destruct rq as [q|q]; simpl; auto. intros E [C H]. split; [exact C|].
  apply heap_ext_in with (ready_compare fl m); [|exact H].
  intros a b Ha. rewrite E in Ha. destruct Ha.
Qed.

Lemma generate_from_spec2 (fl : Z) (w : list Workload_t) :
  forall (i : nat) (s : Simulator_t),
    Inv fl s ->
    Permutation (elements (top (generated_processes s))) (seq 0 i) ->
    ready_elements (ready_queue s) = [] -> cur_cpu_burst s = None ->
    elements (top (waiting_queue s)) = [] ->
    elements (top (terminated_processes s)) = [] ->
    compare (generated_processes s) = Simulator_ArrivalTime_Compare ->
    heap (Simulator_ArrivalTime_Compare (mem s))
         (top (generated_processes s)) ->
    ready_heap_ok fl (ready_queue s) (mem s) ->
    Z.of_nat i + Z.of_nat (length w) < 2 ^ 30 ->
    Forall (fun d => 0 <= w_io_burst_time d < UINT_MOD) w ->
    exists s',
      generate_from i w s = Some s' /\ Inv fl s' /\
      Permutation (elements (top (generated_processes s')))
                  (seq 0 (i + length w)) /\
      compare (generated_processes s') = Simulator_ArrivalTime_Compare /\
      heap (Simulator_ArrivalTime_Compare (mem s'))
           (top (generated_processes s')) /\
      ready_heap_ok fl (ready_queue s') (mem s') /\
      (forall k d, nth_error w k = Some d ->
         mem s' (i + k)%nat =
         mkProcess (Z.of_nat (i + k) + 1) (w_cpu_burst_time d)
                   (w_io_burst_time d) (w_arrival_time d) (w_priority d)
                   0 0) /\
      (forall p, (p < i)%nat -> mem s' p = mem s p).
Proof.
  induction w as [|d w IH]; intros i s I Pj Er Ec Ew Et Cj Hj Hr Sz F.
  - exists s. split; [reflexivity|]. split; [exact I|].
    cbn [length]. rewrite Nat.add_0_r. do 4 (split; [assumption|]).
    split; [|reflexivity]. intros [|k] d' H; discriminate.
  - cbn [generate_from]. cbn [length] in Sz.
    apply Forall_cons_iff in F. destruct F as [Fd F].
    set (m' := store (mem s) i _).
    pose proof (inv_jobs I) as Wj. pose proof Wj as (_ & _ & Lj).
    pose proof (live_jobs_only s Er Ec Ew Et) as Ls.
    pose proof (Permutation_length Pj) as Len. rewrite length_seq in Len.
    destruct (@Priority_Enqueue_spec m' (generated_processes s) i Wj)
      as (jq & E & Wj' & Cj' & Cm & Pq & Hq); [lia|].
    rewrite E. cbn [bind].
    assert (Ni : ~ In i (elements (top (generated_processes s)))).
    { intro Hi. apply (Permutation_in _ Pj) in Hi. apply in_seq in Hi. lia. }
    assert (Ls' : live (set_generated (set_mem s m') jq) = elements (top jq)).
    { apply live_jobs_only; assumption. }
    assert (Hm : heap (Simulator_ArrivalTime_Compare m')
                      (top (generated_processes s))).
    { apply heap_ext_in with (Simulator_ArrivalTime_Compare (mem s));
        [|exact Hj].
      intros a b Ha Hb. unfold Simulator_ArrivalTime_Compare, m'.
      rewrite !store_other; auto; intro; subst; contradiction. }
    destruct (IH (S i) (set_generated (set_mem s m') jq))
      as (s' & E' & I' & Pj' & Cj2 & Hj' & Hr' & Mw & Mo); fields; auto.
    + constructor; fields; try apply I; auto.
      * rewrite Ls'. apply Permutation_NoDup with (i :: seq 0 i).
        -- symmetry. rewrite Pq. apply perm_skip. exact Pj.
        -- constructor; [rewrite in_seq; lia|apply seq_NoDup].
      * rewrite Ls', (Permutation_length Pq). cbn [length]. lia.
      * destruct (top (waiting_queue s)) as [|l x r]; [exact Logic.I|].
        simpl in Ew. destruct (elements l); discriminate.
      * intros p Hp. rewrite Ls' in Hp. apply (Permutation_in _ Pq) in Hp.
        destruct Hp as [<-|Hp].
        -- unfold m'. rewrite store_same. cbn [io_burst_time]. exact Fd.
        -- unfold m'. rewrite store_other.
           ++ apply (inv_io I). rewrite Ls. exact Hp.
           ++ intro; subst. contradiction.
    + rewrite Pq, Pj. rewrite seq_S. cbn [Nat.add].
      apply Permutation_cons_append.
    + congruence.
    + rewrite Cj in Hq. apply Hq; [|exact Hm].
      apply comparators_swo. unfold comparators. simpl. auto.
    + apply ready_heap_ok_empty with (mem s); assumption.
    + lia.
    + exists s'. split; [exact E'|]. split; [exact I'|].
      split.
      { replace (i + length (d :: w))%nat with (S i + length w)%nat
          by (cbn [length]; lia).
        exact Pj'. }
      do 3 (split; [assumption|]). fields. split.
      * intros [|k] d' H.
        -- simpl in H. injection H as <-. rewrite Nat.add_0_r.
           rewrite Mo; [|lia]. unfold m'. apply store_same.
        -- simpl in H.
           replace (i + S k)%nat with (S i + k)%nat by lia.
           apply (Mw k d' H).
      * intros p Hp. rewrite Mo; [|lia]. unfold m'. apply store_other. lia.
Qed.

(** A loaded simulator: the invariant holds, every process is in the job
    queue, and process [k] is the [k]-th of the workload. *)
Lemma loaded_spec2 (m : Mem) (src : nat -> Z) (fl : Z) (w : list Workload_t) :
  valid_policy fl = true ->
  Z.of_nat (length w) < 2 ^ 30 ->
  Forall (fun d => 0 <= w_io_burst_time d < UINT_MOD) w ->
  exists s0,
    loaded m src fl w = Some s0 /\ Inv2 fl (length w) s0 /\
    Permutation (elements (top (generated_processes s0)))
                (seq 0 (length w)) /\
    elapsed_time s0 = 0 /\
    (forall k d, nth_error w k = Some d ->
       mem s0 k =
       mkProcess (Z.of_nat k + 1) (w_cpu_burst_time d) (w_io_burst_time d)
                 (w_arrival_time d) (w_priority d) 0 0).
Proof.
  intros V L F. unfold loaded.
  destruct (@Simulator_Init_inv m src fl V) as (s & E & I & Ls).
  rewrite E. cbn [bind]. unfold Simulator_GenerateProcess.
  assert (Hr : ready_elements (ready_queue s) = [] /\
               ready_heap_ok fl (ready_queue s) (mem s)).
  { clear I Ls.
    destruct (valid_policy_cases fl V) as [-> | [-> | [-> | [-> | [-> | -> ]]]]];
      cbv beta iota delta [Simulator_Init Z.eqb Pos.eqb FCFS
        NON_PREEMPTIVE_SJF PREEMPTIVE_SJF NON_PREEMPTIVE_PRIORITY
        PREEMPTIVE_PRIORITY ROUND_ROBIN orb bind] in E;
      injection E as <-; split; try reflexivity; try exact Logic.I;
      (split; [reflexivity|exact Logic.I]). }
  destruct Hr as [Er Hr].
  destruct (Simulator_Init_fields _ _ _ E) as (rq & Es).
  set (s1 := set_num_process s (Z.of_nat (length w))).
  assert (I1 : Inv fl s1) by (apply Inv_same with s; auto).
  destruct (@generate_from_spec2 fl w 0%nat s1 I1)
    as (s' & E' & I' & Pj & Cj & Hj & Hr' & Mw & _);
    try (subst s; reflexivity); auto.
  rewrite E'. exists s'. split; [reflexivity|].
  destruct (generate_from_only _ _ _ E') as (m' & jq & ->).
  cbn [Nat.add] in Pj. fields.
  assert (Lv : live (set_generated (set_mem s1 m') jq) = elements (top jq)).
  { apply live_jobs_only; fields; subst s; auto. }
  split; [|split; [exact Pj|split; [subst s; reflexivity|exact Mw]]].
  constructor; fields; auto; try (subst s; reflexivity).
  - rewrite Lv. exact Pj.
  - subst s. intros p [].
Qed.

Lemma ticks_inv2 (fl : Z) (N : nat) :
  valid_policy fl = true ->
  forall (n : nat) (s s' : Simulator_t) (tq tq' : Z),
    Inv2 fl N s -> ticks fl n s tq = Some (s', tq') -> Inv2 fl N s'.
Proof.
  intros V. induction n as [|n IH]; intros s s' tq tq' I E.
  - injection E as <- <-. exact I.
  - cbn [ticks] in E. pose proof (tick_spec2 tq V I) as T.
    destruct (tick fl s tq) as [[[ret s6] tq6]|]; [|contradiction].
    cbn [bind] in E.
    destruct (Z.eqb_spec ret 0) as [R|R]; cbn [negb] in E; [|discriminate].
    destruct T as [T _]. destruct (T R) as [I6 _].
    apply (IH _ _ _ _ I6 E).
Qed.

Lemma in_jobs_lt (fl : Z) (N : nat) (s : Simulator_t) (p : ProcessPtr_t) :
  Inv2 fl N s -> In p (elements (top (generated_processes s))) -> (p < N)%nat.
Proof.
  intros I H.
  assert (L : In p (live s)) by (unfold live; apply in_or_app; auto).
  apply (Permutation_in _ (i2_live I)) in L. apply in_seq in L. lia.
Qed.

Lemma root_of_in (t : TreeNodePtr_t) (p : ProcessPtr_t) :
  In p (elements t) -> exists x, root_of t = Some x /\ In x (elements t).
Proof.
  destruct t as [|l x r]; [intros []|]. intros _. exists x.
  split; [reflexivity|]. simpl. apply in_or_app. right. left. reflexivity.
Qed.

Lemma ArrivalTime_Compare_false (m : Mem) (a b : ProcessPtr_t) :
  Simulator_ArrivalTime_Compare m a b = false ->
  arrival_time (m b) <= arrival_time (m a).
Proof.
  unfold Simulator_ArrivalTime_Compare.
  destruct (Z.eqb_spec (arrival_time (m a)) (arrival_time (m b))) as [E|E];
    cbn [negb]; [lia|].
  intros H. apply Z.ltb_ge in H. exact H.
Qed.

(** One tick that does not end the simulation keeps [not_arrived]. *)
Lemma tick_admission (fl : Z) (N : nat) (s s' : Simulator_t)
  (tq tq' : Z) :
  valid_policy fl = true -> Inv2 fl N s -> not_arrived N s ->
  0 <= elapsed_time s -> elapsed_time s + 1 < UINT_MOD ->
  tick fl s tq = Some (0, s', tq') ->
  Inv2 fl N (next_tick s') /\ not_arrived N (next_tick s') /\
  elapsed_time (next_tick s') = elapsed_time s + 1 /\
  static_frame (mem s) (mem (next_tick s')).
Proof.
  intros V I A E0 E1 T.
  pose proof (tick_spec2 tq V I) as S. rewrite T in S.
  destruct S as [S _]. destruct (S eq_refl) as (I' & Inc & Stay & Root).
  pose proof T as T'. apply tick_executes in T'.
  destruct T' as (se & [Q F] & X & _).
  assert (El : elapsed_time s' = elapsed_time s).
  { rewrite (ex_elapsed X). apply (qt_elapsed Q). }
  assert (Fs : static_frame (mem s) (mem s')).
  { eapply static_frame_trans; [exact F|apply (ex_static X)]. }
  assert (Ar : forall p, arrival_time (mem s' p) = arrival_time (mem s p)).
  { intros p. apply (Fs p). }
  split; [exact I'|]. split; [|split; [|exact Fs]].
  2:{ unfold next_tick. fields. rewrite El. unfold uincr.
      apply Z.mod_small. lia. }
  intros p Hp. unfold next_tick. fields. rewrite El, Ar.
  replace (uincr (elapsed_time s)) with (elapsed_time s + 1)
    by (unfold uincr; symmetry; apply Z.mod_small; lia).
  split.
  - intros Hj. destruct (root_of_in _ _ Hj) as (x & Rx & Ix).
    pose proof (Root x Rx) as Nx.
    pose proof (proj1 (A x (@in_jobs_lt fl N s x I (Inc x Ix))) (Inc x Ix)) as Lx.
    pose proof (@heap_root_lower_bound
                  (Simulator_ArrivalTime_Compare (mem (next_tick s')))
                  (top (generated_processes (next_tick s'))) x
                  (ArrivalTime_Compare_swo _) (i2_jobs_heap I') Rx p Hj) as B.
    apply ArrivalTime_Compare_false in B. unfold next_tick in B.
    fields. rewrite !Ar in B. lia.
  - intros Hl.
    destruct (in_dec Nat.eq_dec p (elements (top (generated_processes s))))
      as [Hi|Hi].
    + destruct (Stay p Hi) as [H|H]; [exact H|lia].
    + exfalso. apply Hi. apply A; [exact Hp|]. lia.
Qed.

Lemma ticks_admission (fl : Z) (N : nat) :
  valid_policy fl = true ->
  forall (n : nat) (s s' : Simulator_t) (tq tq' : Z),
    Inv2 fl N s -> not_arrived N s ->
    0 <= elapsed_time s -> elapsed_time s + Z.of_nat n < UINT_MOD ->
    ticks fl n s tq = Some (s', tq') ->
    not_arrived N s' /\ elapsed_time s' = elapsed_time s + Z.of_nat n /\
    static_frame (mem s) (mem s').
Proof.
  intros V. induction n as [|n IH]; intros s s' tq tq' I A E0 E1 E.
  - injection E as <- <-. split; [exact A|]. split; [simpl; lia|].
    apply static_frame_refl.
  - cbn [ticks] in E.
    destruct (tick fl s tq) as [[[ret s6] tq6]|] eqn:T; cbn [bind] in E;
      [|discriminate].
    destruct (Z.eqb_spec ret 0) as [R|R]; cbn [negb] in E; [|discriminate].
    subst ret.
    destruct (@tick_admission fl N s s6 tq tq6 V I A E0) as (I6 & A6 & L6 & F6);
      [lia|exact T|].
    destruct (IH _ _ _ _ I6 A6 ltac:(lia) ltac:(lia) E) as (A' & L' & F').
    split; [exact A'|]. split; [lia|].
    eapply static_frame_trans; eauto.
Qed.

Lemma loaded_not_arrived (m : Mem) (src : nat -> Z) (fl : Z)
  (w : list Workload_t) (s0 : Simulator_t) :
  valid_policy fl = true ->
  Z.of_nat (length w) < 2 ^ 30 ->
  Forall (fun d => 0 <= w_io_burst_time d < UINT_MOD) w ->
  Forall (fun d => 0 <= w_arrival_time d) w ->
  loaded m src fl w = Some s0 ->
  Inv2 fl (length w) s0 /\ not_arrived (length w) s0 /\
  elapsed_time s0 = 0 /\
  forall k d, nth_error w k = Some d ->
    arrival_time (mem s0 k) = w_arrival_time d.
Proof.
  intros V L F Fa E.
  destruct (@loaded_spec2 m src fl w V L F) as (s & E' & I & Pj & E0 & Mw).
  assert (s = s0) by congruence. subst s.
  split; [exact I|]. split; [|split; [exact E0|]].
  - intros p Hp. rewrite E0.
    destruct (nth_error w p) as [d|] eqn:Ed.
    2:{ apply nth_error_None in Ed. lia. }
    rewrite (Mw p d Ed). cbn [arrival_time]. rewrite Forall_forall in Fa.
    pose proof (Fa d (nth_error_In _ _ Ed)) as Hd. split; [intros _; exact Hd|].
    intros _. apply (Permutation_in p (Permutation_sym Pj)).
    apply in_seq. lia.
  - intros k d Ed. rewrite (Mw k d Ed). reflexivity.
Qed.

Lemma ready_compare_false (fl : Z) (m : Mem) (a b : ProcessPtr_t) :
  ready_compare fl m a b = false ->
  ready_key fl (m b) <= ready_key fl (m a).
Proof.
  unfold ready_compare, ready_key, SJF_Compare, Priority_Compare.
  destruct (_ || _).
  - destruct (Z.eqb_spec (cpu_burst_time (m a)) (cpu_burst_time (m b)));
      cbn [negb]; [lia|].
    intros H. apply Z.ltb_ge in H. exact H.
  - destruct (Z.eqb_spec (priority (m a)) (priority (m b)));
      cbn [negb]; [lia|].
    intros H. apply Z.ltb_ge in H. exact H.
Qed.

(** X18.  No process is lost or duplicated: at the start of every tick
    of every policy, the job queue, the ready queue, the CPU, the waiting
    queue and the terminated queue together hold each of the processes
    [Simulator_GenerateProcess] made exactly once, and a process of the
    terminated queue has no CPU work left. *)
Theorem processes_conserved
  (m : Mem) (src : nat -> Z) (fl : Z) (w : list Workload_t)
  (n : nat) (s0 s : Simulator_t) (tq : Z) :
  valid_policy fl = true ->
  Z.of_nat (length w) < 2 ^ 30 ->
  Forall (fun d => 0 <= w_io_burst_time d < UINT_MOD) w ->
  loaded m src fl w = Some s0 ->
  ticks fl n s0 0 = Some (s, tq) ->
  Permutation (live s) (seq 0 (length w)) /\
  forall p, In p (elements (top (terminated_processes s))) ->
            cpu_burst_time (mem s p) = 0.
Proof.
  intros V L F E T.
  destruct (@loaded_spec2 m src fl w V L F) as (s1 & E1 & I & _).
  assert (s1 = s0) by congruence. subst s1.
  pose proof (@ticks_inv2 fl (length w) V n s0 s 0 tq I T) as J.
  split; [apply (i2_live J)|apply (i2_done J)].
Qed.

Lemma processes_conserved_witness :
  exists s0 s tq,
    loaded blank_mem zero_src NON_PREEMPTIVE_SJF io_workload = Some s0 /\
    ticks NON_PREEMPTIVE_SJF 12 s0 0 = Some (s, tq) /\
    Permutation (live s) (seq 0 (length io_workload)) /\
    forall p, In p (elements (top (terminated_processes s))) ->
              cpu_burst_time (mem s p) = 0.
Proof.
  eexists. eexists. eexists.
  split; [vm_compute; reflexivity|]. split; [vm_compute; reflexivity|].
  eapply (@processes_conserved blank_mem zero_src NON_PREEMPTIVE_SJF
            io_workload 12).
  - reflexivity.
  - vm_compute. reflexivity.
  - repeat constructor; vm_compute; congruence.
  - vm_compute. reflexivity.
  - vm_compute. reflexivity.
Defined.

(** X19.  A process leaves the job queue in the tick whose number is its
    [arrival_time], not before and not after: at the start of tick [n]
    (fewer than 2^32 ticks) the job queue holds exactly the processes
    whose [arrival_time] is at least [n]. *)
Theorem job_leaves_at_arrival_time
  (m : Mem) (src : nat -> Z) (fl : Z) (w : list Workload_t)
  (n : nat) (s0 s : Simulator_t) (tq : Z) :
  valid_policy fl = true ->
  Z.of_nat (length w) < 2 ^ 30 ->
  Forall (fun d => 0 <= w_io_burst_time d < UINT_MOD) w ->
  Forall (fun d => 0 <= w_arrival_time d) w ->
  Z.of_nat n < UINT_MOD ->
  loaded m src fl w = Some s0 ->
  ticks fl n s0 0 = Some (s, tq) ->
  forall k d, nth_error w k = Some d ->
    (In k (elements (top (generated_processes s))) <->
     Z.of_nat n <= w_arrival_time d).
Proof.
  intros V L F Fa Hn E T k d Ed.
  destruct (@loaded_not_arrived m src fl w s0 V L F Fa E) as (I & A & E0 & Ar).
  destruct (@ticks_admission fl (length w) V n s0 s 0 tq I A)
    as (A' & L' & F'); [lia|lia|exact T|].
  assert (Hk : (k < length w)%nat).
  { apply nth_error_Some. congruence. }
  rewrite (A' k Hk), L', E0.
  destruct (F' k) as (_ & -> & _). rewrite (Ar k d Ed). lia.
Qed.

Lemma job_leaves_at_arrival_time_witness :
  exists s0 s tq,
    loaded blank_mem zero_src FCFS io_workload = Some s0 /\
    ticks FCFS 1 s0 0 = Some (s, tq) /\
    forall k d, nth_error io_workload k = Some d ->
      (In k (elements (top (generated_processes s))) <->
       Z.of_nat 1 <= w_arrival_time d).
Proof.
  eexists. eexists. eexists.
  split; [vm_compute; reflexivity|]. split; [vm_compute; reflexivity|].
  eapply (@job_leaves_at_arrival_time blank_mem zero_src FCFS io_workload 1).
  - reflexivity.
  - vm_compute. reflexivity.
  - repeat constructor; vm_compute; congruence.
  - repeat constructor; vm_compute; congruence.
  - vm_compute. reflexivity.
  - vm_compute. reflexivity.
  - vm_compute. reflexivity.
Defined.

Lemma simulate_finished
  (m : Mem) (src : nat -> Z) (fl : Z) (w : list Workload_t)
  (fuel : nat) (s' : Simulator_t) :
  Z.of_nat (length w) < 2 ^ 30 ->
  Forall (fun d => 0 <= w_io_burst_time d < UINT_MOD) w ->
  simulate m src fl w fuel = Some s' ->
  finished (length w) s'.
Proof.
  intros L F Sm.
  assert (V : valid_policy fl = true).
  { destruct (valid_policy fl) eqn:V; [reflexivity|].
    unfold simulate in Sm. rewrite (Simulator_Init_valid m src fl V) in Sm.
    discriminate. }
  destruct (simulate_run _ _ _ _ _ Sm) as (s0 & E & R).
  destruct (run_ticks _ _ _ _ R) as (n & sn & tqn & ret & tq' & _ & T & Tk & Hr).
  destruct (@loaded_spec2 m src fl w V L F) as (s1 & E1 & I & _).
  assert (s1 = s0) by congruence. subst s1.
  pose proof (@ticks_inv2 fl (length w) V n s0 sn 0 tqn I T) as J.
  pose proof (tick_spec2 tqn V J) as S. rewrite Tk in S.
  apply S. exact Hr.
Qed.

Lemma ready_compare_false_tie (fl : Z) (m : Mem) (a b : ProcessPtr_t) :
  ready_compare fl m a b = false ->
  ready_key fl (m b) = ready_key fl (m a) -> pid (m b) <= pid (m a).
Proof.
  unfold ready_compare, ready_key, SJF_Compare, Priority_Compare.
  destruct (_ || _).
  - destruct (Z.eqb_spec (cpu_burst_time (m a)) (cpu_burst_time (m b)));
      cbn [negb]; [|intros _ H; congruence].
    intros H _. apply Z.ltb_ge in H. exact H.
  - destruct (Z.eqb_spec (priority (m a)) (priority (m b)));
      cbn [negb]; [|intros _ H; congruence].
    intros H _. apply Z.ltb_ge in H. exact H.
Qed.

Lemma preemptive_not_fifo (fl : Z) :
  preemptive_policy fl = true -> fifo_policy fl = false.
Proof.
  unfold preemptive_policy, fifo_policy, PREEMPTIVE_SJF, PREEMPTIVE_PRIORITY,
    FCFS, ROUND_ROBIN.
  intros H. apply orb_prop in H. apply orb_false_intro; apply Z.eqb_neq;
    destruct H as [H|H]; apply Z.eqb_eq in H; lia.
Qed.

(** X21.  Dispatch under the SJF and priority policies: in every tick in
    which the CPU is free after admission, [Simulator_LoadProcess_Priority]
    takes from the ready queue a process whose key ([cpu_burst_time] for
    SJF, [priority] for the priority policies) is the least among the
    ready processes, and among those of least key the one of least
    [pid]. *)
Theorem dispatch_takes_least_key
  (m : Mem) (src : nat -> Z) (fl : Z) (w : list Workload_t)
  (n : nat) (s0 s s1 s2 : Simulator_t) (tq : Z) (c : ProcessPtr_t) :
  valid_policy fl = true -> fifo_policy fl = false ->
  Z.of_nat (length w) < 2 ^ 30 ->
  Forall (fun d => 0 <= w_io_burst_time d < UINT_MOD) w ->
  loaded m src fl w = Some s0 ->
  ticks fl n s0 0 = Some (s, tq) ->
  Simulator_LoadReadyQueue_Priority s = Some s1 ->
  cur_cpu_burst s1 = None ->
  Simulator_LoadProcess_Priority s1 = Some s2 ->
  cur_cpu_burst s2 = Some c ->
  In c (ready_elements (ready_queue s1)) /\
  forall e, In e (ready_elements (ready_queue s1)) ->
    ready_key fl (mem s1 c) <= ready_key fl (mem s1 e) /\
    (ready_key fl (mem s1 c) = ready_key fl (mem s1 e) ->
     pid (mem s1 c) <= pid (mem s1 e)).
Proof.
  intros V Hf L F E T E1 C1 E2 C2.
  destruct (@loaded_spec2 m src fl w V L F) as (s' & E' & I & _).
  assert (s' = s0) by congruence. subst s'.
  pose proof (@ticks_inv2 fl (length w) V n s0 s 0 tq I T) as J.
  destruct (@load_ready_queue_spec2 fl (length w) _
              (ready_Priority_Enqueue_ok fl Hf)
              (ready_Priority_Enqueue_heap fl) s J) as (x1 & X1 & J1 & _).
  unfold Simulator_LoadReadyQueue_Priority in E1.
  assert (x1 = s1) by congruence. subst x1.
  destruct (Simulator_LoadProcess_Priority_spec2 Hf J1)
    as (x2 & X2 & _ & _ & _ & _ & _ & _ & Min).
  assert (x2 = s2) by congruence. subst x2.
  destruct (Min C1 c C2) as [Ic Hm]. split; [exact Ic|].
  intros e He. specialize (Hm e He). split.
  - apply ready_compare_false with (1 := Hm).
  - apply ready_compare_false_tie with (1 := Hm).
Qed.

Lemma dispatch_takes_least_key_witness :
  exists s0 s tq s1 s2 c,
    loaded blank_mem zero_src NON_PREEMPTIVE_SJF io_workload = Some s0 /\
    ticks NON_PREEMPTIVE_SJF 4 s0 0 = Some (s, tq) /\
    Simulator_LoadReadyQueue_Priority s = Some s1 /\
    cur_cpu_burst s1 = None /\
    Simulator_LoadProcess_Priority s1 = Some s2 /\
    cur_cpu_burst s2 = Some c /\
    In c (ready_elements (ready_queue s1)) /\
    forall e, In e (ready_elements (ready_queue s1)) ->
      ready_key NON_PREEMPTIVE_SJF (mem s1 c)
      <= ready_key NON_PREEMPTIVE_SJF (mem s1 e) /\
      (ready_key NON_PREEMPTIVE_SJF (mem s1 c)
       = ready_key NON_PREEMPTIVE_SJF (mem s1 e) ->
       pid (mem s1 c) <= pid (mem s1 e)).
Proof.
  do 6 eexists.
  split; [vm_compute; reflexivity|]. split; [vm_compute; reflexivity|].
  split; [vm_compute; reflexivity|]. split; [vm_compute; reflexivity|].
  split; [vm_compute; reflexivity|]. split; [vm_compute; reflexivity|].
  eapply (@dispatch_takes_least_key blank_mem zero_src NON_PREEMPTIVE_SJF
            io_workload 4).
  - reflexivity.
  - reflexivity.
  - vm_compute. reflexivity.
  - repeat constructor; vm_compute; congruence.
  - vm_compute. reflexivity.
  - vm_compute. reflexivity.
  - vm_compute. reflexivity.
  - vm_compute. reflexivity.
  - vm_compute. reflexivity.
  - vm_compute. reflexivity.
Defined.

(** X22.  Preemption: in every tick of a preemptive policy, once
    [Simulator_CPU_Burst_Preemptive] has made its preemption decision,
    the process on the CPU has a key not greater than that of any ready
    process (and, at equal key, a [pid] not greater): the process that
    executes is the most urgent of the ready and running ones. *)
Theorem executing_process_is_most_urgent
  (m : Mem) (src : nat -> Z) (fl : Z) (w : list Workload_t)
  (n : nat) (s0 s s3 s5 s6 : Simulator_t) (tq : Z) (c : ProcessPtr_t) :
  preemptive_policy fl = true ->
  Z.of_nat (length w) < 2 ^ 30 ->
  Forall (fun d => 0 <= w_io_burst_time d < UINT_MOD) w ->
  loaded m src fl w = Some s0 ->
  ticks fl n s0 0 = Some (s, tq) ->
  tick_before_io fl s = Some s3 ->
  Simulator_Process_IO_Priority (waiting_Process_IO s3) = Some s5 ->
  preempt_decision s5 = Some s6 ->
  cur_cpu_burst s6 = Some c ->
  forall e, In e (ready_elements (ready_queue s6)) ->
    ready_key fl (mem s6 c) <= ready_key fl (mem s6 e) /\
    (ready_key fl (mem s6 c) = ready_key fl (mem s6 e) ->
     pid (mem s6 c) <= pid (mem s6 e)).
Proof.
  intros P L F E T E3 E5 E6 C6.
  pose proof (preemptive_not_fifo fl P) as Hf.
  assert (V : valid_policy fl = true).
  { unfold preemptive_policy, PREEMPTIVE_SJF, PREEMPTIVE_PRIORITY in P.
    unfold valid_policy. apply orb_prop in P.
    destruct P as [H|H]; apply Z.eqb_eq in H; subst fl; reflexivity. }
  destruct (@loaded_spec2 m src fl w V L F) as (s' & E' & I & _).
  assert (s' = s0) by congruence. subst s'.
  pose proof (@ticks_inv2 fl (length w) V n s0 s 0 tq I T) as J.
  destruct (tick_before_io_spec2 J) as (x3 & X3 & J3 & P3 & _).
  assert (x3 = s3) by congruence. subst x3.
  pose proof (waiting_Process_IO_spec2 J3 P3) as J4.
  destruct (@process_io_interrupt_spec2 fl (length w) _
              (ready_Priority_Enqueue_ok fl Hf)
              (ready_Priority_Enqueue_heap fl) ready_Priority_Enqueue_only
              (waiting_Process_IO s3) J4) as (x5 & X5 & J5 & _).
  unfold Simulator_Process_IO_Priority in E5.
  assert (x5 = s5) by congruence. subst x5.
  destruct (preempt_decision_spec2 Hf J5) as (x6 & X6 & _ & _ & _ & Min).
  assert (x6 = s6) by congruence. subst x6.
  intros e He. pose proof (Min c C6 e He) as Hm. split.
  - apply ready_compare_false with (1 := Hm).
  - apply ready_compare_false_tie with (1 := Hm).
Qed.

Lemma executing_process_is_most_urgent_witness :
  exists s0 s tq s3 s5 s6 c,
    loaded blank_mem zero_src PREEMPTIVE_SJF preempt_workload = Some s0 /\
    ticks PREEMPTIVE_SJF 1 s0 0 = Some (s, tq) /\
    tick_before_io PREEMPTIVE_SJF s = Some s3 /\
    Simulator_Process_IO_Priority (waiting_Process_IO s3) = Some s5 /\
    preempt_decision s5 = Some s6 /\
    cur_cpu_burst s6 = Some c /\
    forall e, In e (ready_elements (ready_queue s6)) ->
      ready_key PREEMPTIVE_SJF (mem s6 c)
      <= ready_key PREEMPTIVE_SJF (mem s6 e) /\
      (ready_key PREEMPTIVE_SJF (mem s6 c)
       = ready_key PREEMPTIVE_SJF (mem s6 e) ->
       pid (mem s6 c) <= pid (mem s6 e)).
Proof.
  do 7 eexists.
  split; [vm_compute; reflexivity|]. split; [vm_compute; reflexivity|].
  split; [vm_compute; reflexivity|]. split; [vm_compute; reflexivity|].
  split; [vm_compute; reflexivity|]. split; [vm_compute; reflexivity|].
  eapply (@executing_process_is_most_urgent blank_mem zero_src PREEMPTIVE_SJF
            preempt_workload 1).
  - reflexivity.
  - vm_compute. reflexivity.
  - repeat constructor; vm_compute; congruence.
  - vm_compute. reflexivity.
  - vm_compute. reflexivity.
  - vm_compute. reflexivity.
  - vm_compute. reflexivity.
  - vm_compute. reflexivity.
  - vm_compute. reflexivity.
Defined.

(** ** CPU time along a run *)

Lemma charged_running (s s' : Simulator_t) (c : ProcessPtr_t) :
  cur_cpu_burst s = Some c ->
  mem s' = burst_process (mem s) c ->
  terminated_processes s' = terminated_processes s ->
  negb (cpu_burst_time (burst_process (mem s) c c) =? 0) = true ->
  charged s s' 0.
Proof.
  intros Ec M T Z0. unfold charged. rewrite Ec. split; [exact M|].
  intros _. rewrite T, M. split; [apply incl_refl|].
  intros H. rewrite H in Z0. discriminate.
Qed.

Lemma charged_ended (s s' : Simulator_t) (c : ProcessPtr_t) :
  cur_cpu_burst s = Some c ->
  mem s' = burst_process (mem s) c ->
  charged s s' 1.
Proof.
  intros Ec M. unfold charged. rewrite Ec. split; [exact M|].
  intros H. discriminate.
Qed.

Lemma charged_terminated (s s' : Simulator_t) (c : ProcessPtr_t) :
  cur_cpu_burst s = Some c ->
  mem s' = burst_process (mem s) c ->
  Permutation (elements (top (terminated_processes s')))
              (c :: elements (top (terminated_processes s))) ->
  charged s s' 0.
Proof.
  intros Ec M P. unfold charged. rewrite Ec. split; [exact M|].
  intros _. split.
  - intros p Hp. apply (Permutation_in _ (Permutation_sym P)). right. exact Hp.
  - intros _. apply (Permutation_in _ (Permutation_sym P)). left. reflexivity.
Qed.

Lemma terminated_enqueue_perm (fl : Z) (s : Simulator_t) (c : ProcessPtr_t)
  (m : Mem) (tq : Priority_Queue_t) :
  Inv fl s -> cur_cpu_burst s = Some c ->
  Priority_Enqueue m (terminated_processes s) c = Some tq ->
  Permutation (elements (top tq))
              (c :: elements (top (terminated_processes s))).
Proof.
  intros I Ec E. pose proof (inv_size I) as Sz.
  rewrite length_live, Ec in Sz. cbn [cur_elements length] in Sz.
  pose proof (inv_terminated I) as (_ & _ & Lw).
  destruct (@Priority_Enqueue_spec m (terminated_processes s) c
              (inv_terminated I))
    as (tq' & E' & _ & _ & _ & Pw & _); [lia|].
  assert (tq' = tq) by congruence. subst tq'. exact Pw.
Qed.

Lemma Simulator_CPU_Burst_charged (fl : Z) (s s' : Simulator_t) (ret : Z) :
  Inv fl s -> Simulator_CPU_Burst s = Some (ret, s') -> charged s s' ret.
Proof.
  unfold Simulator_CPU_Burst. intros I E.
  destruct (cur_cpu_burst s) as [c|] eqn:Ec.
  2:{ injection E as <- <-. unfold charged. rewrite Ec. split; reflexivity. }
  cbv zeta in E.
  change (mem (set_mem s (burst_process (mem s) c)) c)
    with (burst_process (mem s) c c) in E.
  change (mem (print (set_mem s (burst_process (mem s) c))
                 (Out_Gantt (pid (burst_process (mem s) c c)))) c)
    with (burst_process (mem s) c c) in E.
  destruct (negb (cpu_burst_time _ =? 0)) eqn:Ez.
  - destruct (negb (io_burst_time _ =? 0)).
    + destruct (io_request_only
                  (print (set_mem s (burst_process (mem s) c))
                         (Out_Gantt (pid (burst_process (mem s) c c)))) c)
        as (nx & En).
      destruct (io_request _ c) as [fire s3]. cbn [snd] in En. subst s3.
      destruct fire.
      * destruct (Priority_Enqueue _ _ c) as [wq|]; cbn [bind] in E;
          [|discriminate].
        injection E as <- <-. apply charged_running with c; auto.
      * injection E as <- <-. apply charged_running with c; auto.
    + injection E as <- <-. apply charged_running with c; auto.
  - destruct (Priority_Enqueue _ _ c) as [tq|] eqn:Et; cbn [bind] in E;
      [|discriminate].
    cbv zeta in E. destruct (count _ =? num_process _).
    + destruct (Simulator_Eval _) as [s4|] eqn:Ee; cbn [bind] in E;
        [|discriminate].
      injection E as <- <-.
      destruct (Simulator_Eval_only _ Ee) as (tq' & a & b & mx & u & ->).
      apply charged_ended with c; auto.
    + injection E as <- <-. apply charged_terminated with c; auto.
      apply (@terminated_enqueue_perm fl s c _ tq I Ec Et).
Qed.

Lemma Simulator_CPU_Burst_RR_charged (fl : Z) (s s' : Simulator_t)
  (time_quantum time_quantum' ret : Z) :
  Inv fl s ->
  Simulator_CPU_Burst_RR s time_quantum = Some (ret, s', time_quantum') ->
  charged s s' ret.
Proof.
  unfold Simulator_CPU_Burst_RR, TIME_QUANTUM. intros I E.
  destruct (cur_cpu_burst s) as [c|] eqn:Ec.
  2:{ injection E as <- <- <-. unfold charged. rewrite Ec.
      split; reflexivity. }
  cbv zeta in E.
  change (mem (set_mem s (burst_process (mem s) c)) c)
    with (burst_process (mem s) c c) in E.
  change (mem (print (set_mem s (burst_process (mem s) c))
                 (Out_Gantt (pid (burst_process (mem s) c c)))) c)
    with (burst_process (mem s) c c) in E.
  destruct (negb (cpu_burst_time _ =? 0)) eqn:Ez.
  - destruct (negb (io_burst_time _ =? 0)).
    + destruct (io_request_only
                  (print (set_mem s (burst_process (mem s) c))
                         (Out_Gantt (pid (burst_process (mem s) c c)))) c)
        as (nx & En).
      destruct (io_request _ c) as [fire s3]. cbn [snd] in En. subst s3.
      destruct fire.
      * destruct (Priority_Enqueue _ _ c) as [wq|]; cbn [bind] in E;
          [|discriminate].
        change (0 =? 10) with false in E. cbv iota in E.
        injection E as <- <- <-. apply charged_running with c; auto.
      * cbn [bind] in E.
        destruct (Z.eqb_spec (time_quantum + 1) 10) as [Q|Q].
        -- fields. rewrite Ec in E.
           destruct (ready_Queue_Enqueue _ c) as [s5|] eqn:E5;
             cbn [bind] in E; [|discriminate].
           destruct (ready_Queue_Enqueue_only _ _ E5) as (rq & ->).
           injection E as <- <- <-. apply charged_running with c; auto.
        -- injection E as <- <- <-. apply charged_running with c; auto.
    + cbn [bind] in E.
      destruct (Z.eqb_spec (time_quantum + 1) 10) as [Q|Q].
      * fields. rewrite Ec in E.
        destruct (ready_Queue_Enqueue _ c) as [s5|] eqn:E5;
          cbn [bind] in E; [|discriminate].
        destruct (ready_Queue_Enqueue_only _ _ E5) as (rq & ->).
        injection E as <- <- <-. apply charged_running with c; auto.
      * injection E as <- <- <-. apply charged_running with c; auto.
  - destruct (Priority_Enqueue _ _ c) as [tq|] eqn:Et; cbn [bind] in E;
      [|discriminate].
    cbv zeta in E. destruct (count _ =? num_process _).
    + destruct (Simulator_Eval _) as [s4|] eqn:Ee; cbn [bind] in E;
        [|discriminate].
      injection E as <- <- <-.
      destruct (Simulator_Eval_only _ Ee) as (tq' & a & b & mx & u & ->).
      apply charged_ended with c; auto.
    + injection E as <- <- <-. apply charged_terminated with c; auto.
      apply (@terminated_enqueue_perm fl s c _ tq I Ec Et).
Qed.

(** What holds of the memory when Execute starts, for a relation [P]
    between memories that the two aging steps keep. *)
Section MemFrames.

Variable P : Mem -> Mem -> Prop.
Hypothesis P_refl : forall m, P m m.
Hypothesis P_trans : forall m1 m2 m3, P m1 m2 -> P m2 m3 -> P m1 m3.
Hypothesis P_age : forall m p, P m (age_process m p).
Hypothesis P_io : forall m p, P m (io_process_step m p).

Lemma frame_Queue_Waiting (q : Queue_t) (m : Mem) :
  P m (Simulator_Queue_Waiting q m).
Proof.
  unfold Simulator_Queue_Waiting. generalize (items q) as l. intros l.
  revert m. induction l as [|p l IH]; intros m; simpl.
  - apply P_refl.
  - eapply P_trans; [apply P_age|apply IH].
Qed.

Lemma frame_Priority_Waiting (t : TreeNodePtr_t) :
  forall m, P m (Simulator_Priority_Waiting t m).
Proof.
  induction t as [|l IHl p r IHr]; intros m; simpl.
  - apply P_refl.
  - eapply P_trans; [apply IHl|].
    eapply P_trans; [apply P_age|apply IHr].
Qed.

Lemma frame_Process_IO (t : TreeNodePtr_t) :
  forall m, P m (Simulator_Process_IO t m).
Proof.
  induction t as [|l IHl p r IHr]; intros m; simpl.
  - apply P_refl.
  - eapply P_trans; [apply IHl|].
    eapply P_trans; [apply P_io|apply IHr].
Qed.

Lemma tick_before_io_frame (fl : Z) (s s3 : Simulator_t) :
  tick_before_io fl s = Some s3 -> P (mem s) (mem s3).
Proof.
  unfold tick_before_io. intros E. destruct (fifo_policy fl).
  - destruct (Simulator_LoadReadyQueue s) as [s1|] eqn:E1; cbn [bind] in E;
      [|discriminate].
    destruct (Simulator_LoadProcess s1) as [s2|] eqn:E2; cbn [bind] in E;
      [|discriminate].
    destruct (Simulator_LoadReadyQueue_calm _ E1) as (_ & _ & M1).
    destruct (Simulator_LoadProcess_calm _ E2) as (_ & _ & M2).
    unfold ready_Queue_Waiting in E.
    destruct (ready_queue s2) as [q|q]; [|discriminate].
    injection E as <-. fields. rewrite M2, M1.
    apply frame_Queue_Waiting.
  - destruct (Simulator_LoadReadyQueue_Priority s) as [s1|] eqn:E1;
      cbn [bind] in E; [|discriminate].
    destruct (Simulator_LoadProcess_Priority s1) as [s2|] eqn:E2;
      cbn [bind] in E; [|discriminate].
    destruct (Simulator_LoadReadyQueue_Priority_calm _ E1) as (_ & _ & M1).
    destruct (Simulator_LoadProcess_Priority_calm _ E2) as (_ & _ & M2).
    unfold ready_Priority_Waiting in E.
    destruct (ready_queue s2) as [q|q]; [discriminate|].
    injection E as <-. fields. rewrite M2, M1.
    apply frame_Priority_Waiting.
Qed.

(** One tick, seen from the state [se] in which Execute starts. *)
Lemma tick_reaches_execute (fl : Z) (N : nat) (s s' : Simulator_t)
  (tq tq' ret : Z) :
  valid_policy fl = true -> Inv2 fl N s ->
  tick fl s tq = Some (ret, s', tq') ->
  exists se,
    Inv2 fl N se /\ calm s se /\ P (mem s) (mem se) /\
    executes se s' ret /\ charged se s' ret.
Proof.
  intros V I2 E. unfold tick in E.
  destruct (tick_before_io_spec2 I2) as (s3 & E3 & I3 & P3 & _).
  rewrite E3 in E. cbn [bind] in E.
  destruct (tick_before_io_calm _ _ E3) as (C3 & _).
  pose proof (tick_before_io_frame _ _ E3) as F3.
  pose proof (waiting_Process_IO_spec2 I3 P3) as I4.
  destruct (waiting_Process_IO_calm s3) as (C4 & _).
  assert (F4 : P (mem s3) (mem (waiting_Process_IO s3)))
    by apply frame_Process_IO.
  set (s4 := waiting_Process_IO s3) in *. clearbody s4.
  assert (C : calm s s4) by (eapply calm_trans; eauto).
  assert (F : P (mem s) (mem s4)) by (eapply P_trans; eauto).
  clear C3 C4 F3 F4 E3 I3 P3.
  assert (Kq : fifo_policy fl = true ->
               forall s5, Simulator_Process_IO_Queue s4 = Some s5 ->
                          Inv2 fl N s5 /\ calm s s5 /\
                          P (mem s) (mem s5)).
  { intros Hf s5 E5.
    destruct (@process_io_interrupt_spec2 fl N _
                (ready_Queue_Enqueue_ok fl Hf)
                (ready_Queue_Enqueue_heap fl) ready_Queue_Enqueue_only
                s4 I4) as (x5 & X5 & I5 & M5 & _).
    unfold Simulator_Process_IO_Queue in E5.
    assert (x5 = s5) by congruence. subst x5.
    destruct (Simulator_Process_IO_Queue_calm _ E5) as (C5 & _).
    split; [exact I5|]. split; [eapply calm_trans; eauto|].
    rewrite M5. exact F. }
  assert (Kp : fifo_policy fl = false ->
               forall s5, Simulator_Process_IO_Priority s4 = Some s5 ->
                          Inv2 fl N s5 /\ calm s s5 /\
                          P (mem s) (mem s5)).
  { intros Hf s5 E5.
    destruct (@process_io_interrupt_spec2 fl N _
                (ready_Priority_Enqueue_ok fl Hf)
                (ready_Priority_Enqueue_heap fl) ready_Priority_Enqueue_only
                s4 I4) as (x5 & X5 & I5 & M5 & _).
    unfold Simulator_Process_IO_Priority in E5.
    assert (x5 = s5) by congruence. subst x5.
    destruct (Simulator_Process_IO_Priority_calm _ E5) as (C5 & _).
    split; [exact I5|]. split; [eapply calm_trans; eauto|].
    rewrite M5. exact F. }
  assert (Kb : forall s5 r s6,
               Inv2 fl N s5 /\ calm s s5 /\ P (mem s) (mem s5) ->
               Simulator_CPU_Burst s5 = Some (r, s6) ->
               exists se,
                 Inv2 fl N se /\ calm s se /\ P (mem s) (mem se) /\
                 executes se s6 r /\ charged se s6 r).
  { intros s5 r s6 (I5 & C5 & F5) E6. exists s5.
    do 3 (split; [assumption|]). split.
    - apply Simulator_CPU_Burst_executes. exact E6.
    - apply Simulator_CPU_Burst_charged with fl; [apply I5|exact E6]. }
  assert (Kx : fifo_policy fl = false ->
               forall s5 r s6,
               Inv2 fl N s5 /\ calm s s5 /\ P (mem s) (mem s5) ->
               Simulator_CPU_Burst_Preemptive s5 = Some (r, s6) ->
               exists se,
                 Inv2 fl N se /\ calm s se /\ P (mem s) (mem se) /\
                 executes se s6 r /\ charged se s6 r).
  { intros Hf s5 r s6 (I5 & C5 & F5) E6.
    rewrite Simulator_CPU_Burst_Preemptive_decompose in E6.
    destruct (preempt_decision_spec2 Hf I5) as (s0 & E0 & I0 & _ & M0 & _).
    rewrite E0 in E6. cbn [bind] in E6.
    apply Kb with s0; [|exact E6].
    split; [exact I0|]. split.
    - eapply calm_trans; [exact C5|]. apply preempt_decision_calm. exact E0.
    - rewrite M0. exact F5. }
  unfold tick_after_io in E. rewrite V in E. cbn [negb] in E.
  destruct (valid_policy_cases fl V) as [-> | [-> | [-> | [-> | [-> | -> ]]]]];
    cbv beta iota delta [Z.eqb Pos.eqb FCFS NON_PREEMPTIVE_SJF PREEMPTIVE_SJF
      NON_PREEMPTIVE_PRIORITY PREEMPTIVE_PRIORITY ROUND_ROBIN
      preemptive_policy orb] in E.
  - destruct (Simulator_Process_IO_Queue s4) as [s5|] eqn:E5; cbn [bind] in E;
      [|discriminate].
    destruct (Simulator_CPU_Burst s5) as [[r s6]|] eqn:E6; cbn [bind] in E;
      [|discriminate].
    injection E as <- <- <-. apply Kb with s5; [|exact E6].
    apply Kq; reflexivity.
  - destruct (Simulator_Process_IO_Priority s4) as [s5|] eqn:E5;
      cbn [bind] in E; [|discriminate].
    destruct (Simulator_CPU_Burst s5) as [[r s6]|] eqn:E6; cbn [bind] in E;
      [|discriminate].
    injection E as <- <- <-. apply Kb with s5; [|exact E6].
    apply Kp; reflexivity.
  - destruct (Simulator_Process_IO_Priority s4) as [s5|] eqn:E5;
      cbn [bind] in E; [|discriminate].
    destruct (Simulator_CPU_Burst_Preemptive s5) as [[r s6]|] eqn:E6;
      cbn [bind] in E; [|discriminate].
    injection E as <- <- <-. apply Kx with s5; [reflexivity| |exact E6].
    apply Kp; reflexivity.
  - destruct (Simulator_Process_IO_Priority s4) as [s5|] eqn:E5;
      cbn [bind] in E; [|discriminate].
    destruct (Simulator_CPU_Burst s5) as [[r s6]|] eqn:E6; cbn [bind] in E;
      [|discriminate].
    injection E as <- <- <-. apply Kb with s5; [|exact E6].
    apply Kp; reflexivity.
  - destruct (Simulator_Process_IO_Priority s4) as [s5|] eqn:E5;
      cbn [bind] in E; [|discriminate].
    destruct (Simulator_CPU_Burst_Preemptive s5) as [[r s6]|] eqn:E6;
      cbn [bind] in E; [|discriminate].
    injection E as <- <- <-. apply Kx with s5; [reflexivity| |exact E6].
    apply Kp; reflexivity.
  - destruct (Simulator_Process_IO_Queue s4) as [s5|] eqn:E5; cbn [bind] in E;
      [|discriminate].
    destruct (Kq eq_refl s5 eq_refl) as (I5 & C5 & F5).
    exists s5. do 3 (split; [assumption|]). split.
    + apply (Simulator_CPU_Burst_RR_executes _ _ E).
    + apply Simulator_CPU_Burst_RR_charged with (1 := i2_inv I5) (2 := E).
Qed.

End MemFrames.

Lemma tick_charged (fl : Z) (N : nat) (s s' : Simulator_t)
  (tq tq' ret : Z) :
  valid_policy fl = true -> Inv2 fl N s ->
  tick fl s tq = Some (ret, s', tq') ->
  exists se,
    Inv2 fl N se /\ calm s se /\ cpu_frame (mem s) (mem se) /\
    executes se s' ret /\ charged se s' ret.
Proof.
  apply tick_reaches_execute.
  - apply cpu_frame_refl.
  - apply cpu_frame_trans.
  - intros m p. apply cpu_frame_store. reflexivity.
  - intros m p. apply cpu_frame_store. reflexivity.
Qed.

Lemma cpu_blocks_cons (i : Z) (o : Out_t) (out : list Out_t) :
  cpu_blocks i (o :: out) =
  (if is_block_of i o then 1 else 0) + cpu_blocks i out.
Proof.
  unfold cpu_blocks. cbn [filter]. destruct (is_block_of i o).
  - cbn [length]. lia.
  - lia.
Qed.

Lemma cpu_blocks_nonneg (i : Z) (out : list Out_t) : 0 <= cpu_blocks i out.
Proof. unfold cpu_blocks. lia. Qed.

Lemma accounted_calm (N : nat) (cpu0 : ProcessPtr_t -> Z)
  (s se : Simulator_t) :
  accounted N cpu0 s -> calm s se -> cpu_frame (mem s) (mem se) ->
  accounted N cpu0 se.
Proof.
  intros A [Q F] C. constructor; intros p Hp.
  - destruct (F p) as (-> & _). apply (acc_pid A). exact Hp.
  - rewrite (qt_output Q), (C p). apply (acc_sum A). exact Hp.
  - rewrite (C p). apply (acc_left A). exact Hp.
  - rewrite (C p), (qt_terminated Q). apply (acc_zero A). exact Hp.
Qed.

Lemma in_live_lt (fl : Z) (N : nat) (s : Simulator_t) (p : ProcessPtr_t) :
  Inv2 fl N s -> In p (live s) -> (p < N)%nat.
Proof.
  intros I H. apply (Permutation_in _ (i2_live I)) in H.
  apply in_seq in H. lia.
Qed.

Lemma burst_cpu (m : Mem) (c : ProcessPtr_t) :
  cpu_burst_time (burst_process m c c) = udecr (cpu_burst_time (m c)).
Proof. unfold burst_process. rewrite store_same. reflexivity. Qed.

(** Execute keeps the account. *)
Lemma accounted_execute (fl : Z) (N : nat) (cpu0 : ProcessPtr_t -> Z)
  (se s' : Simulator_t) (ret : Z) :
  Inv2 fl N se -> accounted N cpu0 se ->
  (forall p, (p < N)%nat -> cpu0 p < UINT_MOD) ->
  executes se s' ret -> charged se s' ret ->
  (ret = 0 -> accounted N cpu0 s') /\
  (forall p, (p < N)%nat ->
     cpu_blocks (Z.of_nat p + 1) (output s')
     + cpu_burst_time (mem s' p) = cpu0 p).
Proof.
  intros I A B X C. unfold charged in C.
  assert (Pid : forall p, (p < N)%nat -> pid (mem s' p) = Z.of_nat p + 1).
  { intros p Hp. destruct (ex_static X p) as (-> & _).
    apply (acc_pid A). exact Hp. }
  destruct (cur_cpu_burst se) as [c|] eqn:Ec.
  - destruct C as [M T].
    assert (Hc : (c < N)%nat).
    { apply (@in_live_lt fl N se c I). apply in_live_cur. exact Ec. }
    destruct (cur_not_elsewhere (i2_inv I) Ec) as (_ & _ & _ & Nt).
    pose proof (acc_left A Hc) as L0.
    pose proof (acc_sum A Hc) as Sc.
    pose proof (cpu_blocks_nonneg (Z.of_nat c + 1) (output se)) as Bn.
    assert (L1 : 1 <= cpu_burst_time (mem se c) < UINT_MOD).
    { pose proof (B c Hc). split; [|lia].
      destruct (Z.eq_dec (cpu_burst_time (mem se c)) 0) as [Z0|Z0]; [|lia].
      exfalso. apply Nt. apply (acc_zero A Hc Z0). }
    assert (Dc : cpu_burst_time (mem s' c) = cpu_burst_time (mem se c) - 1).
    { rewrite M, burst_cpu. unfold udecr. apply Z.mod_small. lia. }
    assert (Do : forall p, p <> c ->
                 cpu_burst_time (mem s' p) = cpu_burst_time (mem se p)).
    { intros p Hp. rewrite M, burst_process_other; auto. }
    assert (Bl : block_of se = Out_Gantt (Z.of_nat c + 1)).
    { unfold block_of. rewrite Ec, (acc_pid A Hc). reflexivity. }
    assert (Sum : forall p, (p < N)%nat ->
              cpu_blocks (Z.of_nat p + 1) (block_of se :: output se)
              + cpu_burst_time (mem s' p) = cpu0 p).
    { intros p Hp. rewrite cpu_blocks_cons, Bl. cbn [is_block_of].
      destruct (Nat.eq_dec p c) as [->|Ne].
      - rewrite Z.eqb_refl, Dc. lia.
      - destruct (Z.eqb_spec (Z.of_nat c + 1) (Z.of_nat p + 1)) as [Q|Q];
          [lia|].
        rewrite (Do p Ne). pose proof (acc_sum A Hp). lia. }
    split.
    + intros R. destruct (T R) as [Ti Tc]. constructor; intros p Hp.
      * apply Pid. exact Hp.
      * rewrite (ex_running X R). apply Sum; auto.
      * destruct (Nat.eq_dec p c) as [->|Ne]; [lia|].
        rewrite (Do p Ne). apply (acc_left A). exact Hp.
      * intros Z0. destruct (Nat.eq_dec p c) as [->|Ne]; [auto|].
        apply Ti. apply (acc_zero A Hp). rewrite <- (Do p Ne). exact Z0.
    + intros p Hp. destruct (Z.eq_dec ret 0) as [R|R].
      * rewrite (ex_running X R). apply Sum; auto.
      * destruct (ex_ended X R) as (u & wt & tt & ->).
        rewrite cpu_blocks_cons. cbn [is_block_of].
        rewrite Z.add_0_l. apply Sum; auto.
  - destruct C as [M T].
    assert (Bl : block_of se = Out_Idle) by (unfold block_of; rewrite Ec; auto).
    assert (R : ret = 0).
    { destruct (ex_ret X) as [R|[_ R]]; [exact R|].
      rewrite Bl in R. discriminate. }
    assert (Sum : forall p, (p < N)%nat ->
              cpu_blocks (Z.of_nat p + 1) (output s')
              + cpu_burst_time (mem s' p) = cpu0 p).
    { intros p Hp. rewrite (ex_running X R), Bl, cpu_blocks_cons, M.
      cbn [is_block_of]. rewrite Z.add_0_l. apply (acc_sum A). exact Hp. }
    split; [|exact Sum].
    intros _. constructor; intros p Hp.
    + apply Pid. exact Hp.
    + apply Sum. exact Hp.
    + rewrite M. apply (acc_left A). exact Hp.
    + rewrite M, T. apply (acc_zero A). exact Hp.
Qed.

Lemma ticks_accounted (fl : Z) (N : nat) (cpu0 : ProcessPtr_t -> Z) :
  valid_policy fl = true ->
  (forall p, (p < N)%nat -> cpu0 p < UINT_MOD) ->
  forall (n : nat) (s s' : Simulator_t) (tq tq' : Z),
    Inv2 fl N s -> accounted N cpu0 s ->
    ticks fl n s tq = Some (s', tq') ->
    Inv2 fl N s' /\ accounted N cpu0 s'.
Proof.
  intros V B. induction n as [|n IH]; intros s s' tq tq' I A E.
  - injection E as <- <-. auto.
  - cbn [ticks] in E.
    destruct (tick fl s tq) as [[[ret s6] tq6]|] eqn:T; cbn [bind] in E;
      [|discriminate].
    destruct (Z.eqb_spec ret 0) as [R|R]; cbn [negb] in E; [|discriminate].
    pose proof (tick_spec2 tq V I) as S. rewrite T in S.
    destruct S as [S _]. destruct (S R) as (I6 & _).
    destruct (@tick_charged fl N s s6 tq tq6 ret V I T)
      as (se & Ie & Ce & Fe & X & C).
    pose proof (accounted_calm A Ce Fe) as Ae.
    destruct (@accounted_execute fl N cpu0 se s6 ret Ie Ae B X C) as [A6 _].
    specialize (A6 R).
    assert (A7 : accounted N cpu0 (next_tick s6)).
    { constructor; intros p Hp; unfold next_tick; fields.
      - apply (acc_pid A6). exact Hp.
      - apply (acc_sum A6). exact Hp.
      - apply (acc_left A6). exact Hp.
      - apply (acc_zero A6). exact Hp. }
    exact (IH _ _ _ _ I6 A7 E).
Qed.

Lemma loaded_accounted (m : Mem) (src : nat -> Z) (fl : Z)
  (w : list Workload_t) (s0 : Simulator_t) :
  valid_policy fl = true ->
  Z.of_nat (length w) < 2 ^ 30 ->
  Forall (fun d => 0 <= w_io_burst_time d < UINT_MOD) w ->
  Forall (fun d => 1 <= w_cpu_burst_time d < UINT_MOD) w ->
  loaded m src fl w = Some s0 ->
  Inv2 fl (length w) s0 /\ accounted (length w) (workload_cpu w) s0 /\
  forall p, (p < length w)%nat -> workload_cpu w p < UINT_MOD.
Proof.
  intros V L F Fc E.
  destruct (@loaded_spec2 m src fl w V L F) as (s & E' & I & _ & _ & Mw).
  assert (s = s0) by congruence. subst s.
  destruct (loaded_fields _ _ _ _ E) as (_ & _ & _ & _ & _ & O0 & _).
  assert (D : forall p, (p < length w)%nat ->
            exists d, nth_error w p = Some d /\
                      1 <= w_cpu_burst_time d < UINT_MOD).
  { intros p Hp. destruct (nth_error w p) as [d|] eqn:Ed.
    - exists d. split; [reflexivity|]. rewrite Forall_forall in Fc.
      apply Fc. apply (nth_error_In _ _ Ed).
    - apply nth_error_None in Ed. lia. }
  split; [exact I|]. split.
  - constructor; intros p Hp; destruct (D p Hp) as (d & Ed & Bd);
      rewrite (Mw p d Ed); cbn [pid cpu_burst_time].
    + reflexivity.
    + rewrite O0. unfold workload_cpu. rewrite Ed. reflexivity.
    + lia.
    + intros Z0. lia.
  - intros p Hp. destruct (D p Hp) as (d & Ed & Bd).
    unfold workload_cpu. rewrite Ed. lia.
Qed.

(** X23.  CPU time is accounted for: at the start of every tick, for
    each process, the number of its blocks in the gantt chart plus the
    [cpu_burst_time] it has left is the [cpu_burst_time] it was generated
    with; what is left never wraps below 0, and it is 0 exactly for the
    processes of the terminated queue. *)
Theorem cpu_time_accounted
  (m : Mem) (src : nat -> Z) (fl : Z) (w : list Workload_t)
  (n : nat) (s0 s : Simulator_t) (tq : Z) :
  valid_policy fl = true ->
  Z.of_nat (length w) < 2 ^ 30 ->
  Forall (fun d => 0 <= w_io_burst_time d < UINT_MOD) w ->
  Forall (fun d => 1 <= w_cpu_burst_time d < UINT_MOD) w ->
  loaded m src fl w = Some s0 ->
  ticks fl n s0 0 = Some (s, tq) ->
  forall k d, nth_error w k = Some d ->
    cpu_blocks (Z.of_nat k + 1) (output s) + cpu_burst_time (mem s k)
    = w_cpu_burst_time d /\
    0 <= cpu_burst_time (mem s k) /\
    (cpu_burst_time (mem s k) = 0 <->
     In k (elements (top (terminated_processes s)))).
Proof.
  intros V L F Fc E T k d Ed.
  destruct (@loaded_accounted m src fl w s0 V L F Fc E) as (I & A & B).
  destruct (@ticks_accounted fl (length w) (workload_cpu w) V B n s0 s 0 tq
              I A T) as (J & A').
  assert (Hk : (k < length w)%nat) by (apply nth_error_Some; congruence).
  split; [|split; [|split]].
  - rewrite (acc_sum A' Hk). unfold workload_cpu. rewrite Ed. reflexivity.
  - apply (acc_left A' Hk).
  - apply (acc_zero A' Hk).
  - apply (i2_done J).
Qed.

Lemma cpu_time_accounted_witness :
  exists s0 s tq,
    loaded blank_mem zero_src ROUND_ROBIN io_workload = Some s0 /\
    ticks ROUND_ROBIN 9 s0 0 = Some (s, tq) /\
    forall k d, nth_error io_workload k = Some d ->
      cpu_blocks (Z.of_nat k + 1) (output s) + cpu_burst_time (mem s k)
      = w_cpu_burst_time d /\
      0 <= cpu_burst_time (mem s k) /\
      (cpu_burst_time (mem s k) = 0 <->
       In k (elements (top (terminated_processes s)))).
Proof.
  eexists. eexists. eexists.
  split; [vm_compute; reflexivity|]. split; [vm_compute; reflexivity|].
  eapply (@cpu_time_accounted blank_mem zero_src ROUND_ROBIN io_workload 9).
  - reflexivity.
  - vm_compute. reflexivity.
  - repeat constructor; vm_compute; congruence.
  - repeat constructor; vm_compute; congruence.
  - vm_compute. reflexivity.
  - vm_compute. reflexivity.
Defined.

Lemma simulate_cpu_blocks
  (m : Mem) (src : nat -> Z) (fl : Z) (w : list Workload_t)
  (fuel : nat) (s' : Simulator_t) :
  Z.of_nat (length w) < 2 ^ 30 ->
  Forall (fun d => 0 <= w_io_burst_time d < UINT_MOD) w ->
  Forall (fun d => 1 <= w_cpu_burst_time d < UINT_MOD) w ->
  simulate m src fl w fuel = Some s' ->
  forall k d, nth_error w k = Some d ->
    cpu_blocks (Z.of_nat k + 1) (output s') = w_cpu_burst_time d.
Proof.
  intros L F Fc Sm k d Ed.
  assert (V : valid_policy fl = true).
  { destruct (valid_policy fl) eqn:V; [reflexivity|].
    unfold simulate in Sm. rewrite (Simulator_Init_valid m src fl V) in Sm.
    discriminate. }
  destruct (simulate_run _ _ _ _ _ Sm) as (s0 & E & R).
  destruct (run_ticks _ _ _ _ R) as (n & sn & tqn & ret & tq' & _ & T & Tk & Hr).
  destruct (@loaded_accounted m src fl w s0 V L F Fc E) as (I & A & B).
  destruct (@ticks_accounted fl (length w) (workload_cpu w) V B n s0 sn 0 tqn
              I A T) as (J & A').
  destruct (@tick_charged fl (length w) sn s' tqn tq' ret V J Tk)
    as (se & Ie & Ce & Fe & X & C).
  pose proof (accounted_calm A' Ce Fe) as Ae.
  destruct (@accounted_execute fl (length w) (workload_cpu w) se s' ret
              Ie Ae B X C) as [_ Sum].
  pose proof (tick_spec2 tqn V J) as S. rewrite Tk in S.
  destruct S as [_ S]. specialize (S Hr).
  assert (Hk : (k < length w)%nat) by (apply nth_error_Some; congruence).
  specialize (Sum k Hk). rewrite (fin_done S Hk) in Sum.
  unfold workload_cpu in Sum. rewrite Ed in Sum. lia.
Qed.

(** X24.  Every process gets exactly its CPU burst: in the gantt chart
    of a simulation that has ended, under any policy and any [rand()]
    stream, the number of blocks of process [k + 1] is the
    [cpu_burst_time] it was generated with. *)
Theorem every_process_gets_its_cpu_burst
  (m : Mem) (src : nat -> Z) (fl : Z) (w : list Workload_t)
  (fuel : nat) (s' : Simulator_t) :
  Z.of_nat (length w) < 2 ^ 30 ->
  Forall (fun d => 0 <= w_io_burst_time d < UINT_MOD) w ->
  Forall (fun d => 1 <= w_cpu_burst_time d < UINT_MOD) w ->
  simulate m src fl w fuel = Some s' ->
  forall k d, nth_error w k = Some d ->
    cpu_blocks (Z.of_nat k + 1) (output s') = w_cpu_burst_time d.
Proof. apply simulate_cpu_blocks. Qed.

Lemma every_process_gets_its_cpu_burst_witness :
  exists s',
    simulate blank_mem alternating_src PREEMPTIVE_PRIORITY io_workload 40
    = Some s' /\
    forall k d, nth_error io_workload k = Some d ->
      cpu_blocks (Z.of_nat k + 1) (output s') = w_cpu_burst_time d.
Proof.
  eexists. split; [vm_compute; reflexivity|].
  eapply (@every_process_gets_its_cpu_burst blank_mem alternating_src
            PREEMPTIVE_PRIORITY io_workload 40).
  - vm_compute. reflexivity.
  - repeat constructor; vm_compute; congruence.
  - repeat constructor; vm_compute; congruence.
  - vm_compute. reflexivity.
Defined.

Lemma tick_without_process (fl : Z) (s s' : Simulator_t) (tq tq' ret : Z) :
  valid_policy fl = true -> Inv2 fl 0 s ->
  tick fl s tq = Some (ret, s', tq') ->
  ret = 0 /\ cur_cpu_burst s' = None.
Proof.
  intros V I T.
  destruct (@tick_charged fl 0%nat s s' tq tq' ret V I T)
    as (se & Ie & _ & _ & X & _).
  assert (Ec : cur_cpu_burst se = None).
  { destruct (cur_cpu_burst se) as [c|] eqn:Ec; [|reflexivity].
    pose proof (@in_live_lt fl 0%nat se c Ie (in_live_cur se Ec)). lia. }
  assert (R : ret = 0).
  { destruct (ex_ret X) as [R|[_ R]]; [exact R|].
    unfold block_of in R. rewrite Ec in R. discriminate. }
  split; [exact R|].
  pose proof (tick_spec2 tq V I) as S. rewrite T in S.
  destruct S as [S _]. destruct (S R) as (I' & _).
  destruct (cur_cpu_burst s') as [c|] eqn:Ec'; [|reflexivity].
  assert (Hl : In c (live (next_tick s'))) by (apply in_live_cur; exact Ec').
  pose proof (@in_live_lt fl 0%nat (next_tick s') c I' Hl). lia.
Qed.

Lemma simulate_without_process (m : Mem) (src : nat -> Z) (fl : Z)
  (fuel : nat) :
  simulate m src fl [] fuel = None.
Proof.
  destruct (simulate m src fl [] fuel) as [s'|] eqn:Sm; [|reflexivity].
  exfalso.
  assert (V : valid_policy fl = true).
  { destruct (valid_policy fl) eqn:V; [reflexivity|].
    unfold simulate in Sm. rewrite (Simulator_Init_valid m src fl V) in Sm.
    discriminate. }
  destruct (simulate_run _ _ _ _ _ Sm) as (s0 & E0 & R).
  destruct (@loaded_spec2 m src fl [] V) as (x0 & E & I & _);
    [simpl; lia|constructor|].
  assert (x0 = s0) by congruence. subst x0. cbn [length] in I.
  destruct (run_ticks _ _ _ _ R) as (k & sk & tqk & ret & tq' & _ & T & Tk & Hr).
  pose proof (@ticks_inv2 fl 0%nat V k s0 sk 0 tqk I T) as J.
  destruct (@tick_without_process fl sk s' tqk tq' ret V J Tk) as [R0 _].
  contradiction.
Qed.

(** X25.  With no process the simulation never ends: for every policy
    and every [n], the first [n] ticks all go on (none ends the
    simulation, none fails) with the CPU free, so the loop returns for no
    amount of fuel. *)
Theorem no_process_never_ends
  (m : Mem) (src : nat -> Z) (fl : Z) (n : nat) :
  valid_policy fl = true ->
  (exists s0 s tq,
     loaded m src fl [] = Some s0 /\
     ticks fl n s0 0 = Some (s, tq) /\ cur_cpu_burst s = None) /\
  simulate m src fl [] n = None.
Proof.
  intros V.
  destruct (@loaded_spec2 m src fl [] V) as (s0 & E & I & _);
    [simpl; lia|constructor|].
  cbn [length] in I.
  assert (C0 : cur_cpu_burst s0 = None).
  { destruct (loaded_fields _ _ _ _ E) as (_ & _ & C & _). exact C. }
  assert (K : forall k s tq,
            Inv2 fl 0 s -> cur_cpu_burst s = None ->
            exists s' tq', ticks fl k s tq = Some (s', tq') /\
                           cur_cpu_burst s' = None).
  { induction k as [|k IH]; intros s tq Is Cs.
    - exists s, tq. auto.
    - cbn [ticks]. pose proof (tick_spec2 tq V Is) as S.
      destruct (tick fl s tq) as [[[ret s6] tq6]|] eqn:T; [|contradiction].
      destruct (@tick_without_process fl s s6 tq tq6 ret V Is T) as [-> C6].
      destruct S as [S _]. destruct (S eq_refl) as (I6 & _).
      cbn [bind]. change (negb (0 =? 0)) with false. cbv iota.
      apply IH; [exact I6|exact C6]. }
  split.
  - destruct (K n s0 0 I C0) as (s & tq & T & C).
    exists s0, s, tq. auto.
  - apply simulate_without_process.
Qed.

Lemma no_process_never_ends_witness :
  (exists s0 s tq,
     loaded blank_mem zero_src ROUND_ROBIN [] = Some s0 /\
     ticks ROUND_ROBIN 7 s0 0 = Some (s, tq) /\ cur_cpu_burst s = None) /\
  simulate blank_mem zero_src ROUND_ROBIN [] 7 = None.
Proof.
  apply (@no_process_never_ends blank_mem zero_src ROUND_ROBIN 7).
  reflexivity.
Defined.

(** ** Where the time of a process goes *)

Lemma UINT_MOD_pos : 0 < UINT_MOD.
Proof. reflexivity. Qed.

Lemma mod_eq_shift (a b : Z) :
  (a - b) mod UINT_MOD = 0 -> a mod UINT_MOD = b mod UINT_MOD.
Proof.
  intros H. replace a with (b + (a - b)) by lia.
  rewrite Zplus_mod, H, Z.add_0_r, Z.mod_mod; [reflexivity|].
  pose proof UINT_MOD_pos. lia.
Qed.

Lemma balance_step (t w c i t' w' c' i' : Z) :
  (t' - w' + c' + i' - (t - w + c + i)) mod UINT_MOD = 0 ->
  (t' - w' + c' + i') mod UINT_MOD = (t - w + c + i) mod UINT_MOD.
Proof. apply mod_eq_shift. Qed.

Lemma uincr_minus (x : Z) : (uincr x - x - 1) mod UINT_MOD = 0.
Proof.
  unfold uincr. rewrite Zminus_mod, (Zminus_mod ((x + 1) mod UINT_MOD)).
  rewrite Z.mod_mod by (pose proof UINT_MOD_pos; lia).
  rewrite <- (Zminus_mod (x + 1)), <- Zminus_mod.
  replace (x + 1 - x - 1) with 0 by lia. reflexivity.
Qed.

Lemma udecr_minus (x : Z) : (udecr x - x + 1) mod UINT_MOD = 0.
Proof.
  unfold udecr. rewrite Zplus_mod, Zminus_mod.
  rewrite Z.mod_mod by (pose proof UINT_MOD_pos; lia).
  rewrite <- Zminus_mod, <- Zplus_mod.
  replace (x - 1 - x + 1) with 0 by lia. reflexivity.
Qed.

Lemma mod_zero_sum (a b : Z) :
  a mod UINT_MOD = 0 -> b mod UINT_MOD = 0 -> (a + b) mod UINT_MOD = 0.
Proof. intros A B. rewrite Zplus_mod, A, B. reflexivity. Qed.

Lemma mod_zero_diff (a b : Z) :
  a mod UINT_MOD = 0 -> b mod UINT_MOD = 0 -> (a - b) mod UINT_MOD = 0.
Proof. intros A B. rewrite Zminus_mod, A, B. reflexivity. Qed.

Lemma uincr_range (x : Z) : 0 <= uincr x < UINT_MOD.
Proof. unfold uincr. apply Z.mod_pos_bound. reflexivity. Qed.

Lemma balance_age (p : Process_t) :
  balance (age p) = balance p /\ 0 <= turnaround_time (age p) < UINT_MOD.
Proof.
  split; [|apply uincr_range].
  unfold balance, age. cbn. apply balance_step.
  replace (uincr (turnaround_time p) - uincr (waiting_time p)
           + cpu_burst_time p + io_burst_time p
           - (turnaround_time p - waiting_time p + cpu_burst_time p
              + io_burst_time p))
    with ((uincr (turnaround_time p) - turnaround_time p - 1)
          - (uincr (waiting_time p) - waiting_time p - 1)) by lia.
  apply mod_zero_diff; apply uincr_minus.
Qed.

Lemma balance_io_step (p : Process_t) :
  balance (io_step p) = balance p /\
  0 <= turnaround_time (io_step p) < UINT_MOD.
Proof.
  split; [|apply uincr_range].
  unfold balance, io_step. cbn. apply balance_step.
  replace (uincr (turnaround_time p) - waiting_time p + cpu_burst_time p
           + udecr (io_burst_time p)
           - (turnaround_time p - waiting_time p + cpu_burst_time p
              + io_burst_time p))
    with ((uincr (turnaround_time p) - turnaround_time p - 1)
          + (udecr (io_burst_time p) - io_burst_time p + 1)) by lia.
  apply mod_zero_sum; [apply uincr_minus|apply udecr_minus].
Qed.

Lemma balance_burst (p : Process_t) :
  balance (burst p) = balance p /\
  0 <= turnaround_time (burst p) < UINT_MOD.
Proof.
  split; [|apply uincr_range].
  unfold balance, burst. cbn. apply balance_step.
  replace (uincr (turnaround_time p) - waiting_time p
           + udecr (cpu_burst_time p) + io_burst_time p
           - (turnaround_time p - waiting_time p + cpu_burst_time p
              + io_burst_time p))
    with ((uincr (turnaround_time p) - turnaround_time p - 1)
          + (udecr (cpu_burst_time p) - cpu_burst_time p + 1)) by lia.
  apply mod_zero_sum; [apply uincr_minus|apply udecr_minus].
Qed.

Lemma balance_frame_refl (m : Mem) : balance_frame m m.
Proof. intros p. auto. Qed.

Lemma balance_frame_trans (m1 m2 m3 : Mem) :
  balance_frame m1 m2 -> balance_frame m2 m3 -> balance_frame m1 m3.
Proof.
  intros F G p. destruct (F p) as [A B]. destruct (G p) as [C D].
  split; [congruence|auto].
Qed.

Lemma balance_frame_store (m : Mem) (p : ProcessPtr_t) (v : Process_t) :
  balance v = balance (m p) /\ 0 <= turnaround_time v < UINT_MOD ->
  balance_frame m (store m p v).
Proof.
  intros [A B] q. unfold store.
  destruct (Nat.eqb_spec q p) as [->|]; auto.
Qed.

(** Every tick keeps the balance of every process. *)
Lemma tick_balance (fl : Z) (N : nat) (s s' : Simulator_t)
  (tq tq' ret : Z) :
  valid_policy fl = true -> Inv2 fl N s ->
  tick fl s tq = Some (ret, s', tq') ->
  balance_frame (mem s) (mem s').
Proof.
  intros V I T.
  destruct (@tick_reaches_execute balance_frame balance_frame_refl
              balance_frame_trans
              (fun m p => @balance_frame_store m p (age (m p)) (balance_age (m p)))
              (fun m p => @balance_frame_store m p (io_step (m p))
                            (balance_io_step (m p)))
              fl N s s' tq tq' ret V I T) as (se & _ & _ & F & _ & C).
  eapply balance_frame_trans; [exact F|].
  unfold charged in C. destruct (cur_cpu_burst se) as [c|].
  - destruct C as [-> _]. unfold burst_process.
    apply balance_frame_store. apply balance_burst.
  - destruct C as [-> _]. apply balance_frame_refl.
Qed.

Lemma ticks_balance (fl : Z) (N : nat) :
  valid_policy fl = true ->
  forall (n : nat) (s s' : Simulator_t) (tq tq' : Z),
    Inv2 fl N s -> ticks fl n s tq = Some (s', tq') ->
    balance_frame (mem s) (mem s').
Proof.
  intros V. induction n as [|n IH]; intros s s' tq tq' I E.
  - injection E as <- <-. apply balance_frame_refl.
  - cbn [ticks] in E.
    destruct (tick fl s tq) as [[[ret s6] tq6]|] eqn:T; cbn [bind] in E;
      [|discriminate].
    destruct (Z.eqb_spec ret 0) as [R|R]; cbn [negb] in E; [|discriminate].
    pose proof (tick_spec2 tq V I) as S. rewrite T in S.
    destruct S as [S _]. destruct (S R) as (I6 & _).
    eapply balance_frame_trans;
      [exact (@tick_balance fl N s s6 tq tq6 ret V I T)|].
    exact (IH _ _ _ _ I6 E).
Qed.

Lemma balance_turnaround (p : Process_t) (c0 i0 : Z) :
  balance p = (c0 + i0) mod UINT_MOD ->
  0 <= turnaround_time p < UINT_MOD ->
  turnaround_time p =
  (waiting_time p + (c0 - cpu_burst_time p) + (i0 - io_burst_time p))
  mod UINT_MOD.
Proof.
  unfold balance. intros B R.
  rewrite <- (Z.mod_small (turnaround_time p) UINT_MOD) at 1 by exact R.
  apply mod_eq_shift.
  replace (turnaround_time p
           - (waiting_time p + (c0 - cpu_burst_time p)
              + (i0 - io_burst_time p)))
    with ((turnaround_time p - waiting_time p + cpu_burst_time p
           + io_burst_time p) - (c0 + i0)) by lia.
  rewrite Zminus_mod, B, Z.sub_diag. reflexivity.
Qed.

(** X26.  Where the time of a process goes: under all six policies, at
    the start of every tick, the [turnaround_time] of each process is its
    [waiting_time] plus the CPU time it has used plus the I/O time it has
    used (what [cpu_burst_time] and [io_burst_time] have lost since
    generation), as an [unsigned int]. *)
Theorem turnaround_is_waiting_cpu_io
  (m : Mem) (src : nat -> Z) (fl : Z) (w : list Workload_t)
  (n : nat) (s0 s : Simulator_t) (tq : Z) :
  valid_policy fl = true ->
  Z.of_nat (length w) < 2 ^ 30 ->
  Forall (fun d => 0 <= w_io_burst_time d < UINT_MOD) w ->
  loaded m src fl w = Some s0 ->
  ticks fl n s0 0 = Some (s, tq) ->
  forall k d, nth_error w k = Some d ->
    turnaround_time (mem s k) =
    (waiting_time (mem s k)
     + (w_cpu_burst_time d - cpu_burst_time (mem s k))
     + (w_io_burst_time d - io_burst_time (mem s k))) mod UINT_MOD.
Proof.
  intros V L F E T k d Ed.
  destruct (@loaded_spec2 m src fl w V L F) as (s1 & E1 & I & _ & _ & Mw).
  assert (s1 = s0) by congruence. subst s1.
  destruct (@ticks_balance fl (length w) V n s0 s 0 tq I T k) as [B R].
  rewrite (Mw k d Ed) in B, R. cbn [turnaround_time] in R.
  apply balance_turnaround.
  - rewrite B. unfold balance. cbn. f_equal; lia.
  - apply R. pose proof UINT_MOD_pos. lia.
Qed.

Lemma turnaround_is_waiting_cpu_io_witness :
  exists s0 s tq,
    loaded blank_mem alternating_src PREEMPTIVE_SJF io_workload = Some s0 /\
    ticks PREEMPTIVE_SJF 10 s0 0 = Some (s, tq) /\
    forall k d, nth_error io_workload k = Some d ->
      turnaround_time (mem s k) =
      (waiting_time (mem s k)
       + (w_cpu_burst_time d - cpu_burst_time (mem s k))
       + (w_io_burst_time d - io_burst_time (mem s k))) mod UINT_MOD.
Proof.
  eexists. eexists. eexists.
  split; [vm_compute; reflexivity|]. split; [vm_compute; reflexivity|].
  eapply (@turnaround_is_waiting_cpu_io blank_mem alternating_src
            PREEMPTIVE_SJF io_workload 10).
  - reflexivity.
  - vm_compute. reflexivity.
  - repeat constructor; vm_compute; congruence.
  - vm_compute. reflexivity.
  - vm_compute. reflexivity.
Defined.

(** ** The means of the report *)

Lemma times_frame_refl (m : Mem) : times_frame m m.
Proof. intros p. auto. Qed.

Lemma times_frame_trans (m1 m2 m3 : Mem) :
  times_frame m1 m2 -> times_frame m2 m3 -> times_frame m1 m3.
Proof.
  intros F G p. destruct (F p) as [A B]. destruct (G p) as [C D]. auto.
Qed.

Lemma times_frame_store (m : Mem) (p : ProcessPtr_t) (v : Process_t) :
  (0 <= waiting_time (m p) < UINT_MOD -> 0 <= waiting_time v < UINT_MOD) ->
  0 <= turnaround_time v < UINT_MOD ->
  times_frame m (store m p v).
Proof.
  intros A B q. unfold store.
  destruct (Nat.eqb_spec q p) as [->|]; auto.
Qed.

Lemma times_frame_age (m : Mem) (p : ProcessPtr_t) :
  times_frame m (age_process m p).
Proof.
  apply times_frame_store; unfold age; cbn; intros; apply uincr_range.
Qed.

Lemma times_frame_io (m : Mem) (p : ProcessPtr_t) :
  times_frame m (io_process_step m p).
Proof.
  apply times_frame_store; unfold io_step; cbn; [auto|apply uincr_range].
Qed.

Lemma times_frame_burst (m : Mem) (p : ProcessPtr_t) :
  times_frame m (burst_process m p).
Proof.
  apply times_frame_store; unfold burst; cbn; [auto|apply uincr_range].
Qed.

Lemma tick_times (fl : Z) (N : nat) (s s' : Simulator_t)
  (tq tq' ret : Z) :
  valid_policy fl = true -> Inv2 fl N s ->
  tick fl s tq = Some (ret, s', tq') ->
  times_frame (mem s) (mem s').
Proof.
  intros V I T.
  destruct (@tick_reaches_execute times_frame times_frame_refl
              times_frame_trans times_frame_age times_frame_io
              fl N s s' tq tq' ret V I T) as (se & _ & _ & F & _ & C).
  eapply times_frame_trans; [exact F|].
  unfold charged in C. destruct (cur_cpu_burst se) as [c|].
  - destruct C as [-> _]. apply times_frame_burst.
  - destruct C as [-> _]. apply times_frame_refl.
Qed.

Lemma ticks_times (fl : Z) (N : nat) :
  valid_policy fl = true ->
  forall (n : nat) (s s' : Simulator_t) (tq tq' : Z),
    Inv2 fl N s -> ticks fl n s tq = Some (s', tq') ->
    times_frame (mem s) (mem s').
Proof.
  intros V. induction n as [|n IH]; intros s s' tq tq' I E.
  - injection E as <- <-. apply times_frame_refl.
  - cbn [ticks] in E.
    destruct (tick fl s tq) as [[[ret s6] tq6]|] eqn:T; cbn [bind] in E;
      [|discriminate].
    destruct (Z.eqb_spec ret 0) as [R|R]; cbn [negb] in E; [|discriminate].
    pose proof (tick_spec2 tq V I) as S. rewrite T in S.
    destruct S as [S _]. destruct (S R) as (I6 & _).
    eapply times_frame_trans;
      [exact (@tick_times fl N s s6 tq tq6 ret V I T)|].
    exact (IH _ _ _ _ I6 E).
Qed.

(** When the loop of a policy has returned, the time fields of every
    process are in the range of [unsigned int]. *)
Lemma simulate_times
  (m : Mem) (src : nat -> Z) (fl : Z) (w : list Workload_t)
  (fuel : nat) (s' : Simulator_t) :
  Z.of_nat (length w) < 2 ^ 30 ->
  Forall (fun d => 0 <= w_io_burst_time d < UINT_MOD) w ->
  simulate m src fl w fuel = Some s' ->
  forall p, (p < length w)%nat ->
    0 <= waiting_time (mem s' p) < UINT_MOD /\
    0 <= turnaround_time (mem s' p) < UINT_MOD.
Proof.
  intros L F Sm p Hp.
  assert (V : valid_policy fl = true).
  { destruct (valid_policy fl) eqn:V; [reflexivity|].
    unfold simulate in Sm. rewrite (Simulator_Init_valid m src fl V) in Sm.
    discriminate. }
  destruct (simulate_run _ _ _ _ _ Sm) as (s0 & E & R).
  destruct (run_ticks _ _ _ _ R) as (n & sn & tqn & ret & tq' & _ & T & Tk & Hr).
  destruct (@loaded_spec2 m src fl w V L F) as (s1 & E1 & I & _ & _ & Mw).
  assert (s1 = s0) by congruence. subst s1.
  pose proof (@ticks_inv2 fl (length w) V n s0 sn 0 tqn I T) as J.
  pose proof (@ticks_times fl (length w) V n s0 sn 0 tqn I T) as F1.
  pose proof (@tick_times fl (length w) sn s' tqn tq' ret V J Tk) as F2.
  destruct (times_frame_trans F1 F2 p) as [A B].
  destruct (nth_error w p) as [d|] eqn:Ed.
  2:{ apply nth_error_None in Ed. lia. }
  rewrite (Mw p d Ed) in A, B. cbn [waiting_time turnaround_time] in A, B.
  pose proof UINT_MOD_pos. split; [apply A|apply B]; lia.
Qed.

(** The sum accumulated in a [double] is exact as long as it stays below
    [2^53]. *)
Lemma running_sum_exact (f : Process_t -> Z) (m : Mem) :
  forall (l : list ProcessPtr_t) (a : Z),
    (forall p, In p l -> 0 <= f (m p) < UINT_MOD) ->
    0 <= a -> a + Z.of_nat (length l) * UINT_MOD <= 2 ^ 53 ->
    running_sum f m l (DFin (inject_Z a)) = DFin (inject_Z (a + total f m l)).
Proof.
  induction l as [|x l IH]; intros a R Ha Hb.
  - cbn. rewrite Z.add_0_r. reflexivity.
  - cbn [running_sum fold_left]. cbn [length] in Hb.
    rewrite Nat2Z.inj_succ in Hb.
    destruct (R x (or_introl eq_refl)) as [R0 R1].
    rewrite dadd_int by (unfold UINT_MOD in *; nia).
    fold (running_sum f m l (DFin (inject_Z (a + f (m x))))).
    rewrite IH.
    + cbn [total fold_right]. fold (total f m l). f_equal. f_equal. lia.
    + intros p Hq. apply R. right. exact Hq.
    + lia.
    + lia.
Qed.

Lemma mean_exact (f : Process_t -> Z) (m : Mem) (N : nat)
  (order : list ProcessPtr_t) :
  Permutation order (seq 0 N) ->
  Z.of_nat N <= 2 ^ 21 ->
  (forall p, (p < N)%nat -> 0 <= f (m p) < UINT_MOD) ->
  running_sum f m order (DFin 0) = DFin (inject_Z (total f m (seq 0 N))).
Proof.
  intros P Hn R.
  change (DFin 0) with (DFin (inject_Z 0)).
  rewrite running_sum_exact.
  - rewrite Z.add_0_l, (total_perm f m P). reflexivity.
  - intros p Hp. apply R.
    apply (Permutation_in _ P) in Hp. apply in_seq in Hp. lia.
  - lia.
  - rewrite (Permutation_length P), length_seq.
    unfold UINT_MOD. change (2 ^ 53) with (2 ^ 21 * 2 ^ 32). nia.
Qed.

(** X20.  When the loop of a policy returns, every process has run to
    completion and the report covers all of them: no process is left in
    a queue or on the CPU, each of the [N] processes has
    [cpu_burst_time] 0, [max_waiting_time] is the greatest
    [waiting_time], and each of the two means is the [double] sum of
    [waiting_time], or of [turnaround_time], accumulated over the [N]
    processes in some order, divided by [N] and rounded.  For up to
    [2^21] processes the sums stay below [2^53], and each mean is the
    exact sum over the [N] processes divided by [N] and rounded once. *)
Theorem simulation_ends_with_all_terminated
  (m : Mem) (src : nat -> Z) (fl : Z) (w : list Workload_t)
  (fuel : nat) (s' : Simulator_t) :
  Z.of_nat (length w) < 2 ^ 30 ->
  Forall (fun d => 0 <= w_io_burst_time d < UINT_MOD) w ->
  simulate m src fl w fuel = Some s' ->
  finished (length w) s' /\
  (Z.of_nat (length w) <= 2 ^ 21 ->
   avg_waiting_time s' =
     ddiv (DFin (inject_Z (total waiting_time (mem s') (seq 0 (length w)))))
          (double_of_uint (Z.of_nat (length w))) /\
   avg_turnaround_time s' =
     ddiv (DFin (inject_Z
                   (total turnaround_time (mem s') (seq 0 (length w)))))
          (double_of_uint (Z.of_nat (length w)))).
Proof.
  intros L F Sm. pose proof (simulate_finished _ _ _ _ L F Sm) as Fin.
  split; [exact Fin|]. intros Hn.
  destruct (fin_means Fin) as (order & P & -> & ->).
  pose proof (simulate_times _ _ _ _ L F Sm) as R.
  rewrite !(mean_exact _ _ P Hn).
  - split; reflexivity.
  - intros p Hp. apply (R p Hp).
  - intros p Hp. apply (R p Hp).
Qed.

Lemma simulation_ends_with_all_terminated_witness :
  exists s',
    simulate blank_mem alternating_src ROUND_ROBIN io_workload 40 = Some s' /\
    finished (length io_workload) s' /\
    avg_waiting_time s' =
      ddiv (DFin (inject_Z (total waiting_time (mem s')
                                  (seq 0 (length io_workload)))))
           (double_of_uint (Z.of_nat (length io_workload))) /\
    avg_turnaround_time s' =
      ddiv (DFin (inject_Z (total turnaround_time (mem s')
                                  (seq 0 (length io_workload)))))
           (double_of_uint (Z.of_nat (length io_workload))).
Proof.
  eexists. split; [vm_compute; reflexivity|].
  edestruct (@simulation_ends_with_all_terminated blank_mem alternating_src
               ROUND_ROBIN io_workload 40) as [Fin Means].
  - vm_compute. reflexivity.
  - repeat constructor; vm_compute; congruence.
  - vm_compute. reflexivity.
  - split; [exact Fin|]. apply Means. vm_compute. discriminate.
Defined.

(** ** The random workload *)

Lemma rem_range (r k : Z) : 0 <= r -> 0 < k -> 0 <= Z.rem r k < k.
Proof. intros R K. apply Z.rem_bound_pos; lia. Qed.

Lemma pool_entry_range (i : nat) (r : Z) :
  0 <= r -> 1 <= pool_entry i r <= 40.
Proof.
  intros R. unfold pool_entry.
  pose proof (rem_range R (k := 10) ltac:(lia)).
  pose proof (rem_range R (k := 20) ltac:(lia)).
  destruct (i <? 450)%nat; [rewrite Z.mod_small; lia|].
  destruct (i <? 475)%nat; rewrite Z.mod_small; lia.
Qed.

Lemma fill_pool_range (src : nat -> Z) (k : nat) :
  (forall i, 0 <= src i) -> (k < 500)%nat ->
  1 <= nth k (fill_pool src) 0 <= 40.
Proof.
  intros R Hk. unfold fill_pool.
  rewrite (nth_indep _ 0 (pool_entry 0 (src 0%nat)))
    by (rewrite length_map, length_seq; exact Hk).
  rewrite (map_nth (fun i => pool_entry i (src i))).
  apply pool_entry_range. apply R.
Qed.

Lemma draw_processes_spec (src : nat -> Z) (data : list Z) (N : Z) :
  forall (n next k : nat),
    (k < n)%nat ->
    nth_error (draw_processes src data N next n) k
    = Some (draw_process src data N (next + 4 * k)).
Proof.
  induction n as [|n IH]; intros next k Hk; [lia|].
  cbn [draw_processes]. destruct k as [|k].
  - cbn [nth_error]. rewrite Nat.mul_0_r, Nat.add_0_r. reflexivity.
  - cbn [nth_error]. rewrite IH by lia. do 2 f_equal. lia.
Qed.

Lemma draw_processes_length (src : nat -> Z) (data : list Z) (N : Z) :
  forall (n next : nat), length (draw_processes src data N next n) = n.
Proof.
  induction n as [|n IH]; intros next; [reflexivity|].
  cbn [draw_processes length]. rewrite IH. reflexivity.
Qed.

Lemma draw_process_range (src : nat -> Z) (N : nat) (next : nat) :
  (forall i, 0 <= src i) -> (0 < N)%nat -> Z.of_nat N * 3 <= INT_MAX ->
  let d := draw_process src (fill_pool src) (Z.of_nat N) next in
  1 <= w_cpu_burst_time d <= 40 /\
  0 <= w_io_burst_time d <= 19 /\
  0 <= w_arrival_time d < 3 * Z.of_nat N /\
  -20 <= w_priority d <= 20.
Proof.
  intros R Hp Hn. unfold draw_process.
  cbn [w_cpu_burst_time w_io_burst_time w_arrival_time w_priority].
  pose proof (rem_range (R next) (k := 500) ltac:(lia)) as H1.
  pose proof (rem_range (R (next + 1)%nat) (k := 20) ltac:(lia)) as H2.
  pose proof (rem_range (R (next + 2)%nat) (k := Z.of_nat N * 3)
                ltac:(lia)) as H3.
  pose proof (rem_range (R (next + 3)%nat) (k := 41) ltac:(lia)) as H4.
  unfold INT_MAX in Hn.
  assert (U : UINT_MOD = 2 ^ 32) by reflexivity.
  split; [apply fill_pool_range; [exact R|lia]|].
  rewrite !Z.mod_small by lia. lia.
Qed.

Lemma drawn_workload_facts (src : nat -> Z) (N : nat) :
  (forall i, 0 <= src i) ->
  Z.of_nat N * 3 <= INT_MAX ->
  exists w,
    draw_workload src N = Some w /\ length w = N /\
    (forall k, (k < N)%nat ->
       nth_error w k
       = Some (draw_process src (fill_pool src) (Z.of_nat N) (500 + 4 * k))) /\
    Forall (fun d =>
              1 <= w_cpu_burst_time d <= 40 /\
              0 <= w_io_burst_time d <= 19 /\
              0 <= w_arrival_time d < 3 * Z.of_nat N /\
              -20 <= w_priority d <= 20) w.
Proof.
  intros R Hn. unfold draw_workload.
  replace (INT_MAX <? Z.of_nat N * 3) with false
    by (symmetry; apply Z.ltb_ge; exact Hn).
  rewrite andb_false_r. eexists. split; [reflexivity|].
  split; [apply draw_processes_length|]. split.
  - intros k Hk. apply draw_processes_spec. exact Hk.
  - apply Forall_forall. intros d Hd.
    apply In_nth_error in Hd. destruct Hd as (k & Hk).
    assert (Lk : (k < N)%nat).
    { rewrite <- (draw_processes_length src (fill_pool src) (Z.of_nat N) N 500).
      apply nth_error_Some. congruence. }
    rewrite draw_processes_spec in Hk by exact Lk.
    assert (Ed : d = draw_process src (fill_pool src) (Z.of_nat N)
                       (500 + 4 * k)) by congruence.
    rewrite Ed. apply draw_process_range; [exact R|lia|exact Hn].
Qed.

(** X27.  The workload [Simulator_GenerateProcess] draws: for [rand()]
    values (never negative) and [N] with [N * 3] in the range of [int],
    exactly [N] processes are drawn, each with a CPU burst between 1 and
    40, an I/O burst between 0 and 19, an arrival time between 0 and
    [3 * N - 1] and a priority between -20 and 20; process [k] reads the
    four values of the stream from [500 + 4 * k] on. *)
Theorem drawn_workload_in_range (src : nat -> Z) (N : nat) :
  (forall i, 0 <= src i) ->
  Z.of_nat N * 3 <= INT_MAX ->
  exists w,
    draw_workload src N = Some w /\ length w = N /\
    (forall k, (k < N)%nat ->
       nth_error w k
       = Some (draw_process src (fill_pool src) (Z.of_nat N) (500 + 4 * k))) /\
    Forall (fun d =>
              1 <= w_cpu_burst_time d <= 40 /\
              0 <= w_io_burst_time d <= 19 /\
              0 <= w_arrival_time d < 3 * Z.of_nat N /\
              -20 <= w_priority d <= 20) w.
Proof. apply drawn_workload_facts. Qed.

Lemma drawn_workload_in_range_witness :
  exists w,
    draw_workload alternating_src 3 = Some w /\ length w = 3%nat /\
    (forall k, (k < 3)%nat ->
       nth_error w k
       = Some (draw_process alternating_src (fill_pool alternating_src)
                 (Z.of_nat 3) (500 + 4 * k))) /\
    Forall (fun d =>
              1 <= w_cpu_burst_time d <= 40 /\
              0 <= w_io_burst_time d <= 19 /\
              0 <= w_arrival_time d < 3 * Z.of_nat 3 /\
              -20 <= w_priority d <= 20) w.
Proof.
  apply (@drawn_workload_in_range alternating_src 3).
  - intros i. unfold alternating_src. lia.
  - vm_compute. discriminate.
Defined.

(** ** [main] *)

Lemma simulate_flag (m : Mem) (src : nat -> Z) (fl : Z)
  (w : list Workload_t) (fuel : nat) (s' : Simulator_t) :
  simulate m src fl w fuel = Some s' -> flag s' = fl.
Proof.
  intros Sm. destruct (simulate_run _ _ _ _ _ Sm) as (s0 & E & R).
  destruct (run_ticks _ _ _ _ R) as (n & sn & tqn & ret & tq' & _ & T & Tk & _).
  destruct (loaded_fields _ _ _ _ E) as (F0 & _).
  destruct (ticks_account _ _ _ _ T) as (Fn & _).
  apply tick_executes in Tk. destruct Tk as (se & [Q _] & X & _).
  rewrite (ex_flag X), (qt_flag Q). congruence.
Qed.

Lemma Simulator_Terminate_rows (ss : list Simulator_t) :
  Forall (fun s => valid_policy (flag s) = true) ss ->
  exists rows,
    Simulator_Terminate ss = Some rows /\
    Forall2 (fun s r =>
               r = Out_Row (flag s)
                     (ddiv (double_of_uint
                              ((elapsed_time s - idle_time s) mod UINT_MOD))
                           (double_of_uint (elapsed_time s)))
                     (avg_waiting_time s) (avg_turnaround_time s)
                     (max_waiting_time s)) ss rows.
Proof.
  induction ss as [|s ss IH]; intros F.
  - exists []. split; [reflexivity|constructor].
  - apply Forall_cons_iff in F. destruct F as [V F].
    destruct (IH F) as (rows & E & R).
    cbn [Simulator_Terminate]. unfold Simulator_Terminate_row.
    unfold valid_policy in V. rewrite V. cbn [bind]. rewrite E. cbn [bind].
    eexists. split; [reflexivity|]. constructor; [reflexivity|exact R].
Qed.

Lemma start_all_spec (m : Mem) (src : nat -> Z) (w : list Workload_t)
  (fuel : nat) :
  Z.of_nat (length w) < 2 ^ 30 ->
  Forall (fun d => 0 <= w_io_burst_time d < UINT_MOD) w ->
  Forall (fun d => 1 <= w_cpu_burst_time d < UINT_MOD) w ->
  forall (flags : list Z) (next : nat) (ss : list Simulator_t),
    start_all m src next w fuel flags = Some ss ->
    map flag ss = flags /\
    (flags <> [] -> w <> []) /\
    Forall (fun s =>
              finished (length w) s /\
              forall k d, nth_error w k = Some d ->
                cpu_blocks (Z.of_nat k + 1) (output s) = w_cpu_burst_time d)
           ss.
Proof.
  intros L F Fc. induction flags as [|fl flags IH]; intros next ss E.
  - injection E as <-. split; [reflexivity|]. split; [|constructor].
    intros H. contradiction.
  - cbn [start_all] in E.
    destruct (simulate m (shift_src src next) fl w fuel) as [s|] eqn:Sm;
      cbn [bind] in E; [|discriminate].
    destruct (start_all m src (next + rand_next s) w fuel flags) as [ss'|]
      eqn:Es; cbn [bind] in E; [|discriminate].
    injection E as <-. destruct (IH _ _ Es) as (Fl & _ & Fs).
    split; [cbn [map]; rewrite Fl, (simulate_flag _ _ _ _ _ Sm); reflexivity|].
    split.
    + intros _ ->. rewrite simulate_without_process in Sm. discriminate.
    + constructor; [|exact Fs]. split.
      * apply (simulate_finished _ _ _ _ L F Sm).
      * apply (simulate_cpu_blocks _ _ _ _ L F Fc Sm).
Qed.

(** X28.  When [main] returns, at least one process was asked for; each
    of the six policies, in the order FCFS, Non-Preemptive SJF,
    Preemptive SJF, Non-Preemptive Priority, Preemptive Priority, Round
    Robin, has run the same drawn workload to completion; in each of the
    six gantt charts every process has exactly its drawn CPU burst; and
    [Simulator_Terminate] prints one row per policy, in that order, with
    the report fields of its simulator. *)
Theorem main_runs_six_policies
  (m : Mem) (src : nat -> Z) (N fuel : nat)
  (ss : list Simulator_t) (rows : list Out_t) :
  (forall i, 0 <= src i) ->
  main m src N fuel = Some (ss, rows) ->
  (0 < N)%nat /\ map flag ss = policies /\
  (exists w,
     draw_workload src N = Some w /\ length w = N /\
     Forall (fun s =>
               finished N s /\
               forall k d, nth_error w k = Some d ->
                 cpu_blocks (Z.of_nat k + 1) (output s) = w_cpu_burst_time d)
            ss) /\
  Forall2 (fun s r =>
             r = Out_Row (flag s)
                   (ddiv (double_of_uint
                            ((elapsed_time s - idle_time s) mod UINT_MOD))
                         (double_of_uint (elapsed_time s)))
                   (avg_waiting_time s) (avg_turnaround_time s)
                   (max_waiting_time s)) ss rows.
Proof.
  intros R E. unfold main in E.
  destruct (draw_workload src N) as [w|] eqn:Ew; cbn [bind] in E;
    [|discriminate].
  destruct (start_all m src (500 + 4 * N) w fuel policies) as [ss'|] eqn:Es;
    cbn [bind] in E; [|discriminate].
  destruct (Simulator_Terminate ss') as [rows'|] eqn:Et; cbn [bind] in E;
    [|discriminate].
  injection E as <- <-.
  assert (Hn : Z.of_nat N * 3 <= INT_MAX).
  { unfold draw_workload in Ew.
    destruct (Z.ltb_spec INT_MAX (Z.of_nat N * 3)) as [H|H]; [|exact H].
    destruct (Nat.ltb_spec 0 N) as [P|P]; [discriminate|].
    unfold INT_MAX. lia. }
  destruct (drawn_workload_facts src N R Hn) as (w' & Ew' & Lw & _ & Fw).
  assert (w' = w) by congruence. subst w'.
  assert (L : Z.of_nat (length w) < 2 ^ 30).
  { rewrite Lw. unfold INT_MAX in Hn. lia. }
  assert (F : Forall (fun d => 0 <= w_io_burst_time d < UINT_MOD) w).
  { eapply Forall_impl; [|exact Fw]. intros d (_ & H & _).
    assert (U : UINT_MOD = 2 ^ 32) by reflexivity. lia. }
  assert (Fc : Forall (fun d => 1 <= w_cpu_burst_time d < UINT_MOD) w).
  { eapply Forall_impl; [|exact Fw]. intros d (H & _).
    assert (U : UINT_MOD = 2 ^ 32) by reflexivity. lia. }
  destruct (start_all_spec m src fuel L F Fc policies _ Es) as (Fl & Ne & Fs).
  split.
  { destruct N as [|N]; [|lia]. exfalso.
    apply Ne; [discriminate|]. apply length_zero_nil. exact Lw. }
  split; [exact Fl|]. split.
  { exists w. split; [reflexivity|]. split; [exact Lw|].
    rewrite Lw in Fs. exact Fs. }
  destruct (@Simulator_Terminate_rows ss') as (rows0 & Et0 & Rw).
  { apply Forall_forall. intros s Hs.
    assert (Hf : In (flag s) policies).
    { rewrite <- Fl. apply in_map. exact Hs. }
    unfold policies in Hf. simpl in Hf.
    destruct Hf as [<-|[<-|[<-|[<-|[<-|[<-|[]]]]]]]; reflexivity. }
  assert (rows0 = rows') by congruence. subst rows0. exact Rw.
Qed.

Lemma main_runs_six_policies_witness :
  exists ss rows,
    main blank_mem small_src 2 60 = Some (ss, rows) /\
    (0 < 2)%nat /\ map flag ss = policies /\
    (exists w,
       draw_workload small_src 2 = Some w /\ length w = 2%nat /\
       Forall (fun s =>
                 finished 2 s /\
                 forall k d, nth_error w k = Some d ->
                   cpu_blocks (Z.of_nat k + 1) (output s)
                   = w_cpu_burst_time d)
              ss) /\
    Forall2 (fun s r =>
               r = Out_Row (flag s)
                     (ddiv (double_of_uint
                              ((elapsed_time s - idle_time s) mod UINT_MOD))
                           (double_of_uint (elapsed_time s)))
                     (avg_waiting_time s) (avg_turnaround_time s)
                     (max_waiting_time s)) ss rows.
Proof.
  eexists. eexists. split; [vm_compute; reflexivity|].
  eapply (@main_runs_six_policies blank_mem small_src 2 60).
  - intros i. unfold small_src. lia.
  - vm_compute. reflexivity.
Defined.

(** ** Turnaround under the policies that do not preempt *)

Lemma NoDup_live_ready (fl : Z) (s : Simulator_t) :
  Inv fl s -> NoDup (ready_elements (ready_queue s)).
Proof.
  intros I. pose proof (inv_nodup I) as N. unfold live in N.
  apply NoDup_app_remove_l in N. apply NoDup_app_remove_r in N. exact N.
Qed.

Lemma in_system_live (s : Simulator_t) (p : ProcessPtr_t) :
  In p (live s) <->
  In p (elements (top (generated_processes s))) \/ in_system s p \/
  In p (elements (top (terminated_processes s))).
Proof.
  unfold live, in_system. rewrite !in_app_iff.
  destruct (cur_cpu_burst s) as [c|]; cbn [cur_elements In].
  - split.
    + intros [H|[H|[[H|[]]|[H|H]]]]; subst; auto 6.
    + intros [H|[[H|[H|H]]|H]]; auto 6.
      injection H as ->. auto 6.
  - split.
    + intros [H|[H|[[]|[H|H]]]]; auto 6.
    + intros [H|[[H|[H|H]]|H]]; auto 6. discriminate.
Qed.

(** A process is in one place only. *)
Lemma in_system_only (fl : Z) (s : Simulator_t) (p : ProcessPtr_t) :
  Inv fl s -> in_system s p ->
  ~ In p (elements (top (generated_processes s))) /\
  ~ In p (elements (top (terminated_processes s))) /\
  (In p (ready_elements (ready_queue s)) ->
   cur_cpu_burst s <> Some p /\ ~ In p (elements (top (waiting_queue s)))) /\
  (cur_cpu_burst s = Some p ->
   ~ In p (elements (top (waiting_queue s)))).
Proof.
  intros I H. pose proof (inv_nodup I) as Nd.
  rewrite (NoDup_count_occ Nat.eq_dec) in Nd. specialize (Nd p).
  unfold live in Nd. rewrite !count_occ_app in Nd.
  assert (C : forall l : list ProcessPtr_t,
            In p l -> (0 < @count_occ ProcessPtr_t Nat.eq_dec l p)%nat).
  { intros l Hl. apply (count_occ_In Nat.eq_dec). exact Hl. }
  assert (Cc : cur_cpu_burst s = Some p ->
               @count_occ ProcessPtr_t Nat.eq_dec
                 (cur_elements (cur_cpu_burst s)) p = 1%nat).
  { intros ->. cbn [cur_elements count_occ].
    destruct (Nat.eq_dec p p); [reflexivity|contradiction]. }
  unfold in_system in H.
  split; [|split; [|split]].
  - intros X. apply C in X.
    destruct H as [H|[H|H]]; [apply C in H|apply Cc in H|apply C in H]; lia.
  - intros X. apply C in X.
    destruct H as [H|[H|H]]; [apply C in H|apply Cc in H|apply C in H]; lia.
  - intros X. apply C in X. split.
    + intros Y. apply Cc in Y. lia.
    + intros Y. apply C in Y. lia.
  - intros X. apply Cc in X. intros Y. apply C in Y. lia.
Qed.

Lemma turnaround_age (p : Process_t) :
  turnaround_time (age p) = uincr (turnaround_time p).
Proof. reflexivity. Qed.

Lemma turnaround_io_step (p : Process_t) :
  turnaround_time (io_step p) = uincr (turnaround_time p).
Proof. reflexivity. Qed.

Lemma turnaround_burst (p : Process_t) :
  turnaround_time (burst p) = uincr (turnaround_time p).
Proof. reflexivity. Qed.

(** Admission, dispatch and aging: [s2] is the simulator when the ready
    processes are aged. *)
Lemma tick_before_io_aged (fl : Z) (N : nat) (s s3 : Simulator_t) :
  Inv2 fl N s -> tick_before_io fl s = Some s3 ->
  exists s2,
    Inv2 fl N s2 /\ mem s2 = mem s /\
    terminated_processes s2 = terminated_processes s /\
    s3 = set_mem s2 (mem s3) /\
    (forall p, In p (ready_elements (ready_queue s2)) ->
               mem s3 p = age (mem s2 p)) /\
    (forall p, ~ In p (ready_elements (ready_queue s2)) ->
               mem s3 p = mem s2 p).
Proof.
  intros I E. unfold tick_before_io in E.
  destruct (fifo_policy fl) eqn:Hf.
  - destruct (@load_ready_queue_spec2 fl N _ (ready_Queue_Enqueue_ok fl Hf)
                (ready_Queue_Enqueue_heap fl) s I) as (s1 & E1 & I1 & M1 & _).
    unfold Simulator_LoadReadyQueue in E. rewrite E1 in E. cbn [bind] in E.
    destruct (Simulator_LoadProcess_spec2 Hf I1) as (s2 & E2 & J2 & M2 & _).
    rewrite E2 in E. cbn [bind] in E.
    assert (T1 : terminated_processes s1 = terminated_processes s).
    { destruct (@Simulator_LoadReadyQueue_calm s s1 E1) as ([Q _] & _).
      apply (qt_terminated Q). }
    assert (T2 : terminated_processes s2 = terminated_processes s1).
    { destruct (Simulator_LoadProcess_calm _ E2) as ([Q _] & _).
      apply (qt_terminated Q). }
    exists s2. split; [exact J2|]. split; [congruence|].
    split; [congruence|].
    unfold ready_Queue_Waiting in E.
    pose proof (NoDup_live_ready (i2_inv J2)) as Nd.
    destruct (ready_queue s2) as [q|q]; [|discriminate].
    injection E as <-. split; [reflexivity|].
    cbn [ready_elements] in *. fields. unfold Simulator_Queue_Waiting.
    apply fold_age_spec. exact Nd.
  - destruct (@load_ready_queue_spec2 fl N _ (ready_Priority_Enqueue_ok fl Hf)
                (ready_Priority_Enqueue_heap fl) s I)
      as (s1 & E1 & I1 & M1 & _).
    unfold Simulator_LoadReadyQueue_Priority in E. rewrite E1 in E.
    cbn [bind] in E.
    destruct (Simulator_LoadProcess_Priority_spec2 Hf I1)
      as (s2 & E2 & J2 & M2 & _).
    rewrite E2 in E. cbn [bind] in E.
    assert (T1 : terminated_processes s1 = terminated_processes s).
    { destruct (@Simulator_LoadReadyQueue_Priority_calm s s1 E1)
        as ([Q _] & _).
      apply (qt_terminated Q). }
    assert (T2 : terminated_processes s2 = terminated_processes s1).
    { destruct (Simulator_LoadProcess_Priority_calm _ E2) as ([Q _] & _).
      apply (qt_terminated Q). }
    exists s2. split; [exact J2|]. split; [congruence|].
    split; [congruence|].
    unfold ready_Priority_Waiting in E.
    pose proof (NoDup_live_ready (i2_inv J2)) as Nd.
    destruct (ready_queue s2) as [q|q]; [discriminate|].
    injection E as <-. split; [reflexivity|].
    cbn [ready_elements] in *. fields.
    apply Simulator_Priority_Waiting_spec. exact Nd.
Qed.

Lemma Simulator_Process_IO_Queue_spec2 (fl : Z) (N : nat)
  (s4 s5 : Simulator_t) :
  fifo_policy fl = true -> Inv2 fl N s4 ->
  Simulator_Process_IO_Queue s4 = Some s5 ->
  Inv2 fl N s5 /\ calm s4 s5 /\ cur_cpu_burst s5 = cur_cpu_burst s4 /\
  mem s5 = mem s4.
Proof.
  intros Hf I4 E5.
  destruct (@process_io_interrupt_spec2 fl N _
              (ready_Queue_Enqueue_ok fl Hf)
              (ready_Queue_Enqueue_heap fl) ready_Queue_Enqueue_only
              s4 I4) as (x5 & X5 & I5 & _).
  unfold Simulator_Process_IO_Queue in E5.
  assert (x5 = s5) by congruence. subst x5.
  destruct (Simulator_Process_IO_Queue_calm _ E5) as (C5 & K5 & M5). auto.
Qed.

Lemma Simulator_Process_IO_Priority_spec2 (fl : Z) (N : nat)
  (s4 s5 : Simulator_t) :
  fifo_policy fl = false -> Inv2 fl N s4 ->
  Simulator_Process_IO_Priority s4 = Some s5 ->
  Inv2 fl N s5 /\ calm s4 s5 /\ cur_cpu_burst s5 = cur_cpu_burst s4 /\
  mem s5 = mem s4.
Proof.
  intros Hf I4 E5.
  destruct (@process_io_interrupt_spec2 fl N _
              (ready_Priority_Enqueue_ok fl Hf)
              (ready_Priority_Enqueue_heap fl) ready_Priority_Enqueue_only
              s4 I4) as (x5 & X5 & I5 & _).
  unfold Simulator_Process_IO_Priority in E5.
  assert (x5 = s5) by congruence. subst x5.
  destruct (Simulator_Process_IO_Priority_calm _ E5) as (C5 & K5 & M5). auto.
Qed.

(** Under a policy that does not preempt, Execute starts with the
    process on the CPU that was there when the ready processes were
    aged. *)
Lemma tick_after_io_nonpreemptive (fl : Z) (N : nat) (s4 s' : Simulator_t)
  (tq tq' ret : Z) :
  valid_policy fl = true -> preemptive_policy fl = false ->
  Inv2 fl N s4 ->
  tick_after_io fl s4 tq = Some (ret, s', tq') ->
  exists s5,
    Inv2 fl N s5 /\ calm s4 s5 /\ cur_cpu_burst s5 = cur_cpu_burst s4 /\
    mem s5 = mem s4 /\ executes s5 s' ret /\ charged s5 s' ret.
Proof.
  intros V P I4 E. unfold tick_after_io in E. rewrite V in E.
  cbn [negb] in E.
  destruct (valid_policy_cases fl V) as [-> | [-> | [-> | [-> | [-> | -> ]]]]];
    try discriminate P;
    cbv beta iota delta [Z.eqb Pos.eqb FCFS NON_PREEMPTIVE_SJF PREEMPTIVE_SJF
      NON_PREEMPTIVE_PRIORITY PREEMPTIVE_PRIORITY ROUND_ROBIN
      preemptive_policy orb] in E.
  - destruct (Simulator_Process_IO_Queue s4) as [s5|] eqn:E5; cbn [bind] in E;
      [|discriminate].
    destruct (Simulator_CPU_Burst s5) as [[r s6]|] eqn:E6; cbn [bind] in E;
      [|discriminate].
    injection E as <- <- <-.
    destruct (@Simulator_Process_IO_Queue_spec2 FCFS N s4 s5 eq_refl I4 E5)
      as (I5 & C5 & K5 & M5).
    exists s5. do 4 (split; [assumption|]). split.
    + apply Simulator_CPU_Burst_executes. exact E6.
    + apply Simulator_CPU_Burst_charged with FCFS; [apply I5|exact E6].
  - destruct (Simulator_Process_IO_Priority s4) as [s5|] eqn:E5;
      cbn [bind] in E; [|discriminate].
    destruct (Simulator_CPU_Burst s5) as [[r s6]|] eqn:E6; cbn [bind] in E;
      [|discriminate].
    injection E as <- <- <-.
    destruct (@Simulator_Process_IO_Priority_spec2 NON_PREEMPTIVE_SJF N s4 s5
                eq_refl I4 E5) as (I5 & C5 & K5 & M5).
    exists s5. do 4 (split; [assumption|]). split.
    + apply Simulator_CPU_Burst_executes. exact E6.
    + apply Simulator_CPU_Burst_charged with NON_PREEMPTIVE_SJF;
        [apply I5|exact E6].
  - destruct (Simulator_Process_IO_Priority s4) as [s5|] eqn:E5;
      cbn [bind] in E; [|discriminate].
    destruct (Simulator_CPU_Burst s5) as [[r s6]|] eqn:E6; cbn [bind] in E;
      [|discriminate].
    injection E as <- <- <-.
    destruct (@Simulator_Process_IO_Priority_spec2 NON_PREEMPTIVE_PRIORITY N
                s4 s5 eq_refl I4 E5) as (I5 & C5 & K5 & M5).
    exists s5. do 4 (split; [assumption|]). split.
    + apply Simulator_CPU_Burst_executes. exact E6.
    + apply Simulator_CPU_Burst_charged with NON_PREEMPTIVE_PRIORITY;
        [apply I5|exact E6].
  - destruct (Simulator_Process_IO_Queue s4) as [s5|] eqn:E5; cbn [bind] in E;
      [|discriminate].
    destruct (@Simulator_Process_IO_Queue_spec2 ROUND_ROBIN N s4 s5 eq_refl
                I4 E5) as (I5 & C5 & K5 & M5).
    exists s5. do 4 (split; [assumption|]). split.
    + apply (Simulator_CPU_Burst_RR_executes _ _ E).
    + apply Simulator_CPU_Burst_RR_charged with (1 := i2_inv I5) (2 := E).
Qed.

(** A tick of a policy that does not preempt: [s2] is the simulator when
    the ready processes are aged, [se] when Execute starts.  The
    processes in the system at [s2] get one tick of turnaround each, the
    one on the CPU loses one tick of CPU burst, and nothing else
    changes in these two fields. *)
Lemma tick_nonpreemptive (fl : Z) (N : nat) (s s' : Simulator_t)
  (tq tq' ret : Z) :
  valid_policy fl = true -> preemptive_policy fl = false ->
  Inv2 fl N s ->
  tick fl s tq = Some (ret, s', tq') ->
  exists s2 m3 se,
    tick_before_io fl s = Some (set_mem s2 m3) /\
    Inv2 fl N s2 /\ mem s2 = mem s /\
    terminated_processes s2 = terminated_processes s /\
    (forall p, in_system s2 p ->
       turnaround_time (mem s' p) = uincr (turnaround_time (mem s p))) /\
    (forall p, ~ in_system s2 p ->
       turnaround_time (mem s' p) = turnaround_time (mem s p)) /\
    (forall p, cur_cpu_burst s2 = Some p ->
       cpu_burst_time (mem s' p) = udecr (cpu_burst_time (mem s p))) /\
    (forall p, cur_cpu_burst s2 <> Some p ->
       cpu_burst_time (mem s' p) = cpu_burst_time (mem s p)) /\
    cur_cpu_burst se = cur_cpu_burst s2 /\ calm s se /\ executes se s' ret.
Proof.
  intros V P I E. unfold tick in E.
  destruct (tick_before_io fl s) as [s3|] eqn:E3; cbn [bind] in E;
    [|discriminate].
  destruct (tick_before_io_aged I E3) as (s2 & J2 & M2 & T2 & S3 & Ag & Na).
  destruct (tick_before_io_spec2 I) as (x3 & X3 & I3 & P3 & _).
  assert (x3 = s3) by congruence. subst x3.
  pose proof (waiting_Process_IO_spec2 I3 P3) as I4.
  destruct (@tick_after_io_nonpreemptive fl N (waiting_Process_IO s3) s'
              tq tq' ret V P I4 E) as (s5 & I5 & C5 & K5 & M5 & X & Ch).
  destruct (tick_before_io_calm _ _ E3) as (C3 & _).
  destruct (waiting_Process_IO_calm s3) as (C4 & K4).
  assert (Kc : cur_cpu_burst s5 = cur_cpu_burst s2).
  { rewrite K5, K4, S3. reflexivity. }
  assert (Wq : waiting_queue s3 = waiting_queue s2)
    by (rewrite S3; reflexivity).
  destruct (Simulator_Process_IO_spec (top (waiting_queue s2)) (mem s3)
              (NoDup_live_waiting (i2_inv J2))) as [Hi Ho].
  assert (M4 : mem s5 = Simulator_Process_IO (top (waiting_queue s2)) (mem s3)).
  { rewrite M5. unfold waiting_Process_IO. fields. rewrite Wq. reflexivity. }
  exists s2, (mem s3), s5.
  split; [rewrite <- S3; reflexivity|].
  split; [exact J2|]. split; [exact M2|]. split; [exact T2|].
  assert (R : forall p,
            mem s3 p =
            if in_dec Nat.eq_dec p (ready_elements (ready_queue s2))
            then age (mem s p) else mem s p).
  { intros p. rewrite <- M2. destruct (in_dec _ _ _); auto. }
  assert (W : forall p,
            mem s5 p =
            if in_dec Nat.eq_dec p (elements (top (waiting_queue s2)))
            then io_step (mem s3 p) else mem s3 p).
  { intros p. rewrite M4. destruct (in_dec _ _ _); auto. }
  assert (B : forall p,
            mem s' p =
            match cur_cpu_burst s2 with
            | Some c => if Nat.eq_dec p c then burst (mem s5 p) else mem s5 p
            | None => mem s5 p
            end).
  { intros p. unfold charged in Ch. rewrite Kc in Ch.
    destruct (cur_cpu_burst s2) as [c|].
    - destruct Ch as [-> _]. unfold burst_process, store.
      destruct (Nat.eq_dec p c) as [->|Ne].
      + rewrite Nat.eqb_refl. reflexivity.
      + destruct (Nat.eqb_spec p c); [contradiction|reflexivity].
    - destruct Ch as [-> _]. reflexivity. }
  split; [|split; [|split; [|split]]].
  - intros p H. pose proof (in_system_only (i2_inv J2) H) as (_ & _ & O3 & O4).
    rewrite B, !W, !R. unfold in_system in H.
    destruct (in_dec Nat.eq_dec p (ready_elements (ready_queue s2)));
      destruct (in_dec Nat.eq_dec p (elements (top (waiting_queue s2))));
      destruct (cur_cpu_burst s2) as [c|];
      try destruct (Nat.eq_dec p c) as [->|Ne];
      try reflexivity; exfalso; intuition congruence.
  - intros p H. rewrite B, !W, !R. unfold in_system in H.
    destruct (in_dec Nat.eq_dec p (ready_elements (ready_queue s2)));
      destruct (in_dec Nat.eq_dec p (elements (top (waiting_queue s2))));
      destruct (cur_cpu_burst s2) as [c|];
      try destruct (Nat.eq_dec p c) as [->|Ne];
      try reflexivity; exfalso; intuition congruence.
  - intros p H.
    assert (Hs : in_system s2 p) by (unfold in_system; auto).
    pose proof (in_system_only (i2_inv J2) Hs) as (_ & _ & O3 & O4).
    rewrite B, !W, !R, H.
    destruct (in_dec Nat.eq_dec p (ready_elements (ready_queue s2)));
      destruct (in_dec Nat.eq_dec p (elements (top (waiting_queue s2))));
      destruct (Nat.eq_dec p p) as [_|Ne];
      try reflexivity; exfalso; intuition congruence.
  - intros p H. rewrite B, !W, !R.
    destruct (in_dec Nat.eq_dec p (ready_elements (ready_queue s2)));
      destruct (in_dec Nat.eq_dec p (elements (top (waiting_queue s2))));
      destruct (cur_cpu_burst s2) as [c|];
      try destruct (Nat.eq_dec p c) as [->|Ne];
      try reflexivity; exfalso; intuition congruence.
  - split; [exact Kc|]. split; [|exact X].
    eapply calm_trans; [exact C3|]. eapply calm_trans; eauto.
Qed.

(** The job queue once the processes that arrive in this tick have been
    taken from it. *)
Lemma jobs_after_admission (fl : Z) (N : nat) (s s3 : Simulator_t) :
  Inv2 fl N s -> not_arrived N s -> 0 <= elapsed_time s ->
  tick_before_io fl s = Some s3 ->
  forall p, (p < N)%nat ->
    (In p (elements (top (generated_processes s3))) <->
     elapsed_time s + 1 <= arrival_time (mem s p)).
Proof.
  intros I A E0 E3 p Hp.
  destruct (tick_before_io_spec2 I) as (x3 & X3 & I3 & _ & _ & Inc & Stay & Root).
  assert (x3 = s3) by congruence. subst x3.
  destruct (tick_before_io_calm _ _ E3) as ([_ F] & _).
  assert (Ar : forall q, arrival_time (mem s3 q) = arrival_time (mem s q)).
  { intros q. apply (F q). }
  split.
  - intros Hj. destruct (root_of_in _ _ Hj) as (x & Rx & Ix).
    pose proof (Root x Rx) as Nx.
    pose proof (proj1 (A x (@in_jobs_lt fl N s x I (Inc x Ix))) (Inc x Ix)) as Lx.
    pose proof (@heap_root_lower_bound
                  (Simulator_ArrivalTime_Compare (mem s3))
                  (top (generated_processes s3)) x
                  (ArrivalTime_Compare_swo _) (i2_jobs_heap I3) Rx p Hj) as B.
    apply ArrivalTime_Compare_false in B. rewrite !Ar in B. lia.
  - intros Hl.
    destruct (in_dec Nat.eq_dec p (elements (top (generated_processes s))))
      as [Hi|Hi].
    + destruct (Stay p Hi) as [H|H]; [exact H|lia].
    + exfalso. apply Hi. apply A; [exact Hp|]. lia.
Qed.

Lemma finish_tick_other (i : Z) (o : Out_t) (out : list Out_t) :
  is_block_of i o = false -> finish_tick i (o :: out) = finish_tick i out.
Proof. intros H. cbn [finish_tick]. rewrite H. reflexivity. Qed.

Lemma finish_tick_here (i : Z) (out : list Out_t) :
  finish_tick i (Out_Gantt i :: out) = Z.of_nat (length (filter is_block out)).
Proof. cbn [finish_tick is_block_of]. rewrite Z.eqb_refl. reflexivity. Qed.

Lemma block_of_is_block (s : Simulator_t) : is_block (block_of s) = true.
Proof. unfold block_of. destruct (cur_cpu_burst s); reflexivity. Qed.

(** One tick of a policy that does not preempt, for the turnaround of
    each process: [block] is the block the tick prints. *)
Lemma tick_clocked (fl : Z) (N : nat) (cpu0 : ProcessPtr_t -> Z)
  (s s' : Simulator_t) (tq tq' ret : Z) :
  valid_policy fl = true -> preemptive_policy fl = false ->
  Inv2 fl N s -> accounted N cpu0 s ->
  (forall p, (p < N)%nat -> cpu0 p < UINT_MOD) ->
  not_arrived N s -> clocked N s ->
  (forall p, (p < N)%nat -> 0 <= arrival_time (mem s p)) ->
  0 <= elapsed_time s -> elapsed_time s + 1 < UINT_MOD ->
  tick fl s tq = Some (ret, s', tq') ->
  exists block,
    is_block block = true /\
    (ret = 0 -> output s' = block :: output s) /\
    (ret <> 0 ->
     exists t u a b, output s' = Out_Eval t u a b :: block :: output s) /\
    forall p, (p < N)%nat ->
      (cpu_burst_time (mem s' p) = 0 ->
       turnaround_time (mem s' p) =
       finish_tick (Z.of_nat p + 1) (block :: output s) + 1
       - arrival_time (mem s p)) /\
      (cpu_burst_time (mem s' p) <> 0 ->
       turnaround_time (mem s' p) =
       Z.max 0 (elapsed_time s + 1 - arrival_time (mem s p))).
Proof.
  intros V P I A B Na Ck Ar E0 E1 T.
  destruct (@tick_nonpreemptive fl N s s' tq tq' ret V P I T)
    as (s2 & m3 & se & E3 & J2 & M2 & T2 & Tin & Tout & Cc & Co & Kc & [Q F] & X).
  pose proof (@jobs_after_admission fl N s (set_mem s2 m3) I Na E0 E3) as Ja.
  change (generated_processes (set_mem s2 m3)) with (generated_processes s2)
    in Ja.
  exists (block_of se). split; [apply block_of_is_block|].
  split; [intros R; rewrite (ex_running X R), (qt_output Q); reflexivity|].
  split.
  { intros R. destruct (ex_ended X R) as (u & a & b & Ho).
    exists (uincr (elapsed_time se)), u, a, b.
    rewrite Ho, (qt_output Q). reflexivity. }
  assert (Up : forall x, 0 <= x -> x + 1 < UINT_MOD -> uincr x = x + 1).
  { intros x H0 H1. unfold uincr. apply Z.mod_small. lia. }
  intros p Hp.
  pose proof (Ar p Hp) as Ap.
  assert (D : cur_cpu_burst s2 = Some p \/ cur_cpu_burst s2 <> Some p).
  { destruct (cur_cpu_burst s2) as [c|]; [|right; discriminate].
    destruct (Nat.eq_dec c p) as [->|Ne]; [left; reflexivity|].
    right. congruence. }
  destruct D as [Hc|Hc].
  - (* the process on the CPU *)
    assert (Hs : in_system s2 p) by (unfold in_system; auto).
    destruct (in_system_only (i2_inv J2) Hs) as (Nj & Nt & _).
    rewrite T2 in Nt.
    assert (C1 : 1 <= cpu_burst_time (mem s p) < UINT_MOD).
    { pose proof (acc_left A Hp). pose proof (acc_sum A Hp).
      pose proof (cpu_blocks_nonneg (Z.of_nat p + 1) (output s)).
      pose proof (B p Hp). split; [|lia].
      destruct (Z.eq_dec (cpu_burst_time (mem s p)) 0) as [Z0|Z0]; [|lia].
      exfalso. apply Nt. apply (acc_zero A Hp Z0). }
    assert (Al : arrival_time (mem s p) <= elapsed_time s).
    { destruct (Z_le_gt_dec (elapsed_time s + 1) (arrival_time (mem s p)))
        as [H|H]; [|lia].
      exfalso. apply Nj. apply Ja; auto. }
    assert (Tt : turnaround_time (mem s' p)
                 = elapsed_time s + 1 - arrival_time (mem s p)).
    { rewrite (Tin p Hs), (ck_live Ck Hp Nt). rewrite Up; lia. }
    assert (Bl : block_of se = Out_Gantt (Z.of_nat p + 1)).
    { unfold block_of. rewrite Kc, Hc. destruct (F p) as (-> & _).
      rewrite (acc_pid A Hp). reflexivity. }
    split; intros _.
    + rewrite Tt, Bl, finish_tick_here, (ck_blocks Ck). reflexivity.
    + rewrite Tt. lia.
  - (* any other process *)
    rewrite (Co p Hc). split; intros Z0.
    + pose proof (acc_zero A Hp Z0) as Ht.
      assert (Ns : ~ in_system s2 p).
      { intros Hs. destruct (in_system_only (i2_inv J2) Hs) as (_ & Nt & _).
        rewrite T2 in Nt. contradiction. }
      rewrite (Tout p Ns), (ck_done Ck Hp Ht). rewrite finish_tick_other;
        [reflexivity|].
      unfold block_of. rewrite Kc.
      destruct (cur_cpu_burst s2) as [c|] eqn:Ec; [|reflexivity].
      cbn [is_block_of].
      assert (Lc : (c < N)%nat).
      { apply (@in_live_lt fl N s2 c J2). apply in_live_cur. exact Ec. }
      destruct (F c) as (-> & _). rewrite (acc_pid A Lc).
      apply Z.eqb_neq. intros H. apply Hc. f_equal. lia.
    + assert (Nt : ~ In p (elements (top (terminated_processes s)))).
      { intros Ht. apply Z0. apply (i2_done I). exact Ht. }
      destruct (Z_le_gt_dec (elapsed_time s + 1) (arrival_time (mem s p)))
        as [H|H].
      * assert (Ns : ~ in_system s2 p).
        { intros Hs. destruct (in_system_only (i2_inv J2) Hs) as (Nj & _).
          apply Nj. apply Ja; auto. }
        rewrite (Tout p Ns), (ck_live Ck Hp Nt). lia.
      * assert (Hs : in_system s2 p).
        { assert (Hl : In p (live s2)).
          { apply (Permutation_in p (Permutation_sym (i2_live J2))).
            apply in_seq. lia. }
          apply in_system_live in Hl. destruct Hl as [Hj|[Hs|Ht]].
          - apply Ja in Hj; [lia|exact Hp].
          - exact Hs.
          - rewrite T2 in Ht. contradiction. }
        rewrite (Tin p Hs), (ck_live Ck Hp Nt). rewrite Up; lia.
Qed.

Lemma ticks_clocked (fl : Z) (N : nat) (cpu0 : ProcessPtr_t -> Z) :
  valid_policy fl = true -> preemptive_policy fl = false ->
  (forall p, (p < N)%nat -> cpu0 p < UINT_MOD) ->
  forall (n : nat) (s s' : Simulator_t) (tq tq' : Z),
    Inv2 fl N s -> accounted N cpu0 s -> not_arrived N s -> clocked N s ->
    (forall p, (p < N)%nat -> 0 <= arrival_time (mem s p)) ->
    0 <= elapsed_time s -> elapsed_time s + Z.of_nat n < UINT_MOD ->
    ticks fl n s tq = Some (s', tq') ->
    Inv2 fl N s' /\ accounted N cpu0 s' /\ not_arrived N s' /\
    clocked N s' /\ elapsed_time s' = elapsed_time s + Z.of_nat n /\
    static_frame (mem s) (mem s').
Proof.
  intros V P B. induction n as [|n IH];
    intros s s' tq tq' I A Na Ck Ar E0 E1 E.
  - injection E as <- <-. do 4 (split; [assumption|]).
    split; [simpl; lia|apply static_frame_refl].
  - cbn [ticks] in E.
    destruct (tick fl s tq) as [[[ret s6] tq6]|] eqn:T; cbn [bind] in E;
      [|discriminate].
    destruct (Z.eqb_spec ret 0) as [R|R]; cbn [negb] in E; [|discriminate].
    subst ret.
    destruct (@tick_admission fl N s s6 tq tq6 V I Na E0) as (I6 & A6 & L6 & F6);
      [lia|exact T|].
    assert (T1 : ticks fl 1 s tq = Some (next_tick s6, tq6)).
    { cbn [ticks]. rewrite T. reflexivity. }
    destruct (@ticks_accounted fl N cpu0 V B 1 s (next_tick s6) tq tq6 I A T1)
      as (_ & Ac6).
    destruct (@tick_clocked fl N cpu0 s s6 tq tq6 0 V P I A B Na Ck Ar E0)
      as (block & Hb & Ho & _ & Ht); [lia|exact T|].
    specialize (Ho eq_refl).
    assert (Ar6 : forall p, arrival_time (mem (next_tick s6) p)
                            = arrival_time (mem s p)).
    { intros p. apply (F6 p). }
    assert (Ck6 : clocked N (next_tick s6)).
    { constructor.
      - rewrite L6. change (output (next_tick s6)) with (output s6).
        rewrite Ho. cbn [filter]. rewrite Hb. cbn [length].
        rewrite Nat2Z.inj_succ, (ck_blocks Ck). reflexivity.
      - intros p Hp Hi. rewrite Ar6.
        change (output (next_tick s6)) with (output s6). rewrite Ho.
        apply (Ht p Hp). apply (i2_done I6). exact Hi.
      - intros p Hp Hi. rewrite Ar6, L6. apply (Ht p Hp).
        intros Z0. apply Hi. apply (acc_zero Ac6 Hp). exact Z0. }
    destruct (IH (next_tick s6) s' tq6 tq' I6 Ac6 A6 Ck6)
      as (I' & A' & Na' & Ck' & L' & F'); auto.
    + intros p Hp. rewrite Ar6. apply Ar. exact Hp.
    + lia.
    + lia.
    + do 4 (split; [assumption|]). split; [lia|].
      eapply static_frame_trans; eauto.
Qed.

Lemma loaded_clocked (m : Mem) (src : nat -> Z) (fl : Z)
  (w : list Workload_t) (s0 : Simulator_t) :
  valid_policy fl = true ->
  Z.of_nat (length w) < 2 ^ 30 ->
  Forall (fun d => 0 <= w_io_burst_time d < UINT_MOD) w ->
  Forall (fun d => 0 <= w_arrival_time d) w ->
  loaded m src fl w = Some s0 ->
  clocked (length w) s0 /\
  forall p, (p < length w)%nat -> 0 <= arrival_time (mem s0 p).
Proof.
  intros V L F Fa E.
  destruct (@loaded_not_arrived m src fl w s0 V L F Fa E) as (I & A & E0 & Ar).
  destruct (loaded_fields _ _ _ _ E) as (_ & _ & _ & _ & _ & O0 & _ & _ & _ & T0).
  assert (Ap : forall p, (p < length w)%nat -> 0 <= arrival_time (mem s0 p)).
  { intros p Hp. destruct (nth_error w p) as [d|] eqn:Ed.
    - rewrite (Ar p d Ed). rewrite Forall_forall in Fa.
      apply Fa. apply (nth_error_In _ _ Ed).
    - apply nth_error_None in Ed. lia. }
  split; [|exact Ap]. constructor.
  - rewrite O0, E0. reflexivity.
  - intros p Hp Hi. rewrite T0 in Hi. destruct Hi.
  - intros p Hp _.
    destruct (@loaded_spec2 m src fl w V L F) as (s1 & E1 & _ & _ & _ & Mw).
    assert (s1 = s0) by congruence. subst s1.
    destruct (nth_error w p) as [d|] eqn:Ed.
    + pose proof (Ap p Hp) as H. rewrite (Mw p d Ed) in *.
      cbn [turnaround_time arrival_time] in *. rewrite E0. lia.
    + apply nth_error_None in Ed. lia.
Qed.

(** X29.  Turnaround under the four policies that do not preempt (FCFS,
    Non-Preemptive SJF, Non-Preemptive Priority, Round Robin): at the
    start of tick [n], a process that has not terminated has the
    [turnaround_time] of the ticks since its arrival ([n - arrival_time],
    0 before it arrives), and a terminated process that of the ticks from
    its arrival to the tick of its last block in the chart, both
    included. *)
Theorem turnaround_counts_ticks_since_arrival
  (m : Mem) (src : nat -> Z) (fl : Z) (w : list Workload_t)
  (n : nat) (s0 s : Simulator_t) (tq : Z) :
  valid_policy fl = true -> preemptive_policy fl = false ->
  Z.of_nat (length w) < 2 ^ 30 ->
  Forall (fun d => 0 <= w_io_burst_time d < UINT_MOD) w ->
  Forall (fun d => 1 <= w_cpu_burst_time d < UINT_MOD) w ->
  Forall (fun d => 0 <= w_arrival_time d) w ->
  Z.of_nat n < UINT_MOD ->
  loaded m src fl w = Some s0 ->
  ticks fl n s0 0 = Some (s, tq) ->
  forall k d, nth_error w k = Some d ->
    (In k (elements (top (terminated_processes s))) ->
     turnaround_time (mem s k) =
     finish_tick (Z.of_nat k + 1) (output s) + 1 - w_arrival_time d) /\
    (~ In k (elements (top (terminated_processes s))) ->
     turnaround_time (mem s k) = Z.max 0 (Z.of_nat n - w_arrival_time d)).
Proof.
  intros V P L F Fc Fa Hn E T k d Ed.
  destruct (@loaded_accounted m src fl w s0 V L F Fc E) as (I & A & B).
  destruct (@loaded_not_arrived m src fl w s0 V L F Fa E) as (_ & Na & E0 & Ar).
  destruct (@loaded_clocked m src fl w s0 V L F Fa E) as (Ck & Ap).
  destruct (@ticks_clocked fl (length w) (workload_cpu w) V P B n s0 s 0 tq
              I A Na Ck Ap) as (_ & _ & _ & Ck' & L' & F'); [lia|lia|exact T|].
  assert (Hk : (k < length w)%nat) by (apply nth_error_Some; congruence).
  assert (Ak : arrival_time (mem s k) = w_arrival_time d).
  { destruct (F' k) as (_ & -> & _). apply (Ar k d Ed). }
  split; intros H.
  - rewrite (ck_done Ck' Hk H), Ak. reflexivity.
  - rewrite (ck_live Ck' Hk H), Ak, L', E0. f_equal.
Qed.

Lemma turnaround_counts_ticks_since_arrival_witness :
  exists s0 s tq,
    loaded blank_mem alternating_src FCFS io_workload = Some s0 /\
    ticks FCFS 9 s0 0 = Some (s, tq) /\
    forall k d, nth_error io_workload k = Some d ->
      (In k (elements (top (terminated_processes s))) ->
       turnaround_time (mem s k) =
       finish_tick (Z.of_nat k + 1) (output s) + 1 - w_arrival_time d) /\
      (~ In k (elements (top (terminated_processes s))) ->
       turnaround_time (mem s k) = Z.max 0 (Z.of_nat 9 - w_arrival_time d)).
Proof.
  eexists. eexists. eexists.
  split; [vm_compute; reflexivity|]. split; [vm_compute; reflexivity|].
  eapply (@turnaround_counts_ticks_since_arrival blank_mem alternating_src
            FCFS io_workload 9).
  - reflexivity.
  - reflexivity.
  - vm_compute. reflexivity.
  - repeat constructor; vm_compute; congruence.
  - repeat constructor; vm_compute; congruence.
  - repeat constructor; vm_compute; congruence.
  - vm_compute. reflexivity.
  - vm_compute. reflexivity.
  - vm_compute. reflexivity.
Defined.

(** X30.  Turnaround in the report of the four policies that do not
    preempt: when the simulation has ended, the [turnaround_time] of
    every process is the number of ticks from its [arrival_time] to the
    tick of its last block in the gantt chart, both included. *)
Theorem final_turnaround_is_finish_minus_arrival
  (m : Mem) (src : nat -> Z) (fl : Z) (w : list Workload_t)
  (fuel : nat) (s' : Simulator_t) :
  preemptive_policy fl = false ->
  Z.of_nat (length w) < 2 ^ 30 ->
  Forall (fun d => 0 <= w_io_burst_time d < UINT_MOD) w ->
  Forall (fun d => 1 <= w_cpu_burst_time d < UINT_MOD) w ->
  Forall (fun d => 0 <= w_arrival_time d) w ->
  Z.of_nat fuel < UINT_MOD ->
  simulate m src fl w fuel = Some s' ->
  forall k d, nth_error w k = Some d ->
    turnaround_time (mem s' k) =
    finish_tick (Z.of_nat k + 1) (output s') + 1 - w_arrival_time d.
Proof.
  intros P L F Fc Fa Hf Sm k d Ed.
  assert (V : valid_policy fl = true).
  { destruct (valid_policy fl) eqn:V; [reflexivity|].
    unfold simulate in Sm. rewrite (Simulator_Init_valid m src fl V) in Sm.
    discriminate. }
  destruct (simulate_run _ _ _ _ _ Sm) as (s0 & E & R).
  destruct (run_ticks _ _ _ _ R) as (n & sn & tqn & ret & tq' & Ln & T & Tk & Hr).
  destruct (@loaded_accounted m src fl w s0 V L F Fc E) as (I & A & B).
  destruct (@loaded_not_arrived m src fl w s0 V L F Fa E) as (_ & Na & E0 & Ar).
  destruct (@loaded_clocked m src fl w s0 V L F Fa E) as (Ck & Ap).
  destruct (@ticks_clocked fl (length w) (workload_cpu w) V P B n s0 sn 0 tqn
              I A Na Ck Ap) as (In' & A' & Na' & Ck' & L' & F');
    [lia|lia|exact T|].
  assert (Ap' : forall p, (p < length w)%nat -> 0 <= arrival_time (mem sn p)).
  { intros p Hp. destruct (F' p) as (_ & -> & _). apply Ap. exact Hp. }
  destruct (@tick_clocked fl (length w) (workload_cpu w) sn s' tqn tq' ret
              V P In' A' B Na' Ck' Ap') as (block & Hb & _ & Ho & Ht);
    [lia|lia|exact Tk|].
  destruct (Ho Hr) as (t & u & a & b & ->).
  pose proof (tick_spec2 tqn V In') as S. rewrite Tk in S.
  destruct S as [_ S]. specialize (S Hr).
  assert (Hk : (k < length w)%nat) by (apply nth_error_Some; congruence).
  destruct (Ht k Hk) as [H0 _]. rewrite (H0 (fin_done S Hk)).
  rewrite (@finish_tick_other (Z.of_nat k + 1) (Out_Eval t u a b))
    by reflexivity.
  destruct (F' k) as (_ & -> & _). rewrite (Ar k d Ed). reflexivity.
Qed.

Lemma final_turnaround_is_finish_minus_arrival_witness :
  exists s',
    simulate blank_mem alternating_src ROUND_ROBIN io_workload 40 = Some s' /\
    forall k d, nth_error io_workload k = Some d ->
      turnaround_time (mem s' k) =
      finish_tick (Z.of_nat k + 1) (output s') + 1 - w_arrival_time d.
Proof.
  eexists. split; [vm_compute; reflexivity|].
  eapply (@final_turnaround_is_finish_minus_arrival blank_mem alternating_src
            ROUND_ROBIN io_workload 40).
  - reflexivity.
  - vm_compute. reflexivity.
  - repeat constructor; vm_compute; congruence.
  - repeat constructor; vm_compute; congruence.
  - repeat constructor; vm_compute; congruence.
  - vm_compute. reflexivity.
  - vm_compute. reflexivity.
Defined.

(** ** The quantum of Round Robin *)

(** X15.  Round Robin: at the start of every tick [time_quantum] is at
    least 0 and below [TIME_QUANTUM] (10), and it is 0 when no process
    holds the CPU.  When a process holds the CPU at the start of tick
    [n], [time_quantum] is the number of ticks for which it has held the
    CPU without a break: the CPU was free at the start of tick
    [n - time_quantum], and the process has held it at the start of
    every tick since, the quantum growing by 1 each time.  And when
    [time_quantum] is [TIME_QUANTUM - 1], the tick takes the process off
    the CPU: after it the CPU is free and the process is in the ready
    queue, in the waiting queue or in the terminated queue, or, when
    the tick ends the simulation, has no CPU work left.  So no process
    is charged more than 10 ticks in a row without passing through the
    ready queue, the waiting queue or termination. *)
Theorem round_robin_quantum_bounded
  (m : Mem) (src : nat -> Z) (w : list Workload_t)
  (n : nat) (s0 s : Simulator_t) (tq : Z) :
  Z.of_nat (length w) < 2 ^ 30 ->
  Forall (fun d => 0 <= w_io_burst_time d < UINT_MOD) w ->
  loaded m src ROUND_ROBIN w = Some s0 ->
  ticks ROUND_ROBIN n s0 0 = Some (s, tq) ->
  0 <= tq < TIME_QUANTUM /\
  (cur_cpu_burst s = None -> tq = 0) /\
  (forall c, cur_cpu_burst s = Some c ->
     1 <= tq /\ (Z.to_nat tq <= n)%nat /\
     (exists s1,
        ticks ROUND_ROBIN (n - Z.to_nat tq) s0 0 = Some (s1, 0) /\
        cur_cpu_burst s1 = None) /\
     (forall j, (n - Z.to_nat tq < j <= n)%nat ->
        exists sj,
          ticks ROUND_ROBIN j s0 0 = Some (sj, tq - Z.of_nat (n - j)) /\
          cur_cpu_burst sj = Some c)) /\
  (forall ret s' tq',
     tick ROUND_ROBIN s tq = Some (ret, s', tq') ->
     tq = TIME_QUANTUM - 1 ->
     cur_cpu_burst s' = None /\
     forall c, cur_cpu_burst s = Some c ->
       (ret = 0 ->
        In c (ready_elements (ready_queue s')) \/
        In c (elements (top (waiting_queue s'))) \/
        In c (elements (top (terminated_processes s')))) /\
       (ret <> 0 -> cpu_burst_time (mem s' c) = 0)).
Proof.
  intros Lw Fw L T. destruct (loaded_fields _ _ _ _ L) as (_ & _ & C0 & _).
  destruct (@ticks_round_robin_held s0 C0 n s tq T) as (B & Z0 & Hd).
  split; [exact B|]. split; [exact Z0|]. split; [exact Hd|].
  intros ret s' tq' Tk Eq.
  assert (Ec : cur_cpu_burst s' = None).
  { destruct (cur_cpu_burst s') as [c'|] eqn:Ec; [|reflexivity].
    destruct (tick_round_robin_quantum _ _ Tk Ec) as [Eq' _].
    destruct (tick_executes _ _ _ Tk) as (se & _ & _ & _ & Q).
    destruct (Q eq_refl B Z0) as [B1 _].
    unfold TIME_QUANTUM in *. lia. }
  split; [exact Ec|]. intros c Hc.
  destruct (@loaded_spec2 m src ROUND_ROBIN w eq_refl Lw Fw)
    as (s1 & E1 & I0 & _).
  assert (s1 = s0) by congruence. subst s1.
  pose proof (@ticks_inv2 ROUND_ROBIN (length w) eq_refl n s0 s 0 tq I0 T)
    as I.
  assert (Hl : In c (seq 0 (length w))).
  { apply (Permutation_in _ (i2_live I)). apply in_system_live.
    right. left. unfold in_system. auto. }
  pose proof (@tick_spec2 ROUND_ROBIN (length w) s tq eq_refl I) as S.
  rewrite Tk in S. destruct S as [S0 S1]. split.
  - intros R0. destruct (S0 R0) as (I' & Inc & _).
    apply (Permutation_in _ (Permutation_sym (i2_live I'))) in Hl.
    apply in_system_live in Hl. destruct Hl as [Hj|[Hs|Ht]].
    + exfalso.
      destruct (cur_not_elsewhere (i2_inv I) Hc) as (Nj & _).
      apply Nj. apply Inc. exact Hj.
    + unfold in_system in Hs. fields. rewrite Ec in Hs.
      destruct Hs as [H|[H|H]]; [auto|discriminate|auto].
    + right. right. exact Ht.
  - intros R1. apply (fin_done (S1 R1)). apply in_seq in Hl. lia.
Qed.

Lemma round_robin_quantum_bounded_witness :
  exists s0 s tq,
    loaded blank_mem zero_src ROUND_ROBIN [mkWorkload 25 0 0 0] = Some s0 /\
    ticks ROUND_ROBIN 9 s0 0 = Some (s, tq) /\
    0 <= tq < TIME_QUANTUM /\
    (cur_cpu_burst s = None -> tq = 0) /\
    (forall c, cur_cpu_burst s = Some c ->
       1 <= tq /\ (Z.to_nat tq <= 9)%nat /\
       (exists s1,
          ticks ROUND_ROBIN (9 - Z.to_nat tq) s0 0 = Some (s1, 0) /\
          cur_cpu_burst s1 = None) /\
       (forall j, (9 - Z.to_nat tq < j <= 9)%nat ->
          exists sj,
            ticks ROUND_ROBIN j s0 0 = Some (sj, tq - Z.of_nat (9 - j)) /\
            cur_cpu_burst sj = Some c)) /\
    (forall ret s' tq',
       tick ROUND_ROBIN s tq = Some (ret, s', tq') ->
       tq = TIME_QUANTUM - 1 ->
       cur_cpu_burst s' = None /\
       forall c, cur_cpu_burst s = Some c ->
         (ret = 0 ->
          In c (ready_elements (ready_queue s')) \/
          In c (elements (top (waiting_queue s'))) \/
          In c (elements (top (terminated_processes s')))) /\
         (ret <> 0 -> cpu_burst_time (mem s' c) = 0)).
Proof.
  eexists. eexists. eexists.
  split; [vm_compute; reflexivity|]. split; [vm_compute; reflexivity|].
  eapply (@round_robin_quantum_bounded blank_mem zero_src
            [mkWorkload 25 0 0 0] 9).
  - vm_compute. reflexivity.
  - repeat constructor; vm_compute; congruence.
  - vm_compute. reflexivity.
  - vm_compute. reflexivity.
Defined.
